(* ===== verification/_CoqProject ===== *)
-Q . S2P
Prelude.v
Memory.v
Machine.v
PageSource.v
FrameAlloc.v
Heap.v
Demo.v
HeapSpec.v
HeapClients.v
Bitfield.v
Layout.v
PageWalk.v
Paging.v
PagingSpec.v
AddressSpace.v
PagingWitness.v
MapRequests.v
KernelSpace.v
CString.v
Scheduler.v
SchedulerSpec.v
RoundRobin.v
SchedWitness.v
Spawn.v
SpawnWitness.v
Ramdisk.v
RamdiskWitness.v
Console.v
Acpi.v
Apic.v
Devices.v
Interrupts.v
Stubs.v
InterruptSpec.v
Handlers.v
Service.v
Turns.v
Tasks.v
Pcie.v
Gdt.v
Spinlock.v
Boot.v
Structs.v
BootSpec.v
Requests.v
ElfSpec.v
Program.v
BootRun.v
ProgramRun.v
BootWitness.v
ProgramWitness.v
Idle.v
FirstTask.v
