(* ===== verification/Prelude.v ===== *)
(** * The System/14 kernel

    A model of the System/14 kernel (C and some assembly under src/src/) and the
    theorems that make its parts correct.  System/14 is a small x86-64 kernel that
    the Limine boot loader starts at [_kmain].

    ** How the model is built

    Machine integers are integers in [Z], wrapped where the C type wraps (Prelude).
    Memory is a map from addresses to bytes (Memory): structures, lists, page
    tables, the descriptor tables and the heap live in it at the addresses and
    offsets the code uses, so aliasing and overlap are in the model.  A routine is
    an action of the monad [M] over the record [machine] (Machine): memory, CR3, the
    interrupt flag, the globals of each unit, and a trace of everything the outside
    sees - port and device accesses, loads of CR3 and of descriptor tables, printed
    lines.  An action ends with [Ok], [Halt] (panic, or waiting for an interrupt),
    [Fault] (an access through a pointer into page 0) or [NoFuel].  Devices are
    functions of the trace: what a port or a register answers may depend on
    everything that was done before.  The addresses the linker chooses are classes
    ([Statics], [IdtStatics], [GdtStatics], [BootStatics]) whose laws ([StaticsOk],
    ...) say that the objects do not overlap.

    A loop that the code bounds by a number is a structural recursion on it.  A
    search through a list, or a loop on memory, takes fuel; the theorems say how
    much is enough - the length of the list, the number of pages, the length of the
    string - and that the routine then finishes, or that no fuel is enough.
    Constant fuels are the bounds of the data: 65537 rounds for the 16-bit number of
    program headers, [poll] rounds for the serial line.

    ** The parts

    - Prelude, Memory, Machine: integers, memory, the monad, total correctness
      ([wp]), and util/memutil.c, util/ioports.h, system/panic.c, system/error.c.
    - PageSource is the interface of the physical page allocator: a class of laws
      over the pool of free pages.  FrameAlloc (mm/allocator/allocator.c) implements
      it; Heap, Paging and the scheduler are proved against it.
    - Heap, HeapSpec, HeapClients (mm/heapalloc/heap.c): the free list in memory, the
      contract of malloc, calloc, aligned_alloc and free, and histories of clients.
      Demo has the concrete machine of the examples.
    - Bitfield, PageWalk, Paging, PagingSpec, AddressSpace (mm/paging/paging.c):
      page-table entries as bit-fields, the hardware's walk, MapMemory and the
      address spaces; PagingWitness has instances.  MapRequests and KernelSpace: the
      kernel's own space (CreateDefaultMappings, InitializePaging) as a list of
      mapping requests, what they translate and how many tables they need.
    - CString (util/string.c) and Console (util/print.c, util/serial.c).
    - Scheduler, SchedulerSpec, RoundRobin (multitasking/scheduler.c): the process
      list in memory, the abstract scheduler [tick], the refinement and its
      consequences; Spawn (IntAddTask, and mm/vmm/vmm.c); Tasks, a new task's way to
      its first instruction; SchedWitness and SpawnWitness have instances.  Spinlock (multitasking/spinlock.c): the routines
      and their interleavings as a step relation.
    - Ramdisk, RamdiskWitness (ramdisk/tar.c): the archive and the file list.
    - Acpi, Apic, Devices (drivers/acpi, drivers/apic, drivers/rtc, drivers/pit.c,
      drivers/keyboard.c, system/cpuid.c) and Pcie (drivers/pci/pcie.c).
    - Gdt (gdt/gdt.c, gdt/loadgdt.asm); Interrupts (interrupts/idt.c,
      interrupts/interrupt.asm, syscall/syscall.c) with Stubs, the assembly stubs on
      the processor's registers, InterruptSpec, how the table is set up, Handlers, the
      timer and keyboard interrupts at work, Service, any sequence of timer interrupts,
      keyboard interrupts and system calls, and Turns, what the running processes see
      of such a sequence.
    - Boot, BootSpec, ElfSpec (bootstrap/bootloader.c, bootstrap/kmain.c, elf/elf.h);
      Program: the RAM disk on the empty heap, and the first program read from it;
      BootRun and ProgramRun put the parts together into the whole run of [_kmain],
      without and with a RAM disk; Idle lets interrupts arrive after it and
      FirstTask adds a task to it; BootWitness and ProgramWitness boot a concrete
      machine.
    - Layout is the System V ABI's layout of C structures, Structs the declarations of
      the kernel's structures in it, Requests those of the boot requests
      (limine.h, bootstrap/bootloader.c).

    ** How they interact

    The heap and the page tables take pages from the frame allocator; spawning a
    task takes a frame from the heap and an address space from the page tables; the
    RAM disk keeps its nodes on the heap.  The timer interrupt ([TimerStub]) enters
    the scheduler, acknowledges at the local APIC that [InitializeAPIC] found in the
    table that [InitializeACPI] found, and loads the page tables of the process the
    scheduler chose.  [_kmain] runs the parts in order and loads the first program
    with the RAM disk, the heap and the ELF walk.

    ** What the theorems show

    - Allocation: pages and heap blocks are handed out once; each is the first that
      fits; freeing restores them; what clients write never reaches the bookkeeping.
    - Address spaces: after MapMemory, CreateProcessPML4 and InitializePaging the
      hardware's walk gives the translations asked for, and the others are as they
      were.
    - Scheduling: the list in memory follows [tick], every process runs in turn and
      resumes with its registers; exits and exceptions remove it; the interrupt
      table leads each vector to its handler and the clock to the scheduler.
    - Devices: the redirection entries, clock registers, descriptor bytes and
      configuration space are read back the way the hardware reads them.
    - Text: conversions and printing produce the notation they promise; keyboard
      interrupts print the text that was typed.
    - Service: however timer, keyboard and system-call interrupts are interleaved,
      each is acknowledged once, does its own work and no other, and returns to the
      processor the scheduler says; processes take turns of ten clock interrupts, and
      one that lost the processor resumes where it was interrupted; a task that was
      added starts at its entry point in the address space built for it; the booted
      kernel serves any sequence of interrupts and returns to what they interrupted.
    - Errors: which inputs panic, which dereference the null pointer, and which
      never finish.
    - Boot: on a machine that answers the boot requests and has a frame buffer, a
      well-formed MADT and enough memory, [_kmain] runs every part to its end and
      leaves the state the parts promise; with an archive that holds the executable
      "a.out" it also copies the file into fresh frames and allocates its segment.
    - Types: the offsets, sizes and bit positions of the model are those the
      declarations get, and a store through one member leaves the others alone.

    ** What is not modelled

    Instruction fetch.  The stubs of the clock and of the system call are modelled on
    the processor's registers, from the frame the processor pushes to the one [IRETQ]
    pops; the C functions they call keep the registers the System V calling convention
    makes them keep and leave anything in the nine others ([scratch]), so a register
    that [LoadKernelPML4] changes before the stub saves it is lost.  The handlers that
    the compiler generates as interrupt functions (the keyboard and the exceptions)
    save and restore every register themselves; their frames are not modelled, nor are
    the stack frames of C functions.
    The terminal library flanterm (not in the repository) is a parameter.  Calls of
    [printf] outside Console are logged with format and arguments instead of being
    run character by character; a pointer argument of [%s] is followed only where it
    can be null (Pcie).  Memory is flat: a change of CR3 does not change what
    addresses mean, so the model describes code running in the part of the address
    space that all page tables share; the page walk is a separate function.  The
    memory map of the boot loader is read once into a list.  Caches, the TLB and
    several processors (but for the spinlock) are outside, and so is an interrupt that
    arrives while another one is served.  The theorem on the run of [_kmain] with a
    RAM disk is for an executable with one loadable segment whose sizes the heap serves
    from fresh pages; what malloc does with other sizes is in HeapSpec, and what the
    ELF walk does with other headers in ElfSpec.  The theorems on the run of [_kmain] and on InitializePaging are for an
    allocator whose region holds no RAM of the memory map between 2 MiB and 1 GiB
    ([bo_scribbled]); with such memory the mappings of CreateDefaultMappings write
    through 2 MiB pages into it (the Makefile's machine of 500 MB is one).  Of
    limine.h only what the kernel uses is declared. *)
From stdpp Require Export base numbers list gmap strings.
From Stdlib Require Export ZArith Lia.
#[global] Open Scope Z_scope.

(** ** Machine integers

    C's unsigned types are integers in [Z] reduced by the wrap-around of the
    type; signed [char] and [int] are their two's complement readings. *)

Definition u8 (x : Z) : Z := x mod 2 ^ 8.
Definition u16 (x : Z) : Z := x mod 2 ^ 16.
Definition u32 (x : Z) : Z := x mod 2 ^ 32.
Definition u64 (x : Z) : Z := x mod 2 ^ 64.
Definition s8 (x : Z) : Z := (x + 2 ^ 7) mod 2 ^ 8 - 2 ^ 7.
Definition s32 (x : Z) : Z := (x + 2 ^ 31) mod 2 ^ 32 - 2 ^ 31.

(** [PAGE] is the literal 0x1000 of allocator.c and heap.c (4096). *)
Notation PAGE := 4096 (only parsing).

(** The macros of util/memutil.h, at type [uint64_t]. *)
Definition ALIGN_UP (value boundary : Z) : Z :=
  u64 (u64 (value + (boundary - 1)) / boundary * boundary).
Definition ALIGN_DOWN (value boundary : Z) : Z :=
  Z.land value (Z.lnot (boundary - 1)).

(** ** Automation *)

Ltac Zify.zify_post_hook ::= Z.div_mod_to_equations.

(** [word] closes linear goals about wrapped integers. *)
Ltac word :=
  unfold ALIGN_UP, u8, u16, u32, u64, s8, s32 in *;
  change (2 ^ 7) with 128 in *; change (2 ^ 8) with 256 in *;
  change (2 ^ 16) with 65536 in *; change (2 ^ 31) with 2147483648 in *;
  change (2 ^ 32) with 4294967296 in *;
  change (2 ^ 64) with 18446744073709551616 in *; lia.

(** Case analysis on the integer tests of the code. *)
Ltac case_Z :=
  match goal with
  | |- context [?a <? ?b] => destruct (Z.ltb_spec a b)
  | |- context [?a <=? ?b] => destruct (Z.leb_spec a b)
  | |- context [?a =? ?b] => destruct (Z.eqb_spec a b)
  end.

Create HintDb word.

Lemma u8_small x : 0 <= x < 256 -> u8 x = x.
Proof. word. Qed.
Lemma u16_small x : 0 <= x < 65536 -> u16 x = x.
Proof. word. Qed.
Lemma u32_small x : 0 <= x < 4294967296 -> u32 x = x.
Proof. word. Qed.
Lemma u64_small x : 0 <= x < 18446744073709551616 -> u64 x = x.
Proof. word. Qed.
Lemma s32_small x : -2147483648 <= x < 2147483648 -> s32 x = x.
Proof. word. Qed.
Lemma s8_small x : -128 <= x < 128 -> s8 x = x.
Proof. word. Qed.

Lemma u8_range x : 0 <= u8 x < 256.
Proof. word. Qed.
Lemma u32_range x : 0 <= u32 x < 4294967296.
Proof. word. Qed.
Lemma u64_range x : 0 <= u64 x < 18446744073709551616.
Proof. word. Qed.
Lemma u8_idem x : u8 (u8 x) = u8 x.
Proof. word. Qed.
Lemma u64_idem x : u64 (u64 x) = u64 x.
Proof. word. Qed.

#[export] Hint Resolve u8_range u32_range u64_range : word.
#[export] Hint Rewrite u8_idem u64_idem : word.

(** [ALIGN_UP] on values that do not wrap. *)
Section AlignUp.
Context (v b : Z) (Hb : 0 < b) (Hv : 0 <= v) (Hnw : v + b <= 2 ^ 64).

Lemma ALIGN_UP_eq : ALIGN_UP v b = (v + b - 1) / b * b.
Proof using Hb Hv Hnw.
  unfold ALIGN_UP. change (2 ^ 64) with 18446744073709551616 in *.
  rewrite (u64_small (v + (b - 1))) by lia.
  replace (v + (b - 1)) with (v + b - 1) by lia.
  apply u64_small. pose proof (Z.mul_div_le (v + b - 1) b Hb).
  assert (0 <= (v + b - 1) / b) by (apply Z.div_pos; lia). nia.
Qed.

Lemma ALIGN_UP_bounds : v <= ALIGN_UP v b < v + b.
Proof using Hb Hv Hnw.
  rewrite ALIGN_UP_eq. pose proof (Z.mul_div_le (v + b - 1) b Hb).
  pose proof (Z.mul_succ_div_gt (v + b - 1) b Hb). nia.
Qed.

Lemma ALIGN_UP_aligned : ALIGN_UP v b mod b = 0.
Proof using Hb Hv Hnw. rewrite ALIGN_UP_eq. apply Z.mod_mul. lia. Qed.

(** The result is the least multiple of the boundary above the value. *)
Lemma ALIGN_UP_least k : v <= k * b -> ALIGN_UP v b <= k * b.
Proof using Hb Hv Hnw.
  intros Hk. rewrite ALIGN_UP_eq.
  assert ((v + b - 1) / b <= k); [|nia].
  apply Z.lt_succ_r, Z.div_lt_upper_bound; lia.
Qed.
End AlignUp.

(** ** Bits *)

Lemma land_ones_mod x n : 0 <= n -> Z.land x (2 ^ n - 1) = x mod 2 ^ n.
Proof. intros. rewrite <- Z.land_ones by done. f_equal. rewrite Z.ones_equiv. lia. Qed.

(** Disjoint bits add up. *)
Lemma lor_add x y n : 0 <= n -> 0 <= y < 2 ^ n -> Z.lor (Z.shiftl x n) y = 2 ^ n * x + y.
Proof.
  intros Hn Hy. assert (Hd : Z.land (Z.shiftl x n) y = 0).
  { apply Z.bits_inj'. intros i Hi. rewrite Z.land_spec, Z.shiftl_spec, Z.bits_0 by done.
    destruct (Z.ltb_spec i n) as [Hl|Hl]; [by rewrite (Z.testbit_neg_r x) by lia|].
    rewrite <- (Z.mod_small y (2 ^ n)) by done. rewrite Z.mod_pow2_bits_high by lia. apply andb_false_r. }
  rewrite <- Z.lxor_lor, <- Z.add_nocarry_lxor, Z.shiftl_mul_pow2 by done. lia.
Qed.

(** ** Intervals of addresses *)

(** [within a b n]: the address [a] lies in the [n] bytes from [b] on. *)
Definition within (a b n : Z) : Prop := b <= a < b + n.

#[export] Instance within_dec a b n : Decision (within a b n).
Proof. unfold within. apply _. Defined.

(** The two blocks of memory share no byte. *)
Definition apart (a n b k : Z) : Prop := a + n <= b \/ b + k <= a.

(** ** Lists *)

Lemma filter_all {A} (P : A -> Prop) `{forall x, Decision (P x)} (l : list A) :
  (forall x, x ∈ l -> P x) -> filter P l = l.
Proof.
  induction l as [|x l IH]; intros Hl; [done|].
  rewrite filter_cons_True by (apply Hl; left). f_equal. apply IH.
  intros y Hy. apply Hl. by right.
Qed.
