(* ===== verification/Memory.v ===== *)
(** Byte-addressed memory and little-endian accesses.

    The kernel runs with physical memory identity mapped, so one map from
    addresses to bytes is the memory every component shares.  Cells absent from
    the map read as 0 and a read keeps the low eight bits of a cell, so every
    [gmap Z Z] is a memory and the contents of the whole machine can be given
    by one; two maps with the same reads are the same memory ([mem_eqv]). *)
From S2P Require Import Prelude.

(** ** Reads and writes *)

Definition rd (m : gmap Z Z) (a : Z) : Z := u8 (default 0 (m !! a)).
Definition wr (m : gmap Z Z) (a v : Z) : gmap Z Z := <[a := u8 v]> m.

(** [n]-byte little-endian load and store. *)
Fixpoint ld (m : gmap Z Z) (n : nat) (a : Z) : Z :=
  match n with
  | O => 0
  | S n => rd m a + 256 * ld m n (a + 1)
  end.

Fixpoint st (m : gmap Z Z) (n : nat) (a v : Z) : gmap Z Z :=
  match n with
  | O => m
  | S n => st (wr m a v) n (a + 1) (v / 256)
  end.

Notation ld8 m := (ld m 1) (only parsing).
Notation ld16 m := (ld m 2).
Notation ld32 m := (ld m 4).
Notation ld64 m := (ld m 8).

(** ** Extensional equality of memories *)

Definition mem_eqv (m m' : gmap Z Z) : Prop := forall a, rd m a = rd m' a.

(** [same_on P m m']: the memories agree on the addresses of [P]. *)
Definition same_on (P : Z -> Prop) (m m' : gmap Z Z) : Prop :=
  forall a, P a -> rd m' a = rd m a.

#[export] Instance mem_eqv_equivalence : Equivalence mem_eqv.
Proof.
  split.
  - intros m a. done.
  - intros m m' H a. by rewrite H.
  - intros m1 m2 m3 H H' a. by rewrite H.
Qed.

#[export] Instance same_on_refl P : Reflexive (same_on P).
Proof. intros m a _. done. Qed.

#[export] Instance same_on_trans P : Transitive (same_on P).
Proof. intros m1 m2 m3 H H' a Ha. by rewrite (H' a Ha), (H a Ha). Qed.

Lemma same_on_weaken (P Q : Z -> Prop) m m' :
  same_on P m m' -> (forall a, Q a -> P a) -> same_on Q m m'.
Proof. intros H HQ a Ha. apply H, HQ, Ha. Qed.

Lemma mem_eqv_same_on m m' : mem_eqv m m' <-> same_on (fun _ => True) m m'.
Proof. split; [intros H a _; by rewrite H | intros H a; by rewrite H]. Qed.

(** ** Bytes *)

Lemma rd_range m a : 0 <= rd m a < 256.
Proof. apply u8_range. Qed.

Lemma rd_wr m a b v : rd (wr m a v) b = if decide (a = b) then u8 v else rd m b.
Proof.
  unfold rd, wr. case_decide; subst.
  - rewrite lookup_insert_eq. apply u8_idem.
  - by rewrite lookup_insert_ne.
Qed.

Lemma rd_wr_eq m a v : rd (wr m a v) a = u8 v.
Proof. rewrite rd_wr. by case_decide. Qed.

Lemma rd_wr_ne m a b v : a <> b -> rd (wr m a v) b = rd m b.
Proof. intros. rewrite rd_wr. by case_decide. Qed.

#[export] Instance rd_proper : Proper (mem_eqv ==> eq ==> eq) rd.
Proof. intros m m' H a ? <-. apply H. Qed.

#[export] Instance wr_proper : Proper (mem_eqv ==> eq ==> eq ==> mem_eqv) wr.
Proof. intros m m' H a ? <- v ? <- b. rewrite !rd_wr. case_decide; [done | apply H]. Qed.

(** ** Multi-byte accesses *)

Lemma ld_range m n a : 0 <= ld m n a < 2 ^ (8 * Z.of_nat n).
Proof.
  revert a. induction n as [|n IH]; intros a; [simpl; lia|].
  cbn [ld]. pose proof (rd_range m a). specialize (IH (a + 1)).
  replace (8 * Z.of_nat (S n)) with (8 + 8 * Z.of_nat n) by lia.
  rewrite Z.pow_add_r by lia. change (2 ^ 8) with 256. nia.
Qed.

Lemma ld_ext m m' n a :
  (forall i, within i a (Z.of_nat n) -> rd m' i = rd m i) -> ld m' n a = ld m n a.
Proof.
  revert a. induction n as [|n IH]; intros a H; [done|].
  cbn [ld]. f_equal; [apply H; unfold within; lia|].
  f_equal. apply IH. intros i Hi. apply H. unfold within in *. lia.
Qed.

#[export] Instance ld_proper : Proper (mem_eqv ==> eq ==> eq ==> eq) ld.
Proof. intros m m' H n ? <- a ? <-. symmetry. apply ld_ext. intros. symmetry. apply H. Qed.

Lemma rd_st_ne m n a v b : ~ within b a (Z.of_nat n) -> rd (st m n a v) b = rd m b.
Proof.
  revert m a v. induction n as [|n IH]; intros m a v Hb; [done|].
  cbn [st]. rewrite IH by (unfold within in *; lia).
  apply rd_wr_ne. unfold within in Hb. lia.
Qed.

#[export] Instance st_proper : Proper (mem_eqv ==> eq ==> eq ==> eq ==> mem_eqv) st.
Proof.
  intros m m' H n ? <- a ? <- v ? <-. revert m m' H a v.
  induction n as [|n IH]; intros m m' H a v; [done|].
  cbn [st]. apply IH. by rewrite H.
Qed.

(** Storing then loading the same bytes gives the value at its width. *)
Lemma ld_st_eq m n a v : ld (st m n a v) n a = v mod 2 ^ (8 * Z.of_nat n).
Proof.
  revert m a v. induction n as [|n IH]; intros m a v.
  { simpl. by rewrite Z.mod_1_r. }
  cbn [ld st]. rewrite IH, rd_st_ne, rd_wr_eq by (unfold within; lia).
  replace (8 * Z.of_nat (S n)) with (8 + 8 * Z.of_nat n) by lia.
  rewrite Z.pow_add_r by lia. change (2 ^ 8) with 256.
  unfold u8. rewrite Z.rem_mul_r; [done | lia | apply Z.pow_pos_nonneg; lia].
Qed.

Lemma ld_st_ne m n k a b v :
  apart a (Z.of_nat n) b (Z.of_nat k) -> ld (st m n a v) k b = ld m k b.
Proof.
  intros H. apply ld_ext. intros i Hi. apply rd_st_ne.
  unfold apart, within in *. lia.
Qed.

Lemma ld64_st_eq m a v : ld64 (st m 8 a v) a = u64 v.
Proof. apply (ld_st_eq m 8). Qed.

Lemma ld64_range m a : 0 <= ld64 m a < 18446744073709551616.
Proof. apply (ld_range m 8 a). Qed.

Lemma same_on_st P m n a v :
  (forall b, P b -> ~ within b a (Z.of_nat n)) -> same_on P m (st m n a v).
Proof. intros H b Hb. apply rd_st_ne, H, Hb. Qed.

Lemma same_on_ld P m m' n a :
  same_on P m m' -> (forall i, within i a (Z.of_nat n) -> P i) -> ld m' n a = ld m n a.
Proof. intros H Ha. apply ld_ext. intros i Hi. apply H, Ha, Hi. Qed.

(** Writing back what is already there changes nothing. *)
Lemma st_ld_id m n a : mem_eqv (st m n a (ld m n a)) m.
Proof.
  revert m a. induction n as [|n IH]; intros m a; [done|].
  cbn [st ld]. pose proof (rd_range m a).
  assert (Hlow : mem_eqv (wr m a (rd m a + 256 * ld m n (a + 1))) m).
  { intros b. rewrite rd_wr. case_decide; subst; [word | done]. }
  replace ((rd m a + 256 * ld m n (a + 1)) / 256) with (ld m n (a + 1)) by lia.
  rewrite Hlow. apply IH.
Qed.

(** ** Blocks of bytes *)

(** The [n] bytes at [a], in address order. *)
Fixpoint bytes_at (m : gmap Z Z) (a : Z) (n : nat) : list Z :=
  match n with
  | O => []
  | S n => rd m a :: bytes_at m (a + 1) n
  end.

Lemma bytes_at_length m a n : length (bytes_at m a n) = n.
Proof. revert a. induction n; intros; simpl; [done | by rewrite IHn]. Qed.

Lemma bytes_at_lookup m a n i :
  (i < n)%nat -> bytes_at m a n !! i = Some (rd m (a + Z.of_nat i)).
Proof.
  revert a i. induction n as [|n IH]; intros a i Hi; [lia|].
  destruct i as [|i]; simpl; [do 2 f_equal; lia|].
  rewrite IH by lia. do 2 f_equal. lia.
Qed.

Lemma bytes_at_ext m m' a a' n :
  (forall i, 0 <= i < Z.of_nat n -> rd m' (a' + i) = rd m (a + i)) ->
  bytes_at m' a' n = bytes_at m a n.
Proof.
  revert a a'. induction n as [|n IH]; intros a a' H; [done|].
  simpl. f_equal.
  - specialize (H 0). rewrite !Z.add_0_r in H. apply H. lia.
  - apply IH. intros i Hi. specialize (H (i + 1)).
    replace (a' + 1 + i) with (a' + (i + 1)) by lia.
    replace (a + 1 + i) with (a + (i + 1)) by lia. apply H. lia.
Qed.

(** Writing a list of bytes from [a] on. *)
Fixpoint write_bytes (m : gmap Z Z) (a : Z) (l : list Z) : gmap Z Z :=
  match l with
  | [] => m
  | b :: l => write_bytes (wr m a b) (a + 1) l
  end.

Lemma rd_write_bytes_ne m a l b :
  ~ within b a (Z.of_nat (length l)) -> rd (write_bytes m a l) b = rd m b.
Proof.
  revert m a. induction l as [|x l IH]; intros m a Hb; [done|].
  cbn [write_bytes length] in *. rewrite IH by (unfold within in *; lia).
  apply rd_wr_ne. unfold within in Hb. lia.
Qed.

Lemma rd_write_bytes m a l i x :
  l !! i = Some x -> rd (write_bytes m a l) (a + Z.of_nat i) = u8 x.
Proof.
  revert m a i. induction l as [|y l IH]; intros m a i Hi; [done|].
  destruct i as [|i]; cbn [write_bytes].
  - simplify_eq/=. rewrite rd_write_bytes_ne by (unfold within; lia).
    rewrite Z.add_0_r. apply rd_wr_eq.
  - replace (a + Z.of_nat (S i)) with (a + 1 + Z.of_nat i) by lia. by apply IH.
Qed.

(** All [n] bytes from [a] on are zero. *)
Definition zeroed (m : gmap Z Z) (a n : Z) : Prop := forall i, within i a n -> rd m i = 0.

Lemma ld_zeroed m a n k b :
  zeroed m a n -> a <= b -> b + Z.of_nat k <= a + n -> ld m k b = 0.
Proof.
  intros Hz. revert b. induction k as [|k IH]; intros b Hl Hr; [done|].
  cbn [ld]. rewrite Hz by (unfold within; lia). rewrite IH; lia.
Qed.

Lemma ld1_rd m a : ld m 1 a = rd m a.
Proof. cbn. lia. Qed.

(** ** Reading a list of bytes *)

Fixpoint num (l : list Z) : Z := match l with [] => 0 | b :: l => b + 256 * num l end.

Lemma ld_num m n a : ld m n a = num (bytes_at m a n).
Proof. revert a. induction n as [|n IH]; intros a; [done|]. cbn [ld bytes_at num]. by rewrite IH. Qed.

Lemma bytes_at_sub m a n k j :
  (k + j <= n)%nat -> bytes_at m (a + Z.of_nat k) j = take j (drop k (bytes_at m a n)).
Proof.
  intros Hkj. apply list_eq. intros i. destruct (decide (i < j)%nat) as [Hi|Hi].
  - rewrite bytes_at_lookup by done. rewrite lookup_take_lt, lookup_drop by done.
    rewrite bytes_at_lookup by lia. f_equal. f_equal. lia.
  - rewrite !lookup_ge_None_2; [done | | by rewrite bytes_at_length; lia].
    rewrite length_take. lia.
Qed.

Lemma ld_copied m m' d h n k o :
  bytes_at m' h n = bytes_at m d n -> 0 <= o -> o + Z.of_nat k <= Z.of_nat n ->
  ld m' k (h + o) = ld m k (d + o).
Proof.
  intros Hb Ho Hk. rewrite !ld_num. f_equal. replace o with (Z.of_nat (Z.to_nat o)) by lia.
  rewrite !(bytes_at_sub _ _ n) by lia. by rewrite Hb.
Qed.
