(* ===== verification/Machine.v ===== *)
(** The machine the kernel runs on: memory, port I/O, the interrupt flag, CR3,
    the scalar globals of each translation unit, and the monad of kernel code.

    Kernel code may finish, halt the machine (panic), take a page fault on the
    unmapped first page, or - in the model - run out of loop fuel; these are the
    constructors of [outcome].  [wp c Q s] is total correctness: [c] started in
    [s] finishes and satisfies [Q]. *)
From S2P Require Import Prelude Memory.

(** ** Globals, one record per translation unit *)

(** limine.h: one entry of the boot loader's memory map. *)
Record limine_memmap_entry := MemmapEntry {
  entry_base : Z;
  entry_length : Z;
  entry_type : Z;
}.

(** mm/allocator/allocator.c *)
Record alloc_globals := AllocGlobals {
  FrameList : Z;
  LargestMemSegSize : Z;
}.

(** mm/paging/paging.c, [GlobalPagingInfo] *)
Record paging_info := PagingInfo {
  info_mmap : list limine_memmap_entry;
  info_hhdm_base : Z;
  info_kernelSize : Z;
  info_kernelPhysBase : Z;
  info_kernelVirtBase : Z;
  info_fbBase : Z;
  info_fbSize : Z;
}.

Record paging_globals := PagingGlobals {
  pml4 : Z;
  GlobalPagingInfo : paging_info;
}.

(** multitasking/scheduler.c *)
Record sched_globals := SchedGlobals {
  highest_pid : Z;
  schedulingStarted : bool;
  current : Z;
}.

(** The remaining one- and two-variable units. *)
Record driver_globals := DriverGlobals {
  ramdiskInitialized : bool;     (* ramdisk/tar.c *)
  mcfgPtr : Z;                   (* drivers/acpi/acpi.c *)
  madtPtr : Z;
  localAPIC : Z;                 (* drivers/apic/apic.c *)
  ioAPIC : Z;
  shiftpressed : bool;           (* drivers/keyboard.c *)
  tensMsSinceBoot : Z;           (* drivers/pit.c *)
  fbSetup : bool;                (* util/print.c *)
}.

(** Structs whose address the code takes live in memory, at addresses the
    linker chooses. *)
Class Statics := {
  addr_head : Z;        (* heap.c: struct HeapNode head *)
  addr_prochead : Z;    (* scheduler.c: struct ProcessFrame prochead *)
  addr_filehead : Z;    (* tar.c: struct FileNode filehead *)
}.

(** config/kernel.ld: the kernel image is linked at this address. *)
Definition KERNEL_BASE : Z := 0xffffffff80000000.

Class StaticsOk `{Statics} := {
  head_range : KERNEL_BASE <= addr_head /\ addr_head + 16 <= 2 ^ 64;
  prochead_range : KERNEL_BASE <= addr_prochead /\ addr_prochead + 224 <= 2 ^ 64;
  filehead_range : KERNEL_BASE <= addr_filehead /\ addr_filehead + 120 <= 2 ^ 64;
  head_prochead_apart : apart addr_head 16 addr_prochead 224;
  head_filehead_apart : apart addr_head 16 addr_filehead 120;
  prochead_filehead_apart : apart addr_prochead 224 addr_filehead 120;
}.

(** ** Events and machine state *)

(** An argument of a logged [printf] call. *)
Inductive arg :=
  | AVal (v : Z)          (* an integer or a pointer *)
  | AText (t : string).   (* a string literal *)

Inductive event :=
  | EvPrintf (fmt : string) (args : list arg)
  | EvLprint (str n : Z)     (* a call of lprint *)
  | EvOut (port v : Z)
  | EvIn (port : Z)
  | EvMmioWrite (a v : Z)     (* a volatile 32-bit store to a device *)
  | EvMmioRead (a : Z)
  | EvLoadCR3 (v : Z)
  | EvLgdt (ptr : Z)
  | EvLidt (ptr : Z)
  | EvTerminal (c : Z).       (* a character for the frame-buffer terminal *)

Record machine := Machine {
  mem : gmap Z Z;
  trace : list event;                   (* newest event first *)
  ports : Z -> list event -> Z;         (* what a port answers, given the past *)
  mmio : Z -> list event -> Z;          (* what a device register answers *)
  IF : bool;
  CR3 : Z;
  alloc_g : alloc_globals;
  paging_g : paging_globals;
  sched_g : sched_globals;
  driver_g : driver_globals;
}.

Definition with_mem (s : machine) m : machine :=
  Machine m (trace s) (ports s) (mmio s) (IF s) (CR3 s) (alloc_g s) (paging_g s) (sched_g s) (driver_g s).
Definition with_trace (s : machine) t : machine :=
  Machine (mem s) t (ports s) (mmio s) (IF s) (CR3 s) (alloc_g s) (paging_g s) (sched_g s) (driver_g s).
Definition with_IF (s : machine) b : machine :=
  Machine (mem s) (trace s) (ports s) (mmio s) b (CR3 s) (alloc_g s) (paging_g s) (sched_g s) (driver_g s).
Definition with_CR3 (s : machine) c : machine :=
  Machine (mem s) (trace s) (ports s) (mmio s) (IF s) c (alloc_g s) (paging_g s) (sched_g s) (driver_g s).
Definition with_alloc (s : machine) g : machine :=
  Machine (mem s) (trace s) (ports s) (mmio s) (IF s) (CR3 s) g (paging_g s) (sched_g s) (driver_g s).
Definition with_paging (s : machine) g : machine :=
  Machine (mem s) (trace s) (ports s) (mmio s) (IF s) (CR3 s) (alloc_g s) g (sched_g s) (driver_g s).
Definition with_sched (s : machine) g : machine :=
  Machine (mem s) (trace s) (ports s) (mmio s) (IF s) (CR3 s) (alloc_g s) (paging_g s) g (driver_g s).
Definition with_driver (s : machine) g : machine :=
  Machine (mem s) (trace s) (ports s) (mmio s) (IF s) (CR3 s) (alloc_g s) (paging_g s) (sched_g s) g.

(** Assignments to the globals of the small units. *)
Definition set_ramdiskInitialized (b : bool) (s : machine) : machine :=
  let d := driver_g s in with_driver s (DriverGlobals b (mcfgPtr d) (madtPtr d) (localAPIC d)
    (ioAPIC d) (shiftpressed d) (tensMsSinceBoot d) (fbSetup d)).
Definition set_mcfgPtr (p : Z) (s : machine) : machine :=
  let d := driver_g s in with_driver s (DriverGlobals (ramdiskInitialized d) p (madtPtr d)
    (localAPIC d) (ioAPIC d) (shiftpressed d) (tensMsSinceBoot d) (fbSetup d)).
Definition set_madtPtr (p : Z) (s : machine) : machine :=
  let d := driver_g s in with_driver s (DriverGlobals (ramdiskInitialized d) (mcfgPtr d) p
    (localAPIC d) (ioAPIC d) (shiftpressed d) (tensMsSinceBoot d) (fbSetup d)).
Definition set_localAPIC (p : Z) (s : machine) : machine :=
  let d := driver_g s in with_driver s (DriverGlobals (ramdiskInitialized d) (mcfgPtr d) (madtPtr d)
    p (ioAPIC d) (shiftpressed d) (tensMsSinceBoot d) (fbSetup d)).
Definition set_ioAPIC (p : Z) (s : machine) : machine :=
  let d := driver_g s in with_driver s (DriverGlobals (ramdiskInitialized d) (mcfgPtr d) (madtPtr d)
    (localAPIC d) p (shiftpressed d) (tensMsSinceBoot d) (fbSetup d)).
Definition set_shiftpressed (b : bool) (s : machine) : machine :=
  let d := driver_g s in with_driver s (DriverGlobals (ramdiskInitialized d) (mcfgPtr d) (madtPtr d)
    (localAPIC d) (ioAPIC d) b (tensMsSinceBoot d) (fbSetup d)).
Definition set_tensMsSinceBoot (t : Z) (s : machine) : machine :=
  let d := driver_g s in with_driver s (DriverGlobals (ramdiskInitialized d) (mcfgPtr d) (madtPtr d)
    (localAPIC d) (ioAPIC d) (shiftpressed d) t (fbSetup d)).
Definition set_fbSetup (b : bool) (s : machine) : machine :=
  let d := driver_g s in with_driver s (DriverGlobals (ramdiskInitialized d) (mcfgPtr d) (madtPtr d)
    (localAPIC d) (ioAPIC d) (shiftpressed d) (tensMsSinceBoot d) b).

(** A machine with empty memory, for examples. *)
Definition blank : machine :=
  Machine ∅ [] (fun _ _ => 0) (fun _ _ => 0) true 0 (AllocGlobals 0 0)
    (PagingGlobals 0 (PagingInfo [] 0 0 0 0 0 0)) (SchedGlobals 1 false 0)
    (DriverGlobals false 0 0 0 0 false 0 false).

(** ** The monad of kernel code *)

Inductive outcome (A : Type) :=
  | Ok (a : A) (s : machine)
  | Halt (s : machine)              (* cli; hlt for ever *)
  | Fault (addr : Z) (s : machine)  (* access to the unmapped page 0 *)
  | NoFuel.                         (* a loop exceeded the model's fuel *)
Arguments Ok {A}.
Arguments Halt {A}.
Arguments Fault {A}.
Arguments NoFuel {A}.

Definition M (A : Type) : Type := machine -> outcome A.

Definition ret {A} (a : A) : M A := fun s => Ok a s.
Definition bind {A B} (c : M A) (f : A -> M B) : M B := fun s =>
  match c s with
  | Ok a s' => f a s'
  | Halt s' => Halt s'
  | Fault p s' => Fault p s'
  | NoFuel => NoFuel
  end.

Declare Scope machine_scope.
Delimit Scope machine_scope with mach.
Notation "x ← c ; k" := (bind c (fun x => k))
  (at level 20, c at level 100, k at level 200) : machine_scope.
Notation "c ;; k" := (bind c (fun _ => k))
  (at level 100, k at level 200, right associativity) : machine_scope.
#[global] Open Scope machine_scope.

Definition gets {A} (f : machine -> A) : M A := fun s => Ok (f s) s.
Definition modify (f : machine -> machine) : M unit := fun s => Ok tt (f s).
Definition out_of_fuel {A} : M A := fun _ => NoFuel.

(** Accesses through a pointer.  Page 0 is mapped neither by the boot loader
    nor by [CreateDefaultMappings]; everything else is. *)
Definition null_page (a : Z) : bool := a <? PAGE.

Definition load (n : nat) (a : Z) : M Z := fun s =>
  if null_page a then Fault a s else Ok (ld (mem s) n a) s.
Definition store (n : nat) (a v : Z) : M unit := fun s =>
  if null_page a then Fault a s else Ok tt (with_mem s (st (mem s) n a v)).

Definition emit (e : event) : M unit := modify (fun s => with_trace s (e :: trace s)).
Definition printf (fmt : string) (args : list arg) : M unit := emit (EvPrintf fmt args).
Definition lprint (str n : Z) : M unit := emit (EvLprint str n).
Definition cli : M unit := modify (fun s => with_IF s false).
Definition sti : M unit := modify (fun s => with_IF s true).
Definition halt {A} : M A := fun s => Halt s.

(** [if (c) body;] *)
Definition when (c : bool) (body : M unit) : M unit := if c then body else ret tt.

(** ** Total correctness *)

Definition wp {A} (c : M A) (Q : A -> machine -> Prop) (s : machine) : Prop :=
  match c s with
  | Ok a s' => Q a s'
  | _ => False
  end.

Section WP.
Context {A B : Type}.
Implicit Types (Q : A -> machine -> Prop) (s : machine).

Lemma wp_iff (c : M A) Q s : wp c Q s <-> exists a s', c s = Ok a s' /\ Q a s'.
Proof.
  unfold wp. destruct (c s); split; try done; try (by intros (? & ? & [=] & ?)).
  - by eauto.
  - by intros (? & ? & [= -> ->] & ?).
Qed.

Lemma wp_mono (c : M A) Q Q' s :
  wp c Q s -> (forall a s', Q a s' -> Q' a s') -> wp c Q' s.
Proof. unfold wp. destruct (c s); auto. Qed.

Lemma wp_ret a Q s : Q a s -> wp (ret a) Q s.
Proof. done. Qed.

Lemma wp_bind (c : M B) (f : B -> M A) Q s :
  wp c (fun b s' => wp (f b) Q s') s -> wp (bind c f) Q s.
Proof. unfold wp, bind. destruct (c s); done. Qed.

Lemma wp_gets (f : machine -> A) Q s : Q (f s) s -> wp (gets f) Q s.
Proof. done. Qed.
End WP.

Lemma wp_modify f (Q : unit -> machine -> Prop) s : Q tt (f s) -> wp (modify f) Q s.
Proof. done. Qed.

Lemma wp_load n a (Q : Z -> machine -> Prop) s :
  PAGE <= a -> Q (ld (mem s) n a) s -> wp (load n a) Q s.
Proof. unfold wp, load, null_page. intros Ha HQ. case_Z; [lia | done]. Qed.

Lemma wp_store n a v (Q : unit -> machine -> Prop) s :
  PAGE <= a -> Q tt (with_mem s (st (mem s) n a v)) -> wp (store n a v) Q s.
Proof. unfold wp, store, null_page. intros Ha HQ. case_Z; [lia | done]. Qed.

Lemma wp_emit e (Q : unit -> machine -> Prop) s :
  Q tt (with_trace s (e :: trace s)) -> wp (emit e) Q s.
Proof. done. Qed.

Lemma wp_printf fmt args (Q : unit -> machine -> Prop) s :
  Q tt (with_trace s (EvPrintf fmt args :: trace s)) -> wp (printf fmt args) Q s.
Proof. done. Qed.

(** A finished prefix of a computation can be replaced by its result. *)
Lemma bind_Ok {A B} (c : M A) (f : A -> M B) s a s' :
  c s = Ok a s' -> (bind c f) s = f a s'.
Proof. unfold bind. by intros ->. Qed.

Lemma bind_Halt {A B} (c : M A) (f : A -> M B) s s' :
  c s = Halt s' -> (bind c f) s = Halt s'.
Proof. unfold bind. by intros ->. Qed.

Lemma load_ok n a s : PAGE <= a -> load n a s = Ok (ld (mem s) n a) s.
Proof. unfold load, null_page. intros. by case_Z; [lia|]. Qed.

Lemma load_null n a s : a < PAGE -> load n a s = Fault a s.
Proof. unfold load, null_page. intros. by case_Z; [|lia]. Qed.

Lemma store_ok n a v s :
  PAGE <= a -> store n a v s = Ok tt (with_mem s (st (mem s) n a v)).
Proof. unfold store, null_page. intros. by case_Z; [lia|]. Qed.

(** Two actions with the same outcome go on the same way. *)
Lemma bind_eq {A B} (c1 c2 : M A) (k : A -> M B) s1 s2 : c1 s1 = c2 s2 -> bind c1 k s1 = bind c2 k s2.
Proof. unfold bind. by intros ->. Qed.

Lemma bind_assoc {A B C} (c : M A) (f : A -> M B) (h : B -> M C) s :
  bind (bind c f) h s = bind c (fun x => bind (f x) h) s.
Proof. unfold bind. by destruct (c s). Qed.

Lemma when_false b s : b = false -> when b s = ret tt.
Proof. by intros ->. Qed.

Lemma when_true b c : b = true -> when b c = c.
Proof. by intros ->. Qed.

(** [run_step] executes the first primitive step of a run. *)
Ltac run_step :=
  first
    [ erewrite bind_Ok by
        (first [ reflexivity | apply load_ok; solve [eauto | lia]
               | apply store_ok; solve [eauto | lia] ])
    | rewrite load_ok by solve [eauto | lia]
    | rewrite store_ok by solve [eauto | lia] ]; cbv beta;
  cbn [mem trace alloc_g paging_g sched_g driver_g IF CR3 ports
      with_mem with_trace with_IF with_CR3 with_alloc with_paging with_sched with_driver].

(** [wp_step] consumes one primitive step at the head of the program. *)
Ltac wp_step :=
  first
    [ apply wp_bind
    | apply wp_ret
    | apply wp_gets
    | apply wp_load; [try lia|]
    | apply wp_store; [try lia|]
    | apply wp_printf
    | apply wp_emit
    | apply wp_modify ]; cbn [mem trace alloc_g paging_g sched_g driver_g IF CR3 ports
      with_mem with_trace with_IF with_CR3 with_alloc with_paging with_sched with_driver].
Ltac wp_steps := repeat wp_step.

(** ** The machine outside memory *)

(** Everything but memory is unchanged. *)
Definition same_regs (s s' : machine) : Prop := s' = with_mem s (mem s').

Lemma same_regs_refl s : same_regs s s.
Proof. by destruct s. Qed.

Lemma same_regs_with_mem s m : same_regs s (with_mem s m).
Proof. done. Qed.

Lemma same_regs_trans s1 s2 s3 : same_regs s1 s2 -> same_regs s2 s3 -> same_regs s1 s3.
Proof. unfold same_regs. intros H1 H2. rewrite H2, H1. done. Qed.

Lemma same_regs_alloc s s' : same_regs s s' -> alloc_g s' = alloc_g s.
Proof. by intros ->. Qed.

Create HintDb machine.
#[export] Hint Resolve same_regs_refl same_regs_with_mem : machine.

(** [printed s l]: the machine [s] after printing [l]. *)
Definition printed (s : machine) (l : list event) : machine := with_trace s (rev l ++ trace s).

Lemma printed_app s l1 l2 : printed (printed s l1) l2 = printed s (l1 ++ l2).
Proof. unfold printed. rewrite rev_app_distr, <- app_assoc. by destruct s. Qed.

Lemma printed_same_regs s s' l :
  same_regs s s' -> printed s' l = with_mem (printed s l) (mem s').
Proof. unfold same_regs, printed. intros E. rewrite E at 1 2. done. Qed.

(** ** util/memutil.c *)

(** [memset]: [value] is converted to [unsigned char] by each assignment. *)
Fixpoint memset_loop (n : nat) (k value : Z) : M unit :=
  match n with
  | O => ret tt
  | S n => store 1 k value;; memset_loop n (k + 1) value
  end.
Definition memset (memtoset value buffsize : Z) : M unit :=
  memset_loop (Z.to_nat buffsize) memtoset value.

Fixpoint memcpy_loop (n : nat) (desta srca : Z) : M unit :=
  match n with
  | O => ret tt
  | S n => b ← load 1 srca; store 1 desta b;; memcpy_loop n (desta + 1) (srca + 1)
  end.
Definition memcpy (dest src n : Z) : M unit := memcpy_loop (Z.to_nat n) dest src.

(** The memory after [memset] and [memcpy]. *)
Fixpoint fill (m : gmap Z Z) (n : nat) (k value : Z) : gmap Z Z :=
  match n with
  | O => m
  | S n => fill (st m 1 k value) n (k + 1) value
  end.

Lemma rd_fill m n k v b :
  rd (fill m n k v) b = if decide (within b k (Z.of_nat n)) then u8 v else rd m b.
Proof.
  revert m k. induction n as [|n IH]; intros m k.
  { simpl. rewrite decide_False; [done | unfold within; lia]. }
  cbn [fill]. rewrite IH. simpl. rewrite rd_wr.
  repeat case_decide; try done; unfold within in *; lia.
Qed.

Lemma memset_loop_run n k v s :
  PAGE <= k -> memset_loop n k v s = Ok tt (with_mem s (fill (mem s) n k v)).
Proof.
  revert k s. induction n as [|n IH]; intros k s Hk; [by destruct s|].
  cbn [memset_loop]. erewrite bind_Ok by (apply store_ok; lia).
  rewrite IH by lia. done.
Qed.

Lemma memset_run a v n s :
  PAGE <= a -> memset a v n s = Ok tt (with_mem s (fill (mem s) (Z.to_nat n) a v)).
Proof. apply memset_loop_run. Qed.

Fixpoint copy (m : gmap Z Z) (n : nat) (d s : Z) : gmap Z Z :=
  match n with
  | O => m
  | S n => copy (st m 1 d (ld m 1 s)) n (d + 1) (s + 1)
  end.

Lemma memcpy_loop_run n d a s :
  PAGE <= d -> PAGE <= a -> memcpy_loop n d a s = Ok tt (with_mem s (copy (mem s) n d a)).
Proof.
  revert d a s. induction n as [|n IH]; intros d a s Hd Ha; [by destruct s|].
  cbn [memcpy_loop]. erewrite bind_Ok by (apply load_ok; lia).
  erewrite bind_Ok by (apply store_ok; lia). rewrite IH by lia. done.
Qed.

Lemma memcpy_run d a n s :
  PAGE <= d -> PAGE <= a ->
  memcpy d a n s = Ok tt (with_mem s (copy (mem s) (Z.to_nat n) d a)).
Proof. apply memcpy_loop_run. Qed.

Lemma rd_copy_ne m n d a b :
  ~ within b d (Z.of_nat n) -> rd (copy m n d a) b = rd m b.
Proof.
  revert m d a. induction n as [|n IH]; intros m d a Hb; [done|].
  cbn [copy]. rewrite IH by (unfold within in *; lia).
  apply rd_st_ne. unfold within in *. lia.
Qed.

(** The copy runs upwards, so it is right whenever the destination does not
    start inside the source. *)
Lemma rd_copy m n d a i :
  d <= a \/ a + Z.of_nat n <= d ->
  0 <= i < Z.of_nat n -> rd (copy m n d a) (d + i) = rd m (a + i).
Proof.
  revert m d a i. induction n as [|n IH]; intros m d a i Hov Hi; [lia|].
  cbn [copy]. destruct (decide (i = 0)) as [->|Hne].
  - rewrite !Z.add_0_r, rd_copy_ne by (unfold within; lia).
    simpl. rewrite rd_wr_eq. pose proof (rd_range m a). word.
  - replace (d + i) with (d + 1 + (i - 1)) by lia. rewrite IH by lia.
    rewrite rd_st_ne by (unfold within; lia). f_equal. lia.
Qed.

#[global] Opaque fill copy.

Definition KVaddrToPaddr (vaddr kernelVirtStart kernelPhysStart : Z) : Z :=
  let off := u64 (vaddr - kernelVirtStart) in
  u64 (kernelPhysStart + off).

(** ** system/panic.c and system/error.c *)

Definition panic {A} (customStr : string) : M A :=
  printf "\n\n----------------------------------------------------------------------\n" [];;
  printf "KERNEL PANIC\n" [];;
  printf "A serious error has been encountered in the kernel (kernel panic).\nDebug string: %s"
        [AText customStr];;
  printf "\n\n\n\n" [];;
  printf "System halt.\n" [];;
  printf "----------------------------------------------------------------------" [];;
  cli;;
  halt.

Definition KernelSoftError (error : string) : M unit :=
  printf "!!!!!!!!!!!!!!!!!!!!!!!!!!!!!!!!!!!!!!!!!!!!!!\n" [];;
  printf "Soft error occured in kernel: %s\n" [AText error];;
  printf "!!!!!!!!!!!!!!!!!!!!!!!!!!!!!!!!!!!!!!!!!!!!!!\n\n\n" [].

(** The state [panic] halts in. *)
Definition panicked {A} (o : outcome A) : Prop := exists s, o = Halt s.

Lemma panic_halts {A} msg s : panicked (panic (A := A) msg s).
Proof. eexists. reflexivity. Qed.

(** What it prints, newest first. *)
Definition panic_report (customStr : string) : list event :=
  rev [EvPrintf "\n\n----------------------------------------------------------------------\n" [];
       EvPrintf "KERNEL PANIC\n" [];
       EvPrintf "A serious error has been encountered in the kernel (kernel panic).\nDebug string: %s" [AText customStr];
       EvPrintf "\n\n\n\n" [];
       EvPrintf "System halt.\n" [];
       EvPrintf "----------------------------------------------------------------------" []].
(** The machine it leaves: interrupts off, memory as it was. *)
Definition panic_state (msg : string) (s : machine) : machine :=
  with_IF (with_trace s (panic_report msg ++ trace s)) false.
Lemma panic_run {A} msg s : panic (A := A) msg s = Halt (panic_state msg s).
Proof. reflexivity. Qed.

(** util/print.h: the [assert] macro prints and goes on. *)
Definition assert_c (condition : bool) (line : Z) (file : string) : M unit :=
  when (negb condition)
    (printf "\033[31m[!!!] Assertion failed at line %d in %s\033[0m\n" [AVal line; AText file]).

(** ** Port I/O (util/ioports.h) *)

Definition outb (port val : Z) : M unit := emit (EvOut port (u8 val)).
Definition inb (port : Z) : M Z := fun s =>
  Ok (u8 (ports s port (trace s))) (with_trace s (EvIn port :: trace s)).
Definition io_wait : M unit := outb 0x80 0.
(** The wider accesses, which the kernel does not use. *)
Module WidePorts.
Definition outw (port val : Z) : M unit := emit (EvOut port (u16 val)).
Definition outl (port val : Z) : M unit := emit (EvOut port (u32 val)).
Definition inw (port : Z) : M Z := fun s =>
  Ok (u16 (ports s port (trace s))) (with_trace s (EvIn port :: trace s)).
Definition inl (port : Z) : M Z := fun s =>
  Ok (u32 (ports s port (trace s))) (with_trace s (EvIn port :: trace s)).
End WidePorts.

(** Volatile accesses to a device's registers: they leave memory alone. *)
Definition mmio_write64 (target value : Z) : M unit := fun s =>
  if null_page target then Fault target s
  else Ok tt (with_trace s (EvMmioWrite target (u64 value) :: trace s)).
Definition mmio_write32 (target value : Z) : M unit := fun s =>
  if null_page target then Fault target s
  else Ok tt (with_trace s (EvMmioWrite target (u32 value) :: trace s)).
Definition mmio_write16 (target value : Z) : M unit := fun s =>
  if null_page target then Fault target s
  else Ok tt (with_trace s (EvMmioWrite target (u16 value) :: trace s)).
Definition mmio_write8 (target value : Z) : M unit := fun s =>
  if null_page target then Fault target s
  else Ok tt (with_trace s (EvMmioWrite target (u8 value) :: trace s)).
Definition mmio_read64 (target : Z) : M Z := fun s =>
  if null_page target then Fault target s
  else Ok (u64 (mmio s target (trace s))) (with_trace s (EvMmioRead target :: trace s)).
Definition mmio_read32 (target : Z) : M Z := fun s =>
  if null_page target then Fault target s
  else Ok (u32 (mmio s target (trace s))) (with_trace s (EvMmioRead target :: trace s)).
Definition mmio_read16 (target : Z) : M Z := fun s =>
  if null_page target then Fault target s
  else Ok (u16 (mmio s target (trace s))) (with_trace s (EvMmioRead target :: trace s)).
Definition mmio_read8 (target : Z) : M Z := fun s =>
  if null_page target then Fault target s
  else Ok (u8 (mmio s target (trace s))) (with_trace s (EvMmioRead target :: trace s)).

Definition cr3load (cr3 : Z) : M unit := fun s =>
  Ok tt (with_trace (with_CR3 s cr3) (EvLoadCR3 cr3 :: trace s)).

(** ** Fuel *)


(** More fuel in the continuation does not change a run that finished. *)
Lemma bind_fuel {A B} (c : M A) (f f' : A -> M B) s :
  bind c f s <> NoFuel ->
  (forall a s', f a s' <> NoFuel -> f' a s' = f a s') ->
  bind c f' s = bind c f s.
Proof. unfold bind. destruct (c s); auto. Qed.

(** ** Counting loops

    [for (i = i0; i < bound; i += step) body(i)] on 64-bit counters, with fuel
    for the iterations. *)
Fixpoint for_loop (fuel : nat) (i bound step : Z) (body : Z -> M unit) : M unit :=
  match fuel with
  | O => out_of_fuel
  | S fuel =>
      if i <? bound then body i;; for_loop fuel (u64 (i + step)) bound step body
      else ret tt
  end.

(** A loop whose counter does not wrap runs to its bound and keeps an
    invariant indexed by the counter. *)
Lemma for_loop_inv (P : Z -> machine -> Prop) fuel i bound step body s :
  0 < step -> 0 <= i -> bound + step <= 2 ^ 64 ->
  bound - i <= step * (Z.of_nat fuel - 1) ->
  (forall j s, i <= j < bound -> (j - i) mod step = 0 -> P j s ->
    exists s', body j s = Ok tt s' /\ P (j + step) s') ->
  (0 < fuel)%nat -> P i s ->
  exists j s', for_loop fuel i bound step body s = Ok tt s' /\ P j s' /\
    i <= j /\ bound <= j /\ (j - i) mod step = 0 /\ (j < bound + step \/ j = i).
Proof.
  change (2 ^ 64) with 18446744073709551616.
  revert i s. induction fuel as [|fuel IH]; intros i s Hst Hi Hnw Hfuel Hbody Hpos HP; [lia|].
  cbn [for_loop]. destruct (Z.ltb_spec i bound) as [Hlt|Hge].
  - destruct (Hbody i s) as (s1 & Hrun & HP1); [lia | by rewrite Z.sub_diag | done |].
    erewrite bind_Ok by exact Hrun. rewrite u64_small by lia.
    assert (0 < fuel)%nat by nia.
    destruct (IH (i + step) s1) as (j & s2 & Hrun2 & HP2 & H1 & H2 & H3 & H4);
      [lia | lia | lia | lia | | lia | done |].
    + intros j s' Hj Hm HPj. apply Hbody; [lia | | done].
      replace (j - i) with (j - (i + step) + 1 * step) by lia. by rewrite Z.mod_add by lia.
    + exists j, s2. split_and!; try done; try lia.
      replace (j - i) with (j - (i + step) + 1 * step) by lia. by rewrite Z.mod_add by lia.
  - exists i, s. split_and!; [done | done | lia | lia | by rewrite Z.sub_diag | by right].
Qed.
