(* ===== verification/PageSource.v ===== *)
(** What the page-frame allocator promises to the heap, the page tables and the
    scheduler.  [PageSource] names the two operations; [PageSourceOk] states
    their laws over the pool of free pages.  [FrameAlloc] is the instance. *)
From S2P Require Import Prelude Memory Machine.

Class PageSource := {
  page_alloc : M Z;
  page_free : Z -> M unit;
}.

(** The four kilobytes of a page. *)
Definition page_bytes (p a : Z) : Prop := within a p PAGE.

(** [alloc_frame]: what [page_alloc] may change - the page it hands out and the
    allocator's own bookkeeping. *)
Definition alloc_frame (owned : Z -> Prop) (p : Z) (s s' : machine) : Prop :=
  same_regs s s' /\ same_on (fun a => ~ page_bytes p a /\ ~ owned a) (mem s) (mem s').

Class PageSourceOk `{PageSource} := {
  (** invariant of the bookkeeping *)
  ps_inv : machine -> Prop;
  (** the free pages, in the order they will be handed out *)
  ps_pool : machine -> list Z;
  (** the addresses of the bookkeeping itself *)
  ps_owned : alloc_globals -> Z -> Prop;
  (** the pages under management, free or not *)
  ps_managed : alloc_globals -> Z -> Prop;

  ps_alloc s p ps :
    ps_inv s -> ps_pool s = p :: ps ->
    exists s', page_alloc s = Ok p s' /\ ps_inv s' /\ ps_pool s' = ps /\
      zeroed (mem s') p PAGE /\ alloc_frame (ps_owned (alloc_g s)) p s s';
  ps_alloc_none s :
    ps_inv s -> ps_pool s = [] -> exists msg, page_alloc s = Halt (panic_state msg s);
  ps_free s p :
    ps_inv s -> ps_managed (alloc_g s) p -> p ∉ ps_pool s ->
    exists s', page_free p s = Ok tt s' /\ ps_inv s' /\ p :: ps_pool s ≡ₚ ps_pool s' /\
      same_regs s s' /\ same_on (fun a => ~ ps_owned (alloc_g s) a) (mem s) (mem s');

  (** writes outside the bookkeeping do not disturb the allocator *)
  ps_stable s s' :
    ps_inv s -> alloc_g s' = alloc_g s ->
    same_on (ps_owned (alloc_g s)) (mem s) (mem s') ->
    ps_inv s' /\ ps_pool s' = ps_pool s;

  ps_pool_managed s p : ps_inv s -> p ∈ ps_pool s -> ps_managed (alloc_g s) p;
  ps_pool_nodup s : ps_inv s -> NoDup (ps_pool s);
  (** managed pages are aligned, avoid the null page and the bookkeeping *)
  ps_page_ok s p :
    ps_inv s -> ps_managed (alloc_g s) p ->
    PAGE <= p /\ p + PAGE <= 2 ^ 64 /\ p mod PAGE = 0 /\
    forall a, page_bytes p a -> ~ ps_owned (alloc_g s) a;
}.

(** Aligned pages are equal or apart. *)
Lemma pages_apart p q : p mod PAGE = 0 -> q mod PAGE = 0 -> p <> q -> apart p PAGE q PAGE.
Proof. unfold apart. lia. Qed.

(** Page-aligned addresses have the page as the only one they fall into. *)
Lemma page_bytes_inj p q a :
  p mod PAGE = 0 -> q mod PAGE = 0 -> page_bytes p a -> page_bytes q a -> p = q.
Proof. unfold page_bytes, within. lia. Qed.

Section Clients.
Context `{PageSourceOk}.

(** The page handed out is in range, aligned and no longer in the pool. *)
Lemma ps_alloc_page s p ps :
  ps_inv s -> ps_pool s = p :: ps ->
  PAGE <= p /\ p + PAGE <= 2 ^ 64 /\ p mod PAGE = 0 /\ p ∉ ps.
Proof.
  intros Hi Hp.
  destruct (ps_page_ok s p) as (? & ? & ? & _); [done | |].
  { apply ps_pool_managed; [done|]. rewrite Hp. left. }
  pose proof (ps_pool_nodup s Hi) as Hnd. rewrite Hp in Hnd.
  inversion Hnd; subst. done.
Qed.

(** A computation that ends in a panic because no page is left. *)
Definition exhausted {A} (o : outcome A) : Prop :=
  exists s' msg, o = Halt (panic_state msg s') /\ ps_inv s' /\ ps_pool s' = [].

Lemma ps_alloc_exhausted s : ps_inv s -> ps_pool s = [] -> exhausted (page_alloc s).
Proof. intros Hi Hp. destruct (ps_alloc_none s Hi Hp) as [msg Hm]. by exists s, msg. Qed.

Lemma exhausted_bind {A B} (c : M A) (f : A -> M B) s : exhausted (c s) -> exhausted (bind c f s).
Proof. intros (s' & msg & Hc & ?). exists s', msg. split; [by erewrite bind_Halt | done]. Qed.

(** Pages still in the pool survive an allocation untouched. *)
Lemma ps_alloc_other s s' p q :
  ps_inv s -> alloc_frame (ps_owned (alloc_g s)) p s s' ->
  ps_managed (alloc_g s) p -> ps_managed (alloc_g s) q -> p <> q ->
  same_on (page_bytes q) (mem s) (mem s').
Proof.
  intros Hi [_ Hf] Hp Hq Hne.
  destruct (ps_page_ok s p Hi Hp) as (_ & _ & Hpa & _).
  destruct (ps_page_ok s q Hi Hq) as (_ & _ & Hqa & Hqo).
  eapply same_on_weaken; [exact Hf|]. intros a Ha. split; [|by apply Hqo].
  intros Ha'. apply Hne. by eapply page_bytes_inj.
Qed.

(** A store outside the bookkeeping keeps the allocator's state. *)
Lemma ps_store s n a v :
  ps_inv s ->
  (forall b, within b a (Z.of_nat n) -> ~ ps_owned (alloc_g s) b) ->
  ps_inv (with_mem s (st (mem s) n a v)) /\
  ps_pool (with_mem s (st (mem s) n a v)) = ps_pool s.
Proof.
  intros Hi Ha. apply ps_stable; [done | done |].
  apply same_on_st. intros b Hb Hw. by apply (Ha b).
Qed.
End Clients.

(** ** Histories of allocations

    A configuration is a machine with the pages its clients hold.  Clients
    allocate, free what they hold, and write anywhere outside the bookkeeping. *)
Section Histories.
Context `{PageSourceOk}.

Inductive source_step : machine * list Z -> machine * list Z -> Prop :=
  | step_alloc s s' p live :
      page_alloc s = Ok p s' -> source_step (s, live) (s', p :: live)
  | step_free s s' p l1 l2 :
      page_free p s = Ok tt s' -> source_step (s, l1 ++ p :: l2) (s', l1 ++ l2)
  | step_write s s' live :
      alloc_g s' = alloc_g s ->
      same_on (ps_owned (alloc_g s)) (mem s) (mem s') ->
      source_step (s, live) (s', live).

(** [g0] are the allocator's globals, [l0] its pool, when the history starts. *)
Definition accounted (g0 : alloc_globals) (l0 : list Z) (c : machine * list Z) : Prop :=
  alloc_g (fst c) = g0 /\ ps_inv (fst c) /\ snd c ++ ps_pool (fst c) ≡ₚ l0.

Lemma source_step_accounted g0 l0 c c' :
  NoDup l0 -> (forall p, p ∈ l0 -> ps_managed g0 p) ->
  accounted g0 l0 c -> source_step c c' -> accounted g0 l0 c'.
Proof.
  intros Hnd Hman (Hg & Hi & Hperm) Hstep.
  destruct Hstep as [s s' p live Hrun | s s' p l1 l2 Hrun | s s' live Hg' Hm];
    unfold accounted; cbn [fst snd] in *.
  - destruct (ps_pool s) as [|q qs] eqn:Hp.
    { destruct (ps_alloc_none s Hi Hp) as [? Hh]. congruence. }
    destruct (ps_alloc s q qs Hi Hp) as (s1 & Hrun' & Hi' & Hp' & _ & [Hr _]).
    rewrite Hrun in Hrun'. injection Hrun' as <- <-.
    split_and!; [by rewrite (same_regs_alloc _ _ Hr) | done |].
    rewrite Hp', <- Hperm. cbn [app]. by rewrite Permutation_middle.
  - assert (Hin : p ∈ l0) by (rewrite <- Hperm; set_solver).
    assert (Hnin : p ∉ ps_pool s).
    { rewrite <- Hperm in Hnd. apply NoDup_app in Hnd as (_ & Hd & _).
      apply Hd. set_solver. }
    destruct (ps_free s p Hi) as (s1 & Hrun' & Hi' & Hp' & Hr & _);
      [rewrite Hg; auto | done |].
    rewrite Hrun in Hrun'. injection Hrun' as <-.
    split_and!; [by rewrite (same_regs_alloc _ _ Hr) | done |].
    rewrite <- Hp', <- Hperm, <- !app_assoc. cbn [app]. apply Permutation_app_head.
    by rewrite Permutation_middle.
  - destruct (ps_stable s s' Hi Hg' Hm) as [Hi' Hp'].
    split_and!; [by rewrite Hg' | done | by rewrite Hp'].
Qed.

Lemma source_reachable s0 c :
  ps_inv s0 -> rtc source_step (s0, []) c ->
  accounted (alloc_g s0) (ps_pool s0) c.
Proof.
  intros Hi Hsteps. pose proof (ps_pool_nodup s0 Hi) as Hnd.
  assert (Hman : forall p, p ∈ ps_pool s0 -> ps_managed (alloc_g s0) p)
    by (intros; by apply ps_pool_managed).
  assert (Hacc : accounted (alloc_g s0) (ps_pool s0) (s0, [])) by done.
  revert Hacc. generalize (alloc_g s0), (ps_pool s0), Hnd, Hman.
  clear Hi Hnd Hman. intros g0 l0 Hnd Hman. remember (s0, []) as c0 eqn:Hc0. clear Hc0.
  induction Hsteps as [|c0 c1 c2 Hs _ IH]; intros Hacc; [done|].
  apply IH. by eapply source_step_accounted.
Qed.
End Histories.
