(* ===== verification/FrameAlloc.v ===== *)
(** mm/allocator/allocator.c: the page-frame allocator.

    [FrameList] points to an array of [struct Page] (a pointer and a one-bit
    [free] flag, sixteen bytes) at the start of the largest usable region; the
    frames follow it.  [PageAlloc] takes the first free frame, so the pool of
    free frames is the list of their addresses in ascending order. *)
From S2P Require Import Prelude Memory Machine PageSource.

(** ** struct Page *)

Definition sizeof_Page : Z := 16.
Definition page_slot (F i : Z) : Z := u64 (F + sizeof_Page * i).
Definition Page_ptr (m : gmap Z Z) (F i : Z) : Z := ld64 m (page_slot F i).

(** The bit-field [free] is bit 0 of the byte after the pointer. *)
Definition with_bit0 (b : Z) (v : bool) : Z :=
  if v then Z.lor b 1 else Z.land b 0xFE.
Definition get_free (F i : Z) : M bool :=
  b ← load 1 (u64 (page_slot F i + 8)); ret (Z.testbit b 0).
Definition set_free (F i : Z) (v : bool) : M unit :=
  b ← load 1 (u64 (page_slot F i + 8)); store 1 (u64 (page_slot F i + 8)) (with_bit0 b v).

(** ** Operations *)

Definition LIMINE_MEMMAP_USABLE : Z := 0.

(** The first loop of [InitializeAllocator]: the largest usable entry. *)
Definition pick_entry (acc : Z * limine_memmap_entry) (e : limine_memmap_entry)
  : Z * limine_memmap_entry :=
  let '(largestEntryLength, largestEntry) := acc in
  if entry_type e =? LIMINE_MEMMAP_USABLE then
    if largestEntryLength <? entry_length e then (entry_length e, e)
    else (largestEntryLength, largestEntry)
  else (largestEntryLength, largestEntry).
Definition largest_entry (mmap : list limine_memmap_entry) : limine_memmap_entry :=
  snd (foldl pick_entry (0, MemmapEntry 0 0 0) mmap).

(** The second loop: [n] iterations left, at index [i]. *)
Fixpoint init_frames (n : nat) (i nextAddr : Z) : M unit :=
  match n with
  | O => ret tt
  | S n =>
      F ← gets (fun s => FrameList (alloc_g s));
      store 8 (page_slot F i) nextAddr;;
      store 1 (u64 (page_slot F i + 8)) (with_bit0 0 true);;
      init_frames n (i + 1) (u64 (nextAddr + PAGE))
  end.

Definition InitializeAllocator (mmap : list limine_memmap_entry) : M unit :=
  let largestEntry := largest_entry mmap in
  when (entry_length largestEntry =? 0) (panic "Detected no free memory!");;
  modify (fun s =>
        with_alloc s (AllocGlobals (entry_base largestEntry) (LargestMemSegSize (alloc_g s))));;
  let n := entry_length largestEntry / PAGE in
  let nextAddr := ALIGN_UP (u64 (entry_base largestEntry + u64 (sizeof_Page * n))) PAGE in
  init_frames (Z.to_nat n) 0 nextAddr;;
  modify (fun s =>
    with_alloc s (AllocGlobals (FrameList (alloc_g s)) (entry_length largestEntry))).

Fixpoint PageAlloc_loop (n : nat) (i : Z) : M Z :=
  match n with
  | O => panic (A := unit) "No free mem left!";; ret 0
  | S n =>
      F ← gets (fun s => FrameList (alloc_g s));
      free ← get_free F i;
      if free then
        set_free F i false;;
        ptr ← load 8 (page_slot F i);
        memset ptr 0 PAGE;;
        load 8 (page_slot F i)
      else PageAlloc_loop n (i + 1)
  end.
Definition PageAlloc : M Z :=
  n ← gets (fun s => LargestMemSegSize (alloc_g s) / PAGE);
  PageAlloc_loop (Z.to_nat n) 0.

Fixpoint PageFree_loop (n : nat) (i addr : Z) : M unit :=
  match n with
  | O => ret tt
  | S n =>
      F ← gets (fun s => FrameList (alloc_g s));
      ptr ← load 8 (page_slot F i);
      when (ptr =? addr) (set_free F i true);;
      PageFree_loop n (i + 1) addr
  end.
Definition PageFree (addr : Z) : M unit :=
  n ← gets (fun s => LargestMemSegSize (alloc_g s) / PAGE);
  PageFree_loop (Z.to_nat n) 0 addr.

(** ** The frame table *)

Definition nframes (g : alloc_globals) : Z := LargestMemSegSize g / PAGE.
Definition frames_base (g : alloc_globals) : Z :=
  ALIGN_UP (FrameList g + sizeof_Page * nframes g) PAGE.
Definition frame_addr (g : alloc_globals) (i : Z) : Z := frames_base g + PAGE * i.
Definition frame_free (g : alloc_globals) (m : gmap Z Z) (i : Z) : bool :=
  Z.testbit (rd m (FrameList g + sizeof_Page * i + 8)) 0.

(** The bytes of the table itself. *)
Definition table_bytes (g : alloc_globals) (a : Z) : Prop :=
  within a (FrameList g) (sizeof_Page * nframes g).

(** The table and the frames it describes fit the address space. *)
Record geometry_ok (g : alloc_globals) : Prop := {
  geo_base : PAGE <= FrameList g;
  geo_size : 0 <= LargestMemSegSize g;
  geo_fits : FrameList g + sizeof_Page * nframes g + PAGE <= 2 ^ 64;
  geo_end : frames_base g + PAGE * nframes g <= 2 ^ 64;
}.

Record table_ok (s : machine) : Prop := {
  tab_geo : geometry_ok (alloc_g s);
  tab_ptr : forall i, 0 <= i < nframes (alloc_g s) ->
    ld64 (mem s) (FrameList (alloc_g s) + sizeof_Page * i) = frame_addr (alloc_g s) i;
}.

(** The free frames among the [k] from index [i] on. *)
Fixpoint pool_from (g : alloc_globals) (m : gmap Z Z) (k : nat) (i : Z) : list Z :=
  match k with
  | O => []
  | S k => if frame_free g m i then frame_addr g i :: pool_from g m k (i + 1)
           else pool_from g m k (i + 1)
  end.
Definition pool (s : machine) : list Z :=
  pool_from (alloc_g s) (mem s) (Z.to_nat (nframes (alloc_g s))) 0.

Definition managed (g : alloc_globals) (p : Z) : Prop :=
  exists i, 0 <= i < nframes g /\ p = frame_addr g i.

Section Geometry.
Context (g : alloc_globals) (Hg : geometry_ok g).

Lemma nframes_nonneg : 0 <= nframes g.
Proof using Hg. destruct Hg. unfold nframes. lia. Qed.

Lemma frames_base_spec :
  frames_base g mod PAGE = 0 /\
  FrameList g + sizeof_Page * nframes g <= frames_base g
    < FrameList g + sizeof_Page * nframes g + PAGE.
Proof using Hg.
  pose proof nframes_nonneg. destruct Hg. unfold frames_base, sizeof_Page in *.
  change (2 ^ 64) with 18446744073709551616 in *.
  split; [apply ALIGN_UP_aligned | apply ALIGN_UP_bounds];
    change (2 ^ 64) with 18446744073709551616; lia.
Qed.

Lemma page_slot_eq i :
  0 <= i < nframes g -> page_slot (FrameList g) i = FrameList g + sizeof_Page * i.
Proof using Hg.
  intros Hi. destruct Hg. unfold page_slot, sizeof_Page in *. apply u64_small.
  change (2 ^ 64) with 18446744073709551616 in *. lia.
Qed.

Lemma page_flag_eq i :
  0 <= i < nframes g ->
  u64 (page_slot (FrameList g) i + 8) = FrameList g + sizeof_Page * i + 8.
Proof using Hg.
  intros Hi. rewrite page_slot_eq by done. destruct Hg. unfold sizeof_Page in *.
  apply u64_small. change (2 ^ 64) with 18446744073709551616 in *. lia.
Qed.

Lemma frame_addr_inj i j : frame_addr g i = frame_addr g j -> i = j.
Proof. unfold frame_addr. lia. Qed.

(** A frame is an aligned page above the table. *)
Lemma frame_addr_ok i :
  0 <= i < nframes g ->
  PAGE <= frame_addr g i /\ frame_addr g i + PAGE <= 2 ^ 64 /\
  frame_addr g i mod PAGE = 0 /\
  FrameList g + sizeof_Page * nframes g <= frame_addr g i.
Proof using Hg.
  intros Hi. destruct frames_base_spec as (Ha & Hb & _). destruct Hg.
  unfold frame_addr, sizeof_Page in *. change (2 ^ 64) with 18446744073709551616 in *. lia.
Qed.
End Geometry.

(** ** The pool as a function of the table *)

Lemma pool_from_ext g m m' k i :
  (forall j, i <= j < i + Z.of_nat k -> frame_free g m' j = frame_free g m j) ->
  pool_from g m' k i = pool_from g m k i.
Proof.
  revert i. induction k as [|k IH]; intros i H; [done|].
  cbn [pool_from]. rewrite (H i), IH by (intros; try apply H; lia). done.
Qed.

Lemma elem_of_pool_from g m k i p :
  p ∈ pool_from g m k i <->
  exists j, i <= j < i + Z.of_nat k /\ frame_free g m j = true /\ p = frame_addr g j.
Proof.
  revert i. induction k as [|k IH]; intros i; cbn [pool_from].
  { split; [by intros ?%not_elem_of_nil | intros (j & ? & _); lia]. }
  destruct (frame_free g m i) eqn:Hf.
  - rewrite elem_of_cons, IH. split.
    + intros [-> | (j & ? & ? & ->)]; [by exists i; split_and!; [lia|lia|..] |].
      exists j. split_and!; [lia | lia | done | done].
    + intros (j & Hj & Hfj & ->). destruct (decide (j = i)) as [->|]; [by left|].
      right. exists j. split_and!; [lia | lia | done | done].
  - rewrite IH. split; intros (j & Hj & Hfj & ->).
    + exists j. split_and!; [lia | lia | done | done].
    + exists j. split_and!; [ | lia | done | done].
      destruct (decide (j = i)) as [->|]; [congruence | lia].
Qed.

Lemma pool_from_nodup g m k i : NoDup (pool_from g m k i).
Proof.
  revert i. induction k as [|k IH]; intros i; cbn [pool_from]; [constructor|].
  destruct (frame_free g m i); [|done]. constructor; [|done].
  rewrite elem_of_pool_from. intros (j & ? & _ & ?%frame_addr_inj). lia.
Qed.

(** ** Running the operations *)

(** The memory after frame [j] was handed out. *)
Definition take_frame (g : alloc_globals) (m : gmap Z Z) (j : Z) : gmap Z Z :=
  let a := FrameList g + sizeof_Page * j + 8 in
  fill (st m 1 a (with_bit0 (rd m a) false)) (Z.to_nat PAGE) (frame_addr g j) 0.

(** The memory after frame [j] was given back. *)
Definition give_frame (g : alloc_globals) (m : gmap Z Z) (j : Z) : gmap Z Z :=
  let a := FrameList g + sizeof_Page * j + 8 in
  st m 1 a (with_bit0 (rd m a) true).

Lemma with_bit0_testbit b v : Z.testbit (u8 (with_bit0 b v)) 0 = v.
Proof.
  unfold u8. rewrite Z.mod_pow2_bits_low by lia. destruct v; cbn [with_bit0].
  - rewrite Z.lor_spec. apply orb_true_r.
  - rewrite Z.land_spec. apply andb_false_r.
Qed.

Section Run.
Context (s : machine) (Hok : table_ok s).
Notation g := (alloc_g s).

(** The flags and the frames are different bytes. *)
Lemma flag_not_frame i j :
  0 <= i < nframes g -> 0 <= j < nframes g ->
  ~ within (FrameList g + sizeof_Page * i + 8) (frame_addr g j) PAGE.
Proof using Hok.
  intros Hi Hj. destruct (frame_addr_ok g (tab_geo s Hok) j Hj) as (_ & _ & _ & ?).
  unfold within, sizeof_Page in *. lia.
Qed.

Lemma take_frame_rd j a :
  0 <= j < nframes g ->
  rd (take_frame g (mem s) j) a =
    if decide (page_bytes (frame_addr g j) a) then 0
    else if decide (a = FrameList g + sizeof_Page * j + 8)
         then u8 (with_bit0 (rd (mem s) a) false)
         else rd (mem s) a.
Proof using Hok.
  intros Hj. unfold take_frame. rewrite rd_fill. simpl st.
  change (Z.of_nat (Z.to_nat PAGE)) with PAGE.
  change (page_bytes (frame_addr g j) a) with (within a (frame_addr g j) PAGE).
  case_decide; [done|]. rewrite rd_wr. repeat case_decide; subst; done.
Qed.

Lemma slot_above j : 0 <= j < nframes g -> PAGE <= FrameList g + sizeof_Page * j.
Proof using Hok.
  intros. pose proof (geo_base _ (tab_geo s Hok)). unfold sizeof_Page. lia.
Qed.

Lemma get_free_run j :
  0 <= j < nframes g -> get_free (FrameList g) j s = Ok (frame_free g (mem s) j) s.
Proof using Hok.
  intros Hj. pose proof (slot_above j Hj). unfold get_free.
  rewrite page_flag_eq by (done || apply Hok).
  run_step. rewrite ld1_rd. done.
Qed.

Lemma set_free_run j v :
  0 <= j < nframes g ->
  let a := FrameList g + sizeof_Page * j + 8 in
  set_free (FrameList g) j v s
  = Ok tt (with_mem s (st (mem s) 1 a (with_bit0 (rd (mem s) a) v))).
Proof using Hok.
  intros Hj a. pose proof (slot_above j Hj). unfold set_free.
  rewrite page_flag_eq by (done || apply Hok).
  run_step. rewrite ld1_rd. by run_step.
Qed.

Lemma PageAlloc_take j n :
  0 <= j < nframes g -> frame_free g (mem s) j = true ->
  PageAlloc_loop (S n) j s
  = Ok (frame_addr g j) (with_mem s (take_frame g (mem s) j)).
Proof using Hok.
  intros Hj Hfree. cbn [PageAlloc_loop]. pose proof (tab_geo s Hok) as Hg.
  destruct (frame_addr_ok g Hg j Hj) as (Hpage & _ & _ & Habove).
  pose proof (slot_above j Hj).
  run_step. erewrite bind_Ok by (by apply get_free_run). rewrite Hfree.
  erewrite bind_Ok by (by apply set_free_run).
  rewrite page_slot_eq by done. run_step.
  assert (Hptr : forall v, ld64 (st (mem s) 1 (FrameList g + sizeof_Page * j + 8) v)
    (FrameList g + sizeof_Page * j) = frame_addr g j).
  { intros v. rewrite ld_st_ne by (unfold apart; lia). by apply (tab_ptr s Hok). }
  rewrite Hptr. erewrite bind_Ok by (by apply memset_run).
  rewrite load_ok by lia. unfold take_frame.
  match goal with |- Ok ?x _ = Ok ?y _ => enough (x = y) as -> by reflexivity end.
  erewrite ld_ext; [apply Hptr|]. intros i Hi. cbn [mem with_mem].
  rewrite rd_fill, decide_False; [done|].
  unfold within, sizeof_Page in *. lia.
Qed.

Lemma PageAlloc_skip j n :
  0 <= j < nframes g -> frame_free g (mem s) j = false ->
  PageAlloc_loop (S n) j s = PageAlloc_loop n (j + 1) s.
Proof using Hok.
  intros Hj Hfree. cbn [PageAlloc_loop]. run_step.
  erewrite bind_Ok by (by apply get_free_run). by rewrite Hfree.
Qed.

(** The scan finds the first free frame, or panics. *)
Lemma PageAlloc_loop_spec k i :
  0 <= i -> i + Z.of_nat k = nframes g ->
  match pool_from g (mem s) k i with
  | [] => PageAlloc_loop k i s = Halt (panic_state "No free mem left!" s)
  | p :: _ => exists j, i <= j < nframes g /\ p = frame_addr g j /\
      frame_free g (mem s) j = true /\
      PageAlloc_loop k i s = Ok p (with_mem s (take_frame g (mem s) j))
  end.
Proof using Hok.
  revert i. induction k as [|k IH]; intros i Hi Hk; cbn [pool_from].
  { reflexivity. }
  destruct (frame_free g (mem s) i) eqn:Hf.
  - exists i. split_and!; [lia | lia | done | done |]. apply PageAlloc_take; [lia|done].
  - rewrite PageAlloc_skip by (done || lia).
    specialize (IH (i + 1) ltac:(lia) ltac:(lia)).
    destruct (pool_from _ _ _ _); [done|]. destruct IH as (j & ? & ?).
    exists j. split; [lia | done].
Qed.
End Run.

(** ** Preservation and the effect on the pool *)

Lemma frame_free_ext g m m' i :
  same_on (table_bytes g) m m' -> 0 <= i < nframes g ->
  frame_free g m' i = frame_free g m i.
Proof.
  intros H Hi. unfold frame_free. rewrite (H _); [done|].
  unfold table_bytes, within, sizeof_Page. lia.
Qed.

Lemma table_stable s s' :
  table_ok s -> alloc_g s' = alloc_g s ->
  same_on (table_bytes (alloc_g s)) (mem s) (mem s') ->
  table_ok s' /\ pool s' = pool s.
Proof.
  intros [Hg Hp] Heq Hm. split; [split|].
  - by rewrite Heq.
  - rewrite Heq. intros i Hi. rewrite <- Hp by done.
    eapply same_on_ld; [exact Hm|]. unfold table_bytes, within, sizeof_Page. intros. lia.
  - unfold pool. rewrite Heq. apply pool_from_ext. intros j Hj.
    apply frame_free_ext; [done | lia].
Qed.

Section Effect.
Context (s : machine) (Hok : table_ok s).
Notation g := (alloc_g s).
Context (j : Z) (Hj : 0 <= j < nframes g).

(** Both operations write one flag byte of the table. *)
Lemma frame_free_flag m' v :
  (forall a, within a (FrameList g) (sizeof_Page * nframes g) ->
    rd m' a = if decide (a = FrameList g + sizeof_Page * j + 8)
              then u8 (with_bit0 (rd (mem s) a) v) else rd (mem s) a) ->
  table_ok (with_mem s m') /\
  forall i, 0 <= i < nframes g ->
    frame_free g m' i = if decide (i = j) then v else frame_free g (mem s) i.
Proof using Hok Hj.
  intros Hm. destruct Hok as [Hg Hp]. split; [split; [done|]|].
  - cbn [alloc_g with_mem mem]. intros i Hi. rewrite <- Hp by done.
    apply ld_ext. intros a Ha. unfold within, sizeof_Page in *.
    rewrite Hm, decide_False by lia. done.
  - intros i Hi. unfold frame_free. rewrite Hm by (unfold within, sizeof_Page; lia).
    repeat case_decide; subst; try done; try (unfold sizeof_Page in *; lia).
    apply with_bit0_testbit.
Qed.

Lemma take_frame_table a :
  within a (FrameList g) (sizeof_Page * nframes g) ->
  rd (take_frame g (mem s) j) a =
    if decide (a = FrameList g + sizeof_Page * j + 8)
    then u8 (with_bit0 (rd (mem s) a) false) else rd (mem s) a.
Proof using Hok Hj.
  intros Ha. rewrite take_frame_rd by done. apply decide_False.
  destruct (frame_addr_ok g (tab_geo s Hok) j Hj) as (_ & _ & _ & ?).
  unfold page_bytes, within, sizeof_Page in *. lia.
Qed.

Lemma give_frame_rd a :
  rd (give_frame g (mem s) j) a =
    if decide (a = FrameList g + sizeof_Page * j + 8)
    then u8 (with_bit0 (rd (mem s) a) true) else rd (mem s) a.
Proof.
  unfold give_frame. simpl. rewrite rd_wr. repeat case_decide; subst; done.
Qed.

Lemma take_frame_pool p ps :
  pool s = p :: ps -> p = frame_addr g j -> frame_free g (mem s) j = true ->
  pool (with_mem s (take_frame g (mem s) j)) = ps.
Proof using Hok Hj.
  intros Hpool -> Hfree. unfold pool in *. cbn [alloc_g with_mem mem].
  destruct (frame_free_flag (take_frame g (mem s) j) false) as [_ Hff].
  { intros. by apply take_frame_table. }
  pose proof (pool_from_nodup g (mem s) (Z.to_nat (nframes g)) 0) as Hnd.
  rewrite Hpool in Hnd. apply NoDup_cons in Hnd as [Hnin _].
  assert (Hfilter : forall k i, 0 <= i -> i + Z.of_nat k <= nframes g ->
    pool_from g (take_frame g (mem s) j) k i
    = filter (fun q => q <> frame_addr g j) (pool_from g (mem s) k i)).
  { induction k as [|k IH]; intros i Hi Hk; [done|]. cbn [pool_from].
    rewrite Hff, IH by lia. destruct (decide (i = j)) as [->|Hne].
    - rewrite Hfree. rewrite filter_cons_False by naive_solver. done.
    - destruct (frame_free g (mem s) i); [|done].
      rewrite filter_cons_True; [done|]. by intros ?%frame_addr_inj. }
  rewrite Hfilter, Hpool by lia.
  rewrite filter_cons_False by naive_solver.
  apply filter_all. by intros q Hq ->.
Qed.
End Effect.

(** [PageFree] on a page that is managed clears nothing else. *)
Section FreeRun.
Context (s : machine) (Hok : table_ok s).
Notation g := (alloc_g s).

Lemma PageFree_none k i p :
  0 <= i -> i + Z.of_nat k = nframes g ->
  (forall j, i <= j < nframes g -> p <> frame_addr g j) ->
  PageFree_loop k i p s = Ok tt s.
Proof using Hok.
  revert i. induction k as [|k IH]; intros i Hi Hk Hp; [done|].
  cbn [PageFree_loop]. pose proof (slot_above s Hok i ltac:(lia)).
  run_step. rewrite page_slot_eq by (lia || apply Hok).
  run_step. rewrite (tab_ptr s Hok) by lia.
  rewrite when_false; [|apply Z.eqb_neq; intros He; by apply (Hp i); [lia|]].
  run_step. apply IH; [lia | lia |]. intros. apply Hp. lia.
Qed.

End FreeRun.

Lemma PageFree_some s j k i :
  table_ok s -> 0 <= i <= j -> j < nframes (alloc_g s) -> i + Z.of_nat k = nframes (alloc_g s) ->
  PageFree_loop k i (frame_addr (alloc_g s) j) s
  = Ok tt (with_mem s (give_frame (alloc_g s) (mem s) j)).
Proof.
  intros Hok. revert i. induction k as [|k IH]; intros i Hi Hj Hk; [lia|].
  cbn [PageFree_loop]. pose proof (slot_above s Hok i ltac:(lia)).
  run_step. rewrite page_slot_eq by (lia || apply Hok).
  run_step. rewrite (tab_ptr s Hok) by lia.
  destruct (decide (i = j)) as [->|Hne].
  - rewrite when_true by (apply Z.eqb_refl).
    erewrite bind_Ok by (apply set_free_run; [done | lia]).
    destruct (frame_free_flag s Hok j ltac:(lia) (give_frame (alloc_g s) (mem s) j) true)
      as [Hok' _].
    { intros. by apply give_frame_rd. }
    apply (PageFree_none _ Hok'); cbn [alloc_g with_mem]; [lia | lia |].
    intros j' Hj' ?%frame_addr_inj. lia.
  - rewrite when_false; [|apply Z.eqb_neq; intros ?%frame_addr_inj; lia].
    run_step. apply IH; lia.
Qed.

(** ** The allocator is a [PageSource] *)

#[export] Instance frame_source : PageSource := {|
  page_alloc := PageAlloc;
  page_free := PageFree;
|}.

Lemma PageAlloc_unfold s : PageAlloc s = PageAlloc_loop (Z.to_nat (nframes (alloc_g s))) 0 s.
Proof. done. Qed.
Lemma PageFree_unfold p s :
  PageFree p s = PageFree_loop (Z.to_nat (nframes (alloc_g s))) 0 p s.
Proof. done. Qed.

Lemma frame_alloc_law s p ps :
  table_ok s -> pool s = p :: ps ->
  exists s', PageAlloc s = Ok p s' /\ table_ok s' /\ pool s' = ps /\
    zeroed (mem s') p PAGE /\ alloc_frame (table_bytes (alloc_g s)) p s s'.
Proof.
  intros Hok Hpool. pose proof (nframes_nonneg _ (tab_geo s Hok)).
  pose proof (PageAlloc_loop_spec s Hok (Z.to_nat (nframes (alloc_g s))) 0
    ltac:(lia) ltac:(lia)) as Hrun.
  fold (pool s) in Hrun. rewrite Hpool in Hrun.
  destruct Hrun as (j & Hj & -> & Hfree & Hrun).
  eexists. split; [by rewrite PageAlloc_unfold|]. split_and!.
  - eapply (frame_free_flag s Hok j Hj _ false). intros. by apply take_frame_table.
  - by eapply take_frame_pool.
  - intros a Ha. cbn [mem with_mem]. rewrite take_frame_rd by done. by case_decide.
  - split; [apply same_regs_with_mem|]. intros a [Ha Hna]. cbn [mem with_mem].
    rewrite take_frame_rd, decide_False by done. apply decide_False.
    intros ->. apply Hna. unfold table_bytes, within, sizeof_Page. lia.
Qed.

Lemma PageAlloc_none s : table_ok s -> pool s = [] -> PageAlloc s = Halt (panic_state "No free mem left!" s).
Proof.
  intros Hok Hpool. pose proof (nframes_nonneg _ (tab_geo s Hok)).
  pose proof (PageAlloc_loop_spec s Hok (Z.to_nat (nframes (alloc_g s))) 0
    ltac:(lia) ltac:(lia)) as Hrun.
  fold (pool s) in Hrun. by rewrite Hpool in Hrun.
Qed.

Lemma frame_alloc_none_law s : table_ok s -> pool s = [] -> exists msg, PageAlloc s = Halt (panic_state msg s).
Proof. intros. eexists. by apply PageAlloc_none. Qed.

Lemma frame_free_law s p :
  table_ok s -> managed (alloc_g s) p -> p ∉ pool s ->
  exists s', PageFree p s = Ok tt s' /\ table_ok s' /\ p :: pool s ≡ₚ pool s' /\
    same_regs s s' /\ same_on (fun a => ~ table_bytes (alloc_g s) a) (mem s) (mem s').
Proof.
  intros Hok (j & Hj & ->) Hnin. pose proof (nframes_nonneg _ (tab_geo s Hok)).
  destruct (frame_free_flag s Hok j Hj (give_frame (alloc_g s) (mem s) j) true)
    as [Hok' Hff].
  { intros. apply give_frame_rd. }
  eexists. split_and!.
  - rewrite PageFree_unfold. apply PageFree_some; (done || lia).
  - done.
  - apply NoDup_Permutation.
    + constructor; [done | apply pool_from_nodup].
    + apply pool_from_nodup.
    + intros q. unfold pool. cbn [alloc_g with_mem mem].
      rewrite elem_of_cons, !elem_of_pool_from. split.
      * intros [-> | (i & Hi & Hfi & ->)].
        { exists j. rewrite Hff, decide_True by (done || lia). split_and!; (done || lia). }
        exists i. rewrite Hff by lia. split_and!; [lia | lia | by case_decide | done].
      * intros (i & Hi & Hfi & ->). rewrite Hff in Hfi by lia.
        destruct (decide (i = j)) as [->|]; [by left | right].
        exists i. split_and!; (done || lia).
  - done.
  - intros a Ha. cbn [mem with_mem]. rewrite give_frame_rd. apply decide_False.
    intros ->. apply Ha. unfold table_bytes, within, sizeof_Page. lia.
Qed.

#[export, refine] Instance frame_source_ok : PageSourceOk := {|
  ps_inv := table_ok;
  ps_pool := pool;
  ps_owned := table_bytes;
  ps_managed := managed;
  ps_alloc := frame_alloc_law;
  ps_alloc_none := frame_alloc_none_law;
  ps_free := frame_free_law;
  ps_stable := table_stable;
  ps_pool_managed := _;
  ps_pool_nodup := _;
  ps_page_ok := _;
|}.
Proof.
  - intros s p Hok Hp. apply elem_of_pool_from in Hp as (j & Hj & _ & ->).
    pose proof (nframes_nonneg _ (tab_geo s Hok)). exists j. split; [lia | done].
  - intros s _. apply pool_from_nodup.
  - intros s p Hok (i & Hi & ->).
    destruct (frame_addr_ok _ (tab_geo s Hok) i Hi) as (? & ? & ? & ?).
    split_and!; [done.. |]. unfold page_bytes, table_bytes, within. intros. lia.
Defined.

(** ** Initialisation *)

(** What a region of memory gives: the globals [InitializeAllocator] sets. *)
Definition region_globals (e : limine_memmap_entry) : alloc_globals :=
  AllocGlobals (entry_base e) (entry_length e).

Section Init.
Context (g : alloc_globals) (Hg : geometry_ok g).

Lemma init_frames_run n i s :
  FrameList (alloc_g s) = FrameList g ->
  0 <= i -> i + Z.of_nat n = nframes g ->
  exists m', init_frames n i (u64 (frame_addr g i)) s = Ok tt (with_mem s m') /\
    (forall k, i <= k < nframes g ->
      ld64 m' (FrameList g + sizeof_Page * k) = frame_addr g k /\
      frame_free g m' k = true) /\
    (forall a, ~ within a (FrameList g + sizeof_Page * i) (sizeof_Page * Z.of_nat n) ->
      rd m' a = rd (mem s) a).
Proof using Hg.
  intros HF. revert i s HF. induction n as [|n IH]; intros i s HF Hi Hn.
  { exists (mem s). split_and!; [by destruct s | lia | done]. }
  assert (Hir : 0 <= i < nframes g) by lia.
  destruct (frame_addr_ok g Hg i Hir) as (Hpg & Hend & _ & Habove).
  assert (Hslot : PAGE <= FrameList g + sizeof_Page * i)
    by (destruct Hg; unfold sizeof_Page; lia).
  cbn [init_frames]. run_step. rewrite HF, page_flag_eq, page_slot_eq by done.
  run_step. run_step. rewrite (u64_small (frame_addr g i)) by lia.
  set (m1 := st (mem s) 8 (FrameList g + sizeof_Page * i) (frame_addr g i)).
  set (m2 := st m1 1 (FrameList g + sizeof_Page * i + 8) (with_bit0 0 true)).
  replace (frame_addr g i + PAGE) with (frame_addr g (i + 1)) by (unfold frame_addr; lia).
  destruct (IH (i + 1) (with_mem s m2)) as (m' & Hrun & Hin & Hout); [done | lia | lia |].
  exists m'. split_and!; [exact Hrun | |].
  - intros k Hk. destruct (decide (k = i)) as [->|]; [|apply Hin; lia]. split.
    + erewrite ld_ext with (m := m2).
      * unfold m2, m1. rewrite ld_st_ne by (unfold apart; lia).
        rewrite ld64_st_eq. apply u64_small. lia.
      * intros a Ha. apply Hout. unfold within, sizeof_Page in *. lia.
    + unfold frame_free. rewrite Hout by (unfold within, sizeof_Page; lia).
      cbn [mem with_mem]. unfold m2. simpl st. rewrite rd_wr_eq.
      exact (with_bit0_testbit 0 true).
  - intros a Ha. rewrite Hout by (unfold within, sizeof_Page in *; lia).
    cbn [mem with_mem]. unfold m2, m1.
    rewrite !rd_st_ne by (unfold within, sizeof_Page in *; lia). done.
Qed.

Lemma pool_from_all m k i :
  0 <= i -> (forall j, i <= j < i + Z.of_nat k -> frame_free g m j = true) ->
  pool_from g m k i = (fun j => frame_addr g j) <$> seqZ i (Z.of_nat k).
Proof.
  revert i. induction k as [|k IH]; intros i Hi H; [done|].
  cbn [pool_from]. rewrite (H i) by lia. rewrite seqZ_cons by lia. cbn [fmap list_fmap].
  rewrite IH; [|lia|intros; apply H; lia].
  replace (Z.pred (Z.of_nat (S k))) with (Z.of_nat k) by lia. done.
Qed.
End Init.

(** [InitializeAllocator] on a map whose largest usable region is [e]. *)
Lemma InitializeAllocator_shape mmap s e :
  largest_entry mmap = e -> entry_length e <> 0 -> geometry_ok (region_globals e) ->
  exists s', InitializeAllocator mmap s = Ok tt s' /\ table_ok s' /\
    s' = with_alloc (with_mem s (mem s')) (region_globals e) /\
    pool s' = (fun j => frame_addr (region_globals e) j) <$> seqZ 0 (nframes (region_globals e)) /\
    same_on (fun a => ~ table_bytes (region_globals e) a) (mem s) (mem s').
Proof.
  intros He Hlen Hg. set (g := region_globals e). pose proof (nframes_nonneg g Hg) as Hn.
  unfold InitializeAllocator. rewrite He.
  rewrite when_false by (apply Z.eqb_neq, Hlen). run_step. run_step.
  change (entry_length e / PAGE) with (nframes g).
  pose proof Hg as [Hb _ Hfit _]. cbn in Hb. fold g in Hfit.
  change (entry_base e) with (FrameList g) in *.
  assert (Hnext : ALIGN_UP (u64 (FrameList g + u64 (sizeof_Page * nframes g))) PAGE
                  = u64 (frame_addr g 0)).
  { unfold frame_addr, frames_base. rewrite (u64_small (sizeof_Page * nframes g)),
      (u64_small (FrameList g + _)) by (unfold sizeof_Page in *; lia).
    rewrite Z.mul_0_r, Z.add_0_r. unfold ALIGN_UP at 2. by rewrite u64_idem. }
  rewrite Hnext.
  destruct (init_frames_run g Hg (Z.to_nat (nframes g)) 0
    (with_alloc s (AllocGlobals (FrameList g) (LargestMemSegSize (alloc_g s)))))
    as (m' & Hrun & Hin & Hout); [done | lia | lia |].
  erewrite bind_Ok by exact Hrun.
  eexists. split_and!; [reflexivity | | done | |].
  - split; [done|]. intros i Hi. by apply Hin.
  - unfold pool. cbn [alloc_g with_alloc with_mem mem FrameList].
    change (AllocGlobals (FrameList g) (entry_length e)) with g.
    rewrite pool_from_all; [by rewrite Z2Nat.id by lia | lia |].
    intros j Hj. apply Hin. lia.
  - intros a Ha. cbn [mem with_alloc with_mem]. apply Hout.
    unfold table_bytes, within, sizeof_Page in *. lia.
Qed.
Lemma InitializeAllocator_run mmap s e :
  largest_entry mmap = e -> entry_length e <> 0 -> geometry_ok (region_globals e) ->
  exists s', InitializeAllocator mmap s = Ok tt s' /\ table_ok s' /\
    alloc_g s' = region_globals e /\
    pool s' = (fun j => frame_addr (region_globals e) j) <$> seqZ 0 (nframes (region_globals e)) /\
    same_on (fun a => ~ table_bytes (region_globals e) a) (mem s) (mem s').
Proof.
  intros He Hlen Hg. destruct (InitializeAllocator_shape mmap s e He Hlen Hg) as (s' & R & T & S & P & M).
  exists s'. split_and!; try done. by rewrite S.
Qed.

(** ** Correctness *)

Lemma largest_entry_fold mmap acc :
  entry_length (snd acc) = fst acc ->
  let r := foldl pick_entry acc mmap in
  entry_length (snd r) = fst r /\
  fst acc <= fst r /\
  (forall e, e ∈ mmap -> entry_type e = LIMINE_MEMMAP_USABLE -> entry_length e <= fst r) /\
  (r = acc \/ snd r ∈ mmap /\ entry_type (snd r) = LIMINE_MEMMAP_USABLE).
Proof.
  revert acc. induction mmap as [|e mmap IH]; intros [len le] Hacc; cbn [foldl].
  { split_and!; [done | done | by intros ? ?%not_elem_of_nil | by left]. }
  assert (Hstep : let a := pick_entry (len, le) e in
    entry_length (snd a) = fst a /\ len <= fst a /\
    (entry_type e = LIMINE_MEMMAP_USABLE -> entry_length e <= fst a) /\
    (a = (len, le) \/ a = (entry_length e, e) /\ entry_type e = LIMINE_MEMMAP_USABLE)).
  { unfold pick_entry. repeat case_Z; cbn in *; split_and!; (done || lia || auto). }
  destruct Hstep as (H1 & H2 & H3 & H4).
  destruct (IH (pick_entry (len, le) e) H1) as (R1 & R2 & R3 & R4).
  split_and!; [done | cbn in *; lia | |].
  - intros e' [->|He']%elem_of_cons Ht; [specialize (H3 Ht); lia | by apply R3].
  - destruct R4 as [-> | [? ?]]; [|right; split; [by right | done]].
    destruct H4 as [-> | [-> ?]]; [by left | right; split; [by left | done]].
Qed.

(** The first loop of [InitializeAllocator] selects a usable region at
    least as long as every usable region of the memory map. *)
Theorem largest_entry_correct mmap :
  let e := largest_entry mmap in
  (forall e', e' ∈ mmap -> entry_type e' = LIMINE_MEMMAP_USABLE ->
     entry_length e' <= entry_length e) /\
  (0 < entry_length e -> e ∈ mmap /\ entry_type e = LIMINE_MEMMAP_USABLE).
Proof.
  destruct (largest_entry_fold mmap (0, MemmapEntry 0 0 0)) as (H1 & _ & H3 & H4); [done|].
  unfold largest_entry. cbn zeta in *. split.
  - intros e' He Ht. rewrite H1. by apply H3.
  - intros Hpos. destruct H4 as [He | He]; [rewrite He in Hpos; cbn in Hpos; lia | done].
Qed.

(** C8. Allocation implements a pool of free pages: from a well-formed frame
    table [PageAlloc] hands out the head of the pool, zeroed, keeping the table
    well formed and changing only that page and the table; with an empty pool
    it panics. *)
Theorem PageAlloc_refines_pool s :
  table_ok s ->
  match pool s with
  | [] => PageAlloc s = Halt (panic_state "No free mem left!" s)
  | p :: ps => exists s', PageAlloc s = Ok p s' /\ table_ok s' /\ pool s' = ps /\
      p mod PAGE = 0 /\ zeroed (mem s') p PAGE /\
      alloc_frame (table_bytes (alloc_g s)) p s s'
  end.
Proof.
  intros Hok. destruct (pool s) as [|p ps] eqn:Hp; [by apply PageAlloc_none|].
  destruct (frame_alloc_law s p ps Hok Hp) as (s' & ? & ? & ? & ? & ?).
  destruct (@ps_alloc_page _ frame_source_ok s p ps Hok Hp) as (_ & _ & ? & _).
  exists s'. split_and!; done.
Qed.

(** C13. Whatever clients do - allocate, free pages they hold, write outside
    the table - the table stays well formed, and the pages held together with
    the free ones are exactly the initial pool, without duplicates: no page is
    handed out twice. *)
Theorem frames_never_shared s0 s live :
  table_ok s0 -> rtc source_step (s0, []) (s, live) ->
  table_ok s /\ live ++ pool s ≡ₚ pool s0 /\ NoDup (live ++ pool s).
Proof.
  intros Hok Hsteps.
  destruct (@source_reachable _ frame_source_ok s0 _ Hok Hsteps) as (_ & Hi & Hperm). cbn in *.
  split_and!; [done | done |]. rewrite Hperm. apply pool_from_nodup.
Qed.

(** Freeing a held page makes it allocatable again: it re-enters the
    pool, and if the pool was empty the next [PageAlloc] returns it. *)
Theorem PageFree_returns_page s p :
  table_ok s -> managed (alloc_g s) p -> p ∉ pool s ->
  exists s', PageFree p s = Ok tt s' /\ table_ok s' /\ p :: pool s ≡ₚ pool s' /\
    (pool s = [] -> exists s'', PageAlloc s' = Ok p s'').
Proof.
  intros Hok Hm Hnin. destruct (frame_free_law s p Hok Hm Hnin) as (s' & ? & ? & Hp & _).
  exists s'. split_and!; [done.. |]. intros Hnil. rewrite Hnil in Hp.
  apply Permutation_singleton_l in Hp.
  destruct (frame_alloc_law s' p []) as (s'' & ? & _); [done | done |]. by exists s''.
Qed.

(** C23. [InitializeAllocator] panics when no usable memory exists; otherwise
    it leaves a well-formed table at the base of the selected region with every
    frame free, in ascending order, and writes nothing but the table. *)
Theorem InitializeAllocator_correct mmap s :
  let e := largest_entry mmap in
  let g := region_globals e in
  geometry_ok g ->
  if entry_length e =? 0 then panicked (InitializeAllocator mmap s)
  else exists s', InitializeAllocator mmap s = Ok tt s' /\ table_ok s' /\
    pool s' = (fun j => frame_addr g j) <$> seqZ 0 (nframes g) /\
    same_on (fun a => ~ table_bytes g a) (mem s) (mem s').
Proof.
  intros e g Hg. case_Z.
  - unfold InitializeAllocator. fold e. rewrite when_true by (by apply Z.eqb_eq).
    destruct (panic_halts (A := unit) "Detected no free memory!" s) as [s' Hs'].
    exists s'. by erewrite bind_Halt.
  - destruct (InitializeAllocator_run mmap s e) as (s' & ? & ? & _ & ? & ?); try done.
    exists s'. split_and!; done.
Qed.

(** The frames overrun the region they are carved from: the table is
    placed in front of as many frames as the whole region holds, so for a
    page-aligned region length the last frame ends beyond the region. *)
Theorem frames_overrun_region e :
  let g := region_globals e in
  geometry_ok g -> 0 < entry_length e -> entry_length e mod PAGE = 0 ->
  entry_base e + entry_length e < frame_addr g (nframes g - 1) + PAGE.
Proof.
  intros g Hg Hpos Hal. destruct (frames_base_spec g Hg) as (_ & Hb & _).
  unfold frame_addr, sizeof_Page, nframes in *. cbn in *. lia.
Qed.

(** ** A concrete machine: one usable region of three pages at 1 MiB *)

Definition demo_map : list limine_memmap_entry :=
  [MemmapEntry 0x9000 0x2000 1; MemmapEntry 0x100000 0x3000 0; MemmapEntry 0x200000 0x1000 0].
Definition demo : machine :=
  match InitializeAllocator demo_map blank with Ok _ s => s | _ => blank end.

Lemma demo_geometry : geometry_ok (region_globals (largest_entry demo_map)).
Proof. split; vm_compute; congruence. Qed.

Lemma demo_facts :
  table_ok demo /\ alloc_g demo = AllocGlobals 0x100000 0x3000 /\
  pool demo = [0x101000; 0x102000; 0x103000] /\
  forall a, ~ within a 0x100000 48 -> rd (mem demo) a = 0.
Proof.
  destruct (InitializeAllocator_run demo_map blank _ eq_refl) as (s' & Hrun & Hok & Hg & Hp & Hm).
  - by vm_compute.
  - apply demo_geometry.
  - unfold demo. rewrite Hrun, Hg, Hp. split_and!; [done | by vm_compute.. |].
    intros a Ha. rewrite (Hm a Ha). done.
Qed.
Lemma demo_ok : table_ok demo.
Proof. apply demo_facts. Qed.
Lemma demo_alloc : alloc_g demo = AllocGlobals 0x100000 0x3000.
Proof. apply demo_facts. Qed.
Lemma demo_zero a : ~ within a 0x100000 48 -> rd (mem demo) a = 0.
Proof. apply demo_facts. Qed.
Lemma demo_pool : pool demo = [0x101000; 0x102000; 0x103000].
Proof. apply demo_facts. Qed.

#[global] Opaque demo.

Lemma PageAlloc_refines_pool_witness :
  table_ok demo /\ exists s', PageAlloc demo = Ok 0x101000 s' /\ pool s' = [0x102000; 0x103000].
Proof.
  split; [exact demo_ok|]. pose proof (PageAlloc_refines_pool demo demo_ok) as H.
  rewrite demo_pool in H. destruct H as (s' & ? & _ & ? & _). exists s'. split; assumption.
Defined.

Lemma frames_never_shared_witness :
  exists s', rtc source_step (demo, []) (s', [0x101000]) /\
    [0x101000] ++ pool s' ≡ₚ pool demo.
Proof.
  pose proof (frame_alloc_law demo _ _ demo_ok demo_pool) as (s' & Hrun & _).
  assert (Hs : rtc source_step (demo, []) (s', [0x101000]))
    by (apply rtc_once; by constructor).
  exists s'. split; [exact Hs|]. by apply (frames_never_shared demo s' _ demo_ok Hs).
Defined.

Lemma PageFree_returns_page_witness :
  exists s s', pool s = [0x102000; 0x103000] /\
    PageFree 0x101000 s = Ok tt s' /\ [0x101000; 0x102000; 0x103000] ≡ₚ pool s'.
Proof.
  destruct (frame_alloc_law demo _ _ demo_ok demo_pool) as (s & _ & Hok & Hp & _ & [Hr _]).
  destruct (PageFree_returns_page s 0x101000) as (s' & Hrun & _ & Hp' & _).
  - exact Hok.
  - rewrite (same_regs_alloc _ _ Hr), demo_alloc. exists 0. by vm_compute.
  - rewrite Hp. set_solver.
  - exists s, s'. split; [exact Hp|]. split; [exact Hrun|]. rewrite <- Hp', Hp. reflexivity.
Defined.

Lemma InitializeAllocator_correct_witness :
  exists s', InitializeAllocator demo_map blank = Ok tt s' /\ table_ok s'.
Proof.
  pose proof (InitializeAllocator_correct demo_map blank demo_geometry) as H.
  destruct H as (s' & ? & ? & _). exists s'. split; assumption.
Defined.

Lemma frames_overrun_region_witness :
  0x103000 < frame_addr (region_globals (MemmapEntry 0x100000 0x3000 0)) 2 + PAGE.
Proof.
  apply (frames_overrun_region (MemmapEntry 0x100000 0x3000 0)); [|by vm_compute..].
  split; vm_compute; congruence.
Defined.
