(* ===== verification/Heap.v ===== *)
(** mm/heapalloc/heap.c: malloc, calloc, aligned_alloc and free.

    A free block starts with a [struct HeapNode] (size, next); the free list is
    linked from the static [head].  [size] counts the header.  Blocks come from
    a [PageSource]. *)
From S2P Require Import Prelude Memory Machine PageSource.

Definition sizeof_HeapNode : Z := 16.

(** system14.h *)
Definition KSTATUS_SUCCESS : Z := 1.
Definition KSTATUS_FAIL : Z := 0.

(** ** Operations *)

Section Ops.
Context `{Statics} `{PageSource}.

(** Fields of the node at [p]. *)
Definition size_of (p : Z) : Z := p.
Definition next_of (p : Z) : Z := u64 (p + 8).

Definition CreateNode (addr size : Z) : M unit :=
  n ← load 8 (next_of addr_head);
  store 8 (next_of addr) n;;
  store 8 (size_of addr) size;;
  store 8 (next_of addr_head) addr.

(** The error path of [CombineBlocks]: [for (int i = numPages; i > 0; i--)]. *)
Fixpoint free_blocks (n : nat) (initial i : Z) : M unit :=
  match n with
  | O => ret tt
  | S n => page_free (u64 (initial + 4096 * i));; free_blocks n initial (i - 1)
  end.

(** [for (size_t i = 0; i < size; i += 4096)]; the result is [inl numPages],
    or [inr tt] once the function has returned KSTATUS_FAIL. *)
Fixpoint combine_loop (fuel : nat) (size initial i numPages : Z) : M (Z + unit) :=
  match fuel with
  | O => out_of_fuel
  | S fuel =>
      if i <? size then
        p ← page_alloc;
        if p =? 0 then
          free_blocks (Z.to_nat numPages) initial numPages;; ret (inr tt)
        else combine_loop fuel size initial (u64 (i + 4096)) (s32 (numPages + 1))
      else ret (inl numPages)
  end.

Definition CombineBlocks (size : Z) : M Z :=
  initial ← page_alloc;
  r ← combine_loop (Z.to_nat (size / 4096 + 2)) size initial 0 0;
  match r with
  | inr _ => ret KSTATUS_FAIL
  | inl numPages =>
      CreateNode initial (u64 (s32 (numPages * 4096)));; ret KSTATUS_SUCCESS
  end.

(** The tail of the loop body: take [current->next] if it fits, else go on. *)
Definition take_or (size current : Z) (go_on : Z -> M Z) : M Z :=
  nx ← load 8 (next_of current);
  sz ← load 8 (size_of nx);
  if u64 (sizeof_HeapNode + size) <=? sz then
    nn ← load 8 (next_of nx);
    store 8 (next_of current) nn;;
    ret nx
  else go_on nx.

Fixpoint find_loop (fuel : nat) (size current : Z) : M Z :=
  match fuel with
  | O => out_of_fuel
  | S fuel =>
      nx ← load 8 (next_of current);
      if nx =? 0 then
        if 4096 <=? u64 (size + sizeof_HeapNode) then
          r ← CombineBlocks size;
          if r =? KSTATUS_FAIL then ret 0 else find_loop fuel size addr_head
        else
          newblock ← page_alloc;
          if newblock =? 0 then ret 0
          else
            CreateNode newblock 4096;;
            take_or size current (find_loop fuel size)
      else take_or size current (find_loop fuel size)
  end.
Definition FindAndRemoveNode (fuel : nat) (size : Z) : M Z := find_loop fuel size addr_head.

(** [_alloc] once it has its node. *)
Definition alloc_from (size alignment node : Z) : M Z :=
  let base := u64 (node + sizeof_HeapNode) in
  let base_align := ALIGN_UP base alignment in
  let end_ := u64 (base_align + size) in
  nsz ← load 8 (size_of node);
  let innerSize := u64 (nsz - sizeof_HeapNode) in
  let extraSize := u64 (innerSize - size) in
  when (0 <? extraSize)
    (CreateNode end_ extraSize;;
     nsz ← load 8 (size_of node);
     store 8 (size_of node) (u64 (nsz - extraSize)));;
  ret base.

Definition _alloc (fuel : nat) (size alignment : Z) : M Z :=
  node ← FindAndRemoveNode fuel (u64 (size + (alignment - 1)));
  if node =? 0 then ret 0 else alloc_from size alignment node.

Definition malloc (fuel : nat) (size : Z) : M Z := _alloc fuel size 1.

Definition aligned_alloc (fuel : nat) (alignment size : Z) : M Z :=
  node ← _alloc fuel size alignment;
  if node =? 0 then ret 0 else ret (ALIGN_UP node alignment).

Definition calloc (fuel : nat) (size : Z) : M Z :=
  r ← malloc fuel size;
  when (negb (r =? 0)) (memset r 0 size);;
  ret r.

Definition free (addr : Z) : M unit :=
  let prevNode := u64 (addr - sizeof_HeapNode) in
  sz ← load 8 (size_of prevNode);
  CreateNode prevNode sz.
End Ops.

(** ** The free list, abstractly *)

(** A block is its address and its size, header included. *)
Notation block := (Z * Z)%type.

(** First fit: the first block of at least [need] bytes, and the other blocks. *)
Fixpoint take_fit (need : Z) (l : list block) : option (block * list block) :=
  match l with
  | [] => None
  | b :: l =>
      if need <=? b.2 then Some (b, l)
      else match take_fit need l with
           | Some (c, l') => Some (c, b :: l')
           | None => None
           end
  end.

(** What [malloc] leaves of the block [b] it took: the tail, if any. *)
Definition carve (size : Z) (b : block) (l : list block) : list block :=
  let extra := b.2 - sizeof_HeapNode - size in
  if 0 <? extra then (b.1 + sizeof_HeapNode + size, extra) :: l else l.

(** Headers pairwise apart. *)
Fixpoint headers_sep (l : list Z) : Prop :=
  match l with
  | [] => True
  | a :: l => (forall b, b ∈ l -> apart a 16 b 16) /\ headers_sep l
  end.

(** The chain of nodes from the pointer [p]. *)
Fixpoint chain (m : gmap Z Z) (p : Z) (l : list block) : Prop :=
  match l with
  | [] => p = 0
  | (a, sz) :: l => p = a /\ ld64 m a = sz /\ chain m (ld64 m (a + 8)) l
  end.

(** Addresses that can hold a node: above the null page, below the kernel. *)
Definition node_range (a : Z) : Prop := PAGE <= a /\ a + 16 <= KERNEL_BASE.

Lemma take_fit_Some need l b l' :
  take_fit need l = Some (b, l') ->
  exists l1 l2, l = l1 ++ b :: l2 /\ l' = l1 ++ l2 /\ need <= b.2 /\
    Forall (fun c => c.2 < need) l1.
Proof.
  revert l'. induction l as [|c l IH]; intros l' Hf; [done|]. cbn [take_fit] in Hf.
  destruct (Z.leb_spec need c.2).
  - simplify_eq. exists [], l'. by split_and!.
  - destruct (take_fit need l) as [[d l'']|]; [|done]. simplify_eq.
    destruct (IH l'' eq_refl) as (l1 & l2 & -> & -> & ? & ?).
    exists (c :: l1), l2. split_and!; [done.. |]. by constructor.
Qed.

Lemma take_fit_None need l : take_fit need l = None <-> Forall (fun c => c.2 < need) l.
Proof.
  induction l as [|c l IH]; cbn [take_fit]; [by split|].
  rewrite Forall_cons. destruct (Z.leb_spec need c.2).
  - split; [done | lia].
  - destruct (take_fit need l) as [[d l'']|].
    + split; [done | intros [_ Hl]; by apply IH in Hl].
    + split; [intros _; split; [done | by apply IH] | done].
Qed.

Lemma headers_sep_perm l l' : l ≡ₚ l' -> headers_sep l -> headers_sep l'.
Proof.
  induction 1 as [|a l l' Hp IH|a b l|l1 l2 l3 _ IH1 _ IH2]; cbn [headers_sep]; auto.
  - intros [Ha Hl]. split; [|auto]. intros b Hb. apply Ha. by rewrite Hp.
  - intros (Ha & Hb & Hl). split_and!; [|intros c Hc; apply Ha; by right|done].
    intros c [->|Hc]%elem_of_cons; [|by apply Hb].
    unfold apart in *. specialize (Ha a ltac:(left)). lia.
Qed.

(** A chain only depends on the headers of its nodes. *)
Lemma chain_same m m' p l :
  same_on (fun x => exists a, a ∈ l.*1 /\ within x a 16) m m' ->
  chain m p l -> chain m' p l.
Proof.
  revert p. induction l as [|[a sz] l IH]; intros p Hm; [done|].
  intros (-> & Hsz & Hc). cbn [chain].
  assert (Ha : forall x, within x a 16 -> rd m' x = rd m x).
  { intros x Hx. apply Hm. exists a. split; [left | done]. }
  split_and!; [done | |].
  - rewrite <- Hsz. apply ld_ext. intros x Hx. apply Ha. unfold within in *. lia.
  - rewrite (ld_ext m m'); [|intros x Hx; apply Ha; unfold within in *; lia].
    apply IH; [|done]. eapply same_on_weaken; [exact Hm|].
    intros x (b & Hb & Hx). exists b. split; [by right | done].
Qed.

(** ** Running the operations *)

Section Run.
Context `{StaticsOk} `{PageSourceOk}.

(** The heap's view of memory: [head] points to the chain [l]. *)
Definition heap_at (m : gmap Z Z) (l : list block) : Prop :=
  chain m (ld64 m (addr_head + 8)) l.

Lemma next_of_eq p : 0 <= p -> p + 16 <= 2 ^ 64 -> next_of p = p + 8.
Proof. unfold next_of. intros. apply u64_small. word. Qed.

Lemma next_of_node a : node_range a -> next_of a = a + 8.
Proof. unfold node_range, KERNEL_BASE. intros []. apply next_of_eq; word. Qed.

Lemma next_of_head : next_of addr_head = addr_head + 8.
Proof using All.
  destruct head_range as [? ?]. unfold KERNEL_BASE in *. apply next_of_eq; lia.
Qed.

Lemma node_head_apart a : node_range a -> apart a 16 addr_head 16.
Proof using All.
  unfold node_range, apart. destruct head_range as [? ?]. lia.
Qed.

(** [current] ranges over [&head] and nodes. *)
Definition cursor (c : Z) : Prop := c = addr_head \/ node_range c.

Lemma cursor_next c : cursor c -> next_of c = c + 8 /\ PAGE <= c + 8.
Proof using All.
  intros [-> | Hc]; [rewrite next_of_head | rewrite next_of_node by done].
  - destruct head_range as [? ?]. unfold KERNEL_BASE in *. lia.
  - destruct Hc. lia.
Qed.

(** The memory after [CreateNode]. *)
Definition created (m : gmap Z Z) (addr size : Z) : gmap Z Z :=
  st (st (st m 8 (addr + 8) (ld64 m (addr_head + 8))) 8 addr size) 8 (addr_head + 8) addr.

Lemma CreateNode_run s addr size :
  node_range addr -> CreateNode addr size s = Ok tt (with_mem s (created (mem s) addr size)).
Proof using All.
  intros Ha. pose proof (cursor_next _ (or_introl eq_refl)) as [Hn ?].
  pose proof Ha as [? ?].
  unfold CreateNode, size_of. rewrite Hn, next_of_node by done.
  run_step. run_step. run_step. by run_step.
Qed.

Lemma created_ld m addr size :
  node_range addr ->
  ld64 (created m addr size) (addr_head + 8) = u64 addr /\
  ld64 (created m addr size) addr = u64 size /\
  ld64 (created m addr size) (addr + 8) = ld64 m (addr_head + 8).
Proof using All.
  intros Ha. pose proof (node_head_apart addr Ha) as Hap. unfold created.
  rewrite ld64_st_eq. split_and!; [done | |].
  - rewrite ld_st_ne by (unfold apart in *; lia). apply ld64_st_eq.
  - rewrite !ld_st_ne by (unfold apart in *; lia). rewrite ld64_st_eq.
    pose proof (ld64_range m (addr_head + 8)). apply u64_small. lia.
Qed.

Lemma created_same m addr size :
  same_on (fun x => ~ within x addr 16 /\ ~ within x (addr_head + 8) 8)
    m (created m addr size).
Proof.
  intros x [Hx Hx']. unfold created, within in *.
  rewrite !rd_st_ne by (unfold within; lia). done.
Qed.

(** Pushing a node on the free list. *)
Lemma created_heap m l a sz :
  node_range a -> 0 <= sz < 2 ^ 64 ->
  Forall node_range l.*1 -> headers_sep (a :: l.*1) ->
  heap_at m l -> heap_at (created m a sz) ((a, sz) :: l).
Proof using All.
  intros Ha Hsz Hl [Hsep _] Hat. unfold heap_at.
  destruct (created_ld m a sz Ha) as (-> & Hs & Hn).
  destruct Ha as [Ha1 Ha2]. unfold KERNEL_BASE in Ha2.
  rewrite u64_small by word. cbn [chain]. split_and!; [done | |].
  - rewrite Hs. apply u64_small. word.
  - rewrite Hn. eapply chain_same; [|exact Hat].
    eapply same_on_weaken; [apply created_same|]. intros x (b & Hb & Hx).
    specialize (Hsep b Hb). rewrite Forall_forall in Hl. specialize (Hl b Hb).
    pose proof (node_head_apart b Hl). unfold apart, within in *. lia.
Qed.

(** ** Walking the list *)

(** Last node of the walk that starts at [c] and visits [l]. *)
Definition last_cursor (c : Z) (l : list block) : Z := default c (last l.*1).

Lemma find_step_skip fuel size c b l s :
  cursor c -> chain (mem s) (ld64 (mem s) (c + 8)) (b :: l) -> node_range b.1 ->
  b.2 < u64 (sizeof_HeapNode + size) ->
  find_loop (S fuel) size c s = find_loop fuel size b.1 s.
Proof using All.
  intros Hc Hch Hb Hsz. destruct b as [a sz]. cbn [chain fst snd] in *.
  destruct Hch as (Hp & Hs & _). destruct (cursor_next c Hc) as [Hn ?].
  destruct Hb as [? ?]. cbn [find_loop]. unfold take_or, size_of. rewrite Hn.
  run_step. rewrite Hp, (proj2 (Z.eqb_neq a 0)) by lia. run_step. rewrite Hp. run_step. rewrite Hs.
  case_Z; [lia | done].
Qed.

Lemma find_skip k size c l s :
  cursor c -> chain (mem s) (ld64 (mem s) (c + 8)) l -> Forall node_range l.*1 ->
  Forall (fun b => b.2 < u64 (sizeof_HeapNode + size)) l ->
  find_loop (length l + k) size c s = find_loop k size (last_cursor c l) s /\
  cursor (last_cursor c l) /\ ld64 (mem s) (last_cursor c l + 8) = 0.
Proof using All.
  revert c. induction l as [|b l IH]; intros c Hc Hch Hl Hsz.
  { cbn [length Nat.add last_cursor default last fmap list_fmap]. by split_and!. }
  apply Forall_cons in Hsz as [Hb Hsz]. apply Forall_cons in Hl as [Hr Hl].
  cbn [length Nat.add]. rewrite (find_step_skip _ _ _ b l) by done.
  destruct b as [a sz]. cbn [fst] in *. destruct Hch as (_ & _ & Hch).
  destruct (IH a) as (Hrun & Hcur & Hlast); [by right | done | done | done |].
  rewrite Hrun.
  unfold last_cursor in *. cbn [fmap list_fmap fst]. rewrite last_cons.
  destruct (last l.*1); by split_and!.
Qed.

(** The memory after unlinking the node [a] from behind [c]. *)
Definition unlinked (m : gmap Z Z) (c a : Z) : gmap Z Z := st m 8 (c + 8) (ld64 m (a + 8)).

Lemma find_step_fit fuel size c a sz l s :
  cursor c -> chain (mem s) (ld64 (mem s) (c + 8)) ((a, sz) :: l) -> node_range a ->
  u64 (sizeof_HeapNode + size) <= sz ->
  find_loop (S fuel) size c s = Ok a (with_mem s (unlinked (mem s) c a)).
Proof using All.
  intros Hc (Hp & Hs & _) Ha Hsz. destruct (cursor_next c Hc) as [Hn ?].
  cbn [find_loop]. unfold take_or, size_of. rewrite Hn. pose proof Ha as [? ?].
  run_step. rewrite Hp, (proj2 (Z.eqb_neq a 0)) by lia. run_step. rewrite Hp. run_step. rewrite Hs.
  case_Z; [|lia]. rewrite next_of_node by done. run_step. by run_step.
Qed.

Lemma take_or_fit size c a sz k s :
  cursor c -> ld64 (mem s) (c + 8) = a -> ld64 (mem s) a = sz -> node_range a ->
  u64 (sizeof_HeapNode + size) <= sz ->
  take_or size c k s = Ok a (with_mem s (unlinked (mem s) c a)).
Proof using All.
  intros Hc Hp Hs Ha Hsz. destruct (cursor_next c Hc) as [Hn ?].
  unfold take_or, size_of. rewrite Hn. pose proof Ha as [? ?].
  run_step. rewrite Hp. run_step. rewrite Hs.
  case_Z; [|lia]. rewrite next_of_node by done. run_step. by run_step.
Qed.

(** Taking the first fit out of the chain behind [c]. *)
Lemma find_fit fuel size c l b l' s :
  cursor c -> chain (mem s) (ld64 (mem s) (c + 8)) l -> Forall node_range l.*1 ->
  headers_sep (c :: l.*1) ->
  take_fit (u64 (sizeof_HeapNode + size)) l = Some (b, l') -> (length l <= fuel)%nat ->
  exists m', find_loop fuel size c s = Ok b.1 (with_mem s m') /\
    chain m' (ld64 m' (c + 8)) l' /\ ld64 m' b.1 = b.2 /\
    same_on (fun x => forall a, a ∈ c :: l.*1 -> ~ within x (a + 8) 8) (mem s) m'.
Proof using All.
  intros Hc Hch Hl Hsep Hfit Hfuel. revert c fuel l' Hc Hch Hsep Hfit Hfuel.
  induction l as [|[a sz] l IH]; intros c fuel l' Hc Hch Hsep Hfit Hfuel; [done|].
  apply Forall_cons in Hl as [Ha Hl]. cbn [fst] in Ha.
  cbn [fmap list_fmap fst headers_sep] in Hsep. destruct Hsep as (Hcsep & Hasep & Hlsep).
  destruct fuel as [|fuel]; [simpl in Hfuel; lia|].
  pose proof Hch as (Hp & Hs & Hch').
  cbn [take_fit snd] in Hfit. destruct (Z.leb_spec (u64 (sizeof_HeapNode + size)) sz).
  - injection Hfit as <- <-. cbn [fst snd].
    exists (unlinked (mem s) c a). split_and!.
    + by eapply find_step_fit.
    + unfold unlinked at 2. rewrite ld64_st_eq, u64_small by (apply ld64_range).
      eapply chain_same; [|exact Hch']. apply same_on_st. intros x (b & Hb & Hx).
      specialize (Hcsep b ltac:(by right)). unfold apart, within in *. lia.
    + rewrite <- Hs. apply ld_st_ne. specialize (Hcsep a ltac:(left)).
      unfold apart in *. lia.
    + apply same_on_st. intros x Hx. apply Hx. left.
  - destruct (take_fit _ l) as [[d l'']|] eqn:Hfit'; [|done]. injection Hfit as -> <-.
    destruct (IH Hl a fuel l'') as (m' & Hrun & Hch'' & Hsz & Hsame);
      [by right | done | by split | done | simpl in Hfuel; lia |].
    assert (Hfar : forall x, within x (c + 8) 8 \/ within x a 8 -> rd m' x = rd (mem s) x).
    { intros x Hx. apply Hsame. intros e He%elem_of_cons.
      specialize (Hcsep a ltac:(left)) as Hca.
      destruct He as [->|He]; [unfold apart, within in *; lia|].
      specialize (Hcsep e ltac:(by right)). specialize (Hasep e He).
      unfold apart, within in *. lia. }
    exists m'. split_and!.
    + rewrite (find_step_skip _ _ _ (a, sz) l) by done. done.
    + rewrite (ld_ext (mem s)) by (intros; apply Hfar; by left). rewrite Hp.
      cbn [chain]. split_and!; [done | | done].
      rewrite <- Hs. apply ld_ext. intros. apply Hfar. by right.
    + done.
    + eapply same_on_weaken; [exact Hsame|]. intros x Hx e He. apply Hx. by right.
Qed.
End Run.

(** ** The heap invariant *)

(** Blocks pairwise apart. *)
Fixpoint blocks_sep (l : list block) : Prop :=
  match l with
  | [] => True
  | b :: l => (forall c, c ∈ l -> apart b.1 b.2 c.1 c.2) /\ blocks_sep l
  end.

Definition block_ok (b : block) : Prop :=
  PAGE <= b.1 /\ sizeof_HeapNode <= b.2 /\ b.1 + b.2 <= KERNEL_BASE.

Lemma blocks_apart l b c :
  blocks_sep l -> b ∈ l -> c ∈ l -> b <> c -> apart b.1 b.2 c.1 c.2.
Proof.
  induction l as [|d l IH]; [by intros _ ?%not_elem_of_nil|]. intros [Hd Hl].
  intros [->|Hb]%elem_of_cons [->|Hc]%elem_of_cons Hne; [done | by apply Hd | | by apply IH].
  specialize (Hd b Hb). unfold apart in *. lia.
Qed.

Lemma blocks_sep_app l1 l2 :
  blocks_sep (l1 ++ l2) <->
  blocks_sep l1 /\ blocks_sep l2 /\
  (forall b c, b ∈ l1 -> c ∈ l2 -> apart b.1 b.2 c.1 c.2).
Proof.
  induction l1 as [|b l1 IH]; cbn [app blocks_sep].
  - split; [intros ?; split_and!; [done | done |] | by intros (_ & ? & _)].
    by intros ? ? ?%not_elem_of_nil.
  - rewrite IH. split.
    + intros (Hb & H1 & H2 & H12). split_and!; [| done | done |].
      * intros c Hc. apply Hb. set_solver.
      * intros c d [->|Hc]%elem_of_cons Hd; [apply Hb; set_solver | by apply H12].
    + intros ((Hb & H1) & H2 & H12). split_and!; [| done | done |].
      * intros c [Hc|Hc]%elem_of_app; [by apply Hb | apply H12; [left | done]].
      * intros c d Hc. apply H12. by right.
Qed.

Lemma blocks_headers_sep l :
  Forall block_ok l -> blocks_sep l -> headers_sep l.*1.
Proof.
  induction l as [|b l IH]; [done|]. intros [Hb Hl]%Forall_cons [Hsep Hls].
  cbn [fmap list_fmap headers_sep]. split; [|by apply IH].
  intros a Ha. apply list_elem_of_fmap in Ha as (c & -> & Hc).
  rewrite Forall_forall in Hl. specialize (Hl c Hc). specialize (Hsep c Hc).
  unfold block_ok, apart, sizeof_HeapNode in *. lia.
Qed.

Section Inv.
Context `{StaticsOk} `{PageSourceOk}.

(** What the list walk needs: headers in range and apart, out of reach of the
    page allocator. *)
Record heap_ok (s : machine) (l : list block) : Prop := {
  ho_pages : ps_inv s;
  ho_list : heap_at (mem s) l;
  ho_range : Forall node_range l.*1;
  ho_sep : headers_sep l.*1;
  ho_clear : forall a x, a ∈ l.*1 -> within x a 16 -> ~ ps_owned (alloc_g s) x;
  ho_pool : forall a p, a ∈ l.*1 -> p ∈ ps_pool s -> apart a 16 p PAGE;
  ho_low : forall p, p ∈ ps_pool s -> p + PAGE <= KERNEL_BASE;
  ho_head : forall x, within x addr_head 16 -> ~ ps_owned (alloc_g s) x;
}.

(** The full invariant: the free blocks themselves are apart, from each
    other, from the pool and from the allocator's bookkeeping. *)
Record heap_inv (s : machine) (l : list block) : Prop := {
  hi_pages : ps_inv s;
  hi_list : heap_at (mem s) l;
  hi_blocks : Forall block_ok l;
  hi_sep : blocks_sep l;
  hi_clear : forall b x, b ∈ l -> within x b.1 b.2 -> ~ ps_owned (alloc_g s) x;
  hi_pool : forall b p, b ∈ l -> p ∈ ps_pool s -> apart b.1 b.2 p PAGE;
  hi_low : forall p, p ∈ ps_pool s -> p + PAGE <= KERNEL_BASE;
  hi_head : forall x, within x addr_head 16 -> ~ ps_owned (alloc_g s) x;
}.

(** The block [b], in nobody's hands but ours. *)
Record block_free_of (s : machine) (l : list block) (b : block) : Prop := {
  bf_ok : block_ok b;
  bf_sep : forall c, c ∈ l -> apart b.1 b.2 c.1 c.2;
  bf_clear : forall x, within x b.1 b.2 -> ~ ps_owned (alloc_g s) x;
  bf_pool : forall p, p ∈ ps_pool s -> apart b.1 b.2 p PAGE;
}.

Lemma block_ok_range b : block_ok b -> node_range b.1.
Proof. unfold block_ok, node_range, sizeof_HeapNode. lia. Qed.

Lemma heap_inv_ok s l : heap_inv s l -> heap_ok s l.
Proof.
  intros [? ? Hb ? Hc Hp ? ?].
  assert (Hfst : forall a, a ∈ l.*1 -> exists b, b ∈ l /\ a = b.1 /\ block_ok b).
  { intros a (b & -> & Hb')%list_elem_of_fmap. rewrite Forall_forall in Hb.
    exists b. by split_and!; [| |apply Hb]. }
  split; try done.
  - apply Forall_fmap. eapply Forall_impl; [exact Hb|]. intros b. apply block_ok_range.
  - by apply blocks_headers_sep.
  - intros a x Ha Hx. destruct (Hfst a Ha) as (b & Hin & -> & _ & Hs & _).
    apply (Hc b x Hin). unfold within, sizeof_HeapNode in *. lia.
  - intros a p Ha Hp'. destruct (Hfst a Ha) as (b & Hin & -> & _ & Hs & _).
    specialize (Hp b p Hin Hp'). unfold apart, sizeof_HeapNode in *. lia.
Qed.

Lemma head_cursor : cursor addr_head.
Proof. by left. Qed.

(** Headers of the list and [head] itself are apart. *)
Lemma head_headers_sep (l : list block) :
  Forall node_range l.*1 -> headers_sep l.*1 -> headers_sep (addr_head :: l.*1).
Proof using All.
  intros Hr Hs. split; [|done]. intros a Ha. rewrite Forall_forall in Hr.
  pose proof (node_head_apart a (Hr a Ha)). unfold apart in *. lia.
Qed.

(** A write to the headers of the list or to [head] keeps the pages. *)
Lemma heap_write_pages s m' l :
  heap_ok s l ->
  same_on (fun x => ~ within x addr_head 16 /\ forall a, a ∈ l.*1 -> ~ within x a 16)
    (mem s) m' ->
  ps_inv (with_mem s m') /\ ps_pool (with_mem s m') = ps_pool s.
Proof using All.
  intros Hok Hm. apply ps_stable; [apply Hok | done |].
  eapply same_on_weaken; [exact Hm|]. intros x Hx. split.
  - intros Hw. by apply (ho_head s l Hok x).
  - intros a Ha Hw. by apply (ho_clear s l Hok a x).
Qed.

(** ** Taking a page *)

Lemma heap_ok_alloc s l p ps :
  heap_ok s l -> ps_pool s = p :: ps ->
  exists s', page_alloc s = Ok p s' /\ heap_ok s' l /\ ps_pool s' = ps /\
    node_range p /\ headers_sep (p :: l.*1) /\ zeroed (mem s') p PAGE /\
    (forall x, within x p PAGE -> ~ ps_owned (alloc_g s') x) /\
    (forall q, q ∈ ps -> apart p PAGE q PAGE) /\
    alloc_frame (ps_owned (alloc_g s)) p s s'.
Proof using All.
  intros Hok Hp. pose proof (ho_pages s l Hok) as Hi.
  destruct (ps_alloc s p ps Hi Hp) as (s' & Hrun & Hi' & Hp' & Hz & Hf).
  assert (Hg : alloc_g s' = alloc_g s) by (apply same_regs_alloc, Hf).
  assert (Hin : p ∈ ps_pool s) by (rewrite Hp; left).
  assert (Hman : ps_managed (alloc_g s) p) by (by apply ps_pool_managed).
  destruct (ps_page_ok s p Hi Hman) as (Hp1 & Hp2 & Hpa & Hpo).
  pose proof (ho_low s l Hok p Hin) as Hlow.
  assert (Hhead : forall x, within x addr_head 16 -> rd (mem s') x = rd (mem s) x).
  { intros x Hx. apply Hf. split; [|by apply (ho_head s l Hok)].
    destruct head_range. unfold page_bytes, within, KERNEL_BASE in *. lia. }
  assert (Hhdr : forall a x, a ∈ l.*1 -> within x a 16 -> rd (mem s') x = rd (mem s) x).
  { intros a x Ha Hx. apply Hf. split; [|by apply (ho_clear s l Hok a)].
    pose proof (ho_pool s l Hok a p Ha Hin).
    unfold page_bytes, apart, within in *. lia. }
  exists s'. split_and!; [done | | done | | | done | | | done].
  - split; try apply Hok; try done.
    + unfold heap_at. erewrite ld_ext with (m := mem s).
      * eapply chain_same; [|apply Hok]. intros x (a & Ha & Hx). by apply (Hhdr a).
      * intros x Hx. apply Hhead. unfold within in *. lia.
    + rewrite Hg. apply Hok.
    + intros a q Ha Hq. apply (ho_pool s l Hok a q Ha). rewrite Hp. rewrite Hp' in Hq.
      by right.
    + intros q Hq. apply (ho_low s l Hok). rewrite Hp. rewrite Hp' in Hq. by right.
    + rewrite Hg. apply Hok.
  - split; [done|]. word.
  - split; [|apply Hok]. intros a Ha. pose proof (ho_pool s l Hok a p Ha Hin).
    unfold apart in *. lia.
  - by rewrite Hg.
  - intros q Hq. assert (Hq' : q ∈ ps_pool s) by (rewrite Hp; by right).
    destruct (ps_page_ok s q Hi) as (_ & _ & Hqa & _); [by apply ps_pool_managed|].
    apply pages_apart; [done | done |].
    pose proof (ps_pool_nodup s Hi) as Hnd. rewrite Hp in Hnd.
    apply NoDup_cons in Hnd as [Hnin _]. congruence.
Qed.

(** ** Pushing a block *)

Lemma created_frame s l a sz :
  heap_ok s l -> node_range a ->
  (forall x, within x a 16 -> ~ ps_owned (alloc_g s) x) ->
  ps_inv (with_mem s (created (mem s) a sz)) /\
  ps_pool (with_mem s (created (mem s) a sz)) = ps_pool s.
Proof using All.
  intros Hok Ha Hc. apply ps_stable; [apply Hok | done |].
  eapply same_on_weaken; [apply created_same|]. intros x Hx. split; intros Hw.
  - by apply (Hc x).
  - apply (ho_head s l Hok x); [|done]. unfold within in *. lia.
Qed.

Lemma heap_ok_create s l a sz :
  heap_ok s l -> node_range a -> 0 <= sz < 2 ^ 64 -> headers_sep (a :: l.*1) ->
  (forall x, within x a 16 -> ~ ps_owned (alloc_g s) x) ->
  (forall p, p ∈ ps_pool s -> apart a 16 p PAGE) ->
  heap_ok (with_mem s (created (mem s) a sz)) ((a, sz) :: l).
Proof using All.
  intros Hok Ha Hsz Hsep Hc Hp.
  destruct (created_frame s l a sz Hok Ha Hc) as [Hi Hpool].
  split; cbn [fmap list_fmap fst] in *; try rewrite Hpool.
  - done.
  - apply created_heap; try done; apply Hok.
  - apply Forall_cons. split; [done | apply Hok].
  - done.
  - intros b x [->|Hb]%elem_of_cons Hx; [by apply Hc | by eapply (ho_clear s l Hok)].
  - intros b p [->|Hb]%elem_of_cons Hin; [by apply Hp | by apply (ho_pool s l Hok)].
  - apply Hok.
  - apply Hok.
Qed.

Lemma heap_inv_create s l b :
  heap_inv s l -> block_free_of s l b ->
  heap_inv (with_mem s (created (mem s) b.1 b.2)) (b :: l).
Proof using All.
  intros Hinv [Hb Hsep Hc Hp]. pose proof (heap_inv_ok s l Hinv) as Hok.
  pose proof (block_ok_range b Hb) as Hr. pose proof Hb as (Hb1 & Hb2 & Hb3).
  assert (Hok' : heap_ok (with_mem s (created (mem s) b.1 b.2)) (b :: l)).
  { destruct b as [a sz]. cbn [fst snd] in *. unfold sizeof_HeapNode in *.
    apply heap_ok_create; try done.
    - unfold KERNEL_BASE in *. word.
    - apply (blocks_headers_sep ((a, sz) :: l)).
      + apply Forall_cons. split; [done | apply Hinv].
      + split; [done | apply Hinv].
    - intros x Hx. apply Hc. unfold within in *. lia.
    - intros p Hin. specialize (Hp p Hin). unfold apart in *. lia. }
  assert (Hpool : ps_pool (with_mem s (created (mem s) b.1 b.2)) = ps_pool s).
  { eapply created_frame; [done | done |]. intros x Hx. apply Hc.
    unfold within, sizeof_HeapNode in *. lia. }
  split; try apply Hok'; try rewrite Hpool.
  - apply Forall_cons. split; [done | apply Hinv].
  - split; [done | apply Hinv].
  - intros c x [->|Hin]%elem_of_cons; [apply Hc | by apply (hi_clear s l Hinv)].
  - intros c p [->|Hin]%elem_of_cons; [apply Hp | by apply (hi_pool s l Hinv)].
Qed.

(** Removing blocks from the list of a full invariant, with new memory. *)
Lemma heap_inv_unlink s m' l1 b l2 :
  heap_inv s (l1 ++ b :: l2) ->
  same_on (fun x => forall a, a ∈ addr_head :: (l1 ++ b :: l2).*1 -> ~ within x (a + 8) 8)
    (mem s) m' ->
  heap_at m' (l1 ++ l2) ->
  heap_inv (with_mem s m') (l1 ++ l2) /\ block_free_of (with_mem s m') (l1 ++ l2) b /\
  ps_pool (with_mem s m') = ps_pool s.
Proof using All.
  intros Hinv Hm Hat. pose proof (heap_inv_ok _ _ Hinv) as Hok.
  destruct (heap_write_pages s m' _ Hok) as [Hi Hpool].
  { eapply same_on_weaken; [exact Hm|]. intros x [Hx Hx'] a Ha.
    apply elem_of_cons in Ha as [->|Ha]; [|specialize (Hx' a Ha)];
      unfold within in *; lia. }
  assert (Hsub : forall c, c ∈ l1 ++ l2 -> c ∈ l1 ++ b :: l2) by set_solver.
  pose proof (hi_blocks _ _ Hinv) as Hbl. pose proof (hi_sep _ _ Hinv) as Hsep.
  apply blocks_sep_app in Hsep as (Hs1 & [Hsb Hs2] & Hs12).
  split_and!; [split | split |]; try rewrite Hpool; try done.
  - apply Forall_app in Hbl as [? [_ ?]%Forall_cons]. by apply Forall_app.
  - apply blocks_sep_app. split_and!; [done | done |].
    intros c d Hc Hd. apply Hs12; [done | by right].
  - intros c x Hc. apply (hi_clear _ _ Hinv), Hsub, Hc.
  - intros c p Hc. apply (hi_pool _ _ Hinv), Hsub, Hc.
  - apply Hinv.
  - apply Hinv.
  - apply Forall_app in Hbl as [? [? _]%Forall_cons]. done.
  - intros c [Hc|Hc]%elem_of_app; [|by apply Hsb].
    specialize (Hs12 c b Hc ltac:(left)). unfold apart in *. lia.
  - intros x. apply (hi_clear _ _ Hinv). set_solver.
  - intros p. apply (hi_pool _ _ Hinv). set_solver.
Qed.
End Inv.

(** ** malloc *)

Lemma ALIGN_UP_1 v : 0 <= v < 2 ^ 64 -> ALIGN_UP v 1 = v.
Proof. intros. word. Qed.

(** Splitting [size] bytes off a block leaves nothing, or room for a header. *)
Definition clean_split (size : Z) (b : block) : Prop :=
  b.2 = sizeof_HeapNode + size \/ sizeof_HeapNode + size + sizeof_HeapNode <= b.2.

Section Malloc.
Context `{StaticsOk} `{PageSourceOk}.

(** [alloc_post s s' l b size]: [s'] results from handing out the first
    [16 + size] bytes of the block [b] and keeping the free list [l]. *)
Record alloc_post (s' : machine) (l : list block) (b : block) (size : Z) : Prop := {
  ap_inv : heap_inv s' (carve size b l);
  ap_header : ld64 (mem s') b.1 = sizeof_HeapNode + size;
  ap_block : block_free_of s' (carve size b l) (b.1, sizeof_HeapNode + size);
}.

(** Sub-blocks of a free block are as free. *)
Lemma block_free_sub s l b c :
  block_free_of s l b -> sizeof_HeapNode <= c.2 -> b.1 <= c.1 -> c.1 + c.2 <= b.1 + b.2 ->
  block_free_of s l c.
Proof.
  intros [(Hb1 & Hb2 & Hb3) Hsep Hc Hp] Hc2 Hlo Hhi. split.
  - unfold block_ok. lia.
  - intros d Hd. specialize (Hsep d Hd). unfold apart, sizeof_HeapNode in *. lia.
  - intros x Hx. apply Hc. unfold within in *. lia.
  - intros p Hd. specialize (Hp p Hd). unfold apart, sizeof_HeapNode in *. lia.
Qed.

(** Writes inside a block that is not on the list leave the heap alone. *)
Lemma heap_inv_write s l b m' :
  heap_inv s l -> block_free_of s l b ->
  same_on (fun x => ~ within x b.1 b.2) (mem s) m' ->
  heap_inv (with_mem s m') l /\ ps_pool (with_mem s m') = ps_pool s.
Proof using All.
  intros Hinv [(Hb1 & Hb2 & Hb3) Hsep Hc Hp] Hm.
  destruct (ps_stable s (with_mem s m') (hi_pages s l Hinv)) as [Hi Hpool]; [done | |].
  { eapply same_on_weaken; [exact Hm|]. intros x Hx Hw. by apply (Hc x). }
  split; [|done]. split; try rewrite Hpool; try apply Hinv; [done|].
  unfold heap_at. cbn [mem with_mem]. pose proof (hi_blocks s l Hinv) as Hbl.
  rewrite Forall_forall in Hbl. unfold block_ok, sizeof_HeapNode in *.
  rewrite (ld_ext (mem s)).
  - eapply chain_same; [|apply Hinv]. intros x (a & Ha & Hx). apply Hm.
    apply list_elem_of_fmap in Ha as (c & -> & Hin).
    specialize (Hsep c Hin). specialize (Hbl c Hin). unfold apart, within in *. lia.
  - intros x Hx. apply Hm. destruct head_range. unfold within, KERNEL_BASE in *. lia.
Qed.

Lemma block_free_pool s s' l b :
  alloc_g s' = alloc_g s -> ps_pool s' = ps_pool s ->
  block_free_of s l b -> block_free_of s' l b.
Proof. intros Hg Hp [? ? ? ?]. split; rewrite ?Hg, ?Hp; done. Qed.

Lemma alloc_from_whole s l b size :
  heap_inv s l -> block_free_of s l b -> ld64 (mem s) b.1 = b.2 ->
  0 <= size -> b.2 = sizeof_HeapNode + size ->
  alloc_from size 1 b.1 s = Ok (b.1 + sizeof_HeapNode) s.
Proof using All.
  intros Hinv [(Hb1 & Hb2 & Hb3) _ _ _] Hld Hsz Heq.
  unfold alloc_from, size_of, sizeof_HeapNode, KERNEL_BASE in *.
  rewrite (u64_small (b.1 + 16)), ALIGN_UP_1, (u64_small (b.1 + 16 + size)) by word.
  run_step. rewrite Hld, Heq, (u64_small (16 + size - 16)) by word.
  replace (16 + size - 16 - size) with 0 by lia.
  rewrite when_false by done. by run_step.
Qed.

Lemma alloc_from_split s l b size :
  heap_inv s l -> block_free_of s l b -> ld64 (mem s) b.1 = b.2 ->
  0 <= size -> sizeof_HeapNode + size < b.2 ->
  let tl := (b.1 + sizeof_HeapNode + size, b.2 - sizeof_HeapNode - size) in
  node_range tl.1 ->
  alloc_from size 1 b.1 s = Ok (b.1 + sizeof_HeapNode)
    (with_mem s (st (created (mem s) tl.1 tl.2) 8 b.1 (sizeof_HeapNode + size))).
Proof using All.
  intros Hinv [(Hb1 & Hb2 & Hb3) _ _ _] Hld Hsz Hle tl Htr.
  unfold alloc_from, size_of, sizeof_HeapNode, KERNEL_BASE in *.
  rewrite (u64_small (b.1 + 16)), ALIGN_UP_1, (u64_small (b.1 + 16 + size)) by word.
  run_step. rewrite Hld, (u64_small (b.2 - 16)), (u64_small (b.2 - 16 - size)) by word.
  rewrite when_true by (apply Z.ltb_lt; lia). rewrite bind_assoc.
  erewrite bind_Ok by (apply (CreateNode_run s tl.1 tl.2 Htr)).
  rewrite bind_assoc. run_step.
  replace (ld64 (created (mem s) tl.1 tl.2) b.1) with b.2.
  - replace (u64 (b.2 - (b.2 - 16 - size))) with (16 + size) by word. by run_step.
  - rewrite <- Hld. symmetry. eapply same_on_ld; [apply created_same|].
    intros x Hx. destruct head_range. unfold within, KERNEL_BASE in *. cbn [tl fst]. lia.
Qed.

Lemma alloc_from_spec s l b size :
  heap_inv s l -> block_free_of s l b -> ld64 (mem s) b.1 = b.2 ->
  0 <= size -> clean_split size b ->
  exists s', alloc_from size 1 b.1 s = Ok (b.1 + sizeof_HeapNode) s' /\
    alloc_post s' l b size /\ same_regs s s' /\ ps_pool s' = ps_pool s /\
    same_on (fun x => ~ within x (addr_head + 8) 8 /\
      (within x b.1 b.2 -> within x (b.1 + sizeof_HeapNode) size)) (mem s) (mem s').
Proof using All.
  intros Hinv Hfree Hld Hsz [Heq|Hle].
  - exists s. split_and!; [by eapply alloc_from_whole | | apply same_regs_refl | done | done].
    assert (Hcv : carve size b l = l)
      by (unfold carve; rewrite (proj2 (Z.ltb_ge _ _)) by lia; done).
    split; rewrite ?Hcv; [done | by rewrite Hld |]. destruct b. cbn [snd] in Heq. by subst.
  - set (tl := (b.1 + sizeof_HeapNode + size, b.2 - sizeof_HeapNode - size)).
    assert (Hcv : carve size b l = tl :: l)
      by (unfold carve, sizeof_HeapNode in *; rewrite (proj2 (Z.ltb_lt _ _)) by lia; done).
    assert (Htl : block_free_of s l tl).
    { eapply block_free_sub; [exact Hfree | | |]; subst tl; unfold sizeof_HeapNode in *;
        cbn [fst snd]; lia. }
    pose proof (heap_inv_create s l tl Hinv Htl) as Hinv1.
    set (s1 := with_mem s (created (mem s) tl.1 tl.2)) in *.
    assert (Hpool1 : ps_pool s1 = ps_pool s).
    { apply (created_frame s l); [by apply heap_inv_ok | apply block_ok_range, Htl |].
      intros x Hx. apply Htl. destruct Htl as [(_ & ? & _) _ _ _].
      unfold within, sizeof_HeapNode in *. lia. }
    assert (Hmine : block_free_of s1 (tl :: l) (b.1, sizeof_HeapNode + size)).
    { apply (block_free_pool s); [done | done |].
      pose proof (block_free_sub s l b (b.1, sizeof_HeapNode + size) Hfree) as Hsub.
      cbn [fst snd] in Hsub. destruct Hsub as [? Hs ? ?];
        [unfold sizeof_HeapNode; lia | lia | unfold sizeof_HeapNode in *; lia |].
      split; [done | | done | done]. intros c [->|Hc]%elem_of_cons; [|by apply Hs].
      unfold apart. subst tl. cbn [fst snd]. lia. }
    set (m2 := st (mem s1) 8 b.1 (sizeof_HeapNode + size)).
    assert (Hm2 : same_on (fun x => ~ within x b.1 8) (mem s1) m2) by (by apply same_on_st).
    destruct (heap_inv_write s1 (tl :: l) _ m2 Hinv1 Hmine) as [Hinv2 Hpool2].
    { eapply same_on_weaken; [exact Hm2|]. intros x Hx. unfold within, sizeof_HeapNode in *. cbn [fst snd] in *. lia. }
    exists (with_mem s1 m2). split_and!; [| | done | congruence |].
    + eapply alloc_from_split; try done; [unfold sizeof_HeapNode in *; lia |].
      by apply block_ok_range, Htl.
    + split; rewrite ?Hcv; [done | | by apply (block_free_pool s1)].
      cbn [mem with_mem]. unfold m2. rewrite ld64_st_eq. apply u64_small.
      destruct Hfree as [(? & ? & ?) _ _ _]. unfold sizeof_HeapNode, KERNEL_BASE in *. word.
    + intros x [Hx Hx']. cbn [mem with_mem].
      rewrite Hm2 by (unfold within, sizeof_HeapNode in *; lia). apply created_same.
      subst tl. unfold within, sizeof_HeapNode in *. cbn [fst snd]. lia.
Qed.

(** Addresses the heap does not touch while it serves requests from [l]. *)
Definition outside (l : list block) (x : Z) : Prop :=
  ~ within x addr_head 16 /\ forall b, b ∈ l -> ~ within x b.1 b.2.
(** And the [size] bytes that a request for them takes from the free block [b]. *)
Definition spared (l : list block) (b : block) (size x : Z) : Prop :=
  outside l x \/ within x (b.1 + sizeof_HeapNode) size.

Lemma outside_headers l x :
  Forall block_ok l -> outside l x ->
  forall a, a ∈ addr_head :: l.*1 -> ~ within x (a + 8) 8.
Proof.
  intros Hl [Hh Hx] a [->|Ha]%elem_of_cons; [unfold within in *; lia|].
  apply list_elem_of_fmap in Ha as (b & -> & Hb). specialize (Hx b Hb).
  rewrite Forall_forall in Hl. specialize (Hl b Hb).
  unfold block_ok, within, sizeof_HeapNode in *. lia.
Qed.

(** What a search that returns the node of [b] leaves behind. *)
Record found (s s1 : machine) (l l' : list block) (b : block) : Prop := {
  fd_inv : heap_inv s1 l';
  fd_block : block_free_of s1 l' b;
  fd_size : ld64 (mem s1) b.1 = b.2;
  fd_regs : same_regs s s1;
}.

Lemma find_fit_run fuel size s l b l' :
  heap_inv s l -> 0 <= size -> sizeof_HeapNode + size < 2 ^ 64 ->
  take_fit (sizeof_HeapNode + size) l = Some (b, l') -> (length l <= fuel)%nat ->
  exists s1, FindAndRemoveNode fuel size s = Ok b.1 s1 /\ found s s1 l l' b /\
    ps_pool s1 = ps_pool s /\
    same_on (fun x => forall a, a ∈ addr_head :: l.*1 -> ~ within x (a + 8) 8) (mem s) (mem s1).
Proof using All.
  intros Hinv Hsz Hnw Hfit Hfuel. pose proof (heap_inv_ok s l Hinv) as Hok.
  assert (Hfit' : take_fit (u64 (sizeof_HeapNode + size)) l = Some (b, l'))
    by (rewrite u64_small by (unfold sizeof_HeapNode in *; word); done).
  destruct (find_fit fuel size addr_head l b l' s head_cursor (ho_list s l Hok)
    (ho_range s l Hok) (head_headers_sep l (ho_range s l Hok) (ho_sep s l Hok)) Hfit' Hfuel)
    as (m' & Hrun & Hch & Hld & Hsame).
  destruct (take_fit_Some _ _ _ _ Hfit) as (l1 & l2 & -> & -> & _).
  destruct (heap_inv_unlink s m' l1 b l2 Hinv Hsame Hch) as (? & ? & ?).
  exists (with_mem s m'). split_and!; [done | by split | done | exact Hsame].
Qed.

Lemma find_fit_spec fuel size s l b l' :
  heap_inv s l -> 0 <= size -> sizeof_HeapNode + size < 2 ^ 64 ->
  take_fit (sizeof_HeapNode + size) l = Some (b, l') -> (length l <= fuel)%nat ->
  exists s1, FindAndRemoveNode fuel size s = Ok b.1 s1 /\ found s s1 l l' b /\
    ps_pool s1 = ps_pool s /\ same_on (outside l) (mem s) (mem s1).
Proof using All.
  intros Hinv Hsz Hnw Hfit Hfuel.
  destruct (find_fit_run fuel size s l b l' Hinv Hsz Hnw Hfit Hfuel) as (s1 & Hrun & Hfd & Hp & Hm).
  exists s1. split_and!; [done | done | done |]. eapply same_on_weaken; [exact Hm|]. intros x Hx.
  cbv beta. apply outside_headers; [apply Hinv | done].
Qed.

Lemma malloc_found fuel size s s1 l l' b :
  FindAndRemoveNode fuel size s = Ok b.1 s1 -> found s s1 l l' b ->
  0 <= size < 2 ^ 64 -> clean_split size b ->
  exists s', malloc fuel size s = Ok (b.1 + sizeof_HeapNode) s' /\
    alloc_post s' l' b size /\ same_regs s s' /\ ps_pool s' = ps_pool s1 /\
    same_on (fun x => ~ within x (addr_head + 8) 8 /\
      (within x b.1 b.2 -> within x (b.1 + sizeof_HeapNode) size)) (mem s1) (mem s').
Proof using All.
  intros Hrun [Hinv Hb Hld Hr] Hsz Hclean.
  destruct (alloc_from_spec s1 l' b size) as (s' & Hfrom & Hpost & Hr' & Hp & Hm);
    [done | done | done | lia | done |].
  exists s'. split_and!; [| done | by eapply same_regs_trans | done | done].
  unfold malloc, _alloc. replace (u64 (size + (1 - 1))) with size by word.
  erewrite bind_Ok by exact Hrun. destruct Hb as [(Hb & _) _ _ _].
  rewrite (proj2 (Z.eqb_neq _ _)) by lia. done.
Qed.

Lemma malloc_fit_run fuel size s l b l' :
  heap_inv s l -> 0 <= size -> sizeof_HeapNode + size < 2 ^ 64 ->
  take_fit (sizeof_HeapNode + size) l = Some (b, l') -> clean_split size b ->
  (length l <= fuel)%nat ->
  exists s', malloc fuel size s = Ok (b.1 + sizeof_HeapNode) s' /\
    alloc_post s' l' b size /\ same_regs s s' /\ ps_pool s' = ps_pool s /\
    same_on (spared l b size) (mem s) (mem s').
Proof using All.
  intros Hinv Hsz Hnw Hfit Hclean Hfuel.
  destruct (find_fit_run fuel size s l b l') as (s1 & Hrun & Hfd & Hp & Hm); try done.
  destruct (malloc_found fuel size s s1 l l' b Hrun Hfd) as (s' & ? & ? & ? & Hp' & Hm');
    [unfold sizeof_HeapNode in *; lia | done |].
  exists s'. split_and!; [done | done | done | congruence |].
  destruct (take_fit_Some _ _ _ _ Hfit) as (l1 & l2 & Hl & _ & Hle & _).
  assert (Hb : b ∈ l) by (rewrite Hl; set_solver). pose proof (hi_blocks _ _ Hinv) as Hok.
  assert (Hpay : forall x, within x (b.1 + sizeof_HeapNode) size ->
    forall a, a ∈ addr_head :: l.*1 -> ~ within x (a + 8) 8).
  { rewrite Forall_forall in Hok. destruct (Hok b Hb) as (Hb1 & _ & Hb3). destruct head_range as [Hk _].
    intros x Hx a [->|(c & -> & Hc)%list_elem_of_fmap]%elem_of_cons; [unfold within in *; lia|].
    destruct (decide (b = c)) as [<-|Hne]; [unfold within, sizeof_HeapNode in *; lia|].
    destruct (Hok c Hc) as (_ & Hc2 & _).
    pose proof (blocks_apart l b c (hi_sep _ _ Hinv) Hb Hc Hne).
    unfold apart, within, sizeof_HeapNode in *. lia. }
  etransitivity; [eapply same_on_weaken; [exact Hm|] | eapply same_on_weaken; [exact Hm'|]]; intros x [Hx|Hx].
  - by apply outside_headers.
  - by apply Hpay.
  - destruct Hx as [Hh Hx]. split; [unfold within in *; lia|]. intros Hw. by destruct (Hx b Hb).
  - split; [apply (Hpay x Hx); left | done].
Qed.

Lemma malloc_fit_spec fuel size s l b l' :
  heap_inv s l -> 0 <= size -> sizeof_HeapNode + size < 2 ^ 64 ->
  take_fit (sizeof_HeapNode + size) l = Some (b, l') -> clean_split size b ->
  (length l <= fuel)%nat ->
  exists s', malloc fuel size s = Ok (b.1 + sizeof_HeapNode) s' /\
    alloc_post s' l' b size /\ same_regs s s' /\ ps_pool s' = ps_pool s /\
    same_on (outside l) (mem s) (mem s').
Proof using All.
  intros Hinv Hsz Hnw Hfit Hclean Hfuel.
  destruct (malloc_fit_run fuel size s l b l') as (s' & ? & ? & ? & ? & Hm); try done.
  exists s'. split_and!; [done..|]. eapply same_on_weaken; [exact Hm|]. intros x Hx. by left.
Qed.

(** ** An empty list: one page is enough for a small request *)

(** The search in an empty list is the search after the page has been pushed. *)
Lemma refill_page s p ps :
  heap_inv s [] -> ps_pool s = p :: ps ->
  exists s1, heap_inv s1 [(p, PAGE)] /\ ps_pool s1 = ps /\ same_regs s s1 /\
    same_on (fun x => ~ within x addr_head 16 /\ ~ page_bytes p x /\
                      ~ ps_owned (alloc_g s) x) (mem s) (mem s1) /\
    (forall x, within x (p + sizeof_HeapNode) (PAGE - sizeof_HeapNode) -> rd (mem s1) x = 0) /\
    forall fuel size, 0 <= size -> size + sizeof_HeapNode < PAGE ->
      FindAndRemoveNode (S fuel) size s = FindAndRemoveNode (S fuel) size s1.
Proof using All.
  intros Hinv Hp. pose proof (heap_inv_ok s [] Hinv) as Hok.
  destruct (heap_ok_alloc s [] p ps Hok Hp)
    as (sa & Hrun & Hok1 & Hp1 & Hpr & Hps & Hz & Hown & Hap & [Hr Hf]).
  assert (Hlow : p + PAGE <= KERNEL_BASE).
  { apply (ho_low s [] Hok). rewrite Hp. left. }
  pose proof Hpr as [Hp4096 _].
  assert (Hnil : heap_inv sa []).
  { split; try apply Hok1; try done; intros ? ? ?%not_elem_of_nil; done. }
  assert (Hfree : block_free_of sa [] (p, PAGE)).
  { split; cbn [fst snd].
    - unfold block_ok, sizeof_HeapNode. cbn [fst snd]. lia.
    - by intros ? ?%not_elem_of_nil.
    - done.
    - intros q Hq. apply Hap. by rewrite <- Hp1. }
  pose proof (heap_inv_create sa [] (p, PAGE) Hnil Hfree) as Hinv2. cbn [fst snd] in Hinv2.
  set (m2 := created (mem sa) p PAGE) in *.
  destruct (cursor_next _ head_cursor) as [Hnx ?].
  pose proof (hi_list _ _ Hinv2) as (Hhd & _). cbn [mem with_mem] in Hhd.
  exists (with_mem sa m2). split_and!; [done | | exact (same_regs_trans _ _ _ Hr (same_regs_with_mem _ _)) | | |].
  - rewrite <- Hp1. apply (created_frame sa []); [done | done |].
    intros x Hx. apply Hown. unfold within in *. lia.
  - intros x (Hx1 & Hx2 & Hx3). cbn [mem with_mem]. unfold m2.
    rewrite created_same by (unfold page_bytes, within in *; lia). by apply Hf.
  - intros x Hx. cbn [mem with_mem]. unfold m2. destruct head_range as [Hk _]. unfold KERNEL_BASE in *.
    rewrite created_same by (unfold within, sizeof_HeapNode in *; lia).
    apply Hz. unfold within, sizeof_HeapNode in *. lia.
  - intros fuel size Hsz Hsmall. unfold FindAndRemoveNode. cbn [find_loop]. rewrite Hnx. run_step.
    pose proof (hi_list _ _ Hinv) as Hl0. unfold heap_at in Hl0. cbn [chain] in Hl0.
    rewrite Hl0. cbn [Z.eqb]. rewrite u64_small by (unfold sizeof_HeapNode in *; lia).
    rewrite (proj2 (Z.leb_gt _ _)) by lia. erewrite bind_Ok by exact Hrun.
    rewrite (proj2 (Z.eqb_neq _ _)) by lia. erewrite bind_Ok by (by apply CreateNode_run).
    fold m2. symmetry. run_step. by rewrite Hhd, (proj2 (Z.eqb_neq p 0)) by lia.
Qed.

Lemma find_empty_spec fuel size s p ps :
  heap_inv s [] -> 0 <= size -> size + sizeof_HeapNode < PAGE -> ps_pool s = p :: ps ->
  exists s1, FindAndRemoveNode (S fuel) size s = Ok p s1 /\ found s s1 [] [] (p, PAGE) /\
    ps_pool s1 = ps /\
    same_on (fun x => ~ within x addr_head 16 /\ ~ page_bytes p x /\
                      ~ ps_owned (alloc_g s) x) (mem s) (mem s1).
Proof using All.
  intros Hinv Hsz Hsmall Hp.
  destruct (refill_page s p ps Hinv Hp) as (s0 & Hinv0 & Hp0 & Hr & Hm0 & _ & Hrun).
  destruct (find_fit_spec (S fuel) size s0 [(p, PAGE)] (p, PAGE) [] Hinv0)
    as (s1 & Hrun1 & [F1 F2 F3 F4] & Hp1 & Hm1); [done | unfold sizeof_HeapNode in *; word | | cbn; lia |].
  { cbn [take_fit snd]. by rewrite (proj2 (Z.leb_le _ _)) by lia. }
  exists s1. split_and!; [by rewrite Hrun | | congruence |].
  - split; try done. by eapply same_regs_trans.
  - etransitivity; [exact Hm0|]. eapply same_on_weaken; [exact Hm1|].
    intros x (Hx & Hx' & _). split; [done|]. by intros b ->%list_elem_of_singleton.
Qed.
End Malloc.

(** ** Failures of the search *)

Section Failures.
Context `{StaticsOk} `{PageSourceOk}.

(** The last node of a non-empty list. *)
Lemma last_cursor_in c (l : list block) : l <> [] -> last_cursor c l ∈ l.*1.
Proof.
  intros Hl. unfold last_cursor. destruct (last l.*1) as [a|] eqn:E.
  - by apply last_Some_elem_of.
  - apply last_None in E. by destruct l.
Qed.

(** No fit, and a request below a page: the new page goes to the front of the
    list, while [current] is still the last node, whose [next] is NULL. *)
Lemma find_null_fault fuel size s l p ps :
  heap_ok s l -> l <> [] -> 0 <= size -> size + sizeof_HeapNode < PAGE ->
  Forall (fun b => b.2 < sizeof_HeapNode + size) l -> ps_pool s = p :: ps ->
  (length l < fuel)%nat ->
  exists s', FindAndRemoveNode fuel size s = Fault 0 s'.
Proof using All.
  intros Hok Hl Hsz Hsmall Hno Hp Hfuel.
  destruct (find_skip (fuel - length l) size addr_head l s head_cursor (ho_list s l Hok)
    (ho_range s l Hok)) as (Hwalk & Hcur & Hend).
  { eapply Forall_impl; [exact Hno|]. intros b.
    rewrite u64_small by (unfold sizeof_HeapNode in *; lia). done. }
  unfold FindAndRemoveNode. replace fuel with (length l + (fuel - length l))%nat by lia.
  rewrite Hwalk. destruct (fuel - length l)%nat as [|k] eqn:Hk; [lia|].
  destruct (heap_ok_alloc s l p ps Hok Hp)
    as (sa & Hrun & Hok1 & _ & Hpr & [Hps _] & _ & _ & _ & [_ Hf]).
  pose proof (last_cursor_in addr_head l Hl) as Hin.
  set (c := last_cursor addr_head l) in *.
  assert (Hcr : node_range c).
  { pose proof (ho_range s l Hok) as Hr. rewrite Forall_forall in Hr. by apply Hr. }
  destruct (cursor_next c Hcur) as [Hn ?]. pose proof Hpr as [? ?].
  assert (Hnull : ld64 (created (mem sa) p PAGE) (c + 8) = 0).
  { rewrite <- Hend. specialize (Hps c Hin). pose proof (node_head_apart c Hcr).
    rewrite (same_on_ld _ _ _ _ _ (created_same (mem sa) p PAGE)).
    - eapply same_on_ld; [exact Hf|]. intros x Hx. split.
      + pose proof (ho_pool s l Hok c p Hin ltac:(rewrite Hp; left)).
        unfold page_bytes, apart, within in *. lia.
      + apply (ho_clear s l Hok c x Hin). unfold within in *. lia.
    - intros x Hx. unfold apart, within in *. lia. }
  cbn [find_loop]. rewrite Hn. run_step. rewrite Hend. cbn [Z.eqb].
  rewrite u64_small by (unfold sizeof_HeapNode in *; lia).
  rewrite (proj2 (Z.leb_gt _ _)) by lia. erewrite bind_Ok by exact Hrun.
  rewrite (proj2 (Z.eqb_neq _ _)) by lia.
  erewrite bind_Ok by (by apply CreateNode_run).
  unfold take_or, size_of. rewrite Hn. run_step. rewrite Hnull.
  unfold bind at 1. rewrite load_null by lia. by eexists.
Qed.

(** ** CombineBlocks *)

(** Allocating pages one after the other. *)
Lemma combine_loop_run fuel size initial i n s qs ps :
  ps_inv s -> ps_pool s = qs ++ ps ->
  0 <= size < 2 ^ 31 -> i = 4096 * n -> 0 <= n ->
  n + Z.of_nat (length qs) = Z.max ((size + 4095) / 4096) n ->
  (length qs < fuel)%nat ->
  exists s', combine_loop fuel size initial i n s = Ok (inl (n + Z.of_nat (length qs))) s' /\
    ps_inv s' /\ ps_pool s' = ps /\ same_regs s s' /\
    same_on (fun x => ~ ps_owned (alloc_g s) x /\ forall q, q ∈ qs -> ~ page_bytes q x)
      (mem s) (mem s').
Proof using All.
  intros Hi Hp Hsz -> Hn Hcount Hfuel. revert fuel n s Hi Hp Hn Hcount Hfuel.
  induction qs as [|q qs IH]; intros fuel n s Hi Hp Hn Hcount Hfuel;
    (destruct fuel as [|fuel]; [simpl in Hfuel; lia|]); cbn [combine_loop length] in *.
  - rewrite (proj2 (Z.ltb_ge _ _)) by lia. exists s.
    rewrite Z.add_0_r. split_and!; [done | done | done | apply same_regs_refl | done].
  - rewrite (proj2 (Z.ltb_lt _ _)) by lia.
    destruct (ps_alloc s q (qs ++ ps) Hi Hp) as (s1 & Hrun & Hi1 & Hp1 & _ & [Hr1 Hm1]).
    destruct (ps_alloc_page s q (qs ++ ps) Hi Hp) as (Hq & _).
    erewrite bind_Ok by exact Hrun. rewrite (proj2 (Z.eqb_neq _ _)) by lia.
    replace (u64 (4096 * n + 4096)) with (4096 * (n + 1)) by word.
    replace (s32 (n + 1)) with (n + 1) by word.
    destruct (IH fuel (n + 1) s1) as (s' & Hrun' & ? & ? & Hr2 & Hm2);
      [done | done | lia | lia | lia |].
    pose proof (same_regs_alloc _ _ Hr1) as Hg1.
    exists s'. split_and!.
    + rewrite Hrun'. do 2 f_equal. lia.
    + done.
    + done.
    + by eapply same_regs_trans.
    + intros x [Hx Hxq]. rewrite Hm2.
      * apply Hm1. split; [apply Hxq; left | done].
      * rewrite Hg1. split; [done|]. intros q' Hq'. apply Hxq. by right.
Qed.

Lemma combine_loop_exhausted fuel size initial i n s :
  ps_inv s -> 0 <= size < 2 ^ 31 -> i = 4096 * n -> 0 <= n ->
  n + Z.of_nat (length (ps_pool s)) < (size + 4095) / 4096 ->
  (length (ps_pool s) < fuel)%nat ->
  exhausted (combine_loop fuel size initial i n s).
Proof using All.
  intros Hi Hsz -> Hn. remember (ps_pool s) as pool0 eqn:Hp. symmetry in Hp.
  revert fuel n s Hi Hp Hn.
  induction pool0 as [|q qs IH]; intros fuel n s Hi Hp Hn Hcount Hfuel;
    (destruct fuel as [|fuel]; [simpl in Hfuel; lia|]); cbn [combine_loop length] in *;
    rewrite (proj2 (Z.ltb_lt _ _)) by lia.
  - by apply exhausted_bind, ps_alloc_exhausted.
  - destruct (ps_alloc s q qs Hi Hp) as (s1 & Hrun & Hi1 & Hp1 & _).
    destruct (ps_alloc_page s q qs Hi Hp) as (Hq & _).
    erewrite bind_Ok by exact Hrun. rewrite (proj2 (Z.eqb_neq _ _)) by lia.
    replace (u64 (4096 * n + 4096)) with (4096 * (n + 1)) by word.
    replace (s32 (n + 1)) with (n + 1) by word.
    apply IH; (done || lia).
Qed.

(** The pages [CombineBlocks] counts for a request. *)
Definition npages (size : Z) : Z := (size + 4095) / 4096.

Lemma heap_ok_shrink s s' l :
  heap_ok s l -> ps_inv s' -> alloc_g s' = alloc_g s ->
  (forall q, q ∈ ps_pool s' -> q ∈ ps_pool s) ->
  same_on (fun x => within x addr_head 16 \/ exists a, a ∈ l.*1 /\ within x a 16)
    (mem s) (mem s') ->
  heap_ok s' l.
Proof.
  intros [? Hl ? ? Hc Hp Hlow Hh] Hi Hg Hpool Hm. split; rewrite ?Hg; try done; auto.
  unfold heap_at. rewrite (ld_ext (mem s)).
  - eapply chain_same; [|exact Hl]. eapply same_on_weaken; [exact Hm|].
    intros x Hx. by right.
  - intros x Hx. apply Hm. left. unfold within in *. lia.
Qed.

Lemma CombineBlocks_run size s l p qs ps :
  heap_ok s l -> 0 <= size < 2 ^ 31 - 8192 ->
  ps_pool s = p :: qs ++ ps -> Z.of_nat (length qs) = npages size ->
  exists s', CombineBlocks size s = Ok KSTATUS_SUCCESS s' /\
    heap_ok s' ((p, 4096 * npages size) :: l) /\ ps_pool s' = ps /\ same_regs s s' /\
    same_on (fun x => ~ within x addr_head 16 /\ ~ ps_owned (alloc_g s) x /\
                      forall q, q ∈ p :: qs -> ~ page_bytes q x) (mem s) (mem s').
Proof using All.
  intros Hok Hsz Hp Hlen.
  destruct (heap_ok_alloc s l p (qs ++ ps) Hok Hp)
    as (s1 & Hrun & Hok1 & Hp1 & Hpr & Hps & _ & Hown & Hap & [Hr1 Hm1]).
  assert (Hn : 0 <= npages size < 2 ^ 31 / 4096) by (unfold npages; word).
  destruct (combine_loop_run (Z.to_nat (size / 4096 + 2)) size p 0 0 s1 qs ps)
    as (s2 & Hrun2 & Hi2 & Hp2 & Hr2 & Hm2); try apply Hok1; try done; try lia.
  { unfold npages in *. lia. }
  { unfold npages in *. lia. }
  assert (Hg2 : alloc_g s2 = alloc_g s1) by (by apply same_regs_alloc).
  assert (Hin : forall q, q ∈ qs -> q ∈ ps_pool s1) by (rewrite Hp1; set_solver).
  assert (Hok2 : heap_ok s2 l).
  { eapply heap_ok_shrink; [exact Hok1 | done | done | |].
    - rewrite Hp1, Hp2. set_solver.
    - eapply same_on_weaken; [exact Hm2|]. intros x [Hx|(a & Ha & Hx)]; split.
      + by apply (ho_head s1 l Hok1).
      + intros q Hq. pose proof (ho_low s1 l Hok1 q (Hin q Hq)). destruct head_range.
        unfold page_bytes, within in *. lia.
      + by apply (ho_clear s1 l Hok1 a).
      + intros q Hq. pose proof (ho_pool s1 l Hok1 a q Ha (Hin q Hq)).
        unfold page_bytes, apart, within in *. lia. }
  assert (Hclr : forall x, within x p 16 -> ~ ps_owned (alloc_g s2) x).
  { intros x Hx. rewrite Hg2. apply Hown. unfold within in *. lia. }
  assert (Hapt : forall q, q ∈ ps_pool s2 -> apart p 16 q PAGE).
  { intros q Hq. rewrite Hp2 in Hq. specialize (Hap q ltac:(set_solver)).
    unfold apart in *. lia. }
  exists (with_mem s2 (created (mem s2) p (4096 * npages size))). split_and!.
  - unfold CombineBlocks. erewrite bind_Ok by exact Hrun.
    erewrite bind_Ok by exact Hrun2. rewrite Z.add_0_l, Hlen.
    replace (u64 (s32 (npages size * 4096))) with (4096 * npages size) by word.
    by erewrite bind_Ok by (by apply CreateNode_run).
  - apply heap_ok_create; try done. word.
  - rewrite <- Hp2. by eapply created_frame.
  - eapply same_regs_trans; [exact Hr1|]. by eapply same_regs_trans.
  - intros x (Hx1 & Hx2 & Hx3). cbn [mem with_mem].
    rewrite created_same by (specialize (Hx3 p ltac:(left)); unfold page_bytes, within in *; lia).
    rewrite Hm2 by (rewrite (same_regs_alloc _ _ Hr1); split; [done|]; intros q Hq; apply Hx3; by right).
    apply Hm1. split; [apply Hx3; left | done].
Qed.

Lemma CombineBlocks_exhausted size s l :
  heap_ok s l -> 0 <= size < 2 ^ 31 - 8192 ->
  Z.of_nat (length (ps_pool s)) <= npages size -> exhausted (CombineBlocks size s).
Proof using All.
  intros Hok Hsz Hlen. unfold CombineBlocks.
  destruct (ps_pool s) as [|p ps] eqn:Hp.
  { apply exhausted_bind, ps_alloc_exhausted; [by eapply ho_pages | done]. }
  destruct (ps_alloc s p ps (ho_pages s l Hok) Hp) as (s1 & Hrun & Hi1 & Hp1 & _).
  cbn [length] in Hlen. erewrite bind_Ok by exact Hrun.
  apply exhausted_bind, combine_loop_exhausted; try done; rewrite ?Hp1; unfold npages in *; try lia.
Qed.

(** A request whose blocks, as [CombineBlocks] makes them, are too small:
    every round of the search adds another such block, until memory is out. *)
Lemma find_never_fits size :
  0 <= size < 2 ^ 31 - 8192 -> 4096 <= size + sizeof_HeapNode ->
  4096 * npages size < sizeof_HeapNode + size ->
  forall n s l fuel,
    heap_ok s l -> Forall (fun b => b.2 < sizeof_HeapNode + size) l ->
    (length (ps_pool s) < n)%nat ->
    (n * (length l + n) < fuel)%nat ->
    exhausted (find_loop fuel size addr_head s).
Proof using All.
  intros Hsz Hbig Hshort n. induction n as [|n IH]; intros s l fuel Hok Hno Hpool Hfuel; [lia|].
  destruct (find_skip (fuel - length l) size addr_head l s head_cursor (ho_list s l Hok)
    (ho_range s l Hok)) as (Hwalk & Hcur & Hend).
  { eapply Forall_impl; [exact Hno|]. intros b.
    rewrite u64_small by (unfold sizeof_HeapNode in *; word). done. }
  replace fuel with (length l + (fuel - length l))%nat by nia. rewrite Hwalk.
  destruct (fuel - length l)%nat as [|k] eqn:Hk; [nia|].
  cbn [find_loop]. destruct (cursor_next _ Hcur) as [-> ?]. run_step. rewrite Hend.
  cbn [Z.eqb]. rewrite u64_small by (unfold sizeof_HeapNode in *; word).
  rewrite (proj2 (Z.leb_le _ _)) by lia.
  destruct (Z_le_gt_dec (Z.of_nat (length (ps_pool s))) (npages size)) as [Hle|Hgt].
  - by eapply exhausted_bind, CombineBlocks_exhausted.
  - assert (0 <= npages size) by (unfold npages; lia).
    destruct (ps_pool s) as [|p ps] eqn:Hp; [simpl in Hgt; lia|]. cbn [length] in *.
    destruct (CombineBlocks_run size s l p (take (Z.to_nat (npages size)) ps)
      (drop (Z.to_nat (npages size)) ps) Hok Hsz) as (s' & Hrun & Hok' & Hp' & _).
    { by rewrite take_drop. }
    { rewrite length_take. lia. }
    erewrite bind_Ok by exact Hrun. cbn [Z.eqb KSTATUS_SUCCESS KSTATUS_FAIL].
    apply (IH s' _ k Hok'); [by apply Forall_cons | |].
    + rewrite Hp', length_drop. lia.
    + cbn [length]. nia.
Qed.

(** ** Large requests on contiguous pages *)

(** [n] consecutive pages from [p] on. *)
Definition page_run (p : Z) (n : nat) : list Z :=
  (fun i => p + 4096 * i) <$> seqZ 0 (Z.of_nat n).

Lemma page_run_S p n : page_run p (S n) = p :: page_run (p + 4096) n.
Proof.
  unfold page_run. rewrite seqZ_cons by lia. cbn [fmap list_fmap]. f_equal; [lia|].
  replace (Z.pred (Z.of_nat (S n))) with (Z.of_nat n) by lia.
  rewrite <- (fmap_add_seqZ 1 0). rewrite <- list_fmap_compose.
  apply list_fmap_ext. intros. cbn. lia.
Qed.

Lemma elem_of_page_run p n q :
  q ∈ page_run p n <-> exists i, 0 <= i < Z.of_nat n /\ q = p + 4096 * i.
Proof.
  unfold page_run. rewrite list_elem_of_fmap. setoid_rewrite elem_of_seqZ.
  split; intros (i & ? & ?); exists i; split; (done || lia).
Qed.

(** A byte of the run lies in one of its pages. *)
Lemma page_run_byte p n x :
  within x p (4096 * Z.of_nat n) -> exists q, q ∈ page_run p n /\ page_bytes q x.
Proof.
  unfold within. intros Hx. exists (p + 4096 * ((x - p) / 4096)).
  rewrite elem_of_page_run. split; [|unfold page_bytes, within; lia].
  exists ((x - p) / 4096). split; [lia | done].
Qed.

(** A non-empty block apart from every page of the run is apart from it. *)
Lemma page_run_apart p n a k :
  0 < k -> (0 < n)%nat -> (forall q, q ∈ page_run p n -> apart a k q PAGE) ->
  apart a k p (4096 * Z.of_nat n).
Proof.
  intros Hk Hn Hq. unfold apart.
  destruct (Z_le_gt_dec (a + k) p); [by left|].
  destruct (Z_le_gt_dec (p + 4096 * Z.of_nat n) a); [by right|].
  destruct (page_run_byte p n (Z.max a p)) as (q & Hin & Hb); [unfold within; lia|].
  specialize (Hq q Hin). unfold page_bytes, apart, within in *. lia.
Qed.

Lemma CombineBlocks_inv size s l p k ps :
  heap_inv s l -> 0 <= size < 2 ^ 31 - 8192 -> npages size = Z.of_nat (S k) ->
  ps_pool s = page_run p (S (S k)) ++ ps ->
  exists s', CombineBlocks size s = Ok KSTATUS_SUCCESS s' /\
    heap_inv s' ((p, 4096 * npages size) :: l) /\ ps_pool s' = ps /\ same_regs s s' /\
    same_on (fun x => ~ within x addr_head 16 /\ ~ ps_owned (alloc_g s) x /\
                      forall q, q ∈ page_run p (S (S k)) -> ~ page_bytes q x) (mem s) (mem s').
Proof using All.
  intros Hinv Hsz Hk Hp. pose proof (heap_inv_ok s l Hinv) as Hok.
  rewrite page_run_S in Hp.
  destruct (CombineBlocks_run size s l p (page_run (p + 4096) (S k)) ps Hok Hsz)
    as (s' & Hrun & Hok' & Hp' & Hr & Hm); [done | |].
  { unfold page_run. rewrite length_fmap, length_seqZ. lia. }
  rewrite <- page_run_S in Hm.
  pose proof (same_regs_alloc _ _ Hr) as Hg. rewrite <- page_run_S in Hp.
  assert (Hsize : 4096 * npages size = 4096 * Z.of_nat (S k)) by lia.
  assert (Hsub : forall q, q ∈ page_run p (S k) -> q ∈ ps_pool s).
  { intros q Hq. rewrite Hp. apply elem_of_app. left. rewrite elem_of_page_run in *.
    destruct Hq as (i & ? & ?). exists i. split; [lia | done]. }
  assert (Hman : forall q, q ∈ ps_pool s -> ps_managed (alloc_g s) q)
    by (intros q Hq; exact (ps_pool_managed s q (hi_pages s l Hinv) Hq)).
  pose proof (fun q Hq => ps_page_ok s q (hi_pages s l Hinv) (Hman q Hq)) as Hpg.
  exists s'. split_and!; [done | | done | done | done].
  split; try apply Hok'; rewrite ?Hg, ?Hp', ?Hsize.
  - apply Forall_cons. split; [|apply Hinv].
    destruct (Hpg p) as (? & _); [apply Hsub, elem_of_page_run; exists 0; lia|].
    assert (p + 4096 * Z.of_nat k + PAGE <= KERNEL_BASE)
      by (apply (hi_low s l Hinv), Hsub, elem_of_page_run; exists (Z.of_nat k); lia).
    unfold block_ok, sizeof_HeapNode. cbn [fst snd]. lia.
  - split; [|apply Hinv]. intros c Hc. cbn [fst snd].
    pose proof (hi_blocks s l Hinv) as Hbl. rewrite Forall_forall in Hbl.
    destruct (Hbl c Hc) as (_ & ? & _). unfold sizeof_HeapNode in *.
    enough (apart c.1 c.2 p (4096 * Z.of_nat (S k))) by (unfold apart in *; lia).
    apply page_run_apart; [lia | lia |]. intros q Hq. by apply (hi_pool s l Hinv), Hsub.
  - intros b x [->|Hb]%elem_of_cons Hx; [|by apply (hi_clear s l Hinv b)].
    destruct (page_run_byte p (S k) x Hx) as (q & Hq & Hx').
    by apply (Hpg q (Hsub q Hq)).
  - intros b q [->|Hb]%elem_of_cons Hq; [|apply (hi_pool s l Hinv); [done|];
      rewrite Hp; set_solver].
    assert (Hq' : q ∈ ps_pool s) by (rewrite Hp; set_solver).
    cbn [fst snd].
    enough (apart q PAGE p (4096 * Z.of_nat (S k))) by (unfold apart in *; lia).
    apply page_run_apart; [lia | lia |]. intros r Hr'. apply pages_apart; [by apply Hpg |
      by apply Hpg, Hsub |]. intros ->.
    pose proof (ps_pool_nodup s (hi_pages s l Hinv)) as Hnd. rewrite Hp in Hnd.
    apply NoDup_app in Hnd as (_ & Hd & _). apply (Hd r); [|done].
    rewrite elem_of_page_run in *. destruct Hr' as (i & ? & ?). exists i. lia.
Qed.

(** The search in a list without a fit is the search after the pages have been
    combined. *)
Lemma refill_pages size s l p k ps :
  heap_inv s l -> 0 <= size < 2 ^ 31 - 8192 -> PAGE <= size + sizeof_HeapNode ->
  Forall (fun b => b.2 < sizeof_HeapNode + size) l ->
  npages size = Z.of_nat (S k) -> ps_pool s = page_run p (S (S k)) ++ ps ->
  exists s1, heap_inv s1 ((p, 4096 * npages size) :: l) /\ ps_pool s1 = ps /\ same_regs s s1 /\
    same_on (fun x => ~ within x addr_head 16 /\ ~ ps_owned (alloc_g s) x /\
                      forall q, q ∈ page_run p (S (S k)) -> ~ page_bytes q x) (mem s) (mem s1) /\
    forall fuel, FindAndRemoveNode (length l + S fuel) size s = FindAndRemoveNode fuel size s1.
Proof using All.
  intros Hinv Hsz Hbig Hno Hk Hp.
  destruct (CombineBlocks_inv size s l p k ps Hinv Hsz Hk Hp) as (s1 & Hrun & Hinv1 & Hp1 & Hr & Hm).
  exists s1. split_and!; [done..|]. intros fuel.
  destruct (find_skip (S fuel) size addr_head l s head_cursor (hi_list s l Hinv)
    (ho_range _ _ (heap_inv_ok s l Hinv))) as (Hwalk & Hcur & Hend).
  { eapply Forall_impl; [exact Hno|]. intros b.
    rewrite u64_small by (unfold sizeof_HeapNode in *; word). done. }
  unfold FindAndRemoveNode. rewrite Hwalk. cbn [find_loop]. destruct (cursor_next _ Hcur) as [-> ?].
  run_step. rewrite Hend. cbn [Z.eqb].
  rewrite u64_small by (unfold sizeof_HeapNode in *; word).
  rewrite (proj2 (Z.leb_le _ _)) by lia. by erewrite bind_Ok by exact Hrun.
Qed.

Lemma find_combine_spec fuel size s l p k ps :
  heap_inv s l -> 0 <= size < 2 ^ 31 - 8192 -> PAGE <= size + sizeof_HeapNode ->
  Forall (fun b => b.2 < sizeof_HeapNode + size) l ->
  npages size = Z.of_nat (S k) -> sizeof_HeapNode + size <= 4096 * npages size ->
  ps_pool s = page_run p (S (S k)) ++ ps ->
  (2 * length l + 2 <= fuel)%nat ->
  exists s1, FindAndRemoveNode fuel size s = Ok p s1 /\
    (exists s0, found s0 s1 ((p, 4096 * npages size) :: l) l (p, 4096 * npages size)) /\
    ps_pool s1 = ps.
Proof using All.
  intros Hinv Hsz Hbig Hno Hk Hfits Hp Hfuel.
  destruct (refill_pages size s l p k ps) as (s1 & Hinv1 & Hp1 & _ & _ & Hrun); try done.
  destruct (find_fit_spec (fuel - S (length l)) size s1 _ (p, 4096 * npages size) l Hinv1)
    as (s2 & Hrun2 & Hfd & Hp2 & _).
  - lia.
  - unfold sizeof_HeapNode in *. word.
  - cbn [take_fit snd]. by rewrite (proj2 (Z.leb_le _ _)) by lia.
  - cbn [length]. lia.
  - exists s2. split_and!; [| by exists s1 | congruence].
    replace fuel with (length l + S (fuel - S (length l)))%nat by lia. by rewrite Hrun.
Qed.
End Failures.

Section Keep.
Context `{StaticsOk} `{PSO : PageSourceOk}.

(** The heap survives changes outside its free blocks. *)
Lemma heap_inv_keep_headers s s' l :
  heap_inv s l -> ps_inv s' -> alloc_g s' = alloc_g s ->
  (forall p, p ∈ ps_pool s' -> p ∈ ps_pool s) ->
  same_on (fun x => within x addr_head 16 \/ exists a, a ∈ l.*1 /\ within x a sizeof_HeapNode) (mem s) (mem s') ->
  heap_inv s' l.
Proof.
  intros [I1 I2 I3 I4 I5 I6 I7 I8] Hi Hg Hpool Hm. split; rewrite ?Hg; try done.
  - unfold heap_at in *. rewrite (same_on_ld _ _ _ _ _ Hm); [|intros x Hx; left; unfold within in *; lia].
    eapply chain_same; [|exact I2]. eapply same_on_weaken; [exact Hm|]. intros x Hx. by right.
  - intros b p Hb Hp. by apply I6, Hpool.
  - intros p Hp. by apply I7, Hpool.
Qed.

Lemma heap_inv_keep s s' l :
  heap_inv s l -> ps_inv s' -> alloc_g s' = alloc_g s ->
  (forall p, p ∈ ps_pool s' -> p ∈ ps_pool s) ->
  same_on (fun x => within x addr_head 16 \/ exists b, b ∈ l /\ within x b.1 b.2) (mem s) (mem s') ->
  heap_inv s' l.
Proof.
  intros I Hi Hg Hpool Hm. apply (heap_inv_keep_headers s); try done.
  eapply same_on_weaken; [exact Hm|]. intros x [Hx|(a & Ha & Hx)]; [by left | right].
  apply list_elem_of_fmap in Ha as (b & -> & Hb). exists b. split; [done|].
  pose proof (hi_blocks _ _ I) as I3. rewrite Forall_forall in I3. destruct (I3 b Hb) as (_ & ? & _).
  unfold within, sizeof_HeapNode in *. lia.
Qed.

(** Printing changes neither the heap nor the pool. *)
Lemma heap_inv_printed s l t : heap_inv s l -> heap_inv (printed s t) l /\ ps_pool (printed s t) = ps_pool s.
Proof using All.
  intros Hi. destruct (ps_stable s (printed s t) (hi_pages s l Hi)) as [Hps Hpool]; [done | done |].
  split; [|done]. apply (heap_inv_keep s); [done | done | done | by rewrite Hpool | done].
Qed.
End Keep.
