(* ===== verification/Demo.v ===== *)
(** A concrete kernel state for the examples: the three-page machine of
    [FrameAlloc] with the statics at addresses in the kernel image, an empty
    heap, and the heap after one small allocation. *)
From S2P Require Import Prelude Memory Machine PageSource FrameAlloc Heap.

#[export] Instance demo_statics : Statics := {|
  addr_head := 0xffffffff80010000;
  addr_prochead := 0xffffffff80010100;
  addr_filehead := 0xffffffff80010200;
|}.

#[export] Instance demo_statics_ok : StaticsOk.
Proof. split; vm_compute; split || left; congruence. Qed.

Lemma demo_table a : table_bytes (alloc_g demo) a -> within a 0x100000 48.
Proof. rewrite demo_alloc. done. Qed.

Lemma demo_heap : heap_inv demo [].
Proof.
  split.
  - exact demo_ok.
  - unfold heap_at. cbn [chain]. apply (ld_zeroed _ addr_head 16); [|done|done].
    intros x Hx. apply demo_zero. unfold within in *. cbn in Hx. lia.
  - done.
  - done.
  - by intros ? ? ?%not_elem_of_nil.
  - by intros ? ? ?%not_elem_of_nil.
  - cbn [ps_pool frame_source_ok]. rewrite demo_pool. unfold KERNEL_BASE. set_solver by lia.
  - intros x Hx Ht%demo_table. unfold within in *. cbn in Hx. lia.
Qed.

Lemma demo_heap_ok : heap_ok demo [].
Proof. apply heap_inv_ok, demo_heap. Qed.

(** After one allocation of 64 bytes: the rest of the page is free. *)
Lemma demo_heap1_alloc :
  exists s p, malloc 1 64 demo = Ok p s /\ p = 0x101010 /\
    heap_inv s [(0x101050, 4016)] /\ ps_pool s = [0x102000; 0x103000] /\
    block_free_of s [(0x101050, 4016)] (0x101000, 80) /\ ld64 (mem s) 0x101000 = 80 /\
    alloc_g s = alloc_g demo.
Proof.
  destruct (find_empty_spec 0 64 demo 0x101000 [0x102000; 0x103000] demo_heap)
    as (s1 & Hrun & Hfd & Hp1 & _); [done | done | exact demo_pool |].
  destruct (malloc_found 1 64 demo s1 [] [] (0x101000, PAGE) Hrun Hfd)
    as (s & Hm & [Hi Hh Hb] & Hr & Hp & _); [lia | right; vm_compute; congruence |].
  exists s, 0x101010. split_and!; [exact Hm | done | exact Hi | congruence | exact Hb | exact Hh |].
  exact (same_regs_alloc _ _ Hr).
Qed.

Lemma demo_heap1 :
  exists s p, malloc 1 64 demo = Ok p s /\ p = 0x101010 /\
    heap_inv s [(0x101050, 4016)] /\ ps_pool s = [0x102000; 0x103000] /\
    block_free_of s [(0x101050, 4016)] (0x101000, 80) /\ ld64 (mem s) 0x101000 = 80.
Proof.
  destruct demo_heap1_alloc as (s & p & H1 & H2 & H3 & H4 & H5 & H6 & _). exists s, p.
  exact (conj H1 (conj H2 (conj H3 (conj H4 (conj H5 H6))))) .
Qed.
