(* ===== verification/HeapSpec.v ===== *)
(** The contract of mm/heapalloc/heap.c: what malloc, calloc, aligned_alloc
    and free do to the free list, on every path, and the state machine of a
    client that allocates, frees and writes to what it holds. *)
From S2P Require Import Prelude Memory Machine PageSource FrameAlloc Heap Demo.

Section Spec.
Context `{StaticsOk} `{PageSourceOk}.

(** C12. When a free block fits, and the first that fits is larger than the request
    and its header by nothing or by at least 16 bytes - room for another header -,
    [malloc] takes it: it returns the
    address behind the block's header, records the size there for [free], puts
    what is left of the block back in front of the free list, keeps the heap
    invariant, and the returned block overlaps no free block, no free page and
    no allocator data.  Memory outside the free blocks is untouched, and so are the
    bytes that are handed out. *)
Theorem malloc_first_fit fuel size s l b l' :
  heap_inv s l -> 0 <= size -> sizeof_HeapNode + size < 2 ^ 64 ->
  take_fit (sizeof_HeapNode + size) l = Some (b, l') -> clean_split size b ->
  (length l <= fuel)%nat ->
  exists s', malloc fuel size s = Ok (b.1 + sizeof_HeapNode) s' /\
    alloc_post s' l' b size /\ same_regs s s' /\ ps_pool s' = ps_pool s /\
    same_on (spared l b size) (mem s) (mem s').
Proof using All. apply malloc_fit_run. Qed.

(** With an empty free list a request below a page is served from one
    fresh page. *)
Theorem malloc_fresh_page fuel size s p ps :
  heap_inv s [] -> 0 <= size -> size + sizeof_HeapNode < PAGE ->
  ps_pool s = p :: ps -> clean_split size (p, PAGE) ->
  exists s', malloc (S fuel) size s = Ok (p + sizeof_HeapNode) s' /\
    alloc_post s' [] (p, PAGE) size /\ same_regs s s' /\ ps_pool s' = ps.
Proof using All.
  intros Hinv Hsz Hsmall Hp Hclean.
  destruct (find_empty_spec fuel size s p ps Hinv Hsz Hsmall Hp) as (s1 & Hrun & Hfd & Hp1 & _).
  destruct (malloc_found (S fuel) size s s1 [] [] (p, PAGE) Hrun Hfd)
    as (s' & ? & ? & ? & Hp2 & _); [unfold sizeof_HeapNode in *; lia | done |].
  exists s'. split_and!; (done || congruence).
Qed.

(** Memory that a request served from the pages of [page_run p n] leaves alone. *)
Definition beyond_run (g : alloc_globals) (l : list block) (p : Z) (n : nat) (x : Z) : Prop :=
  outside l x /\ ~ ps_owned g x /\ forall q, q ∈ page_run p n -> ~ page_bytes q x.

Lemma beyond_run_outside g l p k size x :
  npages size = Z.of_nat (S k) -> beyond_run g l p (S (S k)) x -> outside ((p, 4096 * npages size) :: l) x.
Proof using.
  intros Hk ([Hh Hl] & _ & Hq). split; [done|]. intros b [->|Hb]%elem_of_cons; [|by apply Hl].
  cbn [fst snd]. rewrite Hk. intros (q & Hin & Hx)%page_run_byte. apply (Hq q); [|done].
  rewrite elem_of_page_run in *. destruct Hin as (i & ? & ?). exists i. split; [lia | done].
Qed.

(** A request that no block fits, served from fresh pages. *)
Lemma malloc_pages_run fuel size s l p k ps :
  heap_inv s l -> 0 <= size < 2 ^ 31 - 8192 -> PAGE <= size + sizeof_HeapNode ->
  Forall (fun b => b.2 < sizeof_HeapNode + size) l ->
  npages size = Z.of_nat (S k) -> sizeof_HeapNode + size <= 4096 * npages size ->
  clean_split size (p, 4096 * npages size) ->
  ps_pool s = page_run p (S (S k)) ++ ps -> (2 * length l + 2 <= fuel)%nat ->
  exists s', malloc fuel size s = Ok (p + sizeof_HeapNode) s' /\
    alloc_post s' l (p, 4096 * npages size) size /\ ps_pool s' = ps /\ same_regs s s' /\
    same_on (beyond_run (alloc_g s) l p (S (S k))) (mem s) (mem s').
Proof using All.
  intros Hinv Hsz Hbig Hno Hk Hfits Hclean Hp Hfuel.
  destruct (refill_pages size s l p k ps) as (s1 & Hinv1 & Hp1 & Hr1 & Hm1 & Hrun); try done.
  destruct (malloc_fit_spec (fuel - S (length l)) size s1 ((p, 4096 * npages size) :: l) (p, 4096 * npages size) l Hinv1)
    as (s' & R & A & Hr & Hp' & Hm); [lia | unfold sizeof_HeapNode in *; word | | done | cbn [length]; lia |].
  { cbn [take_fit snd]. by rewrite (proj2 (Z.leb_le _ _)) by lia. }
  exists s'. split_and!; [| done | congruence | by eapply same_regs_trans |].
  - replace fuel with (length l + S (fuel - S (length l)))%nat by lia.
    etransitivity; [|exact R]. unfold malloc, _alloc. replace (u64 (size + (1 - 1))) with size by word.
    by apply bind_eq.
  - etransitivity.
    + eapply same_on_weaken; [exact Hm1|]. intros x ([Hx _] & Ho & Hq). by split_and!.
    + eapply same_on_weaken; [exact Hm|]. intros x Hx. by eapply beyond_run_outside.
Qed.

(** A larger request that no free block fits is served by
    [CombineBlocks] from consecutive pages; the block spans one page less than
    was taken from the pool. *)
Theorem malloc_combines_pages fuel size s l p k ps :
  heap_inv s l -> 0 <= size < 2 ^ 31 - 8192 -> PAGE <= size + sizeof_HeapNode ->
  Forall (fun b => b.2 < sizeof_HeapNode + size) l ->
  npages size = Z.of_nat (S k) -> sizeof_HeapNode + size <= 4096 * npages size ->
  clean_split size (p, 4096 * npages size) ->
  ps_pool s = page_run p (S (S k)) ++ ps -> (2 * length l + 2 <= fuel)%nat ->
  exists s', malloc fuel size s = Ok (p + sizeof_HeapNode) s' /\
    alloc_post s' l (p, 4096 * npages size) size /\ ps_pool s' = ps.
Proof using All.
  intros. destruct (malloc_pages_run fuel size s l p k ps) as (s' & R & A & Hp & _); try done. by exists s'.
Qed.

(** C37. A request below a page that no block of a non-empty free list fits
    does not extend the heap: [FindAndRemoveNode] pushes the new page at the
    front of the list and then dereferences the NULL [next] of the last node,
    which faults. *)
Theorem malloc_null_dereference fuel size s l p ps :
  heap_ok s l -> l <> [] -> 0 <= size -> size + sizeof_HeapNode < PAGE ->
  Forall (fun b => b.2 < sizeof_HeapNode + size) l -> ps_pool s = p :: ps ->
  (length l < fuel)%nat ->
  exists s', malloc fuel size s = Fault 0 s'.
Proof using All.
  intros. destruct (find_null_fault fuel size s l p ps) as [s' Hrun]; try done.
  exists s'. unfold malloc, _alloc. replace (u64 (size + (1 - 1))) with size
    by (unfold sizeof_HeapNode in *; word).
  unfold bind. by rewrite Hrun.
Qed.

(** C38. When no free block fits, and the pages [CombineBlocks] counts for a request do
    not also hold the header (sizes 4081 to 4096 modulo the page size), the search adds
    one useless block after the other until the machine is out of memory: with enough
    fuel [malloc] panics with interrupts off, and every page that was free when it was
    called has been taken. *)
Theorem malloc_page_multiple_panics fuel size s l :
  heap_ok s l -> 0 <= size < 2 ^ 31 - 8192 -> PAGE <= size + sizeof_HeapNode ->
  4096 * npages size < sizeof_HeapNode + size ->
  Forall (fun b => b.2 < sizeof_HeapNode + size) l ->
  (let n := S (length (ps_pool s)) in n * (length l + n) < fuel)%nat ->
  exists s' msg, malloc fuel size s = Halt (panic_state msg s') /\ ps_inv s' /\ ps_pool s' = [].
Proof using All.
  intros Hok Hsz Hbig Hshort Hno Hfuel.
  destruct (find_never_fits size Hsz Hbig Hshort _ s l fuel Hok Hno (Nat.lt_succ_diag_r _) Hfuel)
    as (s' & msg & Hrun & Hi & Hp).
  exists s', msg. split; [|done]. unfold malloc, _alloc. replace (u64 (size + (1 - 1))) with size by word.
  unfold bind, FindAndRemoveNode. by rewrite Hrun.
Qed.

(** ** free *)

Lemma free_run s l b :
  heap_inv s l -> block_free_of s l b -> ld64 (mem s) b.1 = b.2 ->
  free (b.1 + sizeof_HeapNode) s = Ok tt (with_mem s (created (mem s) b.1 b.2)).
Proof using All.
  intros Hinv Hb Hld. pose proof (bf_ok _ _ _ Hb) as (? & ? & ?).
  unfold free, size_of, sizeof_HeapNode, KERNEL_BASE in *.
  replace (u64 (b.1 + 16 - 16)) with b.1 by word. run_step. rewrite Hld.
  apply CreateNode_run, block_ok_range. unfold block_ok, sizeof_HeapNode, KERNEL_BASE. lia.
Qed.

(** [free] on a block obtained from [malloc] (its size still in the
    header) puts exactly that block back in front of the free list. *)
Theorem free_returns_block s l b :
  heap_inv s l -> block_free_of s l b -> ld64 (mem s) b.1 = b.2 ->
  exists s', free (b.1 + sizeof_HeapNode) s = Ok tt s' /\ heap_inv s' (b :: l) /\
    same_regs s s' /\
    same_on (fun x => ~ within x b.1 sizeof_HeapNode /\ ~ within x (addr_head + 8) 8)
      (mem s) (mem s').
Proof using All.
  intros Hinv Hb Hld. eexists. split_and!; [by eapply free_run | by apply heap_inv_create | done |].
  apply created_same.
Qed.

(** C21. Round trip: when the first free block that fits is larger than the request
    and its header by nothing or by at least 16 bytes, freeing what [malloc] returned
    yields a heap whose free blocks are the allocated block followed by what [malloc]
    had left. *)
Theorem malloc_free_roundtrip fuel size s l b l' :
  heap_inv s l -> 0 <= size -> sizeof_HeapNode + size < 2 ^ 64 ->
  take_fit (sizeof_HeapNode + size) l = Some (b, l') -> clean_split size b ->
  (length l <= fuel)%nat ->
  exists p s1 s2, malloc fuel size s = Ok p s1 /\ free p s1 = Ok tt s2 /\
    heap_inv s2 ((b.1, sizeof_HeapNode + size) :: carve size b l').
Proof using All.
  intros Hinv Hsz Hnw Hfit Hclean Hfuel.
  destruct (malloc_fit_spec fuel size s l b l') as (s1 & Hrun & [Hi Hh Hb] & _); try done.
  eexists _, s1, _. split_and!; [done | | by apply (heap_inv_create s1)].
  by apply (free_run s1 _ _ Hi Hb).
Qed.

(** ** calloc *)

Lemma within_block_not_header x b size :
  within x (b + sizeof_HeapNode) size -> within x b (sizeof_HeapNode + size).
Proof. unfold within, sizeof_HeapNode. lia. Qed.

(** [calloc] returns a block like [malloc]'s whose bytes are all zero. *)
Theorem calloc_zeroes fuel size s l b l' :
  heap_inv s l -> 0 <= size -> sizeof_HeapNode + size < 2 ^ 64 ->
  take_fit (sizeof_HeapNode + size) l = Some (b, l') -> clean_split size b ->
  (length l <= fuel)%nat ->
  exists s', calloc fuel size s = Ok (b.1 + sizeof_HeapNode) s' /\
    zeroed (mem s') (b.1 + sizeof_HeapNode) size /\
    heap_inv s' (carve size b l') /\ ld64 (mem s') b.1 = sizeof_HeapNode + size.
Proof using All.
  intros Hinv Hsz Hnw Hfit Hclean Hfuel.
  destruct (malloc_fit_spec fuel size s l b l') as (s1 & Hrun & [Hi Hh Hb] & _); try done.
  pose proof (bf_ok _ _ _ Hb) as (Hb1 & Hb2 & Hb3). cbn [fst snd] in *.
  set (m2 := fill (mem s1) (Z.to_nat size) (b.1 + sizeof_HeapNode) 0).
  assert (Hm2 : same_on (fun x => ~ within x (b.1 + sizeof_HeapNode) size) (mem s1) m2).
  { intros x Hx. unfold m2. rewrite rd_fill, Z2Nat.id by done. by rewrite decide_False. }
  exists (with_mem s1 m2). split_and!.
  - unfold calloc. erewrite bind_Ok by exact Hrun.
    rewrite when_true by (apply negb_true_iff, Z.eqb_neq; unfold sizeof_HeapNode in *; lia).
    erewrite bind_Ok by (apply memset_run; unfold sizeof_HeapNode in *; lia). done.
  - intros x Hx. cbn [mem with_mem]. unfold m2.
    rewrite rd_fill, Z2Nat.id by done. by rewrite decide_True.
  - apply (heap_inv_write s1 _ _ m2 Hi Hb). eapply same_on_weaken; [exact Hm2|].
    intros x Hx Hw. apply Hx, within_block_not_header, Hw.
  - cbn [mem with_mem]. rewrite <- Hh. eapply same_on_ld; [exact Hm2|].
    intros x Hx. unfold within, sizeof_HeapNode in *. lia.
Qed.

(** ** Splits that leave less than a header *)

(** A remainder of 1 to 15 bytes still gets a sixteen-byte header: the
    [next] field of that header is written across the end of the block, over
    whatever follows it. *)
Theorem malloc_header_overflow fuel size s l b l' :
  heap_inv s l -> 0 <= size -> sizeof_HeapNode + size < 2 ^ 64 ->
  take_fit (sizeof_HeapNode + size) l = Some (b, l') ->
  0 < b.2 - sizeof_HeapNode - size < sizeof_HeapNode ->
  b.1 + b.2 + sizeof_HeapNode <= KERNEL_BASE -> (length l <= fuel)%nat ->
  let e := b.1 + sizeof_HeapNode + size in
  exists s', malloc fuel size s = Ok (b.1 + sizeof_HeapNode) s' /\
    ld64 (mem s') (e + 8) = default 0 (head l'.*1) /\ b.1 + b.2 < e + 16.
Proof using All.
  intros Hinv Hsz Hnw Hfit Hextra Hroom Hfuel e.
  destruct (find_fit_spec fuel size s l b l') as (s1 & Hrun & [Hi Hb Hld _] & _); try done.
  pose proof (bf_ok _ _ _ Hb) as (Hb1 & Hb2 & Hb3).
  assert (He : node_range e) by (unfold node_range, sizeof_HeapNode in *; lia).
  eexists. split_and!; [| | unfold sizeof_HeapNode in *; lia].
  - unfold malloc, _alloc. replace (u64 (size + (1 - 1))) with size
      by (unfold sizeof_HeapNode in *; word).
    erewrite bind_Ok by exact Hrun. rewrite (proj2 (Z.eqb_neq _ _)) by lia.
    apply (alloc_from_split s1 l'); (done || lia).
  - cbn [mem with_mem fst snd]. fold e.
    rewrite ld_st_ne by (unfold apart, sizeof_HeapNode in *; lia).
    destruct (created_ld (mem s1) e (b.2 - sizeof_HeapNode - size) He) as (_ & _ & ->).
    pose proof (hi_list _ _ Hi) as Hl. unfold heap_at in Hl.
    destruct l' as [|[a k] l'']; cbn [chain] in Hl; [done | by destruct Hl].
Qed.

(** ** aligned_alloc *)

(** An aligned allocation, and what it leaves alone. *)
Lemma aligned_alloc_run fuel alignment size s l b l' :
  heap_inv s l -> 0 <= size -> 0 < alignment ->
  sizeof_HeapNode + size + alignment <= KERNEL_BASE ->
  take_fit (sizeof_HeapNode + (size + (alignment - 1))) l = Some (b, l') ->
  ALIGN_UP (b.1 + sizeof_HeapNode) alignment + size + sizeof_HeapNode <= b.1 + b.2 ->
  (length l <= fuel)%nat ->
  let p := ALIGN_UP (b.1 + sizeof_HeapNode) alignment in
  exists s', aligned_alloc fuel alignment size s = Ok p s' /\ p mod alignment = 0 /\
    b.1 + sizeof_HeapNode <= p /\ p + size <= b.1 + b.2 /\ same_regs s s' /\
    same_on (fun x => ~ within x addr_head 16 /\ forall c, c ∈ l -> ~ within x c.1 c.2) (mem s) (mem s').
Proof using All.
  intros Hinv Hsz Hal Hnw Hfit Hroom Hfuel p.
  destruct (take_fit_Some _ _ _ _ Hfit) as (l1 & l2 & Hl & _ & Hneed & _).
  destruct (find_fit_spec fuel (size + (alignment - 1)) s l b l')
    as (s1 & Hrun & [Hi Hb Hld Hr1] & _ & Hm1); try done; [lia | unfold KERNEL_BASE in *; word |].
  pose proof (bf_ok _ _ _ Hb) as (Hb1 & Hb2 & Hb3).
  assert (Hpb : b.1 + sizeof_HeapNode <= p < b.1 + sizeof_HeapNode + alignment /\
                p mod alignment = 0).
  { unfold p, KERNEL_BASE, sizeof_HeapNode in *. split.
    - apply ALIGN_UP_bounds; [lia | lia | word].
    - apply ALIGN_UP_aligned; [lia | lia | word]. }
  assert (He : node_range (p + size)) by (unfold node_range, sizeof_HeapNode in *; lia).
  enough (Hfrom : exists m', alloc_from size alignment b.1 s1 = Ok (b.1 + sizeof_HeapNode) (with_mem s1 m') /\
    same_on (fun x => ~ within x addr_head 16 /\ forall c, c ∈ l -> ~ within x c.1 c.2) (mem s1) m').
  { destruct Hfrom as (m' & Hfrom & Hm'). exists (with_mem s1 m'). split_and!; [| apply Hpb | lia |
      unfold sizeof_HeapNode in *; lia | by eapply same_regs_trans |
      etransitivity; [|exact Hm']; exact Hm1].
    unfold aligned_alloc, _alloc.
    replace (u64 (size + (alignment - 1))) with (size + (alignment - 1))
      by (unfold KERNEL_BASE, sizeof_HeapNode in *; word).
    rewrite bind_assoc. erewrite bind_Ok by exact Hrun.
    rewrite (proj2 (Z.eqb_neq b.1 0)) by lia.
    erewrite bind_Ok by exact Hfrom.
    rewrite (proj2 (Z.eqb_neq _ _)) by (unfold sizeof_HeapNode; lia). done. }
  assert (Hbl : b ∈ l) by (rewrite Hl; apply elem_of_app; right; left).
  unfold alloc_from, size_of. unfold KERNEL_BASE, sizeof_HeapNode in *.
  rewrite (u64_small (b.1 + 16)) by word. fold p. rewrite (u64_small (p + size)) by word.
  run_step. rewrite Hld. destruct (0 <? _); cbn [when].
  - rewrite bind_assoc. erewrite bind_Ok by (by apply CreateNode_run).
    rewrite bind_assoc. run_step. run_step. eexists. split; [reflexivity|].
    intros x [Hx1 Hx2]. specialize (Hx2 b Hbl). cbn [mem with_mem].
    rewrite rd_st_ne by (unfold within in *; lia). apply created_same. unfold within in *. lia.
  - run_step. exists (mem s1). split; [by destruct s1 | done].
Qed.

(** The same when the block comes from fresh pages. *)
Lemma aligned_alloc_pages_run fuel alignment size s l p k ps :
  let need := size + (alignment - 1) in
  heap_inv s l -> 0 <= size -> 0 < alignment -> sizeof_HeapNode + size + alignment <= KERNEL_BASE ->
  need < 2 ^ 31 - 8192 -> PAGE <= need + sizeof_HeapNode ->
  Forall (fun b => b.2 < sizeof_HeapNode + need) l ->
  npages need = Z.of_nat (S k) -> sizeof_HeapNode + need <= 4096 * npages need ->
  ALIGN_UP (p + sizeof_HeapNode) alignment + size + sizeof_HeapNode <= p + 4096 * npages need ->
  ps_pool s = page_run p (S (S k)) ++ ps -> (2 * length l + 2 <= fuel)%nat ->
  let a := ALIGN_UP (p + sizeof_HeapNode) alignment in
  exists s', aligned_alloc fuel alignment size s = Ok a s' /\ a mod alignment = 0 /\
    p + sizeof_HeapNode <= a /\ same_regs s s' /\ ps_inv s' /\ ps_pool s' = ps /\
    same_on (beyond_run (alloc_g s) l p (S (S k))) (mem s) (mem s').
Proof using All.
  intros need Hinv Hsz Hal Hkb Hlim Hbig Hno Hk Hfits Hroom Hp Hfuel a.
  destruct (refill_pages need s l p k ps) as (s1 & Hinv1 & Hp1 & Hr1 & Hm1 & Hrun); try done; [lia|].
  destruct (aligned_alloc_run (fuel - S (length l)) alignment size s1 ((p, 4096 * npages need) :: l)
    (p, 4096 * npages need) l Hinv1) as (s' & R & A & B & C & Hr & Hm);
    [done | done | done | | done | cbn [length]; lia |].
  { cbn [take_fit snd]. by rewrite (proj2 (Z.leb_le _ _)) by (fold need; lia). }
  destruct (ps_stable s1 s' (hi_pages _ _ Hinv1)) as [Hi' Hp']; [by apply same_regs_alloc | |].
  { eapply same_on_weaken; [exact Hm|]. intros x Hx. split; intros Hw.
    - by apply (hi_head _ _ Hinv1 x).
    - intros Hc Hw'. by apply (hi_clear _ _ Hinv1 Hw x). }
  exists s'. split_and!; [| done | done | by eapply same_regs_trans | done | congruence |].
  - replace fuel with (length l + S (fuel - S (length l)))%nat by lia.
    etransitivity; [|exact R]. unfold aligned_alloc, _alloc.
    replace (u64 (size + (alignment - 1))) with need by (unfold need, sizeof_HeapNode, KERNEL_BASE in *; word).
    by apply bind_eq, bind_eq.
  - etransitivity.
    + eapply same_on_weaken; [exact Hm1|]. intros x ([Hx _] & Ho & Hq). by split_and!.
    + eapply same_on_weaken; [exact Hm|]. intros x Hx. by eapply beyond_run_outside.
Qed.

(** [aligned_alloc] returns an aligned address, with the requested bytes
    inside the block that was taken. *)
Theorem aligned_alloc_aligned fuel alignment size s l b l' :
  heap_inv s l -> 0 <= size -> 0 < alignment ->
  sizeof_HeapNode + size + alignment <= KERNEL_BASE ->
  take_fit (sizeof_HeapNode + (size + (alignment - 1))) l = Some (b, l') ->
  ALIGN_UP (b.1 + sizeof_HeapNode) alignment + size + sizeof_HeapNode <= b.1 + b.2 ->
  (length l <= fuel)%nat ->
  let p := ALIGN_UP (b.1 + sizeof_HeapNode) alignment in
  exists s', aligned_alloc fuel alignment size s = Ok p s' /\ p mod alignment = 0 /\
    b.1 + sizeof_HeapNode <= p /\ p + size <= b.1 + b.2.
Proof using All.
  intros Hinv Hsz Hal Hnw Hfit Hroom Hfuel p.
  destruct (aligned_alloc_run fuel alignment size s l b l') as (s' & R & A & B & C & _); try done.
  by exists s'.
Qed.

(** The remainder of an aligned allocation is measured from the unaligned
    base but placed after the aligned one, so the free node it becomes claims
    bytes beyond the end of the block it was cut from. *)
Theorem aligned_alloc_tail_overruns fuel alignment size s l b l' :
  heap_inv s l -> 0 <= size -> 0 < alignment ->
  sizeof_HeapNode + size + alignment <= KERNEL_BASE ->
  take_fit (sizeof_HeapNode + (size + (alignment - 1))) l = Some (b, l') ->
  ALIGN_UP (b.1 + sizeof_HeapNode) alignment + size + sizeof_HeapNode <= b.1 + b.2 ->
  (length l <= fuel)%nat ->
  let base_align := ALIGN_UP (b.1 + sizeof_HeapNode) alignment in
  b.1 + sizeof_HeapNode < base_align ->
  exists s' node nsize, _alloc fuel size alignment s = Ok (b.1 + sizeof_HeapNode) s' /\
    ld64 (mem s') (addr_head + 8) = node /\ ld64 (mem s') node = nsize /\
    node = base_align + size /\ b.1 + b.2 < node + nsize.
Proof using All.
  intros Hinv Hsz Hal Hnw Hfit Hroom Hfuel p Hmis.
  destruct (take_fit_Some _ _ _ _ Hfit) as (l1 & l2 & Hl & _ & Hneed & _).
  destruct (find_fit_spec fuel (size + (alignment - 1)) s l b l')
    as (s1 & Hrun & [Hi Hb Hld _] & _); try done; [lia | unfold KERNEL_BASE in *; word |].
  pose proof (bf_ok _ _ _ Hb) as (Hb1 & Hb2 & Hb3).
  assert (Hpb : b.1 + sizeof_HeapNode <= p < b.1 + sizeof_HeapNode + alignment).
  { unfold p, KERNEL_BASE, sizeof_HeapNode in *.
    apply ALIGN_UP_bounds; [lia | lia | word]. }
  assert (He : node_range (p + size)) by (unfold node_range, sizeof_HeapNode in *; lia).
  set (m1 := created (mem s1) (p + size) (b.2 - sizeof_HeapNode - size)).
  destruct (created_ld (mem s1) (p + size) (b.2 - sizeof_HeapNode - size) He)
    as (Hh1 & Hs1 & _). fold m1 in Hh1, Hs1.
  exists (with_mem s1 (st m1 8 b.1 (u64 (ld64 m1 b.1 - (b.2 - sizeof_HeapNode - size))))),
    (p + size), (b.2 - sizeof_HeapNode - size).
  cbn [mem with_mem]. unfold KERNEL_BASE, sizeof_HeapNode in *.
  pose proof (head_range) as [Hhd _]. unfold KERNEL_BASE in Hhd. split_and!.
  - unfold _alloc. replace (u64 (size + (alignment - 1))) with (size + (alignment - 1)) by word.
    erewrite bind_Ok by exact Hrun. rewrite (proj2 (Z.eqb_neq b.1 0)) by lia.
    unfold alloc_from, size_of, sizeof_HeapNode.
    rewrite (u64_small (b.1 + 16)) by word. fold p. rewrite (u64_small (p + size)) by word.
    run_step. rewrite Hld, (u64_small (b.2 - 16)), (u64_small (b.2 - 16 - size)) by word.
    rewrite when_true by (apply Z.ltb_lt; lia). rewrite bind_assoc.
    erewrite bind_Ok by (by apply CreateNode_run). fold m1.
    rewrite bind_assoc. run_step. by run_step.
  - rewrite ld_st_ne by (unfold apart; lia). rewrite Hh1. apply u64_small.
    unfold node_range, KERNEL_BASE in He. lia.
  - rewrite ld_st_ne by (unfold apart; lia). rewrite Hs1. apply u64_small. word.
  - done.
  - lia.
Qed.
End Spec.

(** ** Instances on the demonstration machine *)

Lemma malloc_first_fit_witness :
  exists s s' l, heap_inv s [(0x101050, 4016)] /\ malloc 1 128 s = Ok 0x101060 s' /\
    heap_inv s' l /\ l = [(0x1010e0, 3872)].
Proof.
  destruct demo_heap1 as (s & p & _ & _ & Hi & _).
  destruct (malloc_first_fit 1 128 s [(0x101050, 4016)] (0x101050, 4016) [])
    as (s' & Hrun & [Hi' _ _] & _).
  - exact Hi.
  - lia.
  - vm_compute; reflexivity.
  - reflexivity.
  - right. vm_compute. congruence.
  - simpl. lia.
  - eexists s, s', _. split; [exact Hi|]. split; [exact Hrun|]. split; [exact Hi'|reflexivity].
Defined.

Lemma malloc_fresh_page_witness :
  exists s', malloc 1 64 demo = Ok 0x101010 s' /\ ps_pool s' = [0x102000; 0x103000].
Proof.
  destruct (malloc_fresh_page 0 64 demo 0x101000 [0x102000; 0x103000] demo_heap)
    as (s' & Hrun & _ & _ & Hp); [lia | vm_compute; reflexivity | exact demo_pool | right; vm_compute; congruence |].
  exists s'. split; [exact Hrun | exact Hp].
Defined.

Lemma malloc_combines_pages_witness :
  exists s', malloc 2 4080 demo = Ok 0x101010 s' /\ ps_pool s' = [0x103000].
Proof.
  destruct (malloc_combines_pages 2 4080 demo [] 0x101000 0 [0x103000] demo_heap)
    as (s' & Hrun & _ & Hp).
  - lia.
  - vm_compute; congruence.
  - constructor.
  - reflexivity.
  - vm_compute; congruence.
  - left. reflexivity.
  - cbn [ps_pool frame_source_ok]. rewrite demo_pool. reflexivity.
  - simpl. lia.
  - exists s'. split; [exact Hrun | exact Hp].
Defined.

Lemma malloc_null_dereference_witness :
  exists s s', heap_inv s [(0x101050, 4016)] /\ malloc 2 4032 s = Fault 0 s'.
Proof.
  destruct demo_heap1 as (s & p & _ & _ & Hi & Hp & _).
  destruct (malloc_null_dereference 2 4032 s [(0x101050, 4016)] 0x102000 [0x103000])
    as (s' & Hrun).
  - apply heap_inv_ok, Hi.
  - discriminate.
  - lia.
  - vm_compute; reflexivity.
  - repeat constructor.
  - exact Hp.
  - simpl. lia.
  - exists s, s'. split; [exact Hi | exact Hrun].
Defined.

Lemma malloc_page_multiple_panics_witness :
  exists s' msg, malloc 17 4096 demo = Halt (panic_state msg s') /\ pool s' = [].
Proof.
  destruct (malloc_page_multiple_panics 17 4096 demo [] demo_heap_ok) as (s' & msg & R & _ & Hp).
  - lia.
  - vm_compute; congruence.
  - vm_compute; reflexivity.
  - constructor.
  - cbn [ps_pool frame_source_ok]. rewrite demo_pool. simpl. lia.
  - exists s', msg. split; [exact R | exact Hp].
Defined.

Lemma free_returns_block_witness :
  exists s s', free 0x101010 s = Ok tt s' /\ heap_inv s' [(0x101000, 80); (0x101050, 4016)].
Proof.
  destruct demo_heap1 as (s & p & _ & _ & Hi & _ & Hb & Hh).
  destruct (free_returns_block s _ (0x101000, 80) Hi Hb Hh) as (s' & Hrun & Hi' & _).
  exists s, s'. split; [exact Hrun | exact Hi'].
Defined.

Lemma malloc_free_roundtrip_witness :
  exists s p s1 s2, malloc 1 128 s = Ok p s1 /\ free p s1 = Ok tt s2 /\
    heap_inv s2 [(0x101050, 144); (0x1010e0, 3872)].
Proof.
  destruct demo_heap1 as (s & p & _ & _ & Hi & _).
  destruct (malloc_free_roundtrip 1 128 s [(0x101050, 4016)] (0x101050, 4016) [])
    as (q & s1 & s2 & H1 & H2 & H3).
  - exact Hi.
  - lia.
  - vm_compute; reflexivity.
  - reflexivity.
  - right. vm_compute. congruence.
  - simpl. lia.
  - exists s, q, s1, s2. split; [exact H1|]. split; [exact H2 | exact H3].
Defined.

Lemma calloc_zeroes_witness :
  exists s s', calloc 1 128 s = Ok 0x101060 s' /\ zeroed (mem s') 0x101060 128.
Proof.
  destruct demo_heap1 as (s & p & _ & _ & Hi & _).
  destruct (calloc_zeroes 1 128 s [(0x101050, 4016)] (0x101050, 4016) [])
    as (s' & H1 & H2 & _).
  - exact Hi.
  - lia.
  - vm_compute; reflexivity.
  - reflexivity.
  - right. vm_compute. congruence.
  - simpl. lia.
  - exists s, s'. split; [exact H1 | exact H2].
Defined.

(** The header of the 8-byte remainder reaches eight bytes into the page at
    0x102000. *)
Lemma malloc_header_overflow_witness :
  exists s s', malloc 1 3992 s = Ok 0x101060 s' /\ ld64 (mem s') 0x102000 = 0.
Proof.
  destruct demo_heap1 as (s & p & _ & _ & Hi & _).
  destruct (malloc_header_overflow 1 3992 s [(0x101050, 4016)] (0x101050, 4016) [])
    as (s' & H1 & H2 & _).
  - exact Hi.
  - lia.
  - vm_compute; reflexivity.
  - reflexivity.
  - vm_compute; split; reflexivity.
  - vm_compute; congruence.
  - simpl. lia.
  - exists s, s'. split; [exact H1 | exact H2].
Defined.

Lemma aligned_alloc_aligned_witness :
  exists s s', aligned_alloc 1 0x100 64 s = Ok 0x101100 s'.
Proof.
  destruct demo_heap1 as (s & p & _ & _ & Hi & _).
  destruct (aligned_alloc_aligned 1 0x100 64 s [(0x101050, 4016)] (0x101050, 4016) [])
    as (s' & H1 & _).
  - exact Hi.
  - lia.
  - lia.
  - vm_compute; congruence.
  - reflexivity.
  - vm_compute; congruence.
  - simpl. lia.
  - exists s, s'. exact H1.
Defined.

Lemma aligned_alloc_tail_overruns_witness :
  exists s s' node nsize, _alloc 1 64 0x100 s = Ok 0x101060 s' /\
    ld64 (mem s') node = nsize /\ 0x102000 < node + nsize.
Proof.
  destruct demo_heap1 as (s & p & _ & _ & Hi & _).
  destruct (aligned_alloc_tail_overruns 1 0x100 64 s [(0x101050, 4016)] (0x101050, 4016) [])
    as (s' & node & nsize & H1 & _ & H2 & _ & H3).
  - exact Hi.
  - lia.
  - lia.
  - vm_compute; congruence.
  - reflexivity.
  - vm_compute; congruence.
  - simpl. lia.
  - vm_compute; reflexivity.
  - exists s, s', node, nsize. split; [exact H1|]. split; [exact H2 | exact H3].
Defined.
