(* ===== verification/HeapClients.v ===== *)
(** Clients of the heap: the machine together with the blocks they hold, and
    the steps they may take.  Requests are below a page and multiples of sixteen
    bytes (so that splits leave room for a header), and clients write only to
    their own payload. *)
From S2P Require Import Prelude Memory Machine PageSource FrameAlloc Heap Demo.

(** ** Fuel *)

Section Fuel.
Context `{Statics} `{PageSource}.

Lemma find_loop_fuel size k f c s :
  find_loop f size c s <> NoFuel -> find_loop (f + k) size c s = find_loop f size c s.
Proof.
  revert c s. induction f as [|f IH]; intros c s Hf; [done|].
  assert (Htake : forall s', take_or size c (find_loop f size) s' <> NoFuel ->
    take_or size c (find_loop (f + k) size) s' = take_or size c (find_loop f size) s').
  { intros s' Ht. unfold take_or in *. apply bind_fuel; [done|]. intros nx s1 H1.
    apply bind_fuel; [done|]. intros sz s2 H2. destruct (_ <=? sz); [done|]. by apply IH. }
  cbn [Nat.add find_loop] in *. apply bind_fuel; [done|]. intros nx s1 H1.
  destruct (nx =? 0); [|by apply Htake].
  destruct (4096 <=? _).
  - apply bind_fuel; [done|]. intros r s2 H2. destruct (r =? _); [done|]. by apply IH.
  - apply bind_fuel; [done|]. intros p s2 H2. destruct (p =? 0); [done|].
    apply bind_fuel; [done|]. intros ? s3 H3. by apply Htake.
Qed.

(** A finished [malloc] does not depend on its fuel. *)
Lemma malloc_fuel size k f s :
  malloc f size s <> NoFuel -> malloc (f + k) size s = malloc f size s.
Proof.
  intros Hf. unfold malloc, _alloc, FindAndRemoveNode in *. unfold bind in Hf |- *.
  rewrite find_loop_fuel; [done|]. intros He. by rewrite He in Hf.
Qed.
End Fuel.

Section Clients.
Context `{StaticsOk} `{PageSourceOk}.

Lemma find_small_exhausted fuel size s l :
  heap_ok s l -> 0 <= size -> size + sizeof_HeapNode < PAGE ->
  Forall (fun b => b.2 < sizeof_HeapNode + size) l -> ps_pool s = [] ->
  (length l < fuel)%nat -> panicked (find_loop fuel size addr_head s).
Proof using All.
  intros Hok Hsz Hsmall Hno Hp Hfuel.
  destruct (find_skip (fuel - length l) size addr_head l s head_cursor (ho_list s l Hok)
    (ho_range s l Hok)) as (Hwalk & Hcur & Hend).
  { eapply Forall_impl; [exact Hno|]. intros b.
    rewrite u64_small by (unfold sizeof_HeapNode in *; lia). done. }
  replace fuel with (length l + (fuel - length l))%nat by lia. rewrite Hwalk.
  destruct (fuel - length l)%nat as [|k] eqn:Hk; [lia|].
  cbn [find_loop]. destruct (cursor_next _ Hcur) as [-> ?]. run_step. rewrite Hend.
  cbn [Z.eqb]. rewrite u64_small by (unfold sizeof_HeapNode in *; lia).
  rewrite (proj2 (Z.leb_gt _ _)) by lia.
  destruct (ps_alloc_none s (ho_pages s l Hok) Hp) as [msg Hs'].
  eexists. by erewrite bind_Halt by exact Hs'.
Qed.

(** What a successful small [malloc] did, whatever its fuel. *)
Lemma malloc_small_inv fuel size s l p s' :
  heap_inv s l -> 0 <= size -> size + sizeof_HeapNode < PAGE -> size mod 16 = 0 ->
  Forall (fun b => b.2 mod 16 = 0) l ->
  malloc fuel size s = Ok p s' ->
  exists b l', p = b.1 + sizeof_HeapNode /\ alloc_post s' l' b size /\ same_regs s s' /\
    (forall c, c ∈ l' -> c ∈ l) /\ b.2 mod 16 = 0 /\ sizeof_HeapNode + size <= b.2 /\
    (forall q, q ∈ ps_pool s' -> q ∈ ps_pool s) /\
    forall c, block_free_of s l c ->
      apart b.1 b.2 c.1 c.2 /\ same_on (fun x => within x c.1 c.2) (mem s) (mem s').
Proof using All.
  intros Hinv Hsz Hsmall Hmod Hal Hrun. pose proof (heap_inv_ok s l Hinv) as Hok.
  rewrite <- (malloc_fuel size (S (length l))) in Hrun by congruence.
  set (F := (fuel + S (length l))%nat) in *.
  assert (HF : (length l < F)%nat) by lia.
  assert (Hmalloc : forall r, find_loop F size addr_head s = r -> panicked r \/
    (exists a m, r = Fault a m) -> False).
  { intros r Hr Hbad. unfold malloc, _alloc, FindAndRemoveNode in Hrun.
    replace (u64 (size + (1 - 1))) with size in Hrun by (unfold sizeof_HeapNode in *; word).
    unfold bind in Hrun. rewrite Hr in Hrun. destruct Hbad as [[? ->]|(? & ? & ->)]; done. }
  destruct (take_fit (sizeof_HeapNode + size) l) as [[b l']|] eqn:Hfit.
  - destruct (take_fit_Some _ _ _ _ Hfit) as (l1 & l2 & -> & -> & Hle & _).
    assert (Hb : b ∈ l1 ++ b :: l2) by set_solver.
    pose proof Hal as Hal'. rewrite Forall_forall in Hal'. specialize (Hal' b Hb). cbn in Hal'.
    destruct (malloc_fit_spec F size s _ b (l1 ++ l2) Hinv Hsz) as (s1 & Hrun' & Hpost & Hr & Hp & Hm);
      [unfold sizeof_HeapNode in *; lia | exact Hfit | | lia |].
    { unfold clean_split, sizeof_HeapNode in *. lia. }
    rewrite Hrun in Hrun'. injection Hrun' as -> <-.
    exists b, (l1 ++ l2). split_and!; [done | done | done | set_solver | done | done | by rewrite Hp |].
    intros c Hc. split.
    + pose proof (bf_sep _ _ _ Hc b Hb). unfold apart in *. lia.
    + eapply same_on_weaken; [exact Hm|]. intros x Hx.
      pose proof (bf_ok _ _ _ Hc) as (? & ? & ?). split.
      * destruct head_range. unfold within in *. lia.
      * intros d Hd. pose proof (bf_sep _ _ _ Hc d Hd). unfold apart, within in *. lia.
  - apply take_fit_None in Hfit. destruct l as [|b0 l0] eqn:Hl.
    + destruct (ps_pool s) as [|q ps] eqn:Hp.
      { exfalso. eapply Hmalloc; [done|]. left. by apply (find_small_exhausted F size s []). }
      destruct F as [|F']; [simpl in HF; lia|].
      destruct (find_empty_spec F' size s q ps Hinv Hsz Hsmall Hp) as (s1 & Hf & Hfd & Hp1 & Hm1).
      destruct (malloc_found (S F') size s s1 [] [] (q, PAGE) Hf Hfd)
        as (s2 & Hrun' & Hpost & Hr & Hp2 & Hm2); [unfold sizeof_HeapNode in *; lia | |].
      { unfold clean_split, sizeof_HeapNode in *. cbn [snd]. lia. }
      rewrite Hrun in Hrun'. injection Hrun' as -> <-.
      exists (q, PAGE), []. cbn [fst snd]. split_and!; [done | done | done | done | done | | |].
      * unfold sizeof_HeapNode in *. lia.
      * rewrite Hp2, Hp1. set_solver.
      * intros c Hc. pose proof (bf_pool _ _ _ Hc q ltac:(rewrite Hp; left)) as Hap.
        pose proof (bf_ok _ _ _ Hc) as (? & ? & ?). destruct head_range.
        split; [unfold apart in *; lia|]. etransitivity.
        -- eapply same_on_weaken; [exact Hm1|]. intros x Hx. split_and!.
           ++ unfold within in *. lia.
           ++ unfold page_bytes, apart, within in *. lia.
           ++ by apply (bf_clear _ _ _ Hc).
        -- eapply same_on_weaken; [exact Hm2|]. cbn [fst snd]. intros x Hx.
           unfold apart, within in *. lia.
    + exfalso. rewrite <- Hl in *. destruct (ps_pool s) as [|q ps] eqn:Hp.
      * eapply Hmalloc; [done|]. left. by apply (find_small_exhausted F size s l).
      * destruct (find_null_fault F size s l q ps) as [s1 Hf]; try done; [by rewrite Hl|].
        eapply Hmalloc; [done|]. right. unfold FindAndRemoveNode in Hf. by eexists _, _.
Qed.

(** ** The state machine *)

(** The payload of a block: what [malloc] gave to the client. *)
Definition payload (b : block) (x : Z) : Prop :=
  within x (b.1 + sizeof_HeapNode) (b.2 - sizeof_HeapNode).

Inductive client_step : machine * list block -> machine * list block -> Prop :=
  | client_malloc fuel size s p s' live :
      0 <= size -> size + sizeof_HeapNode < PAGE -> size mod 16 = 0 ->
      malloc fuel size s = Ok p s' ->
      client_step (s, live)
        (s', (p - sizeof_HeapNode, sizeof_HeapNode + size) :: live)
  | client_free s s' b l1 l2 :
      free (b.1 + sizeof_HeapNode) s = Ok tt s' ->
      client_step (s, l1 ++ b :: l2) (s', l1 ++ l2)
  | client_write s m' b live :
      b ∈ live -> same_on (fun x => ~ payload b x) (mem s) m' ->
      client_step (s, live) (with_mem s m', live).

(** Live blocks: apart from each other and from everything the heap still
    owns, their sizes intact in their headers. *)
Record client_safe (c : machine * list block) (l : list block) : Prop := {
  cs_inv : heap_inv (fst c) l;
  cs_mult : Forall (fun b => b.2 mod 16 = 0) (l ++ snd c);
  cs_live : forall b, b ∈ snd c ->
    block_free_of (fst c) l b /\ ld64 (mem (fst c)) b.1 = b.2;
  cs_apart : blocks_sep (snd c);
}.

Lemma block_apart_shrink s s' l l' c :
  same_regs s s' -> block_free_of s l c ->
  (forall d, d ∈ l' -> apart c.1 c.2 d.1 d.2) ->
  (forall q, q ∈ ps_pool s' -> q ∈ ps_pool s) ->
  block_free_of s' l' c.
Proof.
  intros Hr [? ? Hc Hp] Hl Hpool. split; rewrite ?(same_regs_alloc _ _ Hr); auto.
Qed.

(** The pieces of a carved block are apart from whatever the block is apart from. *)
Lemma carve_apart size b l c :
  0 <= size -> sizeof_HeapNode <= c.2 -> sizeof_HeapNode + size <= b.2 ->
  apart b.1 b.2 c.1 c.2 -> (forall d, d ∈ l -> apart c.1 c.2 d.1 d.2) ->
  forall d, d ∈ carve size b l -> apart c.1 c.2 d.1 d.2.
Proof.
  intros Hsz Hc Hb Hbc Hl d Hd. unfold carve in Hd. destruct (0 <? _); [|by apply Hl].
  apply elem_of_cons in Hd as [->|Hd]; [|by apply Hl].
  unfold apart, sizeof_HeapNode in *. cbn [fst snd]. lia.
Qed.

Lemma client_malloc_safe fuel size s p s' live l :
  client_safe (s, live) l -> 0 <= size -> size + sizeof_HeapNode < PAGE ->
  size mod 16 = 0 -> malloc fuel size s = Ok p s' ->
  exists l', client_safe (s', (p - sizeof_HeapNode, sizeof_HeapNode + size) :: live) l'.
Proof using All.
  intros [Hinv Hmul Hlive Hap] Hsz Hsmall Hmod Hrun. cbn [fst snd] in *.
  apply Forall_app in Hmul as [Hml Hmlive].
  destruct (malloc_small_inv fuel size s l p s') as
    (b & l' & -> & [Hi Hh Hb] & Hr & Hsub & Hbm & Hble & Hpool & Hkeep); try done.
  exists (carve size b l'). replace (b.1 + sizeof_HeapNode - sizeof_HeapNode) with b.1 by lia.
  assert (Hold : forall c, c ∈ live -> apart b.1 b.2 c.1 c.2 /\
    block_free_of s' (carve size b l') c /\ ld64 (mem s') c.1 = c.2).
  { intros c Hc. destruct (Hlive c Hc) as [Hcf Hch]. destruct (Hkeep c Hcf) as [Hbc Hm].
    pose proof (bf_ok _ _ _ Hcf) as (_ & Hc2 & _).
    split_and!; [done | |].
    - eapply block_apart_shrink; [done | exact Hcf | | done].
      apply carve_apart; try done. intros d Hd. by apply (bf_sep _ _ _ Hcf), Hsub.
    - rewrite <- Hch. eapply same_on_ld; [exact Hm|]. unfold within, sizeof_HeapNode in *. lia. }
  split; cbn [fst snd].
  - done.
  - apply Forall_app. split.
    + assert (Hl' : Forall (fun c => c.2 mod 16 = 0) l').
      { rewrite Forall_forall in *. auto. }
      unfold carve. destruct (0 <? _); [|done]. apply Forall_cons. split; [|done].
      cbn [snd]. unfold sizeof_HeapNode in *. lia.
    + apply Forall_cons. split; [|done]. cbn [snd]. unfold sizeof_HeapNode. lia.
  - intros c [->|Hc]%elem_of_cons; [by split | by apply Hold].
  - split; [|done]. intros c Hc. destruct (Hold c Hc) as [Hbc _].
    unfold apart, sizeof_HeapNode in *. cbn [fst snd]. lia.
Qed.

Lemma client_free_safe s s' b l1 l2 l :
  client_safe (s, l1 ++ b :: l2) l -> free (b.1 + sizeof_HeapNode) s = Ok tt s' ->
  client_safe (s', l1 ++ l2) (b :: l).
Proof using All.
  intros [Hinv Hmul Hlive Hap] Hrun. cbn [fst snd] in *.
  destruct (Hlive b ltac:(set_solver)) as [Hbf Hbh].
  pose proof (bf_ok _ _ _ Hbf) as (Hb1 & Hb2 & Hb3).
  assert (Hs' : s' = with_mem s (created (mem s) b.1 b.2)).
  { unfold free, size_of, sizeof_HeapNode, KERNEL_BASE in *.
    replace (u64 (b.1 + 16 - 16)) with b.1 in Hrun by word.
    erewrite bind_Ok in Hrun by (apply load_ok; lia). rewrite Hbh in Hrun.
    rewrite CreateNode_run in Hrun by (apply block_ok_range, Hbf). congruence. }
  subst s'. pose proof (heap_inv_create s l b Hinv Hbf) as Hinv'.
  assert (Hpool : ps_pool (with_mem s (created (mem s) b.1 b.2)) = ps_pool s).
  { apply (created_frame s l); [by apply heap_inv_ok | by apply block_ok_range, Hbf |].
    intros x Hx. apply Hbf. unfold within, sizeof_HeapNode in *. lia. }
  apply blocks_sep_app in Hap as (Hs1 & [Hsb Hs2] & Hs12).
  assert (Hbc : forall c, c ∈ l1 ++ l2 -> apart c.1 c.2 b.1 b.2).
  { intros c [Hc|Hc]%elem_of_app; [apply Hs12; [done | left]|].
    specialize (Hsb c Hc). unfold apart in *. lia. }
  split; cbn [fst snd].
  - done.
  - rewrite !Forall_app, !Forall_cons in *. tauto.
  - intros c Hc. destruct (Hlive c ltac:(set_solver)) as [Hcf Hch]. split.
    + eapply block_apart_shrink; [done | exact Hcf | | by rewrite Hpool].
      intros d [->|Hd]%elem_of_cons; [by apply Hbc | by apply (bf_sep _ _ _ Hcf)].
    + rewrite <- Hch. pose proof (bf_ok _ _ _ Hcf) as (? & ? & ?). destruct head_range.
      specialize (Hbc c Hc). eapply same_on_ld; [apply created_same|].
      unfold apart, within, sizeof_HeapNode in *. lia.
  - apply blocks_sep_app. split_and!; [done | done |]. intros c d Hc Hd.
    apply Hs12; [done | by right].
Qed.

Lemma client_write_safe s m' b live l :
  client_safe (s, live) l -> b ∈ live -> same_on (fun x => ~ payload b x) (mem s) m' ->
  client_safe (with_mem s m', live) l.
Proof using All.
  intros [Hinv Hmul Hlive Hap] Hb Hm. cbn [fst snd] in *.
  destruct (Hlive b Hb) as [Hbf _].
  destruct (heap_inv_write s l b m' Hinv Hbf) as [Hinv' Hpool].
  { eapply same_on_weaken; [exact Hm|]. unfold payload, within, sizeof_HeapNode. lia. }
  split; cbn [fst snd]; [done | done | | done].
  intros c Hc. destruct (Hlive c Hc) as [Hcf Hch]. split.
  - by apply (block_free_pool s).
  - rewrite <- Hch. eapply same_on_ld; [exact Hm|]. intros x Hx Hp.
    pose proof (bf_ok _ _ _ Hbf) as (? & ? & ?). pose proof (bf_ok _ _ _ Hcf) as (? & ? & ?).
    destruct (decide (b = c)) as [->|Hne].
    + unfold payload, within, sizeof_HeapNode in *. lia.
    + apply list_elem_of_split in Hb as (k1 & k2 & ->).
      apply blocks_sep_app in Hap as (_ & [Hsb _] & Hs12).
      assert (Hbc : apart b.1 b.2 c.1 c.2).
      { apply elem_of_app in Hc as [Hc|[->|Hc]%elem_of_cons]; [|done|by apply Hsb].
        specialize (Hs12 c b Hc ltac:(left)). unfold apart in *. lia. }
      unfold payload, apart, within, sizeof_HeapNode in *. lia.
Qed.

(** C11. Memory safety of the heap for disciplined clients: in every state
    reachable from an empty heap by [malloc]s of multiples of 16 bytes that fit a page
    with their header, [free]s of live blocks and writes to payloads, the heap invariant holds, live blocks
    overlap neither each other nor any free block, free page or allocator data,
    and every header still holds its block's size. *)
Theorem clients_never_overlap s0 s live :
  heap_inv s0 [] -> rtc client_step (s0, []) (s, live) ->
  exists l, heap_inv s l /\ blocks_sep live /\
    forall b, b ∈ live -> block_free_of s l b /\ ld64 (mem s) b.1 = b.2.
Proof using All.
  intros Hinv Hsteps.
  assert (Hsafe : exists l, client_safe (s0, []) l).
  { exists []. split; cbn; try done. by intros ? ?%not_elem_of_nil. }
  enough (Hend : exists l, client_safe (s, live) l).
  { destruct Hend as [l [? ? ? ?]]. by exists l. }
  remember (s0, []) as c0 eqn:E0. remember (s, live) as c1 eqn:E1. clear E0 E1 Hinv.
  induction Hsteps as [c|c c' c'' Hstep _ IH]; [done|]. apply IH.
  destruct Hsafe as [l Hsafe]. destruct Hstep.
  - by eapply client_malloc_safe.
  - eexists. by eapply client_free_safe.
  - eexists. by eapply client_write_safe.
Qed.
End Clients.

(** One client allocating 64 bytes on the demonstration machine. *)
Lemma clients_never_overlap_witness :
  exists s l, rtc client_step (demo, []) (s, [(0x101000, 80)]) /\ heap_inv s l.
Proof.
  destruct demo_heap1 as (s & p & Hrun & -> & _).
  assert (Hs : rtc client_step (demo, []) (s, [(0x101000, 80)])).
  { apply rtc_once. apply (client_malloc 1 64 demo 0x101010 s []); [lia | | |exact Hrun];
      vm_compute; reflexivity. }
  destruct (clients_never_overlap demo s _ demo_heap Hs) as (l & Hi & _).
  exists s, l. split; [exact Hs | exact Hi].
Defined.
