(* ===== verification/Bitfield.v ===== *)
(** C bit-fields: reading and writing [bf_width] bits of a machine word from
    bit [bf_lo] on, as the structs of paging.h and apic.h declare them. *)
From S2P Require Import Prelude.

Record bitfield := BF { bf_lo : Z; bf_width : Z }.

Definition getf (v : Z) (f : bitfield) : Z :=
  Z.land (Z.shiftr v (bf_lo f)) (Z.ones (bf_width f)).
Definition setf (v : Z) (f : bitfield) (x : Z) : Z :=
  Z.lor (Z.ldiff v (Z.shiftl (Z.ones (bf_width f)) (bf_lo f)))
        (Z.shiftl (Z.land x (Z.ones (bf_width f))) (bf_lo f)).

(** The bit [i] belongs to the field; the fields share no bit. *)
Definition in_field (f : bitfield) (i : Z) : Prop := bf_lo f <= i < bf_lo f + bf_width f.
#[export] Instance in_field_dec f i : Decision (in_field f i).
Proof. unfold in_field. apply _. Defined.
Definition bf_ok (f : bitfield) : Prop := 0 <= bf_lo f /\ 0 <= bf_width f.
Definition bf_apart (f g : bitfield) : Prop :=
  apart (bf_lo f) (bf_width f) (bf_lo g) (bf_width g).

Lemma testbit_ones_nonneg w i : 0 <= w -> 0 <= i -> Z.testbit (Z.ones w) i = (i <? w).
Proof.
  intros Hw Hi. rewrite Z.testbit_ones by done.
  by destruct (Z.leb_spec 0 i); [|lia].
Qed.

Lemma testbit_getf v f i :
  bf_ok f -> 0 <= i ->
  Z.testbit (getf v f) i = Z.testbit v (bf_lo f + i) && (i <? bf_width f).
Proof.
  intros [Hlo Hw] Hi. unfold getf.
  rewrite Z.land_spec, Z.shiftr_spec, testbit_ones_nonneg by done. do 2 f_equal. lia.
Qed.

Lemma testbit_setf v f x i :
  bf_ok f -> 0 <= i ->
  Z.testbit (setf v f x) i =
    if decide (in_field f i) then Z.testbit x (i - bf_lo f) else Z.testbit v i.
Proof.
  intros [Hlo Hw] Hi. unfold setf, in_field.
  rewrite Z.lor_spec, Z.ldiff_spec, !Z.shiftl_spec by done.
  destruct (decide (i < bf_lo f)) as [Hl|Hl].
  - rewrite !(Z.testbit_neg_r _ (i - bf_lo f)) by lia.
    rewrite decide_False by lia. by rewrite andb_true_r, orb_false_r.
  - rewrite Z.land_spec, testbit_ones_nonneg by lia.
    destruct (Z.ltb_spec (i - bf_lo f) (bf_width f)).
    + rewrite decide_True by lia. by rewrite andb_false_r, andb_true_r.
    + rewrite decide_False by lia. by rewrite andb_true_r, andb_false_r, orb_false_r.
Qed.

Lemma getf_range v f : bf_ok f -> 0 <= getf v f < 2 ^ bf_width f.
Proof.
  intros [Hlo Hw]. unfold getf. rewrite Z.land_ones by done.
  apply Z.mod_pos_bound. lia.
Qed.

Lemma getf_setf_eq v f x : bf_ok f -> getf (setf v f x) f = x mod 2 ^ bf_width f.
Proof.
  intros Hf. rewrite <- Z.land_ones by apply Hf. apply Z.bits_inj'. intros i Hi.
  destruct (Hf) as [Hlo Hw].
  rewrite testbit_getf, testbit_setf, Z.land_spec, testbit_ones_nonneg by (done || lia).
  unfold in_field. destruct (Z.ltb_spec i (bf_width f)); [|by rewrite !andb_false_r].
  rewrite decide_True by lia. do 2 f_equal. lia.
Qed.

Lemma getf_setf_ne v f g x :
  bf_ok f -> bf_ok g -> bf_apart f g -> getf (setf v f x) g = getf v g.
Proof.
  intros Hf Hg Ha. apply Z.bits_inj'. intros i Hi.
  rewrite !testbit_getf by done. rewrite testbit_setf by (done || (destruct Hg; lia)).
  destruct (Z.ltb_spec i (bf_width g)); [|by rewrite !andb_false_r].
  rewrite decide_False; [done|]. unfold in_field, bf_apart, apart in *. lia.
Qed.

Lemma setf_range v f x n :
  bf_ok f -> bf_lo f + bf_width f <= n -> 0 <= v < 2 ^ n -> 0 <= setf v f x < 2 ^ n.
Proof.
  intros Hf Hn Hv. destruct (Hf) as [Hlo Hw].
  assert (H0 : 0 <= setf v f x).
  { unfold setf. rewrite Z.lor_nonneg, Z.ldiff_nonneg, Z.shiftl_nonneg, Z.land_nonneg.
    split; [left; lia | right]. rewrite Z.ones_equiv. lia. }
  split; [done|].
  assert (Heq : setf v f x = Z.land (setf v f x) (Z.ones n)); [|rewrite Heq, Z.land_ones by lia; apply Z.mod_pos_bound; lia].
  apply Z.bits_inj'. intros i Hi.
  rewrite Z.land_spec, testbit_ones_nonneg by lia.
  destruct (Z.ltb_spec i n) as [Hl|Hge]; [by rewrite andb_true_r|].
  rewrite andb_false_r, testbit_setf by done. unfold in_field.
  rewrite decide_False by lia. apply Z.testbit_false; [lia|].
  rewrite Z.div_small; [done|]. split; [lia|].
  eapply Z.lt_le_trans; [apply Hv | apply Z.pow_le_mono_r; lia].
Qed.

(** A one-bit field is a flag. *)
Lemma getf_flag v f : bf_ok f -> bf_width f = 1 -> getf v f = 0 \/ getf v f = 1.
Proof. intros Hf Hw. pose proof (getf_range v f Hf). rewrite Hw in *. lia. Qed.

Lemma getf_0 f : getf 0 f = 0.
Proof. unfold getf. rewrite Z.shiftr_0_l. apply Z.land_0_l. Qed.

Lemma setf_u64_range v f x :
  bf_ok f -> bf_lo f + bf_width f <= 64 -> u64 (setf v f x) = setf (u64 v) f x.
Proof.
  intros Hf Hn. destruct (Hf) as [Hlo Hw]. unfold u64. rewrite <- !Z.land_ones by lia.
  apply Z.bits_inj'. intros i Hi.
  rewrite Z.land_spec, !testbit_setf, Z.land_spec, testbit_ones_nonneg by (done || lia).
  destruct (Z.ltb_spec i 64); case_decide; rewrite ?andb_true_r; try done.
  unfold in_field in *. lia.
Qed.
