(* ===== verification/Layout.v ===== *)
(** Where the compiler puts the members of a C structure (System V x86-64 ABI,
    with the packed and aligned attributes of GCC): types as data, sizes,
    alignments and positions as functions, and what every such layout promises -
    members lie inside their object, unpacked ones at their alignment, and
    different members share no bit.  [Structs] declares the kernel's structures
    in these terms. *)
From Stdlib Require Import ZArith.Znumtheory.
From S2P Require Import Prelude Memory.

(** ** Types

    [bits] is the width of a bit-field; [al] is the argument of an aligned
    attribute, 1 without one. *)
Inductive ctype :=
| CInt (bytes : Z)
| CPtr
| CArray (elt : ctype) (n : Z)
| CStruct (packed : bool) (al : Z) (ms : members)
with members :=
| Done
| Decl (name : string) (t : ctype) (bits : option Z) (rest : members).

Scheme ctype_mut := Induction for ctype Sort Prop
  with members_mut := Induction for members Sort Prop.

Definition round_up (v b : Z) : Z := (v + b - 1) / b * b.

Fixpoint alignof (t : ctype) : Z :=
  match t with
  | CInt n => n
  | CPtr => 8
  | CArray t _ => alignof t
  | CStruct packed al ms => if packed then al else Z.max al (members_align ms)
  end
with members_align (ms : members) : Z :=
  match ms with
  | Done => 1
  | Decl _ t _ ms => Z.max (alignof t) (members_align ms)
  end.

(** The first bit of a member, when the one before it ends at [pos]: a member of
    alignment [a] bytes and [size] bits, or a bit-field of that type, which stays
    inside one storage unit. Packed members follow each other without padding, bit
    by bit for bit-fields, byte by byte for the others. *)
Definition member_pos (packed : bool) (pos a size : Z) (bits : option Z) : Z :=
  match bits with
  | None => round_up pos (if packed then 8 else 8 * a)
  | Some w => if packed || (pos mod size + w <=? size) then pos else round_up pos size
  end.
Definition member_width (size : Z) (bits : option Z) : Z := default size bits.

Fixpoint bitsof (t : ctype) : Z :=
  match t with
  | CInt n => 8 * n
  | CPtr => 64
  | CArray t n => n * bitsof t
  | CStruct packed al ms =>
      round_up (members_end packed 0 ms)
        (8 * (if packed then al else Z.max al (members_align ms)))
  end
with members_end (packed : bool) (pos : Z) (ms : members) : Z :=
  match ms with
  | Done => pos
  | Decl _ t b ms =>
      members_end packed (member_pos packed pos (alignof t) (bitsof t) b + member_width (bitsof t) b) ms
  end.
Definition sizeof (t : ctype) : Z := bitsof t / 8.

(** ** Members

    A designator such as [.registers.rip] or [.values[3]] is a list of steps; its
    position is the first bit, the number of bits and the type. *)
Inductive step := Fld (name : string) | Idx (i : Z).

Fixpoint find_member (packed : bool) (pos : Z) (ms : members) (f : string) : option (Z * Z * ctype) :=
  match ms with
  | Done => None
  | Decl g t b ms =>
      let o := member_pos packed pos (alignof t) (bitsof t) b in
      let w := member_width (bitsof t) b in
      if String.eqb f g then Some (o, w, t) else find_member packed (o + w) ms f
  end.

Definition first_step (t : ctype) (x : step) : option (Z * Z * ctype) :=
  match t, x with
  | CStruct packed _ ms, Fld f => find_member packed 0 ms f
  | CArray t n, Idx i => if (0 <=? i) && (i <? n) then Some (i * bitsof t, bitsof t, t) else None
  | _, _ => None
  end.

Fixpoint position (t : ctype) (w : Z) (p : list step) : option (Z * Z * ctype) :=
  match p with
  | [] => Some (0, w, t)
  | x :: p =>
      match first_step t x with
      | None => None
      | Some (o, w, u) =>
          match position u w p with
          | None => None
          | Some (o', w', u') => Some (o + o', w', u')
          end
      end
  end.
Definition designated (t : ctype) (p : list step) : option (Z * Z * ctype) := position t (bitsof t) p.

(** The byte offset and the bits of a member, as the code's constants have them. *)
Definition offsetof (t : ctype) (p : list step) : option Z :=
  '(o, _, _) ← designated t p; if o mod 8 =? 0 then Some (o / 8) else None.
Definition bits_of (t : ctype) (p : list step) : option (Z * Z) :=
  '(o, w, _) ← designated t p; Some (o, w).

(** ** Well-formed types *)

Definition pow2 (a : Z) : bool := (0 <? a) && (a =? 2 ^ Z.log2 a).

Definition bits_ok (t : ctype) (b : option Z) : bool :=
  match b, t with
  | None, _ => true
  | Some w, CInt n => (0 <? w) && (w <=? 8 * n)
  | Some _, _ => false
  end.

Fixpoint named (f : string) (ms : members) : bool :=
  match ms with Done => false | Decl g _ _ ms => String.eqb f g || named f ms end.

Fixpoint wf (t : ctype) : bool :=
  match t with
  | CInt n => pow2 n
  | CPtr => true
  | CArray t n => wf t && (0 <=? n)
  | CStruct _ al ms => pow2 al && wfs ms
  end
with wfs (ms : members) : bool :=
  match ms with
  | Done => true
  | Decl f t b ms => wf t && bits_ok t b && negb (named f ms) && wfs ms
  end.

(** No packed structure inside: the compiler's own alignment everywhere. *)
Fixpoint natural (t : ctype) : bool :=
  match t with
  | CInt _ | CPtr => true
  | CArray t _ => natural t
  | CStruct packed _ ms => negb packed && naturals ms
  end
with naturals (ms : members) : bool :=
  match ms with
  | Done => true
  | Decl _ t _ ms => natural t && naturals ms
  end.

(** ** Rounding *)

Lemma round_up_ge v b : 0 < b -> v <= round_up v b.
Proof.
  intros Hb. unfold round_up. pose proof (Z.div_mod (v + b - 1) b ltac:(lia)).
  pose proof (Z.mod_pos_bound (v + b - 1) b Hb). lia.
Qed.

Lemma round_up_divide v b : (b | round_up v b).
Proof. apply Z.divide_factor_r. Qed.

Lemma pow2_pos a : pow2 a = true -> 0 < a.
Proof. unfold pow2. intros [H _]%andb_prop. lia. Qed.

Lemma pow2_le_divide a b : pow2 a = true -> pow2 b = true -> a <= b -> (a | b).
Proof.
  unfold pow2. intros [Ha Ea]%andb_prop [Hb Eb]%andb_prop Hl.
  apply Z.eqb_eq in Ea, Eb. rewrite Ea, Eb.
  assert (Z.log2 a <= Z.log2 b) by (apply Z.log2_le_mono; lia).
  exists (2 ^ (Z.log2 b - Z.log2 a)).
  rewrite <- Z.pow_add_r by (try apply Z.log2_nonneg; lia). f_equal. lia.
Qed.

Lemma pow2_max a b : pow2 a = true -> pow2 b = true -> pow2 (Z.max a b) = true.
Proof. intros Ha Hb. by destruct (Z.max_spec a b) as [[_ ->]|[_ ->]]. Qed.

Lemma pow2_max_divide a b : pow2 a = true -> pow2 b = true -> (a | Z.max a b) /\ (b | Z.max a b).
Proof. intros Ha Hb. split; apply pow2_le_divide; auto using pow2_max; lia. Qed.

(** ** Sizes and positions of well-formed types *)

Ltac split_wf :=
  repeat match goal with
  | H : _ && _ = true |- _ => apply andb_prop in H; destruct H
  | H : negb _ = true |- _ => apply negb_true_iff in H
  end.

Lemma alignof_pow2 t : wf t = true -> pow2 (alignof t) = true.
Proof.
  revert t. apply (ctype_mut (fun t => wf t = true -> pow2 (alignof t) = true)
    (fun ms => wfs ms = true -> pow2 (members_align ms) = true)); cbn; auto; intros; split_wf; auto.
  - destruct packed; auto using pow2_max.
  - auto using pow2_max.
Qed.

Lemma members_align_pow2 ms : wfs ms = true -> pow2 (members_align ms) = true.
Proof. induction ms; cbn; intros; split_wf; auto using pow2_max, alignof_pow2. Qed.

Lemma member_pos_ge packed pos a size b : 0 < a -> 0 <= size -> (b <> None -> 0 < size) ->
  pos <= member_pos packed pos a size b.
Proof.
  intros Ha Hs Hb. destruct b as [w|]; cbn.
  - destruct (_ || _); [lia | apply round_up_ge, Hb; done].
  - apply round_up_ge. destruct packed; lia.
Qed.

Lemma bits_ok_width t b : bits_ok t b = true -> 0 <= bitsof t ->
  (b <> None -> 0 < bitsof t) /\ 0 <= member_width (bitsof t) b <= bitsof t /\
  (member_width (bitsof t) b = bitsof t \/ exists n, t = CInt n).
Proof.
  destruct b as [w|]; cbn; [|intros _ ?; split_and!; by auto with lia].
  destruct t; try done. cbn. intros [? ?]%andb_prop ?. split_and!; [lia | lia | lia | eauto].
Qed.

Lemma bitsof_members_nonneg :
  (forall t, wf t = true -> 0 <= bitsof t) /\
  (forall ms, wfs ms = true -> forall packed pos, pos <= members_end packed pos ms).
Proof.
  assert (Hm : forall t b ms packed pos, wf t = true -> bits_ok t b = true -> 0 <= bitsof t ->
    (forall q, q <= members_end packed q ms) ->
    pos <= members_end packed (member_pos packed pos (alignof t) (bitsof t) b + member_width (bitsof t) b) ms).
  { intros t b ms packed pos Ht Hb Hs IH. etrans; [|apply IH].
    destruct (bits_ok_width t b Hb Hs) as (H1 & H2 & _).
    pose proof (member_pos_ge packed pos (alignof t) (bitsof t) b). 
    pose proof (pow2_pos _ (alignof_pow2 t Ht)). intuition lia. }
  assert (Hs : forall packed al ms, pow2 al = true -> wfs ms = true ->
    0 < 8 * (if packed : bool then al else Z.max al (members_align ms))).
  { intros packed al ms Ha _. apply pow2_pos in Ha. destruct packed; lia. }
  assert (H : forall t, wf t = true -> 0 <= bitsof t).
  { apply (ctype_mut (fun t => wf t = true -> 0 <= bitsof t)
      (fun ms => wfs ms = true -> forall packed pos, pos <= members_end packed pos ms)); cbn; intros; split_wf.
    - match goal with H : pow2 _ = true |- _ => apply pow2_pos in H end. lia.
    - lia.
    - apply Z.mul_nonneg_nonneg; [lia | auto].
    - etrans; [|apply round_up_ge; eauto]. auto.
    - lia.
    - apply Hm; auto. }
  split; [done|]. induction ms; cbn; intros; split_wf; [lia|]. apply Hm; auto.
Qed.

Definition bitsof_nonneg := proj1 bitsof_members_nonneg.
Definition members_end_ge := proj2 bitsof_members_nonneg.

(** What a found member promises: its type is well-formed and its bits are those
    of the type, or fewer for a bit-field of an integer type. *)
Definition slot_ok (w : Z) (t : ctype) : Prop :=
  wf t = true /\ 0 <= w <= bitsof t /\ (w = bitsof t \/ exists n, t = CInt n).

Lemma slot_ok_whole t : wf t = true -> slot_ok (bitsof t) t.
Proof. intros Ht. pose proof (bitsof_nonneg t Ht). split_and!; auto; lia. Qed.

Lemma slot_ok_member t b : wf t = true -> bits_ok t b = true -> slot_ok (member_width (bitsof t) b) t.
Proof.
  intros Ht Hb. destruct (bits_ok_width t b Hb (bitsof_nonneg t Ht)) as (_ & Hw & Hk).
  exact (conj Ht (conj Hw Hk)).
Qed.

Lemma member_pos_after packed pos t b : wf t = true -> bits_ok t b = true ->
  pos <= member_pos packed pos (alignof t) (bitsof t) b.
Proof.
  intros Ht Hb. apply member_pos_ge; [by apply pow2_pos, alignof_pow2 | by apply bitsof_nonneg |].
  by apply (bits_ok_width t b Hb (bitsof_nonneg t Ht)).
Qed.

Lemma find_member_in packed f ms : wfs ms = true -> forall pos o w u,
  find_member packed pos ms f = Some (o, w, u) ->
  pos <= o /\ o + w <= members_end packed pos ms /\ slot_ok w u.
Proof.
  induction ms as [|g t b ms IH]; cbn; [done|]. intros Hw pos o w u Hf. split_wf.
  pose proof (member_pos_after packed pos t b ltac:(done) ltac:(done)).
  pose proof (slot_ok_member t b ltac:(done) ltac:(done)) as Hk.
  destruct (String.eqb f g).
  - simplify_eq. split_and!; [done | | done]. by apply members_end_ge.
  - apply IH in Hf as (? & ? & ?); [|done]. split_and!; [|done..]. destruct Hk as (_ & ? & _). lia.
Qed.

Lemma find_member_named packed f ms : forall pos x,
  find_member packed pos ms f = Some x -> named f ms = true.
Proof.
  induction ms as [|g t b ms IH]; cbn; [done|]. intros pos x Hf.
  destruct (String.eqb f g); [done|]. eauto.
Qed.

Lemma find_member_apart packed f g ms : wfs ms = true -> f <> g -> forall pos o w u o' w' u',
  find_member packed pos ms f = Some (o, w, u) ->
  find_member packed pos ms g = Some (o', w', u') ->
  apart o w o' w'.
Proof.
  intros Hw Hne. induction ms as [|h t b ms IH]; cbn; [done|].
  intros pos o w u o' w' u' Hf Hg. cbn in Hw. split_wf. unfold apart.
  destruct (String.eqb_spec f h), (String.eqb_spec g h); simplify_eq.
  - apply find_member_in in Hg as (? & _); [|done]. lia.
  - apply find_member_in in Hf as (? & _); [|done]. lia.
  - by eapply IH.
Qed.

Lemma first_step_in t x o w u : wf t = true -> first_step t x = Some (o, w, u) ->
  0 <= o /\ o + w <= bitsof t /\ slot_ok w u.
Proof.
  intros Ht Hx. destruct t as [n| |t n|packed al ms], x as [f|i]; cbn in *; try done; split_wf.
  - destruct ((0 <=? i) && (i <? n)) eqn:Hi; [|done]. simplify_eq. split_wf.
    pose proof (bitsof_nonneg u ltac:(done)).
    split_and!; [nia | nia | by apply slot_ok_whole].
  - apply find_member_in in Hx as (? & ? & ?); [|done]. split_and!; [done | | done].
    etrans; [done|]. apply round_up_ge.
    match goal with H : pow2 _ = true |- _ => apply pow2_pos in H end. destruct packed; lia.
Qed.

Lemma first_step_apart t x y o w u o' w' u' : wf t = true -> x <> y ->
  first_step t x = Some (o, w, u) -> first_step t y = Some (o', w', u') -> apart o w o' w'.
Proof.
  intros Ht Hne Hx Hy. destruct t as [n| |t n|packed al ms], x as [f|i], y as [g|j];
    cbn in *; try done; split_wf.
  - assert (i <> j) by congruence.
    destruct ((0 <=? i) && (i <? n)) eqn:Hi; [|done]. destruct ((0 <=? j) && (j <? n)) eqn:Hj; [|done].
    simplify_eq. pose proof (bitsof_nonneg u ltac:(done)). unfold apart.
    destruct (Z.lt_total i j) as [|[|]]; nia.
  - eapply (find_member_apart packed f g ms); [done | congruence | done | done].
Qed.

Lemma first_step_array t n i : 0 <= i < n ->
  first_step (CArray t n) (Idx i) = Some (i * bitsof t, bitsof t, t).
Proof. intros Hi. cbn. by rewrite (proj2 (Z.leb_le 0 i)), (proj2 (Z.ltb_lt i n)) by lia. Qed.

Lemma first_step_whole t w x r : slot_ok w t -> first_step t x = Some r -> w = bitsof t.
Proof. intros (_ & _ & [->|[n ->]]); [done|]. by destruct x. Qed.

Lemma position_in p : forall t w o w' u, slot_ok w t -> position t w p = Some (o, w', u) ->
  0 <= o /\ o + w' <= w /\ slot_ok w' u.
Proof.
  induction p as [|x p IH]; cbn; intros t w o w' u Hs Hp.
  - simplify_eq. split_and!; [done | lia | done].
  - destruct (first_step t x) as [[[o1 w1] u1]|] eqn:Hx; [|done].
    destruct (position u1 w1 p) as [[[o2 w2] u2]|] eqn:Hp2; [|done]. simplify_eq.
    rewrite (first_step_whole _ _ _ _ Hs Hx).
    apply first_step_in in Hx as (? & ? & Hs1); [|apply Hs].
    apply IH in Hp2 as (? & ? & ?); [|done]. split_and!; [lia | lia | done].
Qed.

Lemma position_apart p : forall q t w o w1 u1 o' w2 u2, slot_ok w t ->
  ~ p `prefix_of` q -> ~ q `prefix_of` p ->
  position t w p = Some (o, w1, u1) -> position t w q = Some (o', w2, u2) ->
  apart o w1 o' w2.
Proof.
  induction p as [|x p IH]; intros [|y q] t w o w1 u1 o' w2 u2 Hs Np Nq Hp Hq;
    try (by destruct Np; apply prefix_nil); try (by destruct Nq; apply prefix_nil).
  cbn in Hp, Hq.
  destruct (first_step t x) as [[[a b] c]|] eqn:Hx; [|done].
  destruct (position c b p) as [[[a2 b2] c2]|] eqn:Hp2; [|done].
  destruct (first_step t y) as [[[d e] f]|] eqn:Hy; [|done].
  destruct (position f e q) as [[[d2 e2] f2]|] eqn:Hq2; [|done]. simplify_eq.
  destruct (first_step_in _ _ _ _ _ (proj1 Hs) Hx) as (_ & _ & Hc).
  destruct (first_step_in _ _ _ _ _ (proj1 Hs) Hy) as (_ & _ & Hf).
  assert (Hxy : x = y \/ x <> y).
  { destruct x as [s|i], y as [s'|i']; try (right; congruence).
    - destruct (decide (s = s')); [left | right]; congruence.
    - destruct (decide (i = i')); [left | right]; congruence. }
  destruct Hxy as [->|Hne].
  - rewrite Hx in Hy. simplify_eq.
    assert (apart a2 w1 d2 w2) by (eapply (IH q); eauto using prefix_cons).
    unfold apart in *. lia.
  - pose proof (first_step_apart _ _ _ _ _ _ _ _ _ (proj1 Hs) Hne Hx Hy).
    apply position_in in Hp2 as (? & ? & _); [|done]. apply position_in in Hq2 as (? & ? & _); [|done].
    unfold apart in *. lia.
Qed.

(** ** Alignment *)

Lemma alignof_divides_bits t : wf t = true -> (8 * alignof t | bitsof t).
Proof.
  induction t; cbn; intros; split_wf; [done | done | | apply round_up_divide].
  apply Z.divide_mul_r; auto.
Qed.

Lemma find_member_aligned f ms : wfs ms = true -> naturals ms = true -> forall pos o w u,
  find_member false pos ms f = Some (o, w, u) ->
  natural u = true /\ (alignof u | members_align ms) /\ (w = bitsof u -> (8 * alignof u | o)).
Proof.
  induction ms as [|g t b ms IH]; cbn; [done|]. intros Hw Hn pos o w u Hf. split_wf.
  destruct (pow2_max_divide (alignof t) (members_align ms)) as [D1 D2];
    [by apply alignof_pow2 | by apply members_align_pow2 |].
  destruct (String.eqb f g).
  - simplify_eq. split_and!; [done | done |]. intros Hwidth.
    pose proof (alignof_divides_bits u ltac:(done)) as Hd.
    destruct b as [k|]; cbn in *; [|apply round_up_divide].
    destruct (Z.leb_spec (pos mod bitsof u + k) (bitsof u)); [|etrans; [done | apply round_up_divide]].
    destruct (bits_ok_width u (Some k) ltac:(done) (bitsof_nonneg u ltac:(done))) as (Hpos & _).
    specialize (Hpos ltac:(done)). pose proof (Z.mod_pos_bound pos (bitsof u) Hpos).
    etrans; [done|]. apply Z.mod_divide; lia.
  - apply IH in Hf as (? & ? & ?); [|done..]. split_and!; [done | by etrans | done].
Qed.

Lemma first_step_aligned t x o w u : wf t = true -> natural t = true -> first_step t x = Some (o, w, u) ->
  natural u = true /\ (alignof u | alignof t) /\ (w = bitsof u -> (8 * alignof u | o)).
Proof.
  intros Ht Hn Hx. destruct t as [n| |t n|packed al ms], x as [f|i]; cbn in *; try done; split_wf.
  - destruct ((0 <=? i) && (i <? n)) eqn:Hi; [|done]. simplify_eq. split_and!; [done | done |].
    intros _. by apply Z.divide_mul_r, alignof_divides_bits.
  - subst packed. destruct (find_member_aligned f ms ltac:(done) ltac:(done) _ _ _ _ Hx) as (? & ? & ?).
    split_and!; [done | | done]. etrans; [done|].
    by apply pow2_max_divide; [|apply members_align_pow2].
Qed.

Lemma position_aligned p : forall t w o w' u, slot_ok w t -> natural t = true ->
  position t w p = Some (o, w', u) -> w' = bitsof u -> (8 * alignof u | o) /\ (alignof u | alignof t).
Proof.
  induction p as [|x p IH]; cbn; intros t w o w' u Hs Hn Hp Hw.
  - simplify_eq. split; [apply Z.divide_0_r | done].
  - destruct (first_step t x) as [[[o1 w1] u1]|] eqn:Hx; [|done].
    destruct (position u1 w1 p) as [[[o2 w2] u2]|] eqn:Hp2; [|done]. simplify_eq.
    destruct (first_step_in _ _ _ _ _ (proj1 Hs) Hx) as (_ & _ & Hs1).
    destruct (first_step_aligned _ _ _ _ _ (proj1 Hs) Hn Hx) as (Hn1 & D1 & D2).
    destruct (IH u1 w1 o2 _ u Hs1 Hn1 Hp2 eq_refl) as [D3 D4].
    split; [|by etrans]. apply Z.divide_add_r; [|done].
    destruct p as [|y p].
    + cbn in Hp2. simplify_eq. by apply D2.
    + etrans; [apply Z.mul_divide_mono_l, D4|]. apply D2.
      cbn in Hp2. destruct (first_step u1 y) eqn:Hy; [|done]. by eapply first_step_whole.
Qed.

(** ** Objects in memory *)

(** Whole bytes: the address of a member of [n] bytes. *)
Definition bytes_member (t : ctype) (p : list step) (off : Z) (n : nat) : Prop :=
  exists u, designated t p = Some (8 * off, 8 * Z.of_nat n, u).

(** The member [p] of a well-formed type lies inside the object. *)
Lemma member_in t p o w u : wf t = true -> designated t p = Some (o, w, u) ->
  0 <= o /\ o + w <= 8 * sizeof t.
Proof.
  intros Ht Hp. destruct (position_in p t _ _ _ _ (slot_ok_whole t Ht) Hp) as (? & ? & _).
  split; [done|]. unfold sizeof.
  destruct (alignof_divides_bits t Ht) as [k Hk]. rewrite Hk.
  replace (k * (8 * alignof t)) with (k * alignof t * 8) by lia. rewrite Z.div_mul; lia.
Qed.

Lemma bytes_member_nonneg t p off n : wf t = true -> bytes_member t p off n -> 0 <= off.
Proof. intros Ht [u Hp]. destruct (member_in _ _ _ _ _ Ht Hp). lia. Qed.

Lemma bits_of_designated t p o w : bits_of t p = Some (o, w) -> exists u, designated t p = Some (o, w, u).
Proof. unfold bits_of. intros H. destruct (designated t p) as [[[o' w'] u]|]; simplify_eq/=. eauto. Qed.

Lemma designated_nonneg t p o w u : wf t = true -> designated t p = Some (o, w, u) -> 0 <= o /\ 0 <= w.
Proof. intros Ht Hp. by destruct (position_in p t _ _ _ _ (slot_ok_whole t Ht) Hp) as (? & _ & _ & [? _] & _). Qed.

(** Designators of which neither starts with the other name disjoint bits. *)
Lemma member_apart t p q o w u o' w' u' : wf t = true ->
  ~ p `prefix_of` q -> ~ q `prefix_of` p ->
  designated t p = Some (o, w, u) -> designated t q = Some (o', w', u') -> apart o w o' w'.
Proof. intros Ht. eapply position_apart. by apply slot_ok_whole. Qed.

(** An assignment to one member leaves every other member as it was. *)
Lemma assign_other t p q off n off' n' m a v : wf t = true ->
  ~ p `prefix_of` q -> ~ q `prefix_of` p ->
  bytes_member t p off n -> bytes_member t q off' n' ->
  ld (st m n (a + off) v) n' (a + off') = ld m n' (a + off').
Proof.
  intros Ht Np Nq [u Hp] [u' Hq]. apply ld_st_ne.
  pose proof (member_apart _ _ _ _ _ _ _ _ _ Ht Np Nq Hp Hq). unfold apart in *. lia.
Qed.
