(* ===== verification/PageWalk.v ===== *)
(** The x86-64 page tables: the layout of an entry (mm/paging/paging.h), the
    translation the processor performs, and the tree of tables below a PML4.

    [walk] is the architecture's translation (Intel SDM volume 3A, 4-level
    paging), against which [Paging] is specified.  The rest of the file is about
    trees of tables: [table_at] names a table by the indices that lead to it,
    [tables_inv] says what the code relies on, and the three lemmas
    [tree_add_table], [tree_set_page] and [tree_set_large] say how the writes
    of [MapMemory] change the tree and every translation. *)
From S2P Require Import Prelude Memory Machine PageSource Bitfield.

(** ** struct PTE *)

Definition Present := BF 0 1.
Definition RW := BF 1 1.
Definition UserSupervisor := BF 2 1.
Definition PageSize := BF 7 1.
Definition PhysAddr := BF 12 40.

(** [values[i]] of the table at [t]. *)
Definition ent (m : gmap Z Z) (t i : Z) : Z := ld64 m (t + 8 * i).

(** ** The processor's translation *)

(** The nine bits of a virtual address that index the table of level [l]
    (3 = PML4, 2 = PDPT, 1 = PD, 0 = PT). *)
Definition idx (l : nat) (v : Z) : Z := v / 2 ^ (12 + 9 * Z.of_nat l) mod 512.

Definition absent (e : Z) : bool := getf e Present =? 0.
Definition large (e : Z) : bool := getf e PageSize =? 1.
Definition frame (e : Z) : Z := getf e PhysAddr * 4096.
Definition writable (e : Z) : bool := getf e RW =? 1.
Definition user_ok (e : Z) : bool := getf e UserSupervisor =? 1.

Record xlat := Xlat {
  x_phys : Z;
  x_write : bool;   (* writable at every level *)
  x_user : bool;    (* accessible from user mode at every level *)
}.

(** A page of level [l] has [2 ^ (12 + 9 l)] bytes. *)
Definition page_len (l : nat) : Z := 2 ^ (12 + 9 * Z.of_nat l).
Definition leaf_phys (l : nat) (e v : Z) : Z :=
  frame e / page_len l * page_len l + v mod page_len l.

Fixpoint walk (m : gmap Z Z) (l : nat) (t v : Z) (w u : bool) : option xlat :=
  let e := ent m t (idx l v) in
  if absent e then None
  else
    let w := w && writable e in
    let u := u && user_ok e in
    match l with
    | O => Some (Xlat (leaf_phys 0 e v) w u)
    | S l' =>
        if large e then (if (l <? 3)%nat then Some (Xlat (leaf_phys l e v) w u) else None)
        else walk m l' (frame e) v w u
    end.

(** The translation of [v] with the PML4 at [root]. *)
Definition translate (m : gmap Z Z) (root v : Z) : option xlat := walk m 3 root v true true.

(** ** The tree of tables *)

(** The table an entry of a PML4, PDPT or PD points to. *)
Definition child (m : gmap Z Z) (t i : Z) : option Z :=
  let e := ent m t i in
  if absent e || large e then None else Some (frame e).

(** [table_at m root p]: the table reached by the indices [p], last one first. *)
Fixpoint table_at (m : gmap Z Z) (root : Z) (p : list Z) : option Z :=
  match p with
  | [] => Some root
  | i :: p => match table_at m root p with Some t => child m t i | None => None end
  end.

Definition index_ok (i : Z) : Prop := 0 <= i < 512.
Definition vpath (p : list Z) : Prop := (length p <= 3)%nat /\ Forall index_ok p.

(** The path to the table of level [l] that translates [v]. *)
Fixpoint tpath (k : nat) (v : Z) : list Z :=
  match k with
  | O => []
  | S k => idx (3 - k) v :: tpath k v
  end.

(** [v] is translated by a large page. *)
Definition in_large (m : gmap Z Z) (root v : Z) : bool :=
  match table_at m root (tpath 2 v) with
  | Some pd => negb (absent (ent m pd (idx 1 v))) && large (ent m pd (idx 1 v))
  | None => false
  end.

(** ** Indices and paths *)

Lemma cons_split (i j : Z) p q : i :: p = j :: q -> i = j /\ p = q.
Proof. by intros [= -> ->]. Qed.

Lemma idx_ok l v : index_ok (idx l v).
Proof. unfold index_ok, idx. lia. Qed.

Lemma tpath_vpath k v : (k <= 3)%nat -> vpath (tpath k v).
Proof.
  intros Hk. split.
  - enough (length (tpath k v) = k) by lia. clear Hk. induction k; simpl; lia.
  - clear Hk. induction k; simpl; constructor; [apply idx_ok | done].
Qed.

Lemma tpath_length k v : length (tpath k v) = k.
Proof. induction k; simpl; lia. Qed.

Lemma tpath_next l v :
  (l < 3)%nat -> tpath (3 - l) v = idx (S l) v :: tpath (3 - S l) v.
Proof.
  intros Hl. replace (3 - l)%nat with (S (3 - S l)) by lia. simpl.
  do 2 f_equal. lia.
Qed.

Lemma vpath_tail i p : vpath (i :: p) -> vpath p /\ index_ok i.
Proof.
  intros [Hl Hf]. inversion Hf; subst. simpl in Hl. split; [split; [lia | done] | done].
Qed.

Lemma vpath_cons i p : vpath p -> index_ok i -> (length p < 3)%nat -> vpath (i :: p).
Proof. intros [Hl Hf] Hi Hp. split; [simpl; lia | by constructor]. Qed.

Lemma child_spec m t i :
  child m t i = if absent (ent m t i) then None
                else if large (ent m t i) then None else Some (frame (ent m t i)).
Proof. unfold child. by destruct (absent _), (large _). Qed.

(** The tables on the path of [v] and its translation, one level down. *)
Lemma walk_next m root l v t w u :
  (l < 3)%nat ->
  table_at m root (tpath (3 - S l) v) = Some t ->
  absent (ent m t (idx (S l) v)) = false -> large (ent m t (idx (S l) v)) = false ->
  table_at m root (tpath (3 - l) v) = Some (frame (ent m t (idx (S l) v))) /\
  walk m (S l) t v w u =
    walk m l (frame (ent m t (idx (S l) v))) v
      (w && writable (ent m t (idx (S l) v))) (u && user_ok (ent m t (idx (S l) v))).
Proof.
  intros Hl Ht Ha Hb. split.
  - rewrite tpath_next by done. cbn [table_at]. by rewrite Ht, child_spec, Ha, Hb.
  - cbn [walk]. by rewrite Ha, Hb.
Qed.

(** ** Agreement of memories on a tree

    [differ_at p i]: the tables of the tree under [m] have in [m'] the entries
    they have in [m], but for entry [i] of the table at path [p]. *)
Definition differ_at (root : Z) (p : list Z) (i : Z) (m m' : gmap Z Z) : Prop :=
  forall q t j, vpath q -> index_ok j -> table_at m root q = Some t ->
    j :: q <> i :: p -> ent m' t j = ent m t j.

(** Translations that do not use the entry are the same. *)
Lemma walk_differ root p i m m' l t v w u :
  differ_at root p i m m' -> (l <= 3)%nat ->
  table_at m root (tpath (3 - l) v) = Some t ->
  (forall l', (l' <= l)%nat -> idx l' v :: tpath (3 - l') v <> i :: p) ->
  walk m' l t v w u = walk m l t v w u.
Proof.
  intros Hd. revert t w u. induction l as [|l IH]; intros t w u Hl Ht Hn;
    assert (He : ent m' t (idx _ v) = ent m t (idx _ v))
      by (eapply Hd; [apply tpath_vpath, Nat.le_sub_l | apply idx_ok | exact Ht | by apply Hn]).
  { cbn [walk]. by rewrite He. }
  cbn [walk]. rewrite He. destruct (absent _) eqn:Ha; [done|].
  destruct (large _) eqn:Hb; [done|].
  destruct (walk_next m root l v t w u) as [Ht' _]; [lia | done.. |].
  apply IH; [lia | done | intros; apply Hn; lia].
Qed.

(** Tables whose path does not go through the entry are the same. *)
Lemma table_at_differ root p i m m' q :
  differ_at root p i m m' -> vpath q -> ~ (i :: p) `suffix_of` q ->
  table_at m' root q = table_at m root q.
Proof.
  intros Hd. induction q as [|j q IH]; intros Hv Hs; [done|].
  destruct (vpath_tail _ _ Hv) as [Hv' Hj]. cbn [table_at].
  rewrite IH; [| done | intros [r Hr]; apply Hs; exists (j :: r); by rewrite Hr].
  destruct (table_at m root q) as [t|] eqn:Ht; [|done].
  rewrite !child_spec, (Hd q t j); try done.
  intros Heq. apply Hs. by rewrite Heq.
Qed.

Section Tree.
Context `{PSO : PageSourceOk}.

(** The trees [MapMemory] builds: every table is one page taken from the
    allocator, reached in one way, below 1 TiB; what it does not use is zero;
    entries that point to tables allow writing and deny user access. *)
Record tables_inv (root : Z) (s : machine) : Prop := {
  ti_src : ps_inv s;
  ti_tab p t : vpath p -> table_at (mem s) root p = Some t ->
    ps_managed (alloc_g s) t /\ t ∉ ps_pool s /\ t < 2 ^ 40;
  ti_inj p q t : vpath p -> vpath q ->
    table_at (mem s) root p = Some t -> table_at (mem s) root q = Some t -> p = q;
  ti_low q : q ∈ ps_pool s -> q < 2 ^ 40;
  ti_dir p t i : vpath p -> (length p < 3)%nat -> index_ok i ->
    table_at (mem s) root p = Some t ->
    let e := ent (mem s) t i in
    if absent e then e = 0
    else writable e = true /\
         (large e = false -> user_ok e = false) /\
         (large e = true -> length p = 2%nat);
}.

(** The bytes of the tables of a tree. *)
Definition table_byte (root : Z) (m : gmap Z Z) (a : Z) : Prop :=
  exists p t, vpath p /\ table_at m root p = Some t /\ page_bytes t a.

Implicit Types (s : machine) (m : gmap Z Z).

Lemma ti_page root s p t :
  tables_inv root s -> vpath p -> table_at (mem s) root p = Some t ->
  PAGE <= t /\ t + PAGE <= 2 ^ 40 /\ t mod PAGE = 0 /\
  forall a, page_bytes t a -> ~ ps_owned (alloc_g s) a.
Proof.
  intros Hinv Hp Ht. destruct (ti_tab root s Hinv p t Hp Ht) as (Hm & _ & Hlt).
  destruct (ps_page_ok s t (ti_src root s Hinv) Hm) as (? & ? & ? & ?).
  change (2 ^ 40) with 1099511627776 in *. split_and!; (done || lia).
Qed.

(** Distinct table entries do not overlap. *)
Lemma ti_entries root s p t i q t' j :
  tables_inv root s -> vpath p -> vpath q -> index_ok i -> index_ok j ->
  table_at (mem s) root p = Some t -> table_at (mem s) root q = Some t' ->
  j :: q <> i :: p -> apart (t + 8 * i) 8 (t' + 8 * j) 8.
Proof.
  intros Hinv Hp Hq Hi Hj Ht Ht' Hne.
  destruct (ti_page root s p t Hinv Hp Ht) as (_ & _ & Ha & _).
  destruct (ti_page root s q t' Hinv Hq Ht') as (_ & _ & Ha' & _).
  unfold index_ok, apart in *. destruct (decide (t = t')) as [<-|Hd].
  - assert (q = p) as -> by eauto using ti_inj. assert (i <> j) by congruence. lia.
  - destruct (pages_apart t t' Ha Ha' Hd) as [?|?]; lia.
Qed.

(** A memory that differs from the tree's only at one entry, outside all
    tables or on a page that was free, differs from the tree at that entry. *)
Lemma differ_at_intro root s m' p t i (fresh : Z -> Prop) :
  tables_inv root s -> vpath p -> index_ok i -> table_at (mem s) root p = Some t ->
  (forall q t' a, vpath q -> table_at (mem s) root q = Some t' ->
     page_bytes t' a -> ~ fresh a) ->
  same_on (fun a => ~ within a (t + 8 * i) 8 /\ ~ fresh a) (mem s) m' ->
  differ_at root p i (mem s) m'.
Proof.
  intros Hinv Hp Hi Ht Hfr Hm q t' j Hq Hj Ht' Hne.
  pose proof (ti_entries root s p t i q t' j Hinv Hp Hq Hi Hj Ht Ht' Hne) as Hap.
  apply (same_on_ld _ _ _ _ _ Hm). intros a Ha. split.
  - unfold apart, within in *. lia.
  - apply (Hfr q t' a Hq Ht'). unfold page_bytes, within, index_ok in *. lia.
Qed.

(** The directory entries on the path of a translation. *)
Lemma walk_down root s l v t :
  tables_inv root s -> (l <= 3)%nat -> table_at (mem s) root (tpath (3 - l) v) = Some t ->
  translate (mem s) root v = walk (mem s) l t v true (l =? 3)%nat.
Proof.
  intros Hinv. unfold translate.
  enough (Hall : forall n, (n <= 3)%nat -> forall t, table_at (mem s) root (tpath n v) = Some t ->
    walk (mem s) 3 root v true true = walk (mem s) (3 - n) t v true (n =? 0)%nat).
  { intros Hl Ht. rewrite (Hall _ (Nat.le_sub_l 3 l) t Ht).
    replace (3 - (3 - l))%nat with l by lia. f_equal.
    destruct (Nat.eqb_spec l 3), (Nat.eqb_spec (3 - l) 0); (done || lia). }
  induction n as [|n IH]; intros Hn t' Ht'; [by injection Ht' as ->|].
  cbn [tpath table_at] in Ht'.
  destruct (table_at (mem s) root (tpath n v)) as [t0|] eqn:Ht0; [|done].
  rewrite (IH ltac:(lia) t0 eq_refl). rewrite child_spec in Ht'.
  destruct (absent _) eqn:Ha; [done|]. destruct (large _) eqn:Hb; [done|].
  injection Ht' as <-.
  pose proof (ti_dir root s Hinv (tpath n v) t0 (idx (3 - n) v)
    (tpath_vpath n v ltac:(lia)) ltac:(rewrite tpath_length; lia) (idx_ok _ _) Ht0) as Hd.
  cbn zeta in Hd. rewrite Ha in Hd. destruct Hd as (Hw & Hu & _). specialize (Hu Hb).
  destruct (3 - n)%nat as [|k] eqn:Hk; [lia|]. replace (3 - S n)%nat with k by lia.
  destruct (walk_next (mem s) root k v t0 true (n =? 0)%nat) as [_ Hwk]; [lia | | done | done |].
  - by replace (3 - S k)%nat with n by lia.
  - rewrite Hwk, Hw, Hu. f_equal. by rewrite andb_false_r.
Qed.

(** ** Writes outside the tables *)

Lemma tables_stable root s s' :
  tables_inv root s -> alloc_g s' = alloc_g s ->
  ps_inv s' -> (exists gone, ps_pool s = gone ++ ps_pool s') ->
  same_on (table_byte root (mem s)) (mem s) (mem s') ->
  tables_inv root s' /\
  (forall p, vpath p -> table_at (mem s') root p = table_at (mem s) root p) /\
  (forall v, translate (mem s') root v = translate (mem s) root v) /\
  (forall v, in_large (mem s') root v = in_large (mem s) root v).
Proof.
  intros Hinv Hg Hsrc [gone Hpool] Hm.
  assert (Hent : forall q t j, vpath q -> index_ok j -> table_at (mem s) root q = Some t ->
    ent (mem s') t j = ent (mem s) t j).
  { intros q t j Hq Hj Ht. apply (same_on_ld _ _ _ _ _ Hm). intros a Ha.
    exists q, t. unfold page_bytes, within, index_ok in *. split_and!; (done || lia). }
  assert (Hd : differ_at root [] (-1) (mem s) (mem s')) by (intros q t j ? ? ? _; eauto).
  assert (Htab : forall p, vpath p -> table_at (mem s') root p = table_at (mem s) root p).
  { intros p Hp. eapply table_at_differ; [done | done |]. intros [r ->].
    destruct Hp as [_ Hp]. apply Forall_app in Hp as [_ Hp]. inversion Hp; subst.
    unfold index_ok in *. lia. }
  assert (Hsub : forall q, q ∈ ps_pool s' -> q ∈ ps_pool s) by (rewrite Hpool; set_solver).
  split_and!; [split | done | |].
  - done.
  - intros p t Hp Ht. rewrite Hg. rewrite Htab in Ht by done.
    destruct (ti_tab root s Hinv p t Hp Ht) as (? & ? & ?). split_and!; [done | | done].
    by intros ?%Hsub.
  - intros p q t Hp Hq. rewrite !Htab by done. by apply (ti_inj root s Hinv).
  - intros q ?%Hsub. by apply (ti_low root s Hinv).
  - intros p t i Hp Hl Hi Ht. rewrite Htab in Ht by done. rewrite (Hent p) by done.
    by apply (ti_dir root s Hinv).
  - intros v. apply (walk_differ root [] (-1) (mem s)); [done | lia | done |].
    intros l _ Heq. pose proof (idx_ok l v). injection Heq as Hi _.
    rewrite Hi in *. unfold index_ok in *. lia.
  - intros v. unfold in_large. rewrite Htab by (apply tpath_vpath; lia).
    destruct (table_at (mem s) root (tpath 2 v)) as [pd|] eqn:Hpd; [|done].
    by rewrite (Hent (tpath 2 v)) by (done || apply idx_ok || (apply tpath_vpath; lia)).
Qed.

(** Paths of different lengths are different. *)
Ltac path_len H :=
  apply (f_equal length) in H; cbn [length] in H; rewrite ?tpath_length in H; lia.

Lemma suffix_long (i : Z) p q : (length q <= length p)%nat -> ~ (i :: p) `suffix_of` q.
Proof. intros Hl [r ->]. rewrite length_app in Hl. simpl in Hl. lia. Qed.

(** ** Adding a table below an absent entry *)
Section AddTable.
Context (root : Z) (s s' : machine) (p : list Z) (t i new : Z).
Context (Hinv : tables_inv root s) (Hp : vpath p) (Hlen : (length p < 3)%nat)
        (Hi : index_ok i) (Ht : table_at (mem s) root p = Some t)
        (Habs : absent (ent (mem s) t i) = true).
Context (Hg : alloc_g s' = alloc_g s) (Hsrc : ps_inv s')
        (Hpool : ps_pool s = new :: ps_pool s').
Context (Hd : differ_at root p i (mem s) (mem s')).
Let e' := ent (mem s') t i.
Context (Ha : absent e' = false) (Hb : large e' = false) (Hf : frame e' = new)
        (Hw : writable e' = true) (Hu : user_ok e' = false)
        (Hz : zeroed (mem s') new PAGE).

Lemma add_fresh_entry j : index_ok j -> ent (mem s') new j = 0.
Proof using Hz. intros Hj. clear - Hz Hj. unfold index_ok in Hj. apply (ld_zeroed _ new PAGE); [done | lia | lia]. Qed.

Lemma add_new_not_table q t0 : vpath q -> table_at (mem s) root q = Some t0 -> t0 <> new.
Proof using All.
  intros Hq Ht0 ->. destruct (ti_tab root s Hinv q new Hq Ht0) as (_ & Hn & _).
  apply Hn. rewrite Hpool. left.
Qed.

Lemma table_at_add q :
  vpath q ->
  table_at (mem s') root q = if decide (q = i :: p) then Some new else table_at (mem s) root q.
Proof using All.
  induction q as [|j q IH]; intros Hq; [done|].
  destruct (vpath_tail _ _ Hq) as [Hq' Hj]. cbn [table_at]. rewrite IH by done.
  case_decide as H1.
  - subst q. rewrite child_spec, add_fresh_entry by done. cbn [absent].
    rewrite decide_False by (intros Heq; path_len Heq).
    cbn [table_at]. by rewrite Ht, child_spec, Habs.
  - destruct (table_at (mem s) root q) as [t0|] eqn:Ht0.
    + case_decide as H2.
      * injection H2 as -> ->. rewrite Ht in Ht0. injection Ht0 as <-.
        rewrite child_spec. fold e'. by rewrite Ha, Hb, Hf.
      * by rewrite !child_spec, (Hd q t0 j).
    + case_decide as H2; [injection H2 as -> ->; congruence | done].
Qed.

Lemma walk_add l v t0 w u :
  (l <= 3)%nat -> table_at (mem s) root (tpath (3 - l) v) = Some t0 ->
  walk (mem s') l t0 v w u = walk (mem s) l t0 v w u.
Proof using All.
  revert t0 w u. induction l as [l IH] using lt_wf_ind. intros t0 w u Hl Ht0.
  destruct (decide (idx l v :: tpath (3 - l) v = i :: p)) as [Heq|Hne].
  - injection Heq as Hidx Hpath. rewrite Hpath, Ht in Ht0. injection Ht0 as <-.
    destruct l as [|l]; [rewrite <- Hpath, tpath_length in Hlen; lia|].
    cbn [walk]. rewrite Hidx, Habs. fold e'. rewrite Ha, Hb, Hf.
    destruct l; cbn [walk]; by rewrite add_fresh_entry by apply idx_ok.
  - assert (He : ent (mem s') t0 (idx l v) = ent (mem s) t0 (idx l v))
      by (apply (Hd (tpath (3 - l) v)); [apply tpath_vpath; lia | apply idx_ok | done | done]).
    destruct l as [|l]; [cbn [walk]; by rewrite He|].
    cbn [walk]. rewrite He. destruct (absent (ent (mem s) t0 _)) eqn:H1; [done|].
    destruct (large (ent (mem s) t0 _)) eqn:H2; [done|].
    destruct (walk_next (mem s) root l v t0 w u) as [Hn _]; [lia | done.. |].
    apply IH; [lia | lia | done].
Qed.

Lemma tree_add_table :
  tables_inv root s' /\
  (forall v, translate (mem s') root v = translate (mem s) root v) /\
  (forall v, in_large (mem s') root v = in_large (mem s) root v).
Proof using All.
  assert (Hnew : ps_managed (alloc_g s) new /\ new ∉ ps_pool s' /\ new < 2 ^ 40).
  { split_and!.
    - apply ps_pool_managed; [apply Hinv | rewrite Hpool; left].
    - pose proof (ps_pool_nodup s (ti_src root s Hinv)) as Hnd. rewrite Hpool in Hnd.
      by inversion Hnd.
    - apply (ti_low root s Hinv). rewrite Hpool. left. }
  assert (Hsub : forall q, q ∈ ps_pool s' -> q ∈ ps_pool s) by (rewrite Hpool; set_solver).
  split_and!; [split | |].
  - done.
  - intros q t0 Hq. rewrite table_at_add, Hg by done. case_decide; [by intros [= <-]|].
    intros Ht0. destruct (ti_tab root s Hinv q t0 Hq Ht0) as (? & ? & ?).
    split_and!; [done | by intros ?%Hsub | done].
  - intros q r t0 Hq Hr. rewrite !table_at_add by done.
    repeat case_decide; [congruence | | | by apply (ti_inj root s Hinv)].
    + intros [= Hx] H2. by destruct (add_new_not_table r t0 Hr H2).
    + intros H2 [= Hx]. by destruct (add_new_not_table q t0 Hq H2).
  - intros q ?%Hsub. by apply (ti_low root s Hinv).
  - intros q t0 j Hq Hl Hj. rewrite table_at_add by done. case_decide.
    { intros [= <-]. by rewrite add_fresh_entry. }
    intros Ht0. destruct (decide (j :: q = i :: p)) as [[= -> ->]|Hne].
    + rewrite Ht in Ht0. injection Ht0 as <-. cbn zeta. fold e'.
      rewrite Ha. split_and!; [done | done | congruence].
    + rewrite (Hd q t0 j) by done. by apply (ti_dir root s Hinv).
  - intros v. by apply walk_add; [lia|].
  - intros v. unfold in_large. rewrite table_at_add by (apply tpath_vpath; lia).
    case_decide as H1.
    + rewrite H1, add_fresh_entry by apply idx_ok. cbn [table_at].
      by rewrite Ht, child_spec, Habs.
    + destruct (table_at (mem s) root (tpath 2 v)) as [pd|] eqn:Hpd; [|done].
      destruct (decide (idx 1 v :: tpath 2 v = i :: p)) as [[H2 H3]%cons_split|Hne].
      * rewrite H3, Ht in Hpd. injection Hpd as <-. rewrite H2, Habs. fold e'.
        by rewrite Hb, andb_false_r.
      * rewrite (Hd (tpath 2 v)); [done | apply tpath_vpath; lia | apply idx_ok | done | done].
Qed.
End AddTable.

(** ** Setting the entry of a page *)
Section SetEntry.
Context (root : Z) (s s' : machine) (p : list Z) (t i : Z).
Context (Hinv : tables_inv root s) (Hp : vpath p) (Hi : index_ok i)
        (Ht : table_at (mem s) root p = Some t).
Context (Hg : alloc_g s' = alloc_g s) (Hsrc : ps_inv s') (Hpool : ps_pool s' = ps_pool s).
Context (Hd : differ_at root p i (mem s) (mem s')).
Let e' := ent (mem s') t i.
Context (Ha : absent e' = false) (Hw : writable e' = true).

Lemma walk_set l v :
  (l <= 3)%nat -> p = tpath (3 - l) v -> table_at (mem s') root p = Some t ->
  tables_inv root s' -> (l = 0%nat \/ large e' = true /\ l = 1%nat) -> idx l v = i ->
  translate (mem s') root v = Some (Xlat (leaf_phys l e' v) true false).
Proof using All.
  intros Hl -> Ht' Hinv' Hcase Hidx.
  rewrite (walk_down root s' l v t Hinv' Hl Ht').
  destruct Hcase as [-> | [Hb ->]]; cbn [walk Nat.eqb]; rewrite Hidx; fold e'; by rewrite Ha, ?Hb, Hw.
Qed.

Lemma translate_other v :
  (forall l, (l <= 3)%nat -> idx l v :: tpath (3 - l) v <> i :: p) ->
  translate (mem s') root v = translate (mem s) root v.
Proof using All. intros Hn. eapply walk_differ; done || lia. Qed.

(** *** of a 4 KiB page, in a table of level 0 *)
Lemma tree_set_page :
  length p = 3%nat ->
  tables_inv root s' /\
  (forall v, idx 0 v :: tpath 3 v = i :: p ->
     translate (mem s') root v = Some (Xlat (leaf_phys 0 e' v) true false)) /\
  (forall v, idx 0 v :: tpath 3 v <> i :: p ->
     translate (mem s') root v = translate (mem s) root v) /\
  (forall q, vpath q -> table_at (mem s') root q = table_at (mem s) root q) /\
  (forall v, in_large (mem s') root v = in_large (mem s) root v).
Proof using All.
  intros Hlen.
  assert (Htab : forall q, vpath q -> table_at (mem s') root q = table_at (mem s) root q).
  { intros q Hq. eapply table_at_differ; [done | done |]. apply suffix_long.
    destruct Hq. lia. }
  assert (Hent : forall q t0 j, vpath q -> index_ok j -> (length q < 3)%nat ->
    table_at (mem s) root q = Some t0 -> ent (mem s') t0 j = ent (mem s) t0 j).
  { intros q t0 j Hq Hj Hl Ht0. apply (Hd q); try done. intros [= -> ->]. lia. }
  assert (Hinv' : tables_inv root s').
  { split; [done | ..].
    - intros q t0 Hq. rewrite Htab, Hg, Hpool by done. by apply (ti_tab root s Hinv).
    - intros q r t0 Hq Hr. rewrite !Htab by done. by apply (ti_inj root s Hinv).
    - intros q. rewrite Hpool. apply (ti_low root s Hinv).
    - intros q t0 j Hq Hl Hj. rewrite Htab by done. intros Ht0.
      rewrite (Hent q) by done. by apply (ti_dir root s Hinv). }
  split_and!; [done | | | done |].
  - intros v [Hv1 Hv2]%cons_split. apply (walk_set 0 v); try done; [lia | | by left].
    by rewrite Htab.
  - intros v Hv. apply translate_other. intros l Hl Heq.
    destruct l as [|l]; [done|]. apply cons_split in Heq as [_ Heq]. rewrite <- Heq, tpath_length in Hlen. lia.
  - intros v. unfold in_large. rewrite Htab by (apply tpath_vpath; lia).
    destruct (table_at (mem s) root (tpath 2 v)) eqn:Hpd; [|done].
    by rewrite (Hent (tpath 2 v)) by (done || apply idx_ok || (apply tpath_vpath; lia) || (rewrite tpath_length; lia)).
Qed.

(** *** of a 2 MiB page, in a table of level 1 *)
Lemma tree_set_large :
  length p = 2%nat -> large e' = true ->
  tables_inv root s' /\
  (forall q, vpath q -> table_at (mem s') root q =
     if decide (q = i :: p) then None else table_at (mem s) root q) /\
  (forall v, idx 1 v :: tpath 2 v = i :: p ->
     translate (mem s') root v = Some (Xlat (leaf_phys 1 e' v) true false) /\
     in_large (mem s') root v = true) /\
  (forall v, idx 1 v :: tpath 2 v <> i :: p ->
     translate (mem s') root v = translate (mem s) root v /\
     in_large (mem s') root v = in_large (mem s) root v).
Proof using All.
  intros Hlen Hb.
  assert (Htab : forall q, vpath q -> table_at (mem s') root q =
    if decide (q = i :: p) then None else table_at (mem s) root q).
  { intros q Hq. case_decide as H1.
    - subst q. cbn [table_at].
      assert (table_at (mem s') root p = Some t) as ->.
      { rewrite (table_at_differ root p i (mem s)); [done | done | done | by apply suffix_long]. }
      rewrite child_spec. fold e'. by rewrite Ha, Hb.
    - eapply table_at_differ; [done | done |]. intros [r ->]. apply H1.
      destruct Hq as [Hq _]. rewrite length_app in Hq. simpl in Hq.
      destruct r; [done | simpl in *; lia]. }
  assert (Hmono : forall q t0, vpath q -> table_at (mem s') root q = Some t0 ->
    table_at (mem s) root q = Some t0).
  { intros q t0 Hq. rewrite Htab by done. by case_decide. }
  assert (Hp' : table_at (mem s') root p = Some t).
  { rewrite Htab by done. rewrite decide_False; [done|].
    intros Heq. path_len Heq. }
  assert (Hinv' : tables_inv root s').
  { split; [done | ..].
    - intros q t0 Hq Ht0%Hmono; [|done]. rewrite Hg, Hpool. by apply (ti_tab root s Hinv q).
    - intros q r t0 Hq Hr H1%Hmono H2%Hmono; [|done..]. by apply (ti_inj root s Hinv q r t0).
    - intros q. rewrite Hpool. apply (ti_low root s Hinv).
    - intros q t0 j Hq Hl Hj Ht0%Hmono; [|done].
      destruct (decide (j :: q = i :: p)) as [[= -> ->]|Hne].
      + rewrite Ht in Ht0. injection Ht0 as <-. cbn zeta. fold e'. rewrite Ha.
        split_and!; [done | congruence | done].
      + rewrite (Hd q t0 j) by done. by apply (ti_dir root s Hinv q). }
  split_and!; [done | done | |].
  - intros v [Hv1 Hv2]%cons_split. split.
    + apply (walk_set 1 v); try done; [lia | by right].
    + unfold in_large. rewrite Hv2, Hp', Hv1. fold e'. by rewrite Ha, Hb.
  - intros v Hv. split.
    + apply translate_other. intros l Hl Heq.
      destruct l as [|[|l]]; [|done|]; apply cons_split in Heq as [_ Heq];
        rewrite <- Heq, tpath_length in Hlen; lia.
    + unfold in_large. rewrite Htab by (apply tpath_vpath; lia).
      rewrite decide_False; [|intros Heq; path_len Heq].
      destruct (table_at (mem s) root (tpath 2 v)) as [pd|] eqn:Hpd; [|done].
      by rewrite (Hd (tpath 2 v)) by (done || apply idx_ok || (apply tpath_vpath; lia)).
Qed.
End SetEntry.
End Tree.
