(* ===== verification/Paging.v ===== *)
(** mm/paging/paging.c: building page tables.

    Tables are pages of the allocator, accessed at their physical addresses.
    [fuel] bounds the iterations of each loop. *)
From S2P Require Import Prelude Memory Machine PageSource Bitfield PageWalk.

(** ** Operations *)

Definition KSTATUS_SUCCESS : Z := 1.
Definition KSTATUS_FAIL : Z := 0.

Inductive PageSizes := _4K | _2M.
#[export] Instance PageSizes_eq_dec : EqDecision PageSizes.
Proof. solve_decision. Defined.

Definition is_aligned (addr boundary : Z) : Z :=
  if addr mod boundary =? 0 then 1 else 0.

(** Reading and writing [t->values[entry].f]. *)
Definition pte_at (t entry : Z) : Z := u64 (t + 8 * entry).
Definition pte_get (t entry : Z) (f : bitfield) : M Z :=
  v ← load 8 (pte_at t entry); ret (getf v f).
Definition pte_set (t entry : Z) (f : bitfield) (x : Z) : M unit :=
  v ← load 8 (pte_at t entry); store 8 (pte_at t entry) (setf v f x).

Section Ops.
Context `{PageSource}.

(** The compiler of the Makefile, gcc, shifts the 40-bit field [PhysAddr] in
    40 bits before the cast to [uint64_t]. *)
Definition GetEntryNextLevel (curr_level entry : Z) : M Z :=
  if curr_level =? 0 then ret 0
  else
    present ← pte_get curr_level entry Present;
    if present =? 0 then
      newalloc ← page_alloc;
      assert_c (negb (is_aligned newalloc 4096 =? 0)) 82 "src/mm/paging/paging.c";;
      pte_set curr_level entry PhysAddr (Z.shiftr newalloc 12);;
      pte_set curr_level entry Present 1;;
      pte_set curr_level entry RW 1;;
      ret newalloc
    else
      addr ← pte_get curr_level entry PhysAddr;
      ret (Z.shiftl addr 12 mod 2 ^ 40).

(** The index of level [l] as the code extracts it. *)
Definition level_entry (virt shift : Z) : Z :=
  Z.shiftr (Z.land virt (Z.shiftl 0x1FF shift)) shift.

Definition MapMemory (tgtPml4 virt phys : Z) (size : PageSizes) (user : bool) : M Z :=
  assert_c (negb (is_aligned virt 4096 =? 0)) 107 "src/mm/paging/paging.c";;
  assert_c (negb (is_aligned phys 4096 =? 0)) 108 "src/mm/paging/paging.c";;
  let pml4_entry := level_entry virt 39 in
  let pdpt_entry := level_entry virt 30 in
  let pd_entry := level_entry virt 21 in
  let pt_entry := level_entry virt 12 in
  pdpt ← GetEntryNextLevel tgtPml4 pml4_entry;
  target ← (match size with
            | _2M => t ← GetEntryNextLevel pdpt pdpt_entry; ret (t, pd_entry)
            | _4K => pd ← GetEntryNextLevel pdpt pdpt_entry;
                     pt ← GetEntryNextLevel pd pd_entry;
                     ret (pt, pt_entry)
            end);
  let '(t, index) := target in
  if t =? 0 then ret KSTATUS_FAIL
  else
    pte_set t index Present 1;;
    pte_set t index RW 1;;
    pte_set t index PhysAddr (Z.shiftr phys 12);;
    when (bool_decide (size = _2M)) (pte_set t index PageSize 1);;
    when user (pte_set t index UserSupervisor 1);;
    ret KSTATUS_SUCCESS.

(** A loop body that ignores the status. *)
Definition map_ (tgt virt phys : Z) (size : PageSizes) (user : bool) : M unit :=
  _s ← MapMemory tgt virt phys size user; ret tt.

(** The kernel-image loop shared by the two address-space builders. *)
Definition map_kernel (fuel : nat) (tgt : Z) (g : paging_info) : M unit :=
  for_loop fuel 0 (info_kernelSize g) 4096 (fun i =>
    map_ tgt (u64 (info_kernelVirtBase g + i)) (u64 (info_kernelPhysBase g + i)) _4K false).

(** The loop over 2 MiB .. 1 GiB shared by the two builders. *)
Definition map_low (fuel : nat) (tgt : Z) (g : paging_info) : M unit :=
  for_loop fuel 0x200000 0x40000000 0x200000 (fun i =>
    map_ tgt i i _2M false;;
    map_ tgt (u64 (info_hhdm_base g + i)) i _2M false).

Definition map_mmap_entry (fuel : nat) (tgt : Z) (e : limine_memmap_entry) : M unit :=
  for_loop fuel (entry_base e) (u64 (entry_base e + entry_length e)) 4096 (fun j =>
    if negb (j mod 4096 =? 0) then ret tt else map_ tgt j j _4K false).

Fixpoint map_mmap (fuel : nat) (tgt : Z) (mmap : list limine_memmap_entry) : M unit :=
  match mmap with
  | [] => ret tt
  | e :: mmap => map_mmap_entry fuel tgt e;; map_mmap fuel tgt mmap
  end.

Definition CreateDefaultMappings (fuel : nat) (targetPML4 : Z) : M unit :=
  g ← gets (fun s => GlobalPagingInfo (paging_g s));
  map_kernel fuel targetPML4 g;;
  for_loop fuel 0 0x200000 4096 (fun i =>
    when (negb (i =? 0)) (map_ targetPML4 i i _4K false);;
    map_ targetPML4 (u64 (info_hhdm_base g + i)) i _4K false);;
  map_low fuel targetPML4 g;;
  for_loop fuel 0x40000000 0x100000000 0x1000 (fun i =>
    map_ targetPML4 i i _4K false;;
    map_ targetPML4 (u64 (info_hhdm_base g + i)) i _4K false);;
  map_mmap fuel targetPML4 (info_mmap g);;
  for_loop fuel (info_fbBase g) (u64 (info_fbBase g + info_fbSize g)) 4096 (fun i =>
    map_ targetPML4 i (u64 (i - info_hhdm_base g)) _4K false).

Definition CreateProcessPML4 (fuel : nat) (start end_ : Z) (inKernelCode : bool) : M Z :=
  newpml ← page_alloc;
  g ← gets (fun s => GlobalPagingInfo (paging_g s));
  let offset := if inKernelCode then info_kernelVirtBase g else 0 in
  map_low fuel newpml g;;
  map_kernel fuel newpml g;;
  when (negb inKernelCode)
    (for_loop fuel start end_ 4096 (fun addr =>
       map_ newpml (u64 (addr + offset)) addr _4K true));;
  ret newpml.

Definition LoadKernelPML4 : M unit :=
  p ← gets (fun s => pml4 (paging_g s)); cr3load p.

Definition InitializePaging (fuel : nat) (info : paging_info) : M unit :=
  p ← page_alloc;
  modify (fun s => with_paging s (PagingGlobals p (GlobalPagingInfo (paging_g s))));;
  modify (fun s => with_paging s (PagingGlobals (pml4 (paging_g s)) info));;
  root ← gets (fun s => pml4 (paging_g s));
  CreateDefaultMappings fuel root;;
  LoadKernelPML4.
End Ops.

(** ** Single entries *)

(** [bf] reads fields of entries built by [setf]. *)
Ltac bf_side := first [ split; cbn; lia | (left + right); cbn; lia ].
Ltac bf :=
  unfold absent, large, writable, user_ok, frame;
  repeat first [ rewrite getf_setf_eq by bf_side | rewrite getf_setf_ne by bf_side
               | rewrite getf_0 ].

Definition updated (t i e : Z) (s s' : machine) : Prop :=
  same_regs s s' /\ ent (mem s') t i = e /\
  same_on (fun a => ~ within a (t + 8 * i) 8) (mem s) (mem s').

Definition in_pte (f : bitfield) : Prop := bf_ok f /\ bf_lo f + bf_width f <= 64.
#[export] Instance in_pte_dec f : Decision (in_pte f).
Proof. unfold in_pte, bf_ok. apply _. Defined.

Ltac pte_field := unfold in_pte, bf_ok; cbn; lia.

Section Entries.
Context (t i : Z) (Ht : PAGE <= t) (Ht' : t + PAGE <= 2 ^ 40) (Hi : index_ok i).

Lemma pte_at_eq : pte_at t i = t + 8 * i.
Proof using All.
  unfold index_ok, pte_at in *. change (2 ^ 40) with 1099511627776 in *. apply u64_small. lia.
Qed.

Lemma pte_get_run f s : pte_get t i f s = Ok (getf (ent (mem s) t i) f) s.
Proof using All.
  unfold pte_get. rewrite pte_at_eq. unfold index_ok in Hi.
  erewrite bind_Ok by (apply load_ok; lia). done.
Qed.

Lemma pte_set_run f x s e s1 :
  in_pte f -> updated t i e s s1 ->
  exists s2, pte_set t i f x s1 = Ok tt s2 /\ updated t i (setf e f x) s s2.
Proof using All.
  intros [Hf Hf64] (Hr & He & Hm). unfold pte_set. rewrite pte_at_eq.
  assert (Ha : PAGE <= t + 8 * i) by (unfold index_ok in Hi; lia).
  erewrite bind_Ok by (apply load_ok; exact Ha). rewrite store_ok by exact Ha.
  eexists. split; [reflexivity|]. split_and!.
  - eapply same_regs_trans; [exact Hr | apply same_regs_with_mem].
  - cbn [mem with_mem]. unfold ent in *. rewrite ld64_st_eq, He. apply u64_small.
    apply (setf_range _ _ _ 64 Hf Hf64). rewrite <- He. apply ld64_range.
  - cbn [mem with_mem]. etransitivity; [exact Hm|]. apply same_on_st. intros b Hb. exact Hb.
Qed.

Lemma updated_refl s : updated t i (ent (mem s) t i) s s.
Proof. split_and!; [apply same_regs_refl | done | done]. Qed.
End Entries.

Lemma level_entry_idx l v : level_entry v (12 + 9 * Z.of_nat l) = idx l v.
Proof.
  unfold level_entry, idx. rewrite Z.shiftr_land, Z.shiftr_shiftl_l by lia.
  rewrite Z.sub_diag, Z.shiftl_0_r, Z.shiftr_div_pow2 by lia.
  by rewrite (Z.land_ones _ 9) by lia.
Qed.

Lemma level_entry_39 v : level_entry v 39 = idx 3 v.
Proof. apply (level_entry_idx 3). Qed.
Lemma level_entry_30 v : level_entry v 30 = idx 2 v.
Proof. apply (level_entry_idx 2). Qed.
Lemma level_entry_21 v : level_entry v 21 = idx 1 v.
Proof. apply (level_entry_idx 1). Qed.
Lemma level_entry_12 v : level_entry v 12 = idx 0 v.
Proof. apply (level_entry_idx 0). Qed.

(** The two virtual addresses lie in the same page of level [l]. *)
Definition vpn (l : nat) (v : Z) : Z := v / page_len l mod 2 ^ (36 - 9 * Z.of_nat l).
Definition same_page (l : nat) (v v' : Z) : Prop := vpn l v = vpn l v'.
#[export] Instance same_page_dec l v v' : Decision (same_page l v v').
Proof. unfold same_page. apply _. Defined.

(** The index of level [l + k] in terms of the page number at level [l]. *)
Lemma idx_up l k v :
  idx (l + k) v = v / page_len l / 2 ^ (9 * Z.of_nat k) mod 512.
Proof.
  unfold idx, page_len. rewrite Z.div_div by (apply Z.pow_nonzero || apply Z.pow_pos_nonneg; lia).
  rewrite <- Z.pow_add_r by lia. do 3 f_equal. lia.
Qed.

Ltac pow_consts :=
  change (2 ^ (9 * Z.of_nat 0)) with 1 in *; change (2 ^ (9 * Z.of_nat 1)) with 512 in *;
  change (2 ^ (9 * Z.of_nat 2)) with 262144 in *;
  change (2 ^ (9 * Z.of_nat 3)) with 134217728 in *;
  change 262144 with (512 * 512) in *; change 134217728 with (512 * 512 * 512) in *;
  rewrite <- ?Z.div_div, ?Z.div_1_r in * by lia.

Lemma same_page_0 v v' :
  same_page 0 v v' <-> idx 0 v :: tpath 3 v = idx 0 v' :: tpath 3 v'.
Proof.
  unfold same_page, vpn. cbn [tpath Nat.sub].
  rewrite !(idx_up 0 0), !(idx_up 0 1), !(idx_up 0 2), !(idx_up 0 3).
  generalize (v / page_len 0), (v' / page_len 0). clear v v'. intros x y. cbn.
  change (2 ^ (36 - 9 * Z.of_nat 0)) with (512 * 512 * 512 * 512). pow_consts.
  split; [intros; repeat (f_equal; [lia|]); f_equal; lia | intros [= H1 H2 H3 H4]; lia].
Qed.

Lemma same_page_1 v v' :
  same_page 1 v v' <-> idx 1 v :: tpath 2 v = idx 1 v' :: tpath 2 v'.
Proof.
  unfold same_page, vpn. cbn [tpath Nat.sub].
  rewrite !(idx_up 1 0), !(idx_up 1 1), !(idx_up 1 2).
  generalize (v / page_len 1), (v' / page_len 1). clear v v'. intros x y. cbn.
  change (2 ^ (36 - 9 * Z.of_nat 1)) with (512 * 512 * 512). pow_consts.
  split; [intros; repeat (f_equal; [lia|]); f_equal; lia | intros [= H1 H2 H3]; lia].
Qed.

(** ** What building tables may change *)

Section Spec.
Context `{PSO : PageSourceOk}.

(** The memory [MapMemory] may write: the allocator's bookkeeping, the free
    pages and the tables of the tree. *)
Definition paging_byte (root : Z) (s : machine) (a : Z) : Prop :=
  ps_owned (alloc_g s) a \/ (exists q, q ∈ ps_pool s /\ page_bytes q a) \/
  table_byte root (mem s) a.

(** [evolve root k s s']: the tree stays well formed, at most [k] pages leave
    the pool, and nothing but [paging_byte] is written. *)
Record evolve (root k : Z) (s s' : machine) : Prop := {
  ev_inv : tables_inv root s';
  ev_regs : same_regs s s';
  ev_pool : exists gone, ps_pool s = gone ++ ps_pool s' /\ Z.of_nat (length gone) <= k;
  ev_frame : same_on (fun a => ~ paging_byte root s a) (mem s) (mem s');
  ev_bytes a : paging_byte root s' a -> paging_byte root s a;
}.

Lemma evolve_refl root s : tables_inv root s -> evolve root 0 s s.
Proof. intros. split; try done; [apply same_regs_refl | by exists []]. Qed.

Lemma evolve_trans root k1 k2 s1 s2 s3 :
  evolve root k1 s1 s2 -> evolve root k2 s2 s3 -> evolve root (k1 + k2) s1 s3.
Proof.
  intros [I1 R1 (g1 & P1 & L1) F1 B1] [I2 R2 (g2 & P2 & L2) F2 B2]. split.
  - done.
  - by eapply same_regs_trans.
  - exists (g1 ++ g2). rewrite <- app_assoc, <- P2, length_app. split; [done | lia].
  - etransitivity; [exact F1|]. eapply same_on_weaken; [exact F2|]. cbn. auto.
  - auto.
Qed.

Lemma evolve_weaken root k k' s s' : evolve root k s s' -> k <= k' -> evolve root k' s s'.
Proof.
  intros [I R (g & P & L) F B] Hk. split; try done. exists g. split; [done | lia].
Qed.

Lemma evolve_pool_length root k s s' :
  evolve root k s s' -> Z.of_nat (length (ps_pool s)) <= Z.of_nat (length (ps_pool s')) + k.
Proof. intros [_ _ (g & -> & L) _ _]. rewrite length_app. lia. Qed.

(** ** GetEntryNextLevel *)

(** The entry [GetEntryNextLevel] builds for a new table. *)
Definition table_entry (new : Z) : Z :=
  setf (setf (setf 0 PhysAddr (Z.shiftr new 12)) Present 1) RW 1.

Lemma table_entry_fields new :
  0 <= new < 2 ^ 52 -> new mod 4096 = 0 ->
  let e := table_entry new in
  absent e = false /\ large e = false /\ frame e = new /\
  writable e = true /\ user_ok e = false.
Proof.
  intros Hn Hal. unfold table_entry. cbn zeta. bf. cbn.
  rewrite Z.shiftr_div_pow2 by lia. change (2 ^ 12) with 4096.
  change (2 ^ 52) with (4096 * 2 ^ 40) in Hn. change (2 ^ 40) with 1099511627776 in *.
  split_and!; try done. lia.
Qed.

(** A page taken from the pool is not part of the tree. *)
Lemma alloc_stable root s s1 new ps :
  tables_inv root s -> ps_pool s = new :: ps -> ps_inv s1 -> ps_pool s1 = ps ->
  alloc_frame (ps_owned (alloc_g s)) new s s1 ->
  tables_inv root s1 /\
  (forall p, vpath p -> table_at (mem s1) root p = table_at (mem s) root p) /\
  (forall v, translate (mem s1) root v = translate (mem s) root v) /\
  (forall v, in_large (mem s1) root v = in_large (mem s) root v) /\
  same_on (table_byte root (mem s)) (mem s) (mem s1).
Proof.
  intros Hinv Hps Hi1 Hp1 [Hr Hm].
  assert (Htb : same_on (table_byte root (mem s)) (mem s) (mem s1)).
  { eapply same_on_weaken; [exact Hm|]. intros a (p & t & Hp & Ht & Ha).
    destruct (ti_page root s p t Hinv Hp Ht) as (_ & _ & Hta & Hown).
    split; [|by apply Hown]. intros Hn.
    destruct (ps_alloc_page s new ps (ti_src _ _ Hinv) Hps) as (_ & _ & Hna & _).
    assert (t = new) as -> by (by eapply page_bytes_inj).
    destruct (ti_tab root s Hinv p new Hp Ht) as (_ & Hnin & _).
    apply Hnin. rewrite Hps. left. }
  destruct (tables_stable root s s1) as (? & ? & ? & ?); try done.
  - by apply same_regs_alloc.
  - exists [new]. by rewrite Hps, Hp1.
Qed.

Lemma add_table_run root s p t i new ps :
  tables_inv root s -> vpath p -> (length p < 3)%nat -> index_ok i ->
  table_at (mem s) root p = Some t -> absent (ent (mem s) t i) = true ->
  ps_pool s = new :: ps ->
  exists s',
    (newalloc ← page_alloc;
     assert_c (negb (is_aligned newalloc 4096 =? 0)) 82 "src/mm/paging/paging.c";;
     pte_set t i PhysAddr (Z.shiftr newalloc 12);;
     pte_set t i Present 1;;
     pte_set t i RW 1;;
     ret newalloc) s = Ok new s' /\
    same_regs s s' /\ ps_inv s' /\ ps_pool s' = ps /\
    same_on (fun a => ~ within a (t + 8 * i) 8 /\ ~ (page_bytes new a \/ ps_owned (alloc_g s) a))
      (mem s) (mem s') /\
    ent (mem s') t i = table_entry new /\ zeroed (mem s') new PAGE.
Proof.
  intros Hinv Hp Hlen Hi Ht Habs Hps.
  destruct (ti_page root s p t Hinv Hp Ht) as (Ht1 & Ht2 & Ht3 & Hown).
  destruct (ps_alloc_page s new ps (ti_src _ _ Hinv) Hps) as (Hn1 & Hn2 & Hn3 & _).
  destruct (ps_alloc s new ps (ti_src _ _ Hinv) Hps) as (s1 & Hrun & Hi1 & Hp1 & Hz1 & Hfr).
  destruct (alloc_stable root s s1 new ps Hinv Hps Hi1 Hp1 Hfr) as (_ & Htab1 & _ & _ & Htb).
  assert (Hnt : t <> new).
  { intros ->. destruct (ti_tab root s Hinv p new Hp Ht) as (_ & Hnin & _).
    apply Hnin. rewrite Hps. left. }
  assert (He1 : ent (mem s1) t i = 0).
  { pose proof (ti_dir root s Hinv p t i Hp Hlen Hi Ht) as Hd. cbn zeta in Hd.
    rewrite Habs in Hd. rewrite <- Hd. apply (same_on_ld _ _ _ _ _ Htb). intros a Ha.
    exists p, t. unfold page_bytes, within, index_ok in *. split_and!; (done || lia). }
  destruct Hfr as [Hr1 Hm1].
  erewrite bind_Ok by exact Hrun. cbv beta. unfold assert_c, is_aligned.
  rewrite Hn3. cbn [Z.eqb negb]. erewrite bind_Ok by reflexivity. cbv beta.
  pose proof (updated_refl t i s1) as H0. rewrite He1 in H0.
  destruct (pte_set_run t i Ht1 Ht2 Hi PhysAddr (Z.shiftr new 12) _ _ s1 ltac:(pte_field) H0)
    as (s2 & R2 & U2).
  destruct (pte_set_run t i Ht1 Ht2 Hi Present 1 _ _ s2 ltac:(pte_field) U2) as (s3 & R3 & U3).
  destruct (pte_set_run t i Ht1 Ht2 Hi RW 1 _ _ s3 ltac:(pte_field) U3) as (s4 & R4 & U4).
  erewrite bind_Ok by exact R2. erewrite bind_Ok by exact R3. erewrite bind_Ok by exact R4.
  destruct U4 as (Hr4 & He4 & Hm4).
  assert (Hg1 : alloc_g s1 = alloc_g s) by (by apply same_regs_alloc).
  destruct (ps_stable s1 s4) as [Hi4 Hp4]; [done | by apply same_regs_alloc | |].
  { eapply same_on_weaken; [exact Hm4|]. rewrite Hg1. intros a Ha Hw.
    apply (Hown a); [unfold page_bytes, within, index_ok in *; lia | done]. }
  exists s4. split; [reflexivity|]. split_and!.
  - eapply same_regs_trans; eauto.
  - done.
  - congruence.
  - intros a [Ha1 Ha2]. rewrite (Hm4 a Ha1). apply Hm1. tauto.
  - done.
  - intros a Ha. rewrite Hm4; [by apply Hz1|]. intros Hw.
    destruct (pages_apart t new Ht3 Hn3 Hnt); unfold within, index_ok in *; lia.
Qed.

(** A present entry leads to its table and changes nothing. *)
Lemma next_level_present root s p t i t' :
  tables_inv root s -> vpath (i :: p) -> table_at (mem s) root p = Some t ->
  table_at (mem s) root (i :: p) = Some t' -> GetEntryNextLevel t i s = Ok t' s.
Proof.
  intros Hinv Hip Ht Ht'. destruct (vpath_tail _ _ Hip) as [Hp Hi].
  destruct (ti_page root s p t Hinv Hp Ht) as (Ht1 & Ht2 & _).
  destruct (ti_page root s _ t' Hinv Hip Ht') as (Hf1 & Hf2 & _).
  cbn [table_at] in Ht'. rewrite Ht, child_spec in Ht'.
  destruct (absent (ent (mem s) t i)) eqn:Habs; [done|].
  destruct (large (ent (mem s) t i)); [done|]. injection Ht' as <-.
  unfold absent in Habs. unfold GetEntryNextLevel. rewrite (proj2 (Z.eqb_neq t 0)) by lia.
  erewrite bind_Ok by (by apply pte_get_run). cbv beta. rewrite Habs.
  erewrite bind_Ok by (by apply pte_get_run). cbv beta.
  rewrite Z.shiftl_mul_pow2 by lia. change (2 ^ 12) with 4096. fold (frame (ent (mem s) t i)).
  unfold ret. f_equal. apply Z.mod_small. lia.
Qed.

(** The pages a missing table costs. *)
Definition missing (m : gmap Z Z) (root : Z) (p : list Z) : Z :=
  match table_at m root p with Some _ => 0 | None => 1 end.

Lemma missing_range m root p : 0 <= missing m root p <= 1.
Proof using. unfold missing. destruct (table_at m root p); lia. Qed.
Lemma missing_iff m m' root p :
  (is_Some (table_at m' root p) <-> is_Some (table_at m root p)) -> missing m' root p = missing m root p.
Proof using.
  unfold missing. destruct (table_at m root p) as [t|], (table_at m' root p) as [t'|]; try done; intros [Ha Hb].
  - by destruct (Hb ltac:(done)).
  - by destruct (Ha ltac:(done)).
Qed.

(** [next_level] descends one level: the entry is present, or a fresh zeroed
    page becomes the table; no translation changes. *)
Lemma next_level_spec root s p t i :
  tables_inv root s -> vpath p -> (length p < 3)%nat -> index_ok i ->
  table_at (mem s) root p = Some t ->
  (absent (ent (mem s) t i) = false -> large (ent (mem s) t i) = false) ->
  missing (mem s) root (i :: p) <= Z.of_nat (length (ps_pool s)) ->
  exists t' s', GetEntryNextLevel t i s = Ok t' s' /\ evolve root (missing (mem s) root (i :: p)) s s' /\
    (forall q, vpath q -> table_at (mem s') root q =
       if decide (q = i :: p) then Some t' else table_at (mem s) root q) /\
    (forall v, translate (mem s') root v = translate (mem s) root v) /\
    (forall v, in_large (mem s') root v = in_large (mem s) root v).
Proof.
  intros Hinv Hp Hlen Hi Ht Hlarge Hpool.
  destruct (ti_page root s p t Hinv Hp Ht) as (Ht1 & Ht2 & Ht3 & Hown).
  destruct (absent (ent (mem s) t i)) eqn:Habs.
  - pose proof Habs as Habs'. unfold absent in Habs'.
    unfold GetEntryNextLevel. rewrite (proj2 (Z.eqb_neq t 0)) by lia.
    erewrite bind_Ok by (by apply pte_get_run). cbv beta. rewrite Habs'.
    assert (missing (mem s) root (i :: p) = 1) as Hmiss
      by (unfold missing; cbn [table_at]; by rewrite Ht, child_spec, Habs).
    rewrite Hmiss in *.
    destruct (ps_pool s) as [|new ps] eqn:Hps; [simpl in Hpool; lia|].
    destruct (add_table_run root s p t i new ps) as (s' & Hrun & Hr & Hi' & Hp' & Hm & He & Hz);
      try done.
    destruct (ps_alloc_page s new ps (ti_src _ _ Hinv) Hps) as (Hn1 & _ & Hn3 & _).
    assert (Hlow : new < 2 ^ 40) by (apply (ti_low _ _ Hinv); rewrite Hps; left).
    destruct (table_entry_fields new) as (E1 & E2 & E3 & E4 & E5); [|done|].
    { change (2 ^ 52) with 4503599627370496. change (2 ^ 40) with 1099511627776 in *. lia. }
    assert (Hd : differ_at root p i (mem s) (mem s')).
    { eapply differ_at_intro; [exact Hinv | exact Hp | exact Hi | exact Ht | | exact Hm].
      intros q t' a Hq Ht' Ha [Hna|Hoa].
      - destruct (ti_page root s q t' Hinv Hq Ht') as (_ & _ & Ha' & _).
        assert (t' = new) as -> by (by eapply page_bytes_inj).
        destruct (ti_tab root s Hinv q new Hq Ht') as (_ & Hnin & _).
        apply Hnin. rewrite Hps. left.
      - destruct (ti_page root s q t' Hinv Hq Ht') as (_ & _ & _ & Ho). by apply (Ho a). }
    destruct (tree_add_table root s s' p t i new) as (Hinv' & Htr & Hla); try done;
      try (by rewrite He); [by apply same_regs_alloc | congruence |].
    assert (Htab : forall q, vpath q -> table_at (mem s') root q =
      if decide (q = i :: p) then Some new else table_at (mem s) root q).
    { intros q Hq. apply (table_at_add root s s' p t i new); try done; try (by rewrite He); congruence || by apply same_regs_alloc. }
    exists new, s'. split_and!; try done.
    + split; try done.
      * exists [new]. rewrite Hps, Hp'. split; [done | simpl; lia].
      * eapply same_on_weaken; [exact Hm|]. intros a Ha. split.
        -- intros Hw. apply Ha. right. right. exists p, t.
           unfold page_bytes, within, index_ok in *. split_and!; (done || lia).
        -- intros [Hn|Ho]; apply Ha; [right; left; exists new | by left].
           rewrite Hps. split; [left | done].
      * intros a. unfold paging_byte. rewrite (same_regs_alloc _ _ Hr), Hps, Hp'.
        intros [Ho | [(q & Hq & Ha) | (q & t' & Hq & Ht' & Ha)]]; [by left | |].
        -- right. left. exists q. split; [by right | done].
        -- rewrite Htab in Ht' by done. case_decide.
           ++ injection Ht' as <-. right. left. exists new. split; [left | done].
           ++ right. right. by exists q, t'.
  - specialize (Hlarge eq_refl).
    assert (Hc : table_at (mem s) root (i :: p) = Some (frame (ent (mem s) t i))).
    { cbn [table_at]. by rewrite Ht, child_spec, Habs, Hlarge. }
    exists (frame (ent (mem s) t i)), s. split_and!; try done.
    + by apply (next_level_present root s p t i _ Hinv (vpath_cons _ _ Hp Hi Hlen) Ht Hc).
    + unfold missing. rewrite Hc. by apply evolve_refl.
    + intros q _. case_decide; [by subst q | done].
Qed.

(** ** The entry of a page *)

Definition leaf_entry (old phys : Z) (size : PageSizes) (user : bool) : Z :=
  let e := setf (setf (setf old Present 1) RW 1) PhysAddr (Z.shiftr phys 12) in
  let e := if bool_decide (size = _2M) then setf e PageSize 1 else e in
  if user then setf e UserSupervisor 1 else e.

Lemma leaf_entry_fields old phys size user :
  0 <= phys < 2 ^ 52 -> phys mod 4096 = 0 ->
  let e := leaf_entry old phys size user in
  absent e = false /\ writable e = true /\ frame e = phys /\
  (size = _2M -> large e = true).
Proof.
  intros Hn Hal. unfold leaf_entry.
  rewrite Z.shiftr_div_pow2 by lia. change (2 ^ 12) with 4096.
  change (2 ^ 52) with (4096 * 2 ^ 40) in Hn. change (2 ^ 40) with 1099511627776 in *.
  assert (Hd : phys / 4096 mod 1099511627776 * 4096 = phys) by lia.
  cbv zeta. destruct size, user;
    rewrite ?(bool_decide_eq_true_2 (_2M = _2M)), ?(bool_decide_eq_false_2 (_4K = _2M)) by done;
    bf; cbn -[Z.modulo Z.mul Z.div]; split_and!; done.
Qed.

Lemma set_leaf_run t i phys size user s :
  PAGE <= t -> t + PAGE <= 2 ^ 40 -> index_ok i ->
  exists s',
    (pte_set t i Present 1;;
     pte_set t i RW 1;;
     pte_set t i PhysAddr (Z.shiftr phys 12);;
     when (bool_decide (size = _2M)) (pte_set t i PageSize 1);;
     when user (pte_set t i UserSupervisor 1);;
     ret KSTATUS_SUCCESS) s = Ok KSTATUS_SUCCESS s' /\
    updated t i (leaf_entry (ent (mem s) t i) phys size user) s s'.
Proof.
  intros Ht1 Ht2 Hi. pose proof (updated_refl t i s) as U0. unfold leaf_entry.
  destruct (pte_set_run t i Ht1 Ht2 Hi Present 1 _ _ s ltac:(pte_field) U0) as (s1 & R1 & U1).
  destruct (pte_set_run t i Ht1 Ht2 Hi RW 1 _ _ s1 ltac:(pte_field) U1) as (s2 & R2 & U2).
  destruct (pte_set_run t i Ht1 Ht2 Hi PhysAddr (Z.shiftr phys 12) _ _ s2 ltac:(pte_field) U2)
    as (s3 & R3 & U3).
  erewrite bind_Ok by exact R1. erewrite bind_Ok by exact R2. erewrite bind_Ok by exact R3.
  cbv zeta. set (e3 := setf (setf (setf _ _ _) _ _) _ _) in *. clearbody e3.
  assert (H4 : exists s4, when (bool_decide (size = _2M)) (pte_set t i PageSize 1) s3 = Ok tt s4 /\
    updated t i (if bool_decide (size = _2M) then setf e3 PageSize 1 else e3) s s4).
  { case_bool_decide; cbn [when]; [|by exists s3].
    apply (pte_set_run t i Ht1 Ht2 Hi PageSize 1 _ _ s3 ltac:(pte_field) U3). }
  destruct H4 as (s4 & R4 & U4). erewrite bind_Ok by exact R4.
  destruct user; cbn [when].
  - destruct (pte_set_run t i Ht1 Ht2 Hi UserSupervisor 1 _ _ s4 ltac:(pte_field) U4)
      as (s5 & R5 & U5). erewrite bind_Ok by exact R5. by exists s5.
  - by exists s4.
Qed.

(** Setting an entry of a table of the tree writes nothing else. *)
Lemma updated_tree root s s' p t i e :
  tables_inv root s -> vpath p -> index_ok i -> table_at (mem s) root p = Some t ->
  updated t i e s s' ->
  ps_inv s' /\ ps_pool s' = ps_pool s /\ differ_at root p i (mem s) (mem s') /\
  same_on (fun a => ~ paging_byte root s a) (mem s) (mem s').
Proof.
  intros Hinv Hp Hi Ht (Hr & He & Hm).
  destruct (ti_page root s p t Hinv Hp Ht) as (_ & _ & _ & Hown).
  assert (Hpg : forall a, within a (t + 8 * i) 8 -> page_bytes t a)
    by (unfold page_bytes, within, index_ok in *; lia).
  destruct (ps_stable s s') as [Hi' Hp']; [apply Hinv | by apply same_regs_alloc | |].
  { eapply same_on_weaken; [exact Hm|]. intros a Ha Hw%Hpg. by apply (Hown a). }
  split_and!; [done | done | |].
  - eapply (differ_at_intro root s (mem s') p t i (fun _ => False)); try done; [tauto |].
    eapply same_on_weaken; [exact Hm|]. tauto.
  - eapply same_on_weaken; [exact Hm|]. intros a Ha Hw. apply Ha. right. right. exists p, t. auto.
Qed.

Lemma evolve_updated root s s' p t i e :
  tables_inv root s -> vpath p -> index_ok i -> table_at (mem s) root p = Some t ->
  updated t i e s s' -> tables_inv root s' ->
  (forall q t, vpath q -> table_at (mem s') root q = Some t -> table_at (mem s) root q = Some t) ->
  evolve root 0 s s'.
Proof.
  intros Hinv Hp Hi Ht U Hinv' Hmono.
  destruct (updated_tree root s s' p t i e) as (_ & Hpool & _ & Hfr); try done.
  destruct U as (Hr & _ & _). split; try done.
  - exists []. by rewrite Hpool.
  - intros a. unfold paging_byte. rewrite (same_regs_alloc _ _ Hr), Hpool.
    intros [Ho | [Hq | (q & t' & Hq & Ht' & Ha)]]; [by left | by right; left |].
    right. right. exists q, t'. auto.
Qed.

(** ** MapMemory *)

(** The tables above the last level. *)
Lemma directories_spec root s v :
  let need := missing (mem s) root (tpath 1 v) + missing (mem s) root (tpath 2 v) in
  tables_inv root s -> need <= Z.of_nat (length (ps_pool s)) ->
  exists pdpt pd s1 s2,
    GetEntryNextLevel root (idx 3 v) s = Ok pdpt s1 /\
    GetEntryNextLevel pdpt (idx 2 v) s1 = Ok pd s2 /\
    evolve root need s s2 /\ table_at (mem s2) root (tpath 2 v) = Some pd /\
    (forall q, vpath q -> is_Some (table_at (mem s2) root q) <->
       q = tpath 2 v \/ q = tpath 1 v \/ is_Some (table_at (mem s) root q)) /\
    (forall v, translate (mem s2) root v = translate (mem s) root v) /\
    (forall v, in_large (mem s2) root v = in_large (mem s) root v).
Proof.
  intros need Hinv Hpool. subst need.
  pose proof (missing_range (mem s) root (tpath 1 v)). pose proof (missing_range (mem s) root (tpath 2 v)).
  assert (Hdir : forall s p t i, tables_inv root s -> vpath p -> (length p < 2)%nat -> index_ok i ->
    table_at (mem s) root p = Some t ->
    absent (ent (mem s) t i) = false -> large (ent (mem s) t i) = false).
  { intros s0 p t i J0 Hp Hl Hi Ht Ha.
    pose proof (ti_dir root s0 J0 p t i Hp ltac:(lia) Hi Ht) as Hd. cbn zeta in Hd.
    rewrite Ha in Hd. destruct Hd as (_ & _ & Hd).
    destruct (large _); [specialize (Hd eq_refl); lia | done]. }
  destruct (next_level_spec root s [] root (idx 3 v)) as (pdpt & s1 & R1 & E1 & T1 & X1 & L1);
    try done; [by apply (tpath_vpath 0 v); lia | simpl; lia | apply idx_ok | | change [idx 3 v] with (tpath 1 v); lia |].
  { apply (Hdir s []); try done; [by apply (tpath_vpath 0 v); lia | simpl; lia | apply idx_ok]. }
  pose proof (ev_inv _ _ _ _ E1) as I1. pose proof (evolve_pool_length _ _ _ _ E1) as P1.
  change [idx 3 v] with (tpath 1 v) in *.
  assert (H12 : missing (mem s1) root (tpath 2 v) = missing (mem s) root (tpath 2 v)).
  { apply missing_iff. rewrite T1 by (apply tpath_vpath; lia). by rewrite decide_False by done. }
  destruct (next_level_spec root s1 (tpath 1 v) pdpt (idx 2 v)) as (pd & s2 & R2 & E2 & T2 & X2 & L2);
    try done; [by apply tpath_vpath; lia | simpl; lia | apply idx_ok | | | |].
  { rewrite T1 by (apply tpath_vpath; lia). by rewrite decide_True. }
  { apply (Hdir s1 (tpath 1 v)); try done; [by apply tpath_vpath; lia | simpl; lia | apply idx_ok |].
    rewrite T1 by (apply tpath_vpath; lia). by rewrite decide_True. }
  { change (idx 2 v :: tpath 1 v) with (tpath 2 v). lia. }
  change (idx 2 v :: tpath 1 v) with (tpath 2 v) in *. rewrite H12 in E2.
  exists pdpt, pd, s1, s2. split_and!; try done.
  - apply (evolve_trans root _ _ s s1 s2 E1 E2).
  - rewrite T2 by (apply tpath_vpath; lia). by rewrite decide_True.
  - intros q Hq. rewrite T2 by done. case_decide; [by intuition|].
    rewrite T1 by done. case_decide; intuition.
  - intros w. by rewrite X2, X1.
  - intros w. by rewrite L2, L1.
Qed.

(** What mapping one page does to the translations. *)
Definition mapped (l : nat) (root virt phys : Z) (s s' : machine) : Prop :=
  forall v, translate (mem s') root v =
    if decide (same_page l v virt) then Some (Xlat (phys + v mod page_len l) true false)
    else translate (mem s) root v.

Lemma aligned_assert a line file s :
  a mod 4096 = 0 -> assert_c (negb (is_aligned a 4096 =? 0)) line file s = Ok tt s.
Proof. unfold is_aligned. intros ->. done. Qed.

(** The tables a page of level [l] needs, and the pages the missing ones cost. *)
Definition tables_of (l : nat) (v : Z) : list (list Z) :=
  match l with O => [tpath 1 v; tpath 2 v; tpath 3 v] | _ => [tpath 1 v; tpath 2 v] end.
Definition cost (m : gmap Z Z) (root : Z) (ps : list (list Z)) : Z := foldr (fun p n => missing m root p + n) 0 ps.

Lemma map_4K_run root s virt phys user :
  let need := cost (mem s) root (tables_of 0 virt) in
  tables_inv root s -> need <= Z.of_nat (length (ps_pool s)) ->
  virt mod 4096 = 0 -> phys mod 4096 = 0 -> 0 <= phys < 2 ^ 52 ->
  in_large (mem s) root virt = false ->
  exists s', MapMemory root virt phys _4K user s = Ok KSTATUS_SUCCESS s' /\
    evolve root need s s' /\ mapped 0 root virt phys s s' /\
    (forall v, in_large (mem s') root v = in_large (mem s) root v) /\
    (forall q, vpath q -> is_Some (table_at (mem s') root q) <->
       q ∈ tables_of 0 virt \/ is_Some (table_at (mem s) root q)).
Proof.
  intros need Hinv Hpool Hv Hph Hpr Hlarge. subst need. cbn [tables_of cost foldr] in *.
  pose proof (missing_range (mem s) root (tpath 3 virt)) as Hm3. unfold MapMemory.
  erewrite bind_Ok by (by apply aligned_assert). erewrite bind_Ok by (by apply aligned_assert).
  cbv zeta. rewrite level_entry_39, level_entry_30, level_entry_21, level_entry_12.
  destruct (directories_spec root s virt Hinv) as (pdpt & pd & s1 & s2 & R1 & R2 & E2 & T2 & G2 & X2 & L2);
    [lia|].
  pose proof (ev_inv _ _ _ _ E2) as I2. pose proof (evolve_pool_length _ _ _ _ E2) as P2.
  assert (H23 : missing (mem s2) root (tpath 3 virt) = missing (mem s) root (tpath 3 virt)).
  { apply missing_iff. rewrite G2 by (apply tpath_vpath; lia). split; [|by auto].
    by intros [Hx%(f_equal length)|[Hx%(f_equal length)|Hx]]; rewrite ?tpath_length in Hx. }
  destruct (next_level_spec root s2 (tpath 2 virt) pd (idx 1 virt))
    as (pt & s3 & R3 & E3 & T3 & X3 & L3); try done;
    [by apply tpath_vpath; lia | simpl; lia | apply idx_ok | | change (idx 1 virt :: tpath 2 virt) with (tpath 3 virt); lia |].
  { intros Ha. rewrite <- L2 in Hlarge. unfold in_large in Hlarge. rewrite T2, Ha in Hlarge. done. }
  pose proof (ev_inv _ _ _ _ E3) as I3.
  change (idx 1 virt :: tpath 2 virt) with (tpath 3 virt) in *. rewrite H23 in E3.
  pose proof (T3 (tpath 3 virt) (tpath_vpath 3 virt ltac:(lia))) as T3'. rewrite decide_True in T3' by done.
  destruct (ti_page root s3 _ pt I3 (tpath_vpath 3 virt ltac:(lia)) T3') as (H1 & H2 & _ & _).
  erewrite bind_Ok by exact R1. cbv beta.
  erewrite bind_Ok by (erewrite bind_Ok by exact R2; erewrite bind_Ok by exact R3; reflexivity).
  cbv beta iota zeta. rewrite (proj2 (Z.eqb_neq pt 0)) by lia.
  destruct (set_leaf_run pt (idx 0 virt) phys _4K user s3 H1 H2 (idx_ok _ _)) as (s4 & R4 & U4).
  pose proof (leaf_entry_fields (ent (mem s3) pt (idx 0 virt)) phys _4K user Hpr Hph)
    as (F1 & F2 & F3 & _).
  destruct (updated_tree root s3 s4 (tpath 3 virt) pt (idx 0 virt) _ I3
    (tpath_vpath 3 virt ltac:(lia)) (idx_ok _ _) T3' U4) as (Hi4 & Hp4 & Hd4 & _).
  assert (He4 : ent (mem s4) pt (idx 0 virt) = leaf_entry (ent (mem s3) pt (idx 0 virt)) phys _4K user)
    by apply U4.
  destruct (tree_set_page root s3 s4 (tpath 3 virt) pt (idx 0 virt)) as (I4 & M1 & M2 & M3 & M4);
    try done; [by apply tpath_vpath; lia | apply idx_ok | by apply same_regs_alloc, U4
      | by rewrite He4 | by rewrite He4 |].
  exists s4. split_and!; [exact R4 | | | |].
  - pose proof (evolve_updated root s3 s4 (tpath 3 virt) pt _ _ I3 (tpath_vpath 3 virt ltac:(lia))
      (idx_ok _ _) T3' U4 I4) as E4.
    eapply evolve_weaken; [eapply (evolve_trans root _ 0 s s3 s4);
      [apply (evolve_trans root _ _ s s2 s3 E2 E3)|] | lia].
    apply E4. intros q t Hq. by rewrite M3.
  - unfold mapped. intros v. destruct (decide (same_page 0 v virt)) as [Hs|Hs];
      rewrite same_page_0 in Hs.
    + rewrite (M1 v Hs), He4. unfold leaf_phys. rewrite F3. do 2 f_equal.
      change (page_len 0) with 4096. lia.
    + by rewrite (M2 v Hs), X3, X2.
  - intros v. by rewrite M4, L3, L2.
  - intros q Hq. rewrite M3, T3, !elem_of_cons, elem_of_nil by done.
    destruct (decide (q = tpath 3 virt)); [by intuition|]. rewrite G2 by done. tauto.
Qed.

Lemma map_2M_run root s virt phys user :
  let need := cost (mem s) root (tables_of 1 virt) in
  tables_inv root s -> need <= Z.of_nat (length (ps_pool s)) ->
  virt mod 4096 = 0 -> phys mod page_len 1 = 0 -> 0 <= phys < 2 ^ 52 ->
  exists s', MapMemory root virt phys _2M user s = Ok KSTATUS_SUCCESS s' /\
    evolve root need s s' /\ mapped 1 root virt phys s s' /\
    (forall v, in_large (mem s') root v =
       if decide (same_page 1 v virt) then true else in_large (mem s) root v) /\
    (forall q, vpath q -> is_Some (table_at (mem s') root q) <->
       q <> tpath 3 virt /\ (q ∈ tables_of 1 virt \/ is_Some (table_at (mem s) root q))).
Proof.
  intros need Hinv Hpool Hv Hph Hpr. subst need. cbn [tables_of cost foldr] in *. unfold MapMemory.
  assert (Hph' : phys mod 4096 = 0) by (change (page_len 1) with 2097152 in Hph; lia).
  erewrite bind_Ok by (by apply aligned_assert). erewrite bind_Ok by (by apply aligned_assert).
  cbv zeta. rewrite level_entry_39, level_entry_30, level_entry_21.
  destruct (directories_spec root s virt Hinv) as (pdpt & pd & s1 & s2 & R1 & R2 & E2 & T2 & G2 & X2 & L2);
    [lia|].
  pose proof (ev_inv _ _ _ _ E2) as I2.
  destruct (ti_page root s2 _ pd I2 (tpath_vpath 2 virt ltac:(lia)) T2) as (H1 & H2 & _ & _).
  erewrite bind_Ok by exact R1. cbv beta.
  erewrite bind_Ok by (erewrite bind_Ok by exact R2; reflexivity).
  cbv beta iota zeta. rewrite (proj2 (Z.eqb_neq pd 0)) by lia.
  destruct (set_leaf_run pd (idx 1 virt) phys _2M user s2 H1 H2 (idx_ok _ _)) as (s4 & R4 & U4).
  pose proof (leaf_entry_fields (ent (mem s2) pd (idx 1 virt)) phys _2M user Hpr Hph')
    as (F1 & F2 & F3 & F4).
  specialize (F4 eq_refl).
  destruct (updated_tree root s2 s4 (tpath 2 virt) pd (idx 1 virt) _ I2
    (tpath_vpath 2 virt ltac:(lia)) (idx_ok _ _) T2 U4) as (Hi4 & Hp4 & Hd4 & _).
  assert (He4 : ent (mem s4) pd (idx 1 virt) = leaf_entry (ent (mem s2) pd (idx 1 virt)) phys _2M user)
    by apply U4.
  destruct (tree_set_large root s2 s4 (tpath 2 virt) pd (idx 1 virt)) as (I4 & M0 & M1 & M2);
    try done; [by apply tpath_vpath; lia | apply idx_ok | by apply same_regs_alloc, U4
      | by rewrite He4 | by rewrite He4 | by rewrite He4 |].
  change (idx 1 virt :: tpath 2 virt) with (tpath 3 virt) in M0.
  exists s4. split_and!; [exact R4 | | | |].
  - pose proof (evolve_updated root s2 s4 (tpath 2 virt) pd _ _ I2 (tpath_vpath 2 virt ltac:(lia))
      (idx_ok _ _) T2 U4 I4) as E4.
    eapply evolve_weaken; [apply (evolve_trans root _ 0 s s2 s4 E2), E4 | lia].
    intros q t Hq. rewrite M0 by done. by destruct (decide (q = _)).
  - unfold mapped. intros v. destruct (decide (same_page 1 v virt)) as [Hs|Hs];
      rewrite same_page_1 in Hs.
    + rewrite (proj1 (M1 v Hs)), He4. unfold leaf_phys. rewrite F3. do 2 f_equal.
      change (page_len 1) with 2097152 in *. lia.
    + by rewrite (proj1 (M2 v Hs)), X2.
  - intros v. destruct (decide (same_page 1 v virt)) as [Hs|Hs]; rewrite same_page_1 in Hs; [by apply M1 | by rewrite (proj2 (M2 v Hs)), L2].
  - intros q Hq. rewrite M0, !elem_of_cons, elem_of_nil by done.
    destruct (decide (q = tpath 3 virt)); [split; [by intros []|tauto]|]. rewrite G2 by done. tauto.
Qed.

Lemma cost_range m root ps : 0 <= cost m root ps <= Z.of_nat (length ps).
Proof using.
  unfold cost. induction ps as [|p ps IH]; cbn [foldr length]; [lia|].
  pose proof (missing_range m root p). lia.
Qed.

Lemma map_4K_spec root s virt phys user :
  tables_inv root s -> 3 <= Z.of_nat (length (ps_pool s)) ->
  virt mod 4096 = 0 -> phys mod 4096 = 0 -> 0 <= phys < 2 ^ 52 ->
  in_large (mem s) root virt = false ->
  exists s', MapMemory root virt phys _4K user s = Ok KSTATUS_SUCCESS s' /\
    evolve root 3 s s' /\ mapped 0 root virt phys s s' /\
    (forall v, in_large (mem s') root v = in_large (mem s) root v).
Proof.
  intros Hinv Hpool Hv Hph Hpr Hlarge. pose proof (cost_range (mem s) root (tables_of 0 virt)) as Hc.
  cbn [length tables_of] in Hc.
  destruct (map_4K_run root s virt phys user Hinv) as (s' & R & E & M & L & _); try done.
  { cbn [tables_of]. lia. }
  exists s'. split_and!; try done. eapply evolve_weaken; [exact E | cbn [tables_of]; lia].
Qed.

Lemma map_2M_spec root s virt phys user :
  tables_inv root s -> 2 <= Z.of_nat (length (ps_pool s)) ->
  virt mod 4096 = 0 -> phys mod page_len 1 = 0 -> 0 <= phys < 2 ^ 52 ->
  exists s', MapMemory root virt phys _2M user s = Ok KSTATUS_SUCCESS s' /\
    evolve root 2 s s' /\ mapped 1 root virt phys s s' /\
    (forall v, in_large (mem s') root v =
       if decide (same_page 1 v virt) then true else in_large (mem s) root v).
Proof.
  intros Hinv Hpool Hv Hph Hpr. pose proof (cost_range (mem s) root (tables_of 1 virt)) as Hc.
  cbn [length tables_of] in Hc.
  destruct (map_2M_run root s virt phys user Hinv) as (s' & R & E & M & L & _); try done.
  { cbn [tables_of]. lia. }
  exists s'. split_and!; try done. eapply evolve_weaken; [exact E | cbn [tables_of]; lia].
Qed.
End Spec.
