(* ===== verification/PagingSpec.v ===== *)
(** What mm/paging/paging.c guarantees: mapping one page, the address space of
    a process, and two consequences of the way entries are written - pages
    mapped for user mode stay inaccessible to it, and mapping a 4 KiB page
    inside a 2 MiB one overwrites the first bytes of the 2 MiB page. *)
From S2P Require Import Prelude Memory Machine PageSource FrameAlloc Bitfield PageWalk Paging.

(** ** Regions of pages

    The number of pages of level [l] from the page of [base] to the page of
    [v], going round the 48-bit address space. *)
Definition page_off (l : nat) (base v : Z) : Z :=
  (v / page_len l - base / page_len l) mod 2 ^ (36 - 9 * Z.of_nat l).

Lemma page_len_pos l : 0 < page_len l.
Proof. apply Z.pow_pos_nonneg; lia. Qed.

Lemma page_off_range l base v : (l <= 3)%nat -> 0 <= page_off l base v < 2 ^ (36 - 9 * Z.of_nat l).
Proof. intros. apply Z.mod_pos_bound, Z.pow_pos_nonneg; lia. Qed.

(** Page [k] of a region is the one [k] pages from its base. *)
Lemma same_page_off l base k v :
  (l <= 3)%nat -> base mod page_len l = 0 -> 0 <= k < 2 ^ (36 - 9 * Z.of_nat l) ->
  same_page l v (base + page_len l * k) <-> page_off l base v = k.
Proof.
  intros Hl Hb Hk. pose proof (page_len_pos l) as Hpos. unfold same_page, vpn, page_off.
  rewrite (Z.mul_comm (page_len l)), Z.div_add by lia.
  set (N := 2 ^ (36 - 9 * Z.of_nat l)) in *. clearbody N.
  generalize (v / page_len l), (base / page_len l). intros x y. split; intros H.
  - replace (x - y) with (x - (y + k) + k) by lia.
    rewrite <- Z.add_mod_idemp_l, Zminus_mod, H by lia.
    rewrite Z.sub_diag, Z.mod_0_l by lia. apply Z.mod_small. lia.
  - replace x with (x - y + y) by lia. rewrite <- Z.add_mod_idemp_l, H by lia. f_equal. lia.
Qed.

Section Spec.
Context `{PSO : PageSourceOk}.

(** ** New trees *)

(** A page fresh from the allocator is a tree that translates nothing. *)
Lemma fresh_tree s root ps s1 :
  ps_inv s -> ps_pool s = root :: ps -> (forall q, q ∈ ps_pool s -> q < 2 ^ 40) ->
  ps_inv s1 -> ps_pool s1 = ps -> zeroed (mem s1) root PAGE ->
  alloc_frame (ps_owned (alloc_g s)) root s s1 ->
  tables_inv root s1 /\
  (forall v, translate (mem s1) root v = None) /\
  (forall v, in_large (mem s1) root v = false) /\
  (forall a, paging_byte root s1 a ->
     ps_owned (alloc_g s) a \/ exists q, q ∈ ps_pool s /\ page_bytes q a).
Proof.
  intros Hi Hps Hlow Hi1 Hp1 Hz [Hr Hm].
  assert (Hg : alloc_g s1 = alloc_g s) by (by apply same_regs_alloc).
  destruct (ps_alloc_page s root ps Hi Hps) as (H1 & H2 & H3 & Hnin).
  assert (He : forall i, index_ok i -> ent (mem s1) root i = 0).
  { intros i Hx. unfold index_ok in Hx. apply (ld_zeroed _ root PAGE); [done | lia | lia]. }
  assert (Htab : forall p t, vpath p -> table_at (mem s1) root p = Some t -> p = [] /\ t = root).
  { induction p as [|i p IH]; intros t Hp; [by intros [= ->]|]. cbn [table_at].
    destruct (vpath_tail _ _ Hp) as [Hp' Hx].
    destruct (table_at (mem s1) root p) as [t0|] eqn:Ht0; [|done].
    destruct (IH t0 Hp' eq_refl) as [-> ->]. by rewrite child_spec, He. }
  split_and!.
  - split.
    + done.
    + intros p t Hp Ht. destruct (Htab p t Hp Ht) as [-> ->]. rewrite Hp1, Hg. split_and!.
      * apply ps_pool_managed; [done | rewrite Hps; left].
      * done.
      * apply Hlow. rewrite Hps. left.
    + intros p q t Hp Hq Ht Ht'. by destruct (Htab p t Hp Ht), (Htab q t Hq Ht'); subst.
    + intros q Hq. apply Hlow. rewrite Hps. right. by rewrite <- Hp1.
    + intros p t i Hp _ Hx Ht. destruct (Htab p t Hp Ht) as [-> ->]. by rewrite He.
  - intros v. unfold translate. cbn [walk]. by rewrite He by apply idx_ok.
  - intros v. unfold in_large. cbn [tpath table_at].
    rewrite child_spec, He by apply idx_ok. done.
  - intros a [Ho | [(q & Hq & Ha) | (p & t & Hp & Ht & Ha)]].
    + left. by rewrite <- Hg.
    + right. exists q. split; [rewrite Hps; right; by rewrite <- Hp1 | done].
    + destruct (Htab p t Hp Ht) as [-> ->]. right. exists root. split; [rewrite Hps; left | done].
Qed.

(** C14. [MapMemory] with a 4 KiB page, at an address that no 2 MiB page covers: with a
    page-aligned frame and three free pages for missing tables, it succeeds; afterwards the processor
    translates every address of the page to the frame, writable, and every
    other address as before; the tree stays well formed and only tables, free
    pages and the allocator's own data are written. *)
Theorem MapMemory_4K_maps root s virt phys user :
  tables_inv root s -> 3 <= Z.of_nat (length (ps_pool s)) ->
  virt mod 4096 = 0 -> phys mod 4096 = 0 -> 0 <= phys < 2 ^ 52 ->
  in_large (mem s) root virt = false ->
  exists s', MapMemory root virt phys _4K user s = Ok KSTATUS_SUCCESS s' /\
    tables_inv root s' /\ same_regs s s' /\
    same_on (fun a => ~ paging_byte root s a) (mem s) (mem s') /\
    forall v, translate (mem s') root v =
      if decide (same_page 0 v virt) then Some (Xlat (phys + v mod 4096) true false)
      else translate (mem s) root v.
Proof.
  intros. destruct (map_4K_spec root s virt phys user) as (s' & Hrun & [? ? _ ? _] & Hm & _); try done.
  exists s'. split_and!; done.
Qed.

(** C24. [MapMemory] with a 2 MiB page replaces the translation of the whole
    2 MiB, whatever tables were there, and no other. *)
Theorem MapMemory_2M_maps root s virt phys user :
  tables_inv root s -> 2 <= Z.of_nat (length (ps_pool s)) ->
  virt mod 4096 = 0 -> phys mod 0x200000 = 0 -> 0 <= phys < 2 ^ 52 ->
  exists s', MapMemory root virt phys _2M user s = Ok KSTATUS_SUCCESS s' /\
    tables_inv root s' /\ same_regs s s' /\
    same_on (fun a => ~ paging_byte root s a) (mem s) (mem s') /\
    forall v, translate (mem s') root v =
      if decide (same_page 1 v virt) then Some (Xlat (phys + v mod 0x200000) true false)
      else translate (mem s) root v.
Proof.
  intros. destruct (map_2M_spec root s virt phys user) as (s' & Hrun & [? ? _ ? _] & Hm & _); try done.
  exists s'. split_and!; done.
Qed.

(** ** Histories of mappings *)

(** Mapping pages into one tree, other allocations, and writes that leave the
    tables and the allocator's data alone. *)
Inductive map_step (root : Z) : machine -> machine -> Prop :=
  | step_map_4K s s' virt phys user r :
      3 <= Z.of_nat (length (ps_pool s)) -> virt mod 4096 = 0 -> phys mod 4096 = 0 ->
      0 <= phys < 2 ^ 52 -> in_large (mem s) root virt = false ->
      MapMemory root virt phys _4K user s = Ok r s' -> map_step root s s'
  | step_map_2M s s' virt phys user r :
      2 <= Z.of_nat (length (ps_pool s)) -> virt mod 4096 = 0 -> phys mod 0x200000 = 0 ->
      0 <= phys < 2 ^ 52 ->
      MapMemory root virt phys _2M user s = Ok r s' -> map_step root s s'
  | step_take s s' p :
      page_alloc s = Ok p s' -> map_step root s s'
  | step_write s s' :
      alloc_g s' = alloc_g s -> same_on (ps_owned (alloc_g s)) (mem s) (mem s') ->
      same_on (table_byte root (mem s)) (mem s) (mem s') -> map_step root s s'.

Lemma map_step_inv root s s' : tables_inv root s -> map_step root s s' -> tables_inv root s'.
Proof.
  intros Hinv Hstep.
  destruct Hstep as [s s' virt phys user r ? ? ? ? ? Hr | s s' virt phys user r ? ? ? ? Hr
                    | s s' p Hr | s s' Hg Ho Ht].
  - destruct (map_4K_spec root s virt phys user) as (s1 & Hr' & [? ? _ ? _] & _); try done.
    rewrite Hr in Hr'. by injection Hr' as _ ->.
  - destruct (map_2M_spec root s virt phys user) as (s1 & Hr' & [? ? _ ? _] & _); try done.
    rewrite Hr in Hr'. by injection Hr' as _ ->.
  - destruct (ps_pool s) as [|q qs] eqn:Hps.
    { destruct (ps_alloc_none s (ti_src _ _ Hinv) Hps) as [? ?]. congruence. }
    destruct (ps_alloc s q qs (ti_src _ _ Hinv) Hps) as (s1 & Hr' & Hi1 & Hp1 & _ & Hfr).
    rewrite Hr in Hr'. injection Hr' as -> ->.
    by destruct (alloc_stable root s s1 q qs Hinv Hps Hi1 Hp1 Hfr) as [? _].
  - destruct (ps_stable s s' (ti_src _ _ Hinv) Hg Ho) as [Hi' Hp'].
    destruct (tables_stable root s s') as [? _]; try done. exists []. by rewrite Hp'.
Qed.

Lemma walk_user_false m l t v w x : walk m l t v w false = Some x -> x_user x = false.
Proof.
  revert t w. induction l as [|l IH]; intros t w; cbn [walk].
  - destruct (absent _); [done|]. by intros [= <-].
  - destruct (absent _); [done|]. destruct (large _); [|apply IH].
    destruct (_ <? 3)%nat; [|done]. by intros [= <-].
Qed.

Lemma walk_S m l t v w u :
  walk m (S l) t v w u =
    let e := ent m t (idx (S l) v) in
    if absent e then None
    else if large e then
      (if (S l <? 3)%nat then Some (Xlat (leaf_phys (S l) e v) (w && writable e) (u && user_ok e))
       else None)
    else walk m l (frame e) v (w && writable e) (u && user_ok e).
Proof. done. Qed.

Lemma tables_inv_user root s v x :
  tables_inv root s -> translate (mem s) root v = Some x -> x_user x = false.
Proof.
  intros Hinv. unfold translate. rewrite walk_S.
  pose proof (ti_dir root s Hinv [] root (idx 3 v) (tpath_vpath 0 v ltac:(lia)) ltac:(simpl; lia)
    (idx_ok _ _) eq_refl) as Hd. cbn zeta in Hd.
  cbv zeta. destruct (absent _); [done|]. destruct Hd as (_ & Hu & Hl).
  destruct (large _); [by specialize (Hl eq_refl)|].
  rewrite Hu by done. rewrite andb_false_r. apply walk_user_false.
Qed.

(** C35. User mode reaches no page of an address space built by this code,
    also those mapped with [user] set: the flag is set in the last entry only,
    and the processor asks for it at every level. *)
Theorem user_pages_inaccessible s root ps s1 s' v x :
  ps_inv s -> ps_pool s = root :: ps -> (forall q, q ∈ ps_pool s -> q < 2 ^ 40) ->
  page_alloc s = Ok root s1 -> rtc (map_step root) s1 s' ->
  translate (mem s') root v = Some x -> x_user x = false.
Proof.
  intros Hi Hps Hlow Hrun Hsteps.
  destruct (ps_alloc s root ps Hi Hps) as (s1' & Hrun' & Hi1 & Hp1 & Hz & Hfr).
  rewrite Hrun in Hrun'. injection Hrun' as <-.
  destruct (fresh_tree s root ps s1) as [Hinv _]; try done.
  assert (Hinv' : tables_inv root s').
  { clear - Hinv Hsteps. induction Hsteps; eauto using map_step_inv. }
  by apply tables_inv_user.
Qed.

(** ** A 4 KiB page inside a 2 MiB page *)

(** Such a write: the tree, wherever it is, is not touched. *)
Record beside (root base : Z) (s s' : machine) : Prop := {
  be_inv : tables_inv root s';
  be_regs : same_regs s s';
  be_pool : ps_pool s' = ps_pool s;
  be_frame : same_on (fun a => ~ page_bytes base a) (mem s) (mem s');
  be_bytes a : paging_byte root s' a -> paging_byte root s a;
  be_map v : translate (mem s') root v = translate (mem s) root v;
  be_large v : in_large (mem s') root v = in_large (mem s) root v;
  be_table p : vpath p -> table_at (mem s') root p = table_at (mem s) root p;
}.

Lemma stray_4K_run root s virt phys user pd base :
  tables_inv root s -> virt mod 4096 = 0 -> phys mod 4096 = 0 -> 0 <= phys < 2 ^ 52 ->
  table_at (mem s) root (tpath 2 virt) = Some pd ->
  absent (ent (mem s) pd (idx 1 virt)) = false -> large (ent (mem s) pd (idx 1 virt)) = true ->
  frame (ent (mem s) pd (idx 1 virt)) = base -> PAGE <= base -> base + PAGE <= 2 ^ 40 ->
  (forall a, page_bytes base a -> ~ paging_byte root s a) ->
  exists s', MapMemory root virt phys _4K user s = Ok KSTATUS_SUCCESS s' /\
    updated base (idx 0 virt) (leaf_entry (ent (mem s) base (idx 0 virt)) phys _4K user) s s' /\
    beside root base s s'.
Proof.
  intros Hinv Hv Hph Hpr Hpd Ha Hb Hbase H1 H2 Hout. unfold MapMemory.
  erewrite bind_Ok by (by apply aligned_assert). erewrite bind_Ok by (by apply aligned_assert).
  cbv zeta. rewrite level_entry_39, level_entry_30, level_entry_21, level_entry_12.
  assert (Hpdpt : exists pdpt, table_at (mem s) root (tpath 1 virt) = Some pdpt).
  { cbn [tpath table_at] in *. destruct (child (mem s) root _) as [pdpt|]; [|done]. by exists pdpt. }
  destruct Hpdpt as [pdpt Hpdpt].
  erewrite bind_Ok by (by apply (next_level_present root s [] root _ pdpt Hinv
    (tpath_vpath 1 virt ltac:(lia)))). cbv beta.
  destruct (ti_page root s _ pd Hinv (tpath_vpath 2 virt ltac:(lia)) Hpd) as (P1 & P2 & _).
  assert (Hget : GetEntryNextLevel pd (idx 1 virt) s = Ok base s).
  { unfold GetEntryNextLevel. rewrite (proj2 (Z.eqb_neq pd 0)) by lia.
    erewrite bind_Ok by (apply pte_get_run; try done; apply idx_ok). cbv beta.
    unfold absent in Ha. rewrite Ha.
    erewrite bind_Ok by (apply pte_get_run; try done; apply idx_ok). cbv beta.
    rewrite Z.shiftl_mul_pow2 by lia. change (2 ^ 12) with 4096.
    fold (frame (ent (mem s) pd (idx 1 virt))). rewrite Hbase.
    unfold ret. f_equal. apply Z.mod_small. lia. }
  erewrite bind_Ok by
    (erewrite bind_Ok by (by apply (next_level_present root s (tpath 1 virt) pdpt _ pd Hinv
       (tpath_vpath 2 virt ltac:(lia)))); erewrite bind_Ok by exact Hget; reflexivity).
  cbv beta iota zeta. rewrite (proj2 (Z.eqb_neq base 0)) by lia.
  destruct (set_leaf_run base (idx 0 virt) phys _4K user s H1 H2 (idx_ok _ _))
    as (s' & Hrun & Hr & He & Hm).
  assert (Hw : forall a, within a (base + 8 * idx 0 virt) 8 -> page_bytes base a).
  { pose proof (idx_ok 0 virt). unfold page_bytes, within, index_ok in *. lia. }
  exists s'. split; [exact Hrun|]. split; [done|].
  destruct (ps_stable s s') as [Hi' Hp'];
    [apply Hinv | by apply same_regs_alloc | |].
  { eapply same_on_weaken; [exact Hm|]. intros a Ho Hin%Hw. apply (Hout a Hin). by left. }
  destruct (tables_stable root s s') as (I' & Hta & Htr & Hla); try done.
  { by apply same_regs_alloc. } { exists []. by rewrite Hp'. }
  { eapply same_on_weaken; [exact Hm|]. intros a Ht Hin%Hw. apply (Hout a Hin). by do 2 right. }
  split; try done.
  - eapply same_on_weaken; [exact Hm|]. cbn. auto.
  - intros a. unfold paging_byte. rewrite Hp', (same_regs_alloc _ _ Hr).
    intros [?|[?|(p & t & Hp & Ht & ?)]]; [by left | by right; left | right; right].
    exists p, t. by rewrite Hta in Ht.
Qed.

(** C36. Asked for a 4 KiB page where a 2 MiB page is mapped, [MapMemory]
    takes the frame of the 2 MiB page for a page table: it reports success,
    overwrites eight bytes of that memory, and the translation of the address
    stays what it was. *)
Theorem map_4K_inside_2M root s virt phys user pd base :
  tables_inv root s -> virt mod 4096 = 0 -> phys mod 4096 = 0 -> 0 <= phys < 2 ^ 52 ->
  table_at (mem s) root (tpath 2 virt) = Some pd ->
  absent (ent (mem s) pd (idx 1 virt)) = false -> large (ent (mem s) pd (idx 1 virt)) = true ->
  frame (ent (mem s) pd (idx 1 virt)) = base -> PAGE <= base -> base + PAGE <= 2 ^ 40 ->
  (forall a, page_bytes base a -> ~ paging_byte root s a) ->
  exists s', MapMemory root virt phys _4K user s = Ok KSTATUS_SUCCESS s' /\
    ld64 (mem s') (base + 8 * idx 0 virt) =
      leaf_entry (ld64 (mem s) (base + 8 * idx 0 virt)) phys _4K user /\
    (forall v, translate (mem s') root v = translate (mem s) root v) /\
    same_on (fun a => ~ within a (base + 8 * idx 0 virt) 8) (mem s) (mem s').
Proof.
  intros. destruct (stray_4K_run root s virt phys user pd base)
    as (s' & Hrun & (_ & He & Hm) & B); try done.
  exists s'. split_and!; [done | exact He | by apply B | exact Hm].
Qed.
End Spec.
