(* ===== verification/AddressSpace.v ===== *)
(** CreateProcessPML4 of mm/paging/paging.c: the address space of a process is the
    kernel image, the two windows on the memory between 2 MiB and 1 GiB, outside
    kernel code the program's pages, and nothing else. *)
From S2P Require Import Prelude Memory Machine PageSource FrameAlloc Bitfield PageWalk Paging PagingSpec.

(** ** The intended map *)

(** [v] lies in pages 1 .. k-1 of the identity window or of the window at
    [hhdm_base] [h]. *)
Definition in_window (h k v : Z) : Prop :=
  1 <= page_off 1 0 v < k \/ 1 <= page_off 1 h v < k.

Definition window_map (h k v : Z) : option xlat :=
  if decide (1 <= page_off 1 0 v < k) then
    Some (Xlat (0x200000 * page_off 1 0 v + v mod 0x200000) true false)
  else if decide (1 <= page_off 1 h v < k) then
    Some (Xlat (0x200000 * page_off 1 h v + v mod 0x200000) true false)
  else None.

Definition kernel_pages (g : paging_info) : Z := (info_kernelSize g + 4095) / 4096.

(** [n] pages from [virt] on, leading to [phys], on top of the map [under]. *)
Definition pages_over (under : Z -> option xlat) (virt phys n v : Z) : option xlat :=
  if decide (page_off 0 virt v < n) then
    Some (Xlat (phys + 4096 * page_off 0 virt v + v mod 4096) true false)
  else under v.

(** The window map with [n] pages of the kernel image on top. *)
Definition image_map (g : paging_info) (n : Z) : Z -> option xlat :=
  pages_over (window_map (info_hhdm_base g) 512) (info_kernelVirtBase g) (info_kernelPhysBase g) n.
Definition process_map (g : paging_info) (v : Z) : option xlat := image_map g (kernel_pages g) v.

(** The whole space: outside kernel code, the pages from [start] to [end_] at their
    own addresses on top. *)
Definition page_count (start end_ : Z) : Z := Z.max 0 ((end_ - start + 4095) / 4096).
Definition program_pages (inKernelCode : bool) (start end_ : Z) : Z :=
  if inKernelCode then 0 else page_count start end_.
Definition space_map (g : paging_info) (inKernelCode : bool) (start end_ : Z) : Z -> option xlat :=
  pages_over (process_map g) start start (program_pages inKernelCode start end_).

(** What the boot loader's layout must satisfy: aligned bases, no wrap-around,
    and the kernel image outside the windows. *)
Record layout_ok (g : paging_info) : Prop := {
  lay_hhdm : 0 <= info_hhdm_base g /\ info_hhdm_base g + 0x40000000 <= 2 ^ 64 /\
    info_hhdm_base g mod 0x40000000 = 0 /\ info_hhdm_base g / 0x200000 mod 2 ^ 27 <> 0;
  lay_virt : 0 <= info_kernelVirtBase g /\ info_kernelVirtBase g mod 4096 = 0 /\
    info_kernelVirtBase g + info_kernelSize g + 4096 <= 2 ^ 64;
  lay_phys : 0 <= info_kernelPhysBase g /\ info_kernelPhysBase g mod 4096 = 0 /\
    info_kernelPhysBase g + info_kernelSize g + 4096 <= 2 ^ 52;
  lay_size : 0 <= info_kernelSize g < 2 ^ 48;
  lay_apart v : page_off 0 (info_kernelVirtBase g) v < kernel_pages g ->
    ~ in_window (info_hhdm_base g) 512 v;
}.

(** What the range of a program must satisfy. *)
Record program_range (g : paging_info) (fuel : nat) (start end_ : Z) : Prop := {
  pr_start : 0 <= start < 2 ^ 48 /\ start mod 4096 = 0;
  pr_end : end_ + 4096 <= 2 ^ 48;
  pr_fuel : end_ - start <= 4096 * (Z.of_nat fuel - 1);
  pr_apart v : page_off 0 start v < page_count start end_ -> ~ in_window (info_hhdm_base g) 512 v;
}.

Lemma page_off_1 base v : page_off 1 base v = (v / 0x200000 - base / 0x200000) mod 134217728.
Proof. done. Qed.

Lemma windows_disjoint g v :
  layout_ok g -> 1 <= page_off 1 0 v < 512 -> 1 <= page_off 1 (info_hhdm_base g) v < 512 -> False.
Proof.
  intros [(H1 & _ & H2 & H3) _ _ _ _]. rewrite !page_off_1. change (2 ^ 27) with 134217728 in H3.
  assert (H4 : info_hhdm_base g / 0x200000 mod 512 = 0) by lia.
  change (0 / 0x200000) with 0. rewrite Z.sub_0_r.
  generalize dependent (info_hhdm_base g / 0x200000). generalize (v / 0x200000). clear.
  intros x y Hy Hy' Ha Hb. lia.
Qed.

Section Spec.
Context `{PSO : PageSourceOk}.

Section Pages.
Context (root virt phys n : Z) (user : bool) (under : Z -> option xlat) (big : Z -> bool) (s0 : machine).
Hypothesis virt_ok : 0 <= virt /\ virt mod 4096 = 0 /\ virt + 4096 * n <= 2 ^ 64.
Hypothesis phys_ok : 0 <= phys /\ phys mod 4096 = 0 /\ phys + 4096 * n <= 2 ^ 52.
Hypothesis count_ok : 0 <= n <= 2 ^ 36.
Hypothesis apart_ok : forall v, page_off 0 virt v < n -> big v = false.
Hypothesis pool_ok : 3 * n <= Z.of_nat (length (ps_pool s0)).

(** The state when [k] pages are mapped. *)
Definition pages_at (k : Z) (s : machine) : Prop :=
  evolve root (3 * k) s0 s /\ (forall v, translate (mem s) root v = pages_over under virt phys k v) /\
  (forall v, in_large (mem s) root v = big v).

Lemma page_step k s :
  0 <= k < n -> pages_at k s ->
  exists s', map_ root (virt + 4096 * k) (phys + 4096 * k) _4K user s = Ok tt s' /\ pages_at (k + 1) s'.
Proof using PSO virt_ok phys_ok count_ok apart_ok pool_ok.
  intros Hk (Hev & Htr & Hlg). destruct virt_ok as (Hv0 & Hv1 & Hv2). destruct phys_ok as (Hp0 & Hp1 & Hp2).
  pose proof (ev_inv _ _ _ _ Hev) as I0. pose proof (evolve_pool_length _ _ _ _ Hev) as P0.
  change (2 ^ 64) with 18446744073709551616 in *. change (2 ^ 52) with 4503599627370496 in *.
  change (2 ^ 36) with 68719476736 in *.
  assert (Hsk : forall v, same_page 0 v (virt + 4096 * k) <-> page_off 0 virt v = k).
  { intros v. apply (same_page_off 0 _ k v); [lia | done |].
    change (2 ^ (36 - 9 * Z.of_nat 0)) with 68719476736. lia. }
  destruct (map_4K_spec root s (virt + 4096 * k) (phys + 4096 * k) user I0)
    as (s1 & R1 & E1 & M1 & L1); [lia | lia | lia | change (2 ^ 52) with 4503599627370496; lia | |].
  { rewrite Hlg. apply apart_ok. rewrite (proj1 (Hsk _) eq_refl). lia. }
  exists s1. split; [unfold map_; by erewrite bind_Ok by exact R1|]. split_and!.
  - eapply evolve_weaken; [eapply evolve_trans; [exact Hev | exact E1]|]. lia.
  - intros v. rewrite M1, Htr. unfold pages_over.
    destruct (decide (same_page 0 v (virt + 4096 * k))) as [Hx|Hx]; rewrite Hsk in Hx.
    + rewrite decide_True by lia. change (page_len 0) with 4096 in *. do 2 f_equal. lia.
    + pose proof (page_off_range 0 virt v ltac:(lia)).
      repeat case_decide; try done; lia.
  - intros v. by rewrite L1, Hlg.
Qed.

(** A loop that maps them, one for each step of its counter. *)
Lemma map_pages_spec fuel from to body :
  n = page_count from to -> 0 <= from -> to + 4096 <= 2 ^ 64 -> to - from <= 4096 * (Z.of_nat fuel - 1) ->
  (forall k, 0 <= k < n -> body (from + 4096 * k) = map_ root (virt + 4096 * k) (phys + 4096 * k) _4K user) ->
  (0 < fuel)%nat -> tables_inv root s0 ->
  (forall v, translate (mem s0) root v = under v) -> (forall v, in_large (mem s0) root v = big v) ->
  exists s, for_loop fuel from to 4096 body s0 = Ok tt s /\ pages_at n s.
Proof using PSO virt_ok phys_ok count_ok apart_ok pool_ok.
  intros Hn Hfrom Hto Hfuel Hbody Hpos Hinv Htr Hlg.
  destruct (for_loop_inv (fun i => pages_at ((i - from) / 4096)) fuel from to 4096 body s0)
    as (j & s & Hrun & HP & H1 & H2 & H3 & H4); [lia | lia | done | done | | done | |].
  - intros j s Hj Hm HP. assert (Hk : 0 <= (j - from) / 4096 < n) by (unfold page_count in Hn; lia).
    specialize (Hbody _ Hk). replace (from + 4096 * ((j - from) / 4096)) with j in Hbody by lia.
    rewrite Hbody. replace ((j + 4096 - from) / 4096) with ((j - from) / 4096 + 1) by lia.
    by apply page_step.
  - rewrite Z.sub_diag. split_and!; [by apply evolve_refl | | done].
    intros v. rewrite Htr. unfold pages_over. pose proof (page_off_range 0 virt v ltac:(lia)).
    by rewrite decide_False by (change (0 / 4096) with 0; lia).
  - exists s. split; [exact Hrun|]. replace n with ((j - from) / 4096); [exact HP|].
    unfold page_count in Hn. lia.
Qed.
End Pages.

Section Windows.
Context (root : Z) (g : paging_info) (Hg : layout_ok g) (s0 : machine).

(** The state of the window loop at counter [i]. *)
Definition windows_at (i : Z) (s : machine) : Prop :=
  evolve root (4 * (i / 0x200000 - 1)) s0 s /\
  (forall v, translate (mem s) root v = window_map (info_hhdm_base g) (i / 0x200000) v) /\
  (forall v, in_large (mem s) root v =
     bool_decide (in_window (info_hhdm_base g) (i / 0x200000) v)).

Lemma window_step i s :
  0x200000 <= i < 0x40000000 -> (i - 0x200000) mod 0x200000 = 0 ->
  2044 <= Z.of_nat (length (ps_pool s0)) ->
  windows_at i s ->
  exists s', (map_ root i i _2M false;;
              map_ root (u64 (info_hhdm_base g + i)) i _2M false) s = Ok tt s' /\
    windows_at (i + 0x200000) s'.
Proof using PSO Hg.
  intros Hi Hal Hpool (Hev & Htr & Hlg).
  destruct (lay_hhdm g Hg) as (Hh0 & Hh1 & Hh2 & _). set (h := info_hhdm_base g) in *.
  set (k := i / 0x200000) in *. assert (Hik : i = page_len 1 * k)
    by (change (page_len 1) with 0x200000; lia).
  assert (Hk : 1 <= k < 512) by (change (page_len 1) with 0x200000 in Hik; lia).
  assert (Hk1 : (i + 0x200000) / 0x200000 = k + 1) by lia.
  pose proof (ev_inv _ _ _ _ Hev) as I0. pose proof (evolve_pool_length _ _ _ _ Hev) as P0.
  change (2 ^ 64) with 18446744073709551616 in *.
  rewrite u64_small by lia.
  destruct (map_2M_spec root s i i false I0) as (s1 & R1 & E1 & M1 & L1); [lia | lia |
    change (page_len 1) with 0x200000; lia | change (2 ^ 52) with 4503599627370496; lia |].
  pose proof (ev_inv _ _ _ _ E1) as I1. pose proof (evolve_pool_length _ _ _ _ E1) as P1.
  destruct (map_2M_spec root s1 (h + i) i false I1) as (s2 & R2 & E2 & M2 & L2); [lia | lia |
    change (page_len 1) with 0x200000; lia | change (2 ^ 52) with 4503599627370496; lia |].
  assert (HN : 0 <= k < 2 ^ (36 - 9 * Z.of_nat 1))
    by (change (2 ^ (36 - 9 * Z.of_nat 1)) with 134217728; lia).
  assert (Hs0 : forall v, same_page 1 v i <-> page_off 1 0 v = k).
  { intros v. rewrite Hik at 1. rewrite <- (same_page_off 1 0 k v); [done | lia | done | done]. }
  assert (Hsh : forall v, same_page 1 v (h + i) <-> page_off 1 h v = k).
  { intros v. rewrite Hik at 1. apply (same_page_off 1 h k v); [lia | | done].
    change (page_len 1) with 0x200000. lia. }
  exists s2. split.
  { unfold map_. erewrite bind_Ok by (erewrite bind_Ok by exact R1; reflexivity).
    erewrite bind_Ok by exact R2. done. }
  split_and!.
  - eapply evolve_weaken; [eapply evolve_trans; [exact Hev | eapply evolve_trans; eassumption]|].
    lia.
  - intros v. rewrite Hk1, M2, M1, Htr. unfold window_map. fold h.
    pose proof (windows_disjoint g v Hg) as Hdis. fold h in Hdis.
    change (page_len 1) with 0x200000.
    destruct (decide (same_page 1 v (h + i))) as [Hx|Hx]; rewrite Hsh in Hx;
      destruct (decide (same_page 1 v i)) as [Hy|Hy]; rewrite Hs0 in Hy.
    + exfalso. apply Hdis; lia.
    + rewrite decide_False by lia. rewrite decide_True by lia. do 2 f_equal.
      change (page_len 1) with 0x200000 in Hik. lia.
    + rewrite decide_True by lia. do 2 f_equal. change (page_len 1) with 0x200000 in Hik. lia.
    + repeat case_decide; try done; lia.
  - intros v. rewrite Hk1, L2, L1, Hlg. unfold in_window. fold h.
    destruct (decide (same_page 1 v (h + i))) as [Hx|Hx]; rewrite Hsh in Hx;
      [|destruct (decide (same_page 1 v i)) as [Hy|Hy]; rewrite Hs0 in Hy].
    + symmetry. apply bool_decide_eq_true_2. lia.
    + symmetry. apply bool_decide_eq_true_2. lia.
    + apply bool_decide_ext. lia.
Qed.

Lemma map_low_spec fuel :
  (512 <= fuel)%nat -> 2044 <= Z.of_nat (length (ps_pool s0)) -> tables_inv root s0 ->
  (forall v, translate (mem s0) root v = None) ->
  (forall v, in_large (mem s0) root v = false) ->
  exists s, map_low fuel root g s0 = Ok tt s /\ evolve root 2044 s0 s /\
    (forall v, translate (mem s) root v = window_map (info_hhdm_base g) 512 v) /\
    (forall v, in_large (mem s) root v = bool_decide (in_window (info_hhdm_base g) 512 v)).
Proof using PSO Hg.
  intros Hfuel Hpool Hinv Htr Hlg.
  destruct (for_loop_inv windows_at fuel 0x200000 0x40000000 0x200000
    (fun i => map_ root i i _2M false;; map_ root (u64 (info_hhdm_base g + i)) i _2M false) s0)
    as (j & s & Hrun & (Hev & Ht & Hl) & H1 & H2 & H3 & H4);
    [lia | lia | change (2 ^ 64) with 18446744073709551616; lia | lia | | lia | |].
  - intros j s Hj Hm HP. by apply window_step.
  - split_and!.
    + by apply evolve_refl.
    + intros v. rewrite Htr. unfold window_map. by rewrite !decide_False by lia.
    + intros v. rewrite Hlg. symmetry. apply bool_decide_eq_false_2. unfold in_window. lia.
  - exists s. assert (Hj : j / 0x200000 = 512) by lia. rewrite Hj in *.
    split_and!; [exact Hrun | | done | done]. eapply evolve_weaken; [exact Hev | lia].
Qed.

Lemma kernel_page_count : page_count 0 (info_kernelSize g) = kernel_pages g.
Proof using Hg. destruct (lay_size g Hg). unfold page_count, kernel_pages. lia. Qed.

Lemma map_kernel_spec fuel :
  (0 < fuel)%nat -> info_kernelSize g <= 4096 * (Z.of_nat fuel - 1) ->
  3 * kernel_pages g <= Z.of_nat (length (ps_pool s0)) -> tables_inv root s0 ->
  (forall v, translate (mem s0) root v = window_map (info_hhdm_base g) 512 v) ->
  (forall v, in_large (mem s0) root v = bool_decide (in_window (info_hhdm_base g) 512 v)) ->
  exists s, map_kernel fuel root g s0 = Ok tt s /\ evolve root (3 * kernel_pages g) s0 s /\
    (forall v, translate (mem s) root v = process_map g v) /\
    (forall v, in_large (mem s) root v = bool_decide (in_window (info_hhdm_base g) 512 v)).
Proof using PSO Hg.
  intros Hpos Hfuel Hpool Hinv Htr Hlg. destruct (lay_size g Hg) as (Hs0 & Hs1).
  destruct (lay_virt g Hg) as (Hv0 & Hv1 & Hv2). destruct (lay_phys g Hg) as (Hp0 & Hp1 & Hp2).
  change (2 ^ 64) with 18446744073709551616 in *. change (2 ^ 52) with 4503599627370496 in *.
  change (2 ^ 48) with 281474976710656 in *.
  apply (map_pages_spec root (info_kernelVirtBase g) (info_kernelPhysBase g) (kernel_pages g) false _ _ s0);
    try done; rewrite <- ?kernel_page_count; unfold page_count in *.
  1-3: change (2 ^ 64) with 18446744073709551616; change (2 ^ 52) with 4503599627370496; change (2 ^ 36) with 68719476736; lia.
  - intros v Hv. apply bool_decide_eq_false_2, (lay_apart g Hg). rewrite <- kernel_page_count. exact Hv.
  - reflexivity.
  - change (2 ^ 64) with 18446744073709551616. lia.
  - lia.
  - intros k Hk. rewrite Z.add_0_l, !u64_small by (change (2 ^ 64) with 18446744073709551616; lia). done.
Qed.

(** The pages of the program. *)
Lemma map_program_spec fuel inKernelCode start end_ :
  (inKernelCode = false -> program_range g fuel start end_) ->
  (0 < fuel)%nat -> 3 * program_pages inKernelCode start end_ <= Z.of_nat (length (ps_pool s0)) -> tables_inv root s0 ->
  (forall v, translate (mem s0) root v = process_map g v) ->
  (forall v, in_large (mem s0) root v = bool_decide (in_window (info_hhdm_base g) 512 v)) ->
  exists s, when (negb inKernelCode) (for_loop fuel start end_ 4096 (fun addr =>
      map_ root (u64 (addr + (if inKernelCode then info_kernelVirtBase g else 0))) addr _4K true)) s0 = Ok tt s /\
    evolve root (3 * program_pages inKernelCode start end_) s0 s /\
    (forall v, translate (mem s) root v = space_map g inKernelCode start end_ v).
Proof using PSO.
  intros Hr Hpos Hpool Hinv Htr Hlg. unfold space_map, program_pages in *. destruct inKernelCode; cbn [negb when].
  - exists s0. split_and!; [done | by apply evolve_refl |]. intros v. rewrite Htr. unfold pages_over.
    pose proof (page_off_range 0 start v ltac:(lia)). by rewrite decide_False by lia.
  - destruct (Hr eq_refl) as [(Hs0 & Hs1) He Hf Hap]. change (2 ^ 48) with 281474976710656 in *.
    destruct (map_pages_spec root start start (page_count start end_) true (process_map g)
      (fun v => bool_decide (in_window (info_hhdm_base g) 512 v)) s0) with
      (fuel := fuel) (from := start) (to := end_)
      (body := fun addr => map_ root (u64 (addr + 0)) addr _4K true) as (s & R & E & T & _); try done.
    1-3: unfold page_count; change (2 ^ 64) with 18446744073709551616; change (2 ^ 52) with 4503599627370496;
      change (2 ^ 36) with 68719476736; lia.
    + intros v Hv. by apply bool_decide_eq_false_2, Hap.
    + unfold page_count. lia.
    + change (2 ^ 64) with 18446744073709551616. lia.
    + intros k Hk. unfold page_count in Hk.
      rewrite Z.add_0_r, u64_small by (change (2 ^ 64) with 18446744073709551616; lia). done.
    + by exists s.
Qed.
End Windows.

(** The bytes the allocator owns or hands out. *)
Definition pool_byte (s : machine) (a : Z) : Prop :=
  ps_owned (alloc_g s) a \/ exists q, q ∈ ps_pool s /\ page_bytes q a.

(** Pages that the space of a process takes at most. *)
Definition space_budget (g : paging_info) (inKernelCode : bool) (start end_ : Z) : Z :=
  2045 + 3 * kernel_pages g + 3 * program_pages inKernelCode start end_.

Lemma space_budget_low g inKernelCode start end_ :
  layout_ok g -> 2045 <= space_budget g inKernelCode start end_.
Proof.
  intros Hg. destruct (lay_size g Hg). unfold space_budget, kernel_pages, program_pages, page_count.
  destruct inKernelCode; lia.
Qed.

Lemma process_space fuel start end_ inKernelCode s :
  let g := GlobalPagingInfo (paging_g s) in
  layout_ok g -> (inKernelCode = false -> program_range g fuel start end_) ->
  ps_inv s -> (forall q, q ∈ ps_pool s -> q < 2 ^ 40) ->
  (512 <= fuel)%nat -> info_kernelSize g <= 4096 * (Z.of_nat fuel - 1) ->
  space_budget g inKernelCode start end_ <= Z.of_nat (length (ps_pool s)) ->
  exists root s', CreateProcessPML4 fuel start end_ inKernelCode s = Ok root s' /\
    root ∈ ps_pool s /\ tables_inv root s' /\
    (forall v, translate (mem s') root v = space_map g inKernelCode start end_ v) /\
    same_regs s s' /\ same_on (fun a => ~ pool_byte s a) (mem s) (mem s') /\
    (exists gone, ps_pool s = gone ++ ps_pool s' /\
       Z.of_nat (length gone) <= space_budget g inKernelCode start end_) /\
    (forall a, paging_byte root s' a -> pool_byte s a).
Proof.
  intros g Hg Hr Hi Hlow Hfuel Hks Hpool. unfold space_budget in *.
  assert (Hkp : 0 <= kernel_pages g) by (destruct (lay_size g Hg); unfold kernel_pages; lia).
  assert (Hpp : 0 <= program_pages inKernelCode start end_)
    by (unfold program_pages, page_count; destruct inKernelCode; lia).
  destruct (ps_pool s) as [|root ps] eqn:Hps; [simpl in Hpool; lia|].
  destruct (ps_alloc s root ps Hi Hps) as (s1 & R1 & Hi1 & Hp1 & Hz & Hfr).
  destruct (fresh_tree s root ps s1 Hi Hps) as (I1 & T1 & L1 & B1); try done; [by rewrite Hps|].
  assert (Hlen : 2044 + 3 * kernel_pages g + 3 * program_pages inKernelCode start end_ <=
    Z.of_nat (length (ps_pool s1))) by (rewrite Hp1; simpl in Hpool; lia).
  destruct (map_low_spec root g Hg s1 fuel) as (s2 & R2 & E2 & T2 & L2); try done; [lia|].
  pose proof (evolve_pool_length _ _ _ _ E2) as P2.
  destruct (map_kernel_spec root g Hg s2 fuel) as (s3 & R3 & E3 & T3 & L3);
    [lia | done | lia | by apply (ev_inv _ _ _ _ E2) | done | done |].
  pose proof (evolve_pool_length _ _ _ _ E3) as P3'.
  destruct (map_program_spec root g s3 fuel inKernelCode start end_) as (s4 & R4 & E4 & T4);
    [done | lia | lia | by apply (ev_inv _ _ _ _ E3) | done | done |].
  pose proof (evolve_trans _ _ _ _ _ _ E2 (evolve_trans _ _ _ _ _ _ E3 E4)) as [I4 G4 (gone & P4 & Ln4) F4 B4].
  destruct Hfr as [G1 F1].
  exists root, s4. split_and!; try done.
  - unfold CreateProcessPML4. erewrite bind_Ok by exact R1. cbv beta.
    erewrite bind_Ok by reflexivity. cbv beta zeta.
    assert (GlobalPagingInfo (paging_g s1) = g) as -> by (by rewrite G1).
    erewrite bind_Ok by exact R2. erewrite bind_Ok by exact R3. by erewrite bind_Ok by exact R4.
  - left.
  - by eapply same_regs_trans.
  - unfold pool_byte. rewrite Hps. intros a Ha. rewrite (F4 a).
    + apply F1. split; intros Hx; apply Ha; [right; exists root; split; [left | done] | by left].
    + intros Hb%B1. apply Ha. destruct Hb as [? | (q & Hq & ?)]; [by left | right].
      exists q. by rewrite <- Hps.
  - exists (root :: gone). cbn [app length]. rewrite <- P4, Hp1. split; [done | lia].
  - intros a Ha. by apply B1, B4.
Qed.

(** C10. [CreateProcessPML4]: given enough free pages below 1 TiB it returns the root
    of a well-formed tree whose translation is exactly the intended one - for a
    program outside the kernel its pages at their own addresses, the kernel image at
    its virtual base, 2 MiB to 1 GiB at its own address and at [hhdm_base], and
    nothing else; it changes nothing but free pages and the allocator's data. *)
Theorem CreateProcessPML4_maps fuel start end_ inKernelCode s :
  let g := GlobalPagingInfo (paging_g s) in
  layout_ok g -> (inKernelCode = false -> program_range g fuel start end_) ->
  ps_inv s -> (forall q, q ∈ ps_pool s -> q < 2 ^ 40) ->
  (512 <= fuel)%nat -> info_kernelSize g <= 4096 * (Z.of_nat fuel - 1) ->
  space_budget g inKernelCode start end_ <= Z.of_nat (length (ps_pool s)) ->
  exists root s', CreateProcessPML4 fuel start end_ inKernelCode s = Ok root s' /\
    root ∈ ps_pool s /\ tables_inv root s' /\
    (forall v, translate (mem s') root v = space_map g inKernelCode start end_ v) /\
    same_regs s s' /\ same_on (fun a => ~ pool_byte s a) (mem s) (mem s').
Proof.
  intros g Hg Hr Hi Hlow Hfuel Hks Hpool.
  destruct (process_space fuel start end_ inKernelCode s) as (root & s' & ? & ? & ? & ? & ? & ? & _); try done.
  by exists root, s'.
Qed.
End Spec.
