(* ===== verification/PagingWitness.v ===== *)
(** Concrete instances of the paging theorems: a machine with one usable region
    of 2200 pages at 1 MiB, a layout like the boot loader's, and a new tree. *)
From S2P Require Import Prelude Memory Machine PageSource FrameAlloc Bitfield.
From S2P Require Import PageWalk Paging PagingSpec AddressSpace.

Definition roomy_info : paging_info :=
  PagingInfo [] 0xffff800000000000 0x2000 0x7e000000 0xffffffff80000000 0 0.
Definition roomy_map : list limine_memmap_entry := [MemmapEntry 0x100000 0x898000 0].

Lemma roomy_geometry : geometry_ok (region_globals (largest_entry roomy_map)).
Proof. split; vm_compute; congruence. Qed.

(** A machine whose pool has 2200 pages, all low. *)
Lemma roomy :
  exists s p ps, table_ok s /\ pool s = p :: ps /\ length ps = 2199%nat /\
    (forall q, q ∈ pool s -> 0x109000 <= q < 2 ^ 40) /\
    GlobalPagingInfo (paging_g s) = roomy_info /\
    alloc_g s = region_globals (largest_entry roomy_map) /\
    (forall q, q ∈ pool s -> q < 0x9a2000) /\
    (forall a, ~ within a 0x100000 35200 -> rd (mem s) a = 0).
Proof.
  destruct (InitializeAllocator_run roomy_map blank _ eq_refl)
    as (s & _ & Hok & Hg & Hp & Hm); [by vm_compute | apply roomy_geometry |].
  assert (Hlen : length (pool s) = 2200%nat)
    by (rewrite Hp, length_fmap, length_seqZ; by vm_compute).
  assert (Hlow : forall q, q ∈ pool s -> 0x109000 <= q < 0x9a2000).
  { rewrite Hp. intros q (j & -> & Hj)%list_elem_of_fmap. apply elem_of_seqZ in Hj.
    assert (Hn : nframes (region_globals (largest_entry roomy_map)) = 2200) by by vm_compute.
    assert (Hb : frames_base (region_globals (largest_entry roomy_map)) = 0x109000) by by vm_compute.
    unfold frame_addr. rewrite Hb. lia. }
  set (s' := with_paging s (PagingGlobals 0 roomy_info)).
  destruct (table_stable s s') as [Hok' Hp']; [done | done | done |].
  destruct (pool s) as [|p ps] eqn:Hps; [done|].
  exists s', p, ps. split_and!; [done | done | simpl in Hlen; lia | | done | done | |].
  - intros q Hq. rewrite Hp' in Hq. apply Hlow in Hq. change (2 ^ 40) with 1099511627776. lia.
  - intros q Hq. rewrite Hp' in Hq. apply Hlow in Hq. lia.
  - intros a Ha. cbn [mem with_paging s']. rewrite Hm; [done|]. intros Ht. apply Ha.
    unfold table_bytes in Ht. replace (sizeof_Page * nframes _) with 35200 in Ht by by vm_compute.
    exact Ht.
Qed.

(** A new tree: a machine [s1] right after [PageAlloc] returned [root]. *)
Lemma new_tree :
  exists s1 root ps, tables_inv root s1 /\ pool s1 = ps /\ length ps = 2199%nat /\
    (forall v, translate (mem s1) root v = None) /\
    (forall v, in_large (mem s1) root v = false) /\
    alloc_g s1 = region_globals (largest_entry roomy_map).
Proof.
  destruct roomy as (s & root & ps & Hok & Hp & Hlen & Hlow & _ & Hg & _).
  destruct (frame_alloc_law s root ps Hok Hp) as (s1 & _ & Hok1 & Hp1 & Hz & Hfr).
  destruct (@fresh_tree _ frame_source_ok s root ps s1 Hok Hp) as (I1 & T1 & L1 & _); try done.
  { intros q Hq. apply Hlow, Hq. }
  exists s1, root, ps. split_and!; try done. by rewrite (same_regs_alloc _ _ (proj1 Hfr)).
Qed.

(** In the witnesses the allocator is [FrameAlloc]. *)
Ltac roomy_pool Hp Hlen :=
  cbn [ps_pool frame_source_ok]; rewrite Hp, Hlen; lia.

Lemma MapMemory_4K_maps_witness :
  exists s root s', MapMemory root 0x400000 0x700000 _4K true s = Ok KSTATUS_SUCCESS s' /\
    translate (mem s') root 0x400123 = Some (Xlat 0x700123 true false).
Proof.
  destruct new_tree as (s1 & root & ps & Hinv & Hp & Hlen & Ht & Hl & _).
  destruct (MapMemory_4K_maps root s1 0x400000 0x700000 true Hinv) as (s' & Hrun & _ & _ & _ & Hm).
  - roomy_pool Hp Hlen.
  - reflexivity.
  - reflexivity.
  - vm_compute; split; congruence.
  - apply Hl.
  - exists s1, root, s'. split; [exact Hrun|]. rewrite Hm.
    rewrite decide_True by reflexivity. reflexivity.
Defined.

Lemma MapMemory_2M_maps_witness :
  exists s root s', MapMemory root 0x400000 0x600000 _2M false s = Ok KSTATUS_SUCCESS s' /\
    translate (mem s') root 0x456789 = Some (Xlat 0x656789 true false).
Proof.
  destruct new_tree as (s1 & root & ps & Hinv & Hp & Hlen & Ht & Hl & _).
  destruct (MapMemory_2M_maps root s1 0x400000 0x600000 false Hinv) as (s' & Hrun & _ & _ & _ & Hm).
  - roomy_pool Hp Hlen.
  - reflexivity.
  - reflexivity.
  - vm_compute; split; congruence.
  - exists s1, root, s'. split; [exact Hrun|]. rewrite Hm.
    rewrite decide_True by reflexivity. reflexivity.
Defined.

Lemma user_pages_inaccessible_witness :
  exists s root v x, translate (mem s) root v = Some x /\ x_user x = false.
Proof.
  destruct roomy as (s & root & ps & Hok & Hp & Hlen & Hlow & _ & Hg & _).
  destruct (frame_alloc_law s root ps Hok Hp) as (s1 & R1 & Hok1 & Hp1 & Hz & Hfr).
  destruct (@fresh_tree _ frame_source_ok s root ps s1 Hok Hp) as (I1 & T1 & L1 & _); try done.
  { intros q Hq. apply Hlow, Hq. }
  destruct (@map_4K_spec _ frame_source_ok root s1 0x400000 0x700000 true I1)
    as (s2 & R2 & _ & M2 & _).
  { cbn [ps_pool frame_source_ok]. rewrite Hp1, Hlen. lia. }
  { reflexivity. } { reflexivity. } { vm_compute; split; congruence. } { apply L1. }
  assert (Hx : translate (mem s2) root 0x400123 = Some (Xlat 0x700123 true false)).
  { rewrite M2. rewrite decide_True by reflexivity. reflexivity. }
  exists s2, root, 0x400123, (Xlat 0x700123 true false). split; [exact Hx|].
  apply (@user_pages_inaccessible _ frame_source_ok s root ps s1 s2 0x400123
           (Xlat 0x700123 true false) Hok Hp).
  - intros q Hq. apply Hlow, Hq.
  - exact R1.
  - apply rtc_once. eapply (step_map_4K root s1 s2 0x400000 0x700000 true KSTATUS_SUCCESS).
    + cbn [ps_pool frame_source_ok]. rewrite Hp1, Hlen. lia.
    + reflexivity.
    + reflexivity.
    + vm_compute; split; congruence.
    + apply L1.
    + exact R2.
  - exact Hx.
Defined.

(** Nothing the allocator knows of reaches 0x9a2000. *)
Lemma roomy_paging_byte root s a :
  tables_inv root s -> alloc_g s = region_globals (largest_entry roomy_map) ->
  paging_byte root s a -> a < 0x9a2000.
Proof.
  intros Hinv Hg Ha.
  assert (Hm : forall q, managed (alloc_g s) q -> q + PAGE <= 0x9a2000).
  { rewrite Hg. intros q (j & Hj & ->).
    assert (Hn : nframes (region_globals (largest_entry roomy_map)) = 2200) by by vm_compute.
    assert (Hb : frames_base (region_globals (largest_entry roomy_map)) = 0x109000) by by vm_compute.
    unfold frame_addr. lia. }
  destruct Ha as [Ho | [(q & Hq & Ha) | (p & t & Hp & Ht & Ha)]].
  - cbn [ps_owned frame_source_ok] in Ho. rewrite Hg in Ho. unfold table_bytes, within in Ho.
    assert (Hn : nframes (region_globals (largest_entry roomy_map)) = 2200) by by vm_compute.
    assert (Hf : FrameList (region_globals (largest_entry roomy_map)) = 0x100000) by by vm_compute.
    rewrite Hn, Hf in Ho. unfold sizeof_Page in Ho. lia.
  - assert (Hq' : managed (alloc_g s) q)
      by (apply (@ps_pool_managed _ frame_source_ok s q (ti_src _ _ Hinv) Hq)).
    apply Hm in Hq'. unfold page_bytes, within in Ha. lia.
  - destruct (ti_tab _ _ Hinv p t Hp Ht) as (Ht' & _). apply Hm in Ht'.
    unfold page_bytes, within in Ha. lia.
Qed.

(** The page at 1 GiB mapped large, then a small page asked for inside it. *)
Lemma large_mapped :
  exists s root pd, tables_inv root s /\ table_at (mem s) root (tpath 2 0x40005000) = Some pd /\
    let e := ent (mem s) pd (idx 1 0x40005000) in
    absent e = false /\ large e = true /\ 0x40000000 <= frame e < 0x40200000 /\
    (forall a, page_bytes (frame e) a -> ~ paging_byte root s a) /\
    translate (mem s) root 0x40005000 = Some (Xlat 0x40005000 true false).
Proof.
  destruct new_tree as (s1 & root & ps & Hinv & Hp & Hlen & Ht & Hl & Hg).
  destruct (@map_2M_spec _ frame_source_ok root s1 0x40000000 0x40000000 false Hinv)
    as (s2 & _ & [Hinv2 Hr2 _ _ _] & Hm & Hlg).
  { roomy_pool Hp Hlen. } { reflexivity. } { reflexivity. } { vm_compute; split; congruence. }
  specialize (Hm 0x40005000). specialize (Hlg 0x40005000).
  rewrite decide_True in Hm by reflexivity. rewrite decide_True in Hlg by reflexivity.
  unfold in_large in Hlg.
  destruct (table_at (mem s2) root (tpath 2 0x40005000)) as [pd|] eqn:Hpd; [|done].
  apply andb_true_iff in Hlg as [Ha Hb]. apply negb_true_iff in Ha.
  assert (Hf : frame (ent (mem s2) pd (idx 1 0x40005000)) / 0x200000 = 0x200).
  { rewrite (walk_down root s2 1 0x40005000 pd Hinv2 ltac:(lia) Hpd) in Hm. cbn [walk] in Hm.
    rewrite Ha, Hb in Hm. injection Hm as Hm _. unfold leaf_phys in Hm.
    change (page_len 1) with 0x200000 in Hm. lia. }
  exists s2, root, pd. cbn zeta. split_and!; try done; try lia.
  intros a Hpg Hx. apply roomy_paging_byte in Hx; [|done|by rewrite (same_regs_alloc _ _ Hr2)].
  unfold page_bytes, within in Hpg. lia.
Qed.

Lemma map_4K_inside_2M_witness :
  exists s root s', MapMemory root 0x40005000 0x700000 _4K false s = Ok KSTATUS_SUCCESS s' /\
    translate (mem s') root 0x40005000 = Some (Xlat 0x40005000 true false).
Proof.
  destruct large_mapped as (s & root & pd & Hinv & Hpd & Ha & Hb & Hf & Hout & Ht).
  destruct (map_4K_inside_2M root s 0x40005000 0x700000 false pd _ Hinv eq_refl eq_refl
    ltac:(vm_compute; split; congruence) Hpd Ha Hb eq_refl) as (s' & Hrun & _ & Htr & _).
  - lia.
  - change (2 ^ 40) with 1099511627776. lia.
  - exact Hout.
  - exists s, root, s'. split; [exact Hrun|]. rewrite Htr. exact Ht.
Defined.

Lemma roomy_layout : layout_ok roomy_info.
Proof.
  split.
  1-3: vm_compute; split_and!; congruence.
  { vm_compute; split; congruence. }
  intros v. change (kernel_pages roomy_info) with 2. unfold in_window, page_off.
  cbn [info_kernelVirtBase info_hhdm_base roomy_info].
  change (page_len 0) with 4096. change (page_len 1) with (4096 * 512).
  change (2 ^ (36 - 9 * Z.of_nat 0)) with 68719476736.
  change (2 ^ (36 - 9 * Z.of_nat 1)) with 134217728.
  rewrite <- Z.div_div by lia. change (0 / (4096 * 512)) with 0.
  change (0xffffffff80000000 / 4096) with 0xffffffff80000.
  change (0xffff800000000000 / (4096 * 512)) with 0x7fffc000000.
  generalize (v / 4096). intros x. lia.
Qed.

(** A program of two pages at 1 GiB. *)
Lemma roomy_range fuel : (512 <= fuel)%nat -> program_range roomy_info fuel 0x40000000 0x40001800.
Proof.
  intros Hf. split.
  - vm_compute. split_and!; congruence.
  - vm_compute. congruence.
  - lia.
  - intros v. change (page_count 0x40000000 0x40001800) with 2. unfold in_window, page_off.
    cbn [info_hhdm_base roomy_info].
    change (page_len 0) with 4096. change (page_len 1) with (4096 * 512).
    change (2 ^ (36 - 9 * Z.of_nat 0)) with 68719476736.
    change (2 ^ (36 - 9 * Z.of_nat 1)) with 134217728.
    rewrite <- Z.div_div by lia. change (0 / (4096 * 512)) with 0.
    change (0x40000000 / 4096) with 0x40000.
    change (0xffff800000000000 / (4096 * 512)) with 0x7fffc000000.
    generalize (v / 4096). intros x. lia.
Qed.

Lemma CreateProcessPML4_maps_witness :
  exists s root s', CreateProcessPML4 512 0x40000000 0x40001800 false s = Ok root s' /\
    translate (mem s') root 0xffffffff80001234 = Some (Xlat 0x7e001234 true false) /\
    translate (mem s') root 0x40001234 = Some (Xlat 0x40001234 true false).
Proof.
  destruct roomy as (s & root & ps & Hok & Hp & Hlen & Hlow & Hi & Hg & _).
  destruct (@CreateProcessPML4_maps _ frame_source_ok 512 0x40000000 0x40001800 false s)
    as (r & s' & Hrun & _ & _ & Ht & _).
  - rewrite Hi. exact roomy_layout.
  - intros _. rewrite Hi. apply roomy_range. lia.
  - exact Hok.
  - intros q Hq. apply Hlow, Hq.
  - lia.
  - rewrite Hi. vm_compute; congruence.
  - rewrite Hi. cbn [ps_pool frame_source_ok]. rewrite Hp. cbn [length]. rewrite Hlen.
    vm_compute; congruence.
  - exists s, r, s'. split; [exact Hrun|]. rewrite !Ht, Hi. split; vm_compute; reflexivity.
Defined.
