(* ===== verification/MapRequests.v ===== *)
(** Sequences of calls of [map] (mm/paging/paging.c) as data: a list of requests,
    the translation a list describes ([mapped_by]), the requests that take effect
    ([effective]: a 4 KiB page inside a 2 MiB page does not, it overwrites the
    mapped memory instead), the tables they need ([paths_of]), the theorem that
    running the list builds that translation out of those tables
    ([run_requests_spec]), and counting loops as such lists
    ([for_loop_requests]). *)
From S2P Require Import Prelude Memory Machine PageSource FrameAlloc Bitfield PageWalk Paging PagingSpec AddressSpace.

(** ** Requests *)

Record request := Request { rq_virt : Z; rq_phys : Z; rq_size : PageSizes }.

Definition level (r : request) : nat := match rq_size r with _4K => 0 | _2M => 1 end.
Definition covers (r : request) (v : Z) : Prop := same_page (level r) v (rq_virt r).
#[export] Instance covers_dec r v : Decision (covers r v).
Proof. unfold covers. apply _. Defined.
Definition target (r : request) (v : Z) : xlat := Xlat (rq_phys r + v mod page_len (level r)) true false.

(** What the requests translate an address to: the last one that covers it. *)
Fixpoint mapped_by (rs : list request) (v : Z) : option xlat :=
  match rs with
  | [] => None
  | r :: rs =>
      match mapped_by rs v with
      | Some x => Some x
      | None => if decide (covers r v) then Some (target r v) else None
      end
  end.
Definition large_by (rs : list request) (v : Z) : bool :=
  existsb (fun r => bool_decide (rq_size r = _2M /\ covers r v)) rs.

Record request_ok (r : request) : Prop := {
  ro_virt : rq_virt r mod 4096 = 0;
  ro_phys : rq_phys r mod page_len (level r) = 0;
  ro_range : 0 <= rq_phys r < 2 ^ 52;
}.

(** A 4 KiB page inside a 2 MiB page asked for before. *)
Definition stray (old : list request) (r : request) : bool :=
  match rq_size r with _4K => large_by old (rq_virt r) | _2M => false end.
Fixpoint effective (old rs : list request) : list request :=
  match rs with
  | [] => old
  | r :: rs => effective (if stray old r then old else old ++ [r]) rs
  end.

(** Requests for 4 KiB pages inside 2 MiB pages overwrite only memory of
    [scratch]. *)
Record requests_ok (scratch : Z -> Prop) (rs : list request) : Prop := {
  ok_each r : r ∈ rs -> request_ok r;
  ok_scratch r q a : r ∈ rs -> q ∈ rs -> rq_size r = _4K -> large_by rs (rq_virt r) = true ->
    covers q (rq_virt r) -> a / 0x200000 = x_phys (target q (rq_virt r)) / 0x200000 -> scratch a;
}.

Lemma mapped_by_app l1 l2 v :
  mapped_by (l1 ++ l2) v = match mapped_by l2 v with Some x => Some x | None => mapped_by l1 v end.
Proof.
  induction l1 as [|r l1 IH]; cbn [app mapped_by]; [by destruct (mapped_by l2 v)|].
  rewrite IH. by destruct (mapped_by l2 v).
Qed.

Lemma mapped_by_snoc l r v :
  mapped_by (l ++ [r]) v = if decide (covers r v) then Some (target r v) else mapped_by l v.
Proof. rewrite mapped_by_app. cbn [mapped_by]. by destruct (decide (covers r v)). Qed.

Lemma large_by_app l1 l2 v : large_by (l1 ++ l2) v = large_by l1 v || large_by l2 v.
Proof. unfold large_by. apply existsb_app. Qed.

Lemma large_by_false l v :
  (forall r, r ∈ l -> rq_size r = _2M -> ~ covers r v) -> large_by l v = false.
Proof.
  intros Hl. unfold large_by. destruct (existsb _ l) eqn:E; [|done].
  apply existsb_exists in E as (r & Hr & Hd). apply bool_decide_eq_true_1 in Hd as [Hs Hc].
  exfalso. apply (Hl r); [by apply list_elem_of_In | done | done].
Qed.

Lemma large_by_true l v : large_by l v = true <-> exists r, r ∈ l /\ rq_size r = _2M /\ covers r v.
Proof.
  unfold large_by. rewrite existsb_exists. split; intros (r & Hr & Hd); exists r.
  - split; [by apply list_elem_of_In | by apply bool_decide_eq_true_1 in Hd].
  - split; [by apply list_elem_of_In | by apply bool_decide_eq_true_2].
Qed.
Lemma large_by_mono l l' v : (forall r, r ∈ l -> r ∈ l') -> large_by l v = true -> large_by l' v = true.
Proof. rewrite !large_by_true. intros Hl (r & Hr & Hd). exists r. auto. Qed.

Lemma effective_old rs : forall old, exists l, effective old rs = old ++ l.
Proof.
  induction rs as [|r rs IH]; intros old; cbn [effective]; [exists []; by rewrite app_nil_r|].
  destruct (stray old r); [apply IH|]. destruct (IH (old ++ [r])) as [l ->].
  exists (r :: l). by rewrite <- app_assoc.
Qed.
Lemma effective_sub rs : forall old r, r ∈ effective old rs -> r ∈ old \/ r ∈ rs.
Proof.
  induction rs as [|q rs IH]; intros old r Hr; cbn [effective] in Hr; [by left|].
  rewrite elem_of_cons. apply IH in Hr as [Hr|Hr]; [|by auto].
  destruct (stray old q); [by left|]. rewrite elem_of_app, list_elem_of_singleton in Hr. tauto.
Qed.

Lemma same_page_up v w : same_page 0 v w -> same_page 1 v w.
Proof. rewrite same_page_0, same_page_1. change (tpath 3 ?x) with (idx 1 x :: tpath 2 x). intros [_ H]%cons_split. exact H. Qed.

(** Requests that take no effect lie in pages of requests that do. *)
Lemma effective_covers rs : forall old v,
  (exists r, (r ∈ old \/ r ∈ rs) /\ covers r v) -> exists r, r ∈ effective old rs /\ covers r v.
Proof.
  induction rs as [|q rs IH]; intros old v (r & Hr & Hc); cbn [effective].
  { destruct Hr as [Hr|Hr%not_elem_of_nil]; [by exists r | done]. }
  apply IH. rewrite elem_of_cons in Hr. destruct (stray old q) eqn:Hs.
  - destruct Hr as [Hr|[->|Hr]]; [by exists r; auto | | by exists r; auto].
    unfold stray in Hs. destruct (rq_size q) eqn:Hz; [|done].
    apply large_by_true in Hs as (p & Hp & Hz' & Hc'). exists p. split; [by left|].
    unfold covers, level in *. rewrite Hz in Hc. rewrite Hz' in *.
    apply same_page_up in Hc. unfold same_page in *. congruence.
  - exists r. rewrite elem_of_app, list_elem_of_singleton. tauto.
Qed.

Lemma mapped_by_none rs v : (forall r, r ∈ rs -> ~ covers r v) -> mapped_by rs v = None.
Proof.
  induction rs as [|r rs IH]; intros Hall; [done|]. cbn [mapped_by].
  rewrite IH by (intros q Hq; apply Hall; by right). rewrite decide_False; [done|]. apply Hall. left.
Qed.

Lemma mapped_by_some rs v : (exists r, r ∈ rs /\ covers r v) ->
  exists r, r ∈ rs /\ covers r v /\ mapped_by rs v = Some (target r v).
Proof.
  induction rs as [|r rs IH]; intros (q & Hq & Hc); [by apply not_elem_of_nil in Hq|].
  cbn [mapped_by]. destruct (decide (Exists (fun r => covers r v) rs)) as [Hx|Hx].
  - apply Exists_exists in Hx. destruct (IH Hx) as (p & Hp & Hcp & ->). exists p. split; [by right | done].
  - apply elem_of_cons in Hq as [->|Hq]; [|by exfalso; apply Hx, Exists_exists; exists q].
    exists r. split; [left|]. split; [done|]. rewrite decide_True by done.
    rewrite mapped_by_none; [done|]. intros p Hp Hcp. by apply Hx, Exists_exists; exists p.
Qed.

(** A value all covering requests agree on. *)
Lemma mapped_by_agree rs v x :
  (forall r, r ∈ rs -> covers r v -> target r v = x) -> (exists r, r ∈ rs /\ covers r v) ->
  mapped_by rs v = Some x.
Proof. intros Hall (r & Hr & Hc & ->)%mapped_by_some. f_equal. by apply Hall. Qed.

(** The same for the requests that take effect. *)
Lemma effective_agree rs v x :
  (forall r, r ∈ rs -> covers r v -> target r v = x) -> (exists r, r ∈ rs /\ covers r v) ->
  mapped_by (effective [] rs) v = Some x.
Proof.
  intros Hall (r & Hr & Hc). apply mapped_by_agree.
  - intros q [Hq%not_elem_of_nil|Hq]%effective_sub; [done | by apply Hall].
  - apply effective_covers. exists r. auto.
Qed.
Lemma effective_none rs v : (forall r, r ∈ rs -> ~ covers r v) -> mapped_by (effective [] rs) v = None.
Proof.
  intros Hall. apply mapped_by_none. intros q [Hq%not_elem_of_nil|Hq]%effective_sub; [done | by apply Hall].
Qed.

(** The tables the requests need. *)
Definition paths_of (rs : list request) : gset (list Z) :=
  list_to_set (rs ≫= fun r => tables_of (level r) (rq_virt r)).

Lemma paths_of_snoc rs r : paths_of (rs ++ [r]) = paths_of rs ∪ list_to_set (tables_of (level r) (rq_virt r)).
Proof. unfold paths_of. rewrite bind_app, list_to_set_app_L. cbn [mbind list_bind]. by rewrite app_nil_r. Qed.
Lemma paths_of_mono l1 l2 : paths_of l1 ⊆ paths_of (l1 ++ l2).
Proof. unfold paths_of. rewrite bind_app, list_to_set_app_L. set_solver. Qed.

Lemma tables_of_spec l v p : p ∈ tables_of l v <->
  p = tpath 1 v \/ p = tpath 2 v \/ (l = 0%nat /\ p = tpath 3 v).
Proof.
  unfold tables_of. destruct l; rewrite !elem_of_cons, elem_of_nil; [intuition|].
  split; [by intuition | intros [?|[?|[? _]]]; [by auto | by auto | done]].
Qed.
Lemma tables_of_vpath l v p : p ∈ tables_of l v -> vpath p.
Proof. intros [->|[->|[_ ->]]]%tables_of_spec; apply tpath_vpath; lia. Qed.
Lemma tables_of_nodup l v : NoDup (tables_of l v).
Proof.
  apply (NoDup_fmap_1 length). destruct l; cbn; rewrite !NoDup_cons, !elem_of_cons, !elem_of_nil;
    (split_and!; try apply NoDup_nil_2; try (by intros []); intuition lia).
Qed.
Lemma paths_of_vpath rs p : p ∈ paths_of rs -> vpath p.
Proof.
  unfold paths_of. rewrite elem_of_list_to_set, list_elem_of_bind.
  intros (r & Hp & _). by eapply tables_of_vpath.
Qed.

(** Missing tables are among the new ones. *)
Lemma cost_size m root ps : forall X : gset (list Z),
  NoDup ps -> (forall p, p ∈ ps -> p ∈ X -> missing m root p = 0) ->
  cost m root ps <= Z.of_nat (size (X ∪ list_to_set ps)) - Z.of_nat (size X).
Proof.
  unfold cost. induction ps as [|p ps IH]; intros X Hnd Hx; cbn [foldr list_to_set].
  { rewrite union_empty_r_L. lia. }
  apply NoDup_cons in Hnd as [Hp Hnd]. destruct (decide (p ∈ X)) as [Hin|Hin].
  - rewrite (Hx p) by (left || done). replace (X ∪ ({[p]} ∪ list_to_set ps)) with (X ∪ list_to_set ps) by set_solver.
    rewrite Z.add_0_l. apply IH; [done|]. intros q Hq. apply Hx. by right.
  - pose proof (missing_range m root p). rewrite union_assoc_L.
    pose proof (IH (X ∪ {[p]}) Hnd) as Hs. rewrite (size_union X {[p]}), size_singleton in Hs by set_solver.
    assert (forall q, q ∈ ps -> q ∈ X ∪ {[p]} -> missing m root q = 0) as Hq; [|specialize (Hs Hq); lia].
    intros q Hq [HqX|Heq]%elem_of_union; [apply Hx; [by right | done]|].
    apply elem_of_singleton in Heq as ->. done.
Qed.

Lemma in_large_same m root v w : idx 1 v :: tpath 2 v = idx 1 w :: tpath 2 w -> in_large m root v = in_large m root w.
Proof.
  intros [H1 H2]%cons_split.
  unfold in_large. by rewrite H1, H2.
Qed.

Section Run.
Context `{PSO : PageSourceOk}.

Fixpoint run_requests (root : Z) (rs : list request) : M unit :=
  match rs with
  | [] => ret tt
  | r :: rs => map_ root (rq_virt r) (rq_phys r) (rq_size r) false;; run_requests root rs
  end.

Lemma run_requests_app root l1 l2 s :
  run_requests root (l1 ++ l2) s = (run_requests root l1;; run_requests root l2) s.
Proof using.
  revert s. induction l1 as [|r l1 IH]; intros s; [done|]. cbn [app run_requests].
  rewrite bind_assoc. unfold bind in IH |- *.
  destruct (map_ _ _ _ _ _ s) as [a s1|s1|p s1|]; [by rewrite IH | done | done | done].
Qed.

(** The tree translates what the requests say, and has the tables they need
    but for those a 2 MiB page took the place of. *)
Record follows (root : Z) (done_ : list request) (s : machine) : Prop := {
  fo_inv : tables_inv root s;
  fo_map v : translate (mem s) root v = mapped_by done_ v;
  fo_large v : in_large (mem s) root v = large_by done_ v;
  fo_path p : p ∈ paths_of done_ ->
    is_Some (table_at (mem s) root p) \/ exists v, p = tpath 3 v /\ large_by done_ v = true;
}.

(** The tables the requests add. *)
Definition needs (done_ rs : list request) : Z :=
  Z.of_nat (size (paths_of (effective done_ rs))) - Z.of_nat (size (paths_of done_)).

Lemma needs_range done_ rs : 0 <= needs done_ rs.
Proof using.
  unfold needs. destruct (effective_old rs done_) as [l ->].
  pose proof (subseteq_size _ _ (paths_of_mono done_ l)). lia.
Qed.
Lemma needs_cons done_ r rs :
  needs done_ (r :: rs) = needs done_ [r] + needs (if stray done_ r then done_ else done_ ++ [r]) rs /\
  0 <= needs (if stray done_ r then done_ else done_ ++ [r]) rs.
Proof using. split; [|apply needs_range]. unfold needs. cbn [effective]. lia. Qed.

Lemma follows_cost root done_ r s :
  follows root done_ s -> (rq_size r = _4K -> large_by done_ (rq_virt r) = false) ->
  cost (mem s) root (tables_of (level r) (rq_virt r)) <= needs done_ [r].
Proof using All.
  intros [_ _ L P] Hl. unfold needs. cbn [effective].
  assert (stray done_ r = false) as -> by (unfold stray; destruct (rq_size r); [by apply Hl | done]).
  rewrite paths_of_snoc. apply cost_size; [apply tables_of_nodup|].
  intros p Hp Hd. unfold missing. destruct (P p Hd) as [[t ->]|(v & -> & Hv)]; [done|]. exfalso.
  apply tables_of_spec in Hp as [Hx|[Hx|[Hlev Hx]]];
    [by apply (f_equal length) in Hx; rewrite !tpath_length in Hx..|].
  unfold level in Hlev. destruct (rq_size r); [|done].
  rewrite <- L in Hv, Hl. rewrite (in_large_same _ _ _ _ Hx), Hl in Hv by done. done.
Qed.

(** What a sequence of requests may change: as [evolve], and [scratch]. *)
Record progress (scratch : Z -> Prop) (root k : Z) (s s' : machine) : Prop := {
  pg_regs : same_regs s s';
  pg_pool : exists gone, ps_pool s = gone ++ ps_pool s' /\ Z.of_nat (length gone) <= k;
  pg_frame : same_on (fun a => ~ paging_byte root s a /\ ~ scratch a) (mem s) (mem s');
  pg_bytes a : paging_byte root s' a -> paging_byte root s a;
}.

Lemma progress_evolve scratch root k s s' : evolve root k s s' -> progress scratch root k s s'.
Proof using. intros [_ R P F B]. split; try done. eapply same_on_weaken; [exact F | tauto]. Qed.

Lemma progress_trans scratch root k1 k2 s1 s2 s3 :
  progress scratch root k1 s1 s2 -> progress scratch root k2 s2 s3 ->
  progress scratch root (k1 + k2) s1 s3.
Proof using.
  intros [R1 (g1 & P1 & L1) F1 B1] [R2 (g2 & P2 & L2) F2 B2]. split.
  - by eapply same_regs_trans.
  - exists (g1 ++ g2). rewrite <- app_assoc, <- P2, length_app. split; [done | lia].
  - etransitivity; [exact F1|]. eapply same_on_weaken; [exact F2|]. intros a [Ha Hs]. auto.
  - auto.
Qed.

Lemma progress_pool_length scratch root k s s' :
  progress scratch root k s s' -> Z.of_nat (length (ps_pool s)) <= Z.of_nat (length (ps_pool s')) + k.
Proof using. intros [_ (g & -> & L) _ _]. rewrite length_app. lia. Qed.

(** A request that takes effect. *)
Lemma run_request scratch root done_ r s :
  follows root done_ s -> request_ok r -> stray done_ r = false ->
  needs done_ [r] <= Z.of_nat (length (ps_pool s)) ->
  exists s', map_ root (rq_virt r) (rq_phys r) (rq_size r) false s = Ok tt s' /\
    progress scratch root (needs done_ [r]) s s' /\ follows root (done_ ++ [r]) s'.
Proof using All.
  intros Hf [O1 O2 O3] Hst Hp.
  assert (Hl : rq_size r = _4K -> large_by done_ (rq_virt r) = false)
    by (intros Hz; unfold stray in Hst; by rewrite Hz in Hst).
  pose proof (follows_cost root done_ r s Hf Hl) as Hc.
  destruct Hf as [I T L P]. unfold map_.
  assert (Hpath : forall p, p ∈ paths_of (done_ ++ [r]) ->
    p ∈ tables_of (level r) (rq_virt r) \/ is_Some (table_at (mem s) root p) \/
    exists v, p = tpath 3 v /\ large_by (done_ ++ [r]) v = true).
  { intros p. rewrite paths_of_snoc, elem_of_union, elem_of_list_to_set. intros [Hd|Hd]; [|by left].
    right. destruct (P p Hd) as [?|(v & -> & Hv)]; [by left|]. right. exists v. by rewrite large_by_app, Hv. }
  destruct (rq_size r) eqn:Hs.
  - assert (Hlev : level r = 0%nat) by (unfold level; by rewrite Hs). rewrite Hlev in *.
    destruct (map_4K_run root s (rq_virt r) (rq_phys r) false I) as (s' & R & E & M & L' & G);
      [lia | done | exact O2 | done | by rewrite L, Hl |].
    exists s'. split; [by erewrite bind_Ok by exact R|].
    split; [by eapply progress_evolve, evolve_weaken|]. split; [apply E | | |].
    + intros v. rewrite M, T, mapped_by_snoc. unfold target. rewrite Hlev. apply decide_ext.
      unfold covers. by rewrite Hlev.
    + intros v. rewrite L', L, large_by_app. cbn. rewrite bool_decide_eq_false_2 by (rewrite Hs; by intros []).
      by rewrite !orb_false_r.
    + intros p Hin. destruct (Hpath p Hin) as [?|[?|?]]; [left | left | by right];
        apply G; by (eapply paths_of_vpath || auto).
  - assert (Hlev : level r = 1%nat) by (unfold level; by rewrite Hs). rewrite Hlev in *.
    destruct (map_2M_run root s (rq_virt r) (rq_phys r) false I) as (s' & R & E & M & L' & G);
      [lia | done | exact O2 | done |].
    exists s'. split; [by erewrite bind_Ok by exact R|].
    assert (Hc' : forall v, covers r v <-> same_page 1 v (rq_virt r)) by (intros v; unfold covers; by rewrite Hlev).
    assert (HL : forall v, in_large (mem s') root v = large_by (done_ ++ [r]) v).
    { intros v. rewrite L', L, large_by_app. cbn. rewrite orb_false_r.
      destruct (decide (same_page 1 v (rq_virt r))) as [Hx|Hx].
      * rewrite bool_decide_eq_true_2 by (split; [done | by apply Hc']). by rewrite orb_true_r.
      * rewrite bool_decide_eq_false_2 by (intros [_ Hy]; by apply Hx, Hc'). by rewrite orb_false_r. }
    split; [by eapply progress_evolve, evolve_weaken|]. split; [apply E | | done |].
    + intros v. rewrite M, T, mapped_by_snoc. unfold target. rewrite Hlev. apply decide_ext.
      unfold covers. by rewrite Hlev.
    + intros p Hin. destruct (decide (p = tpath 3 (rq_virt r))) as [->|Hne].
      { right. exists (rq_virt r). split; [done|]. rewrite <- HL, L'. by rewrite decide_True. }
      destruct (Hpath p Hin) as [?|[?|?]]; [left | left | by right];
        apply G; by (eapply paths_of_vpath || auto).
Qed.

(** Where a large page that translates an address lies. *)
Lemma in_large_frame root s v x :
  tables_inv root s -> in_large (mem s) root v = true -> translate (mem s) root v = Some x ->
  exists pd, table_at (mem s) root (tpath 2 v) = Some pd /\
    absent (ent (mem s) pd (idx 1 v)) = false /\ large (ent (mem s) pd (idx 1 v)) = true /\
    frame (ent (mem s) pd (idx 1 v)) / 0x200000 = x_phys x / 0x200000.
Proof using All.
  intros Hinv Hl Hx. unfold in_large in Hl.
  destruct (table_at (mem s) root (tpath 2 v)) as [pd|] eqn:Hpd; [|done].
  apply andb_true_iff in Hl as [Ha Hb]. apply negb_true_iff in Ha.
  exists pd. split_and!; try done.
  rewrite (walk_down root s 1 v pd Hinv ltac:(lia) Hpd) in Hx. cbn [walk] in Hx.
  rewrite Ha, Hb in Hx. injection Hx as <-. unfold leaf_phys.
  change (page_len 1) with 0x200000. cbn [x_phys]. lia.
Qed.

(** A request that takes none. *)
Lemma run_stray scratch root done_ r s x :
  follows root done_ s -> request_ok r -> stray done_ r = true -> mapped_by done_ (rq_virt r) = Some x ->
  (forall a, a / 0x200000 = x_phys x / 0x200000 -> scratch a) ->
  (forall a, scratch a -> PAGE <= a < 2 ^ 40 /\ ~ paging_byte root s a) ->
  exists s', map_ root (rq_virt r) (rq_phys r) (rq_size r) false s = Ok tt s' /\
    progress scratch root 0 s s' /\ follows root done_ s'.
Proof using All.
  intros [I T L P] [O1 O2 O3] Hst Hx Hsc Hout. unfold stray, level in *. unfold map_.
  destruct (rq_size r) eqn:Hs; [|done]. change (page_len 0) with 4096 in O2.
  destruct (in_large_frame root s (rq_virt r) x I) as (pd & Hpd & Ha & Hb & Hf);
    [by rewrite L | by rewrite T |].
  set (base := frame (ent (mem s) pd (idx 1 (rq_virt r)))) in *.
  assert (Hal : base mod 4096 = 0) by (unfold base, frame; lia).
  assert (Hpage : forall a, page_bytes base a -> scratch a)
    by (intros a Hpa; apply Hsc; rewrite <- Hf; unfold page_bytes, within in Hpa; lia).
  assert (Hb1 : PAGE <= base) by (apply (Hout base), Hpage; unfold page_bytes, within; lia).
  assert (Hb2 : base + PAGE <= 2 ^ 40).
  { destruct (Hout (base + 4095)) as [[_ ?] _]; [apply Hpage; unfold page_bytes, within; lia | lia]. }
  destruct (stray_4K_run root s (rq_virt r) (rq_phys r) false pd base I O1 O2 O3 Hpd Ha Hb eq_refl Hb1 Hb2)
    as (s' & R & _ & [E1 E2 E3 E4 E5 Tr La Ta]); [by intros a Hpa%Hpage%Hout; apply Hpa|].
  exists s'. split; [by erewrite bind_Ok by exact R|]. split.
  - split; try done; [by exists []; rewrite E3 |].
    eapply same_on_weaken; [exact E4|]. intros a [_ Hns] Hpa. by apply Hns, Hpage.
  - split; [done | intros v; by rewrite Tr | intros v; by rewrite La |].
    intros p Hp. rewrite Ta by (by eapply paths_of_vpath). by apply P.
Qed.

Lemma run_requests_spec scratch root all rs : forall done_ s,
  follows root done_ s -> requests_ok scratch all ->
  (forall r, r ∈ done_ -> r ∈ all) -> (forall r, r ∈ rs -> r ∈ all) ->
  (forall a, scratch a -> PAGE <= a < 2 ^ 40 /\ ~ paging_byte root s a) ->
  needs done_ rs <= Z.of_nat (length (ps_pool s)) ->
  exists s', run_requests root rs s = Ok tt s' /\ progress scratch root (needs done_ rs) s s' /\
    follows root (effective done_ rs) s'.
Proof using All.
  induction rs as [|r rs IH]; intros done_ s Hf Hok Hd Hr Hout Hp.
  { exists s. split; [done|]. split; [|done].
    eapply progress_evolve, evolve_weaken; [apply evolve_refl, Hf | unfold needs; cbn [effective]; lia]. }
  cbn [effective run_requests]. pose proof (needs_cons done_ r rs) as [Hn Hn0].
  assert (Hra : r ∈ all) by (apply Hr; left).
  assert (Hone : exists s1, map_ root (rq_virt r) (rq_phys r) (rq_size r) false s = Ok tt s1 /\
    progress scratch root (needs done_ [r]) s s1 /\
    follows root (if stray done_ r then done_ else done_ ++ [r]) s1).
  { destruct (stray done_ r) eqn:Hst; [|by apply run_request; (eapply ok_each || lia || done)].
    assert (Hz : needs done_ [r] = 0) by (unfold needs; cbn [effective]; rewrite Hst; lia). rewrite Hz.
    assert (rq_size r = _4K /\ large_by done_ (rq_virt r) = true) as [Hsz Hl]
      by (unfold stray in Hst; by destruct (rq_size r)).
    pose proof Hl as (q & Hq & _ & Hc)%large_by_true.
    destruct (mapped_by_some done_ (rq_virt r)) as (q' & Hq' & Hc' & Hm); [by exists q|].
    apply (run_stray scratch root done_ r s (target q' (rq_virt r))); [done | by apply (ok_each _ _ Hok) | done | done | | done].
    intros a. apply (ok_scratch _ _ Hok r q'); auto. by apply (large_by_mono done_). }
  destruct Hone as (s1 & R1 & E1 & F1). pose proof (progress_pool_length _ _ _ _ _ E1).
  destruct (IH (if stray done_ r then done_ else done_ ++ [r]) s1) as (s2 & R2 & E2 & F2); try done.
  - intros q. destruct (stray done_ r); [by apply Hd|]. rewrite elem_of_app, list_elem_of_singleton.
    intros [?| ->]; auto.
  - intros q Hq. apply Hr. by right.
  - intros a Ha. destruct (Hout a Ha) as [? Hnp]. split; [done|]. intros Hpb. apply Hnp, E1, Hpb.
  - lia.
  - exists s2. split; [by erewrite bind_Ok by exact R1|]. split; [|done].
    rewrite Hn. eapply progress_trans; eassumption.
Qed.
End Run.

(** ** Loops as lists of requests *)

Fixpoint counters (n : nat) (i step : Z) : list Z :=
  match n with O => [] | S n => i :: counters n (i + step) step end.
Definition count (i bound step : Z) : nat := Z.to_nat ((bound - i + step - 1) / step).

Lemma elem_of_counters n : forall i step x,
  x ∈ counters n i step <-> exists k, 0 <= k < Z.of_nat n /\ x = i + step * k.
Proof.
  induction n as [|n IH]; intros i step x; cbn [counters].
  - split; [by intros ?%not_elem_of_nil | intros (k & ? & _); lia].
  - rewrite elem_of_cons, IH. split.
    + intros [->|(k & ? & ->)]; [exists 0; lia | exists (k + 1); lia].
    + intros (k & ? & ->). destruct (decide (k = 0)) as [->|]; [left; lia | right; exists (k - 1); lia].
Qed.

Lemma length_counters n i step : length (counters n i step) = n.
Proof. revert i. induction n as [|n IH]; intros i; [done|]. cbn. by rewrite IH. Qed.

Lemma bound_of_count i bound step n :
  0 < step -> bound <= i + step * n -> 0 <= n -> (bound - i + step - 1) / step <= n.
Proof. intros Hs Hb Hn. apply Z.lt_succ_r, Z.div_lt_upper_bound; lia. Qed.

Section Loops.
Context `{PSO : PageSourceOk}.

Lemma for_loop_requests root step body f bound : 0 < step -> bound + step <= 2 ^ 64 ->
  forall fuel i s, 0 <= i -> bound - i <= step * (Z.of_nat fuel - 1) -> (0 < fuel)%nat ->
  (forall j s, i <= j < bound -> (j - i) mod step = 0 -> body j s = run_requests root (f j) s) ->
  for_loop fuel i bound step body s = run_requests root (counters (count i bound step) i step ≫= f) s.
Proof using.
  intros Hst Hnw. change (2 ^ 64) with 18446744073709551616 in Hnw.
  induction fuel as [|fuel IH]; intros i s Hi Hf Hpos Hb; [lia|]. cbn [for_loop].
  destruct (Z.ltb_spec i bound) as [Hlt|Hge].
  - assert (Hc : count i bound step = S (count (i + step) bound step)).
    { unfold count. replace (bound - i + step - 1) with (bound - (i + step) + step - 1 + 1 * step) by lia.
      rewrite Z.div_add by lia. rewrite <- Z2Nat.inj_succ; [f_equal; lia|].
      apply Z.div_pos; lia. }
    rewrite Hc. cbn [counters]. rewrite bind_cons, run_requests_app.
    unfold bind. rewrite Hb by (lia || by rewrite Z.sub_diag).
    destruct (run_requests root (f i) s) as [u s1|s1|p s1|]; [|done|done|done].
    rewrite u64_small by lia. apply IH; [lia | lia | nia |].
    intros j s' Hj Hm. apply Hb; [lia|].
    replace (j - i) with (j - (i + step) + 1 * step) by lia. by rewrite Z.mod_add by lia.
  - assert (count i bound step = 0%nat) as ->; [|done]. unfold count.
    assert ((bound - i + step - 1) / step <= 0) by (apply bound_of_count; lia). lia.
Qed.
End Loops.
