(* ===== verification/KernelSpace.v ===== *)
(** CreateDefaultMappings and InitializePaging of mm/paging/paging.c: the kernel's
    own address space.  [default_requests] is the list of requests the loops
    make, [default_layout] what the boot loader's layout must satisfy. *)
From S2P Require Import Prelude Memory Machine PageSource FrameAlloc Bitfield PageWalk Paging PagingSpec AddressSpace MapRequests.

(** ** The requests of CreateDefaultMappings *)

Section Default.
Context (g : paging_info).
#[local] Notation h := (info_hhdm_base g).

Definition twice (size : PageSizes) (i : Z) : list request := [Request i i size; Request (h + i) i size].

Definition kernel_requests : list request :=
  counters (count 0 (info_kernelSize g) 4096) 0 4096 ≫= fun i =>
    [Request (info_kernelVirtBase g + i) (info_kernelPhysBase g + i) _4K].
Definition first_requests : list request :=
  counters (count 0 0x200000 4096) 0 4096 ≫= fun i =>
    if i =? 0 then [Request h 0 _4K] else twice _4K i.
Definition low_requests : list request :=
  counters (count 0x200000 0x40000000 0x200000) 0x200000 0x200000 ≫= twice _2M.
Definition high_requests : list request :=
  counters (count 0x40000000 0x100000000 0x1000) 0x40000000 0x1000 ≫= twice _4K.
Definition entry_requests (e : limine_memmap_entry) : list request :=
  counters (count (entry_base e) (entry_base e + entry_length e) 4096) (entry_base e) 4096 ≫= fun j =>
    if j mod 4096 =? 0 then [Request j j _4K] else [].
Definition screen_requests : list request :=
  counters (count (info_fbBase g) (info_fbBase g + info_fbSize g) 4096) (info_fbBase g) 4096 ≫= fun i =>
    [Request i (i - h) _4K].

Definition default_requests : list request :=
  (kernel_requests ++ first_requests) ++ low_requests ++
  high_requests ++ (info_mmap g ≫= entry_requests) ++ screen_requests.
End Default.

(** ** The boot loader's layout *)

(** Canonical addresses: the lower and the upper half. *)
Definition TOP : Z := 0xffff800000000000.
Definition half (v : Z) : Prop := 0 <= v < 2 ^ 47 \/ TOP <= v < 2 ^ 64.

Definition screen_pages (g : paging_info) : Z := (info_fbSize g + 4095) / 4096.

(** The direct map, the kernel image and the screen lie in the upper half without
    wrapping around; the image is apart from the other two; the screen avoids the
    2 MiB pages of the direct map; no entry of the memory map holds page 0. *)
Record default_layout (g : paging_info) : Prop := {
  dl_hhdm : TOP <= info_hhdm_base g /\ info_hhdm_base g + 2 ^ 32 <= 2 ^ 64 /\ info_hhdm_base g mod 2 ^ 30 = 0;
  dl_virt : TOP <= info_kernelVirtBase g /\ info_kernelVirtBase g mod 4096 = 0 /\
    info_kernelVirtBase g + info_kernelSize g + 4096 <= 2 ^ 64;
  dl_phys : 0 <= info_kernelPhysBase g /\ info_kernelPhysBase g mod 4096 = 0 /\
    info_kernelPhysBase g + info_kernelSize g + 4096 <= 2 ^ 52;
  dl_size : 0 <= info_kernelSize g;
  dl_apart : info_kernelVirtBase g + info_kernelSize g <= info_hhdm_base g \/
    info_hhdm_base g + 2 ^ 32 <= info_kernelVirtBase g;
  dl_entry e : e ∈ info_mmap g ->
    4096 <= entry_base e /\ 0 <= entry_length e /\ entry_base e + entry_length e + 4096 <= 2 ^ 47;
  dl_screen : TOP <= info_fbBase g /\ info_fbBase g mod 4096 = 0 /\ info_hhdm_base g <= info_fbBase g /\
    0 <= info_fbSize g /\ info_fbBase g + info_fbSize g + 4096 <= 2 ^ 64 /\
    (info_fbBase g + info_fbSize g <= info_hhdm_base g + 0x200000 \/
     info_hhdm_base g + 0x40000000 <= info_fbBase g);
  dl_screen_apart : info_kernelVirtBase g + info_kernelSize g <= info_fbBase g \/
    info_fbBase g + info_fbSize g <= info_kernelVirtBase g;
}.

Ltac pows := unfold half, TOP, page_len in *;
  change (2 ^ (12 + 9 * Z.of_nat 0)) with 4096 in *;
  change (2 ^ (12 + 9 * Z.of_nat 1)) with 2097152 in *;
  change (2 ^ 18) with 262144 in *; change (2 ^ 20) with 1048576 in *;
  change (2 ^ 30) with 1073741824 in *; change (2 ^ 32) with 4294967296 in *;
  change (2 ^ 47) with 140737488355328 in *; change (2 ^ 52) with 4503599627370496 in *;
  change (2 ^ 64) with 18446744073709551616 in *.

(** Page numbers of canonical addresses are their residues, up to a constant. *)
Lemma half_residue x y B N :
  0 < N -> 0 <= 2 * B <= N ->
  (0 <= x < B \/ 65536 * N - B <= x < 65536 * N) -> (0 <= y < B \/ 65536 * N - B <= y < 65536 * N) ->
  x mod N = y mod N <-> x = y.
Proof.
  intros HN HB Hx Hy. split; [|by intros ->].
  assert (Hr : forall z, (0 <= z < B \/ 65536 * N - B <= z < 65536 * N) ->
    (z < B /\ z mod N = z) \/ (B <= z /\ z mod N = z - 65535 * N)).
  { intros z [Hz|Hz]; [left; split; [lia | apply Z.mod_small; lia]|]. right. split; [nia|].
    symmetry. apply (Z.mod_unique_pos _ _ 65535); nia. }
  destruct (Hr x Hx) as [[? ->]|[? ->]], (Hr y Hy) as [[? ->]|[? ->]]; intros E; nia.
Qed.

Lemma same_page_half_0 a b : half a -> half b -> (same_page 0 a b <-> a / 4096 = b / 4096).
Proof.
  intros Ha Hb. unfold same_page, vpn. change (2 ^ (36 - 9 * Z.of_nat 0)) with 68719476736.
  pows. apply (half_residue _ _ 34359738368); lia.
Qed.
Lemma same_page_half_1 a b : half a -> half b -> (same_page 1 a b <-> a / 2097152 = b / 2097152).
Proof.
  intros Ha Hb. unfold same_page, vpn. change (2 ^ (36 - 9 * Z.of_nat 1)) with 134217728.
  pows. apply (half_residue _ _ 67108864); lia.
Qed.

(** The kinds of requests, with their counters. *)
Inductive shape (g : paging_info) : request -> Prop :=
  | shape_kernel k : 0 <= k < kernel_pages g ->
      shape g (Request (info_kernelVirtBase g + 4096 * k) (info_kernelPhysBase g + 4096 * k) _4K)
  | shape_identity k : 1 <= k < 512 \/ 2 ^ 18 <= k < 2 ^ 20 -> shape g (Request (4096 * k) (4096 * k) _4K)
  | shape_direct k : 0 <= k < 512 \/ 2 ^ 18 <= k < 2 ^ 20 ->
      shape g (Request (info_hhdm_base g + 4096 * k) (4096 * k) _4K)
  | shape_low k : 1 <= k < 512 -> shape g (Request (2097152 * k) (2097152 * k) _2M)
  | shape_low_direct k : 1 <= k < 512 ->
      shape g (Request (info_hhdm_base g + 2097152 * k) (2097152 * k) _2M)
  | shape_entry e j : e ∈ info_mmap g -> entry_base e mod 4096 = 0 ->
      entry_base e <= j < entry_base e + entry_length e -> 4096 <= j -> j + 4096 <= 2 ^ 47 ->
      j mod 4096 = 0 -> shape g (Request j j _4K)
  | shape_screen k : 0 <= k < screen_pages g ->
      shape g (Request (info_fbBase g + 4096 * k) (info_fbBase g + 4096 * k - info_hhdm_base g) _4K).

Section Shapes.
Context (g : paging_info) (Hg : default_layout g).

Lemma kernel_shapes r :
  r ∈ kernel_requests g <-> exists k, 0 <= k < kernel_pages g /\
    r = Request (info_kernelVirtBase g + 4096 * k) (info_kernelPhysBase g + 4096 * k) _4K.
Proof using All.
  pose proof (dl_size g Hg) as Hs.
  assert (Hc : Z.of_nat (count 0 (info_kernelSize g) 4096) = kernel_pages g).
  { unfold count, kernel_pages. rewrite Z2Nat.id; [f_equal; lia|]. apply Z.div_pos; lia. }
  unfold kernel_requests. rewrite list_elem_of_bind. split.
  - intros (i & ->%list_elem_of_singleton & (k & Hk & ->)%elem_of_counters). exists k.
    split; [lia|]. by rewrite Z.add_0_l.
  - intros (k & Hk & ->). exists (4096 * k). split; [by apply list_elem_of_singleton|].
    apply elem_of_counters. exists k. lia.
Qed.

Lemma screen_shapes r :
  r ∈ screen_requests g <-> exists k, 0 <= k < screen_pages g /\
    r = Request (info_fbBase g + 4096 * k) (info_fbBase g + 4096 * k - info_hhdm_base g) _4K.
Proof using All.
  destruct (dl_screen g Hg) as (_ & _ & _ & Hs & _).
  assert (Hc : Z.of_nat (count (info_fbBase g) (info_fbBase g + info_fbSize g) 4096) = screen_pages g).
  { unfold count, screen_pages. rewrite Z2Nat.id; [f_equal; lia|]. apply Z.div_pos; lia. }
  unfold screen_requests. rewrite list_elem_of_bind. split.
  - intros (i & ->%list_elem_of_singleton & (k & Hk & ->)%elem_of_counters). exists k. split; [lia | done].
  - intros (k & Hk & ->). exists (info_fbBase g + 4096 * k). split; [by apply list_elem_of_singleton|].
    apply elem_of_counters. exists k. lia.
Qed.

Lemma first_shapes r :
  r ∈ first_requests g <->
    (exists k, 1 <= k < 512 /\ r = Request (4096 * k) (4096 * k) _4K) \/
    (exists k, 0 <= k < 512 /\ r = Request (info_hhdm_base g + 4096 * k) (4096 * k) _4K).
Proof using All.
  unfold first_requests. rewrite list_elem_of_bind. change (count 0 0x200000 4096) with 512%nat.
  setoid_rewrite elem_of_counters. split.
  - intros (i & Hr & k & Hk & ->). rewrite Z.add_0_l in *. destruct (Z.eqb_spec (4096 * k) 0) as [Hz|Hz].
    + apply list_elem_of_singleton in Hr as ->. right. exists 0. split; [lia|]. f_equal; lia.
    + unfold twice in Hr. apply elem_of_cons in Hr as [->| ->%list_elem_of_singleton]; [left | right]; exists k; (split; [lia | done]).
  - intros [(k & Hk & ->) | (k & Hk & ->)]; exists (4096 * k); (split; [|exists k; lia]);
      destruct (Z.eqb_spec (4096 * k) 0) as [Hz|Hz]; try lia.
    + left.
    + apply list_elem_of_singleton. f_equal; lia.
    + right. left.
Qed.

Lemma low_shapes r :
  r ∈ low_requests g <-> exists k, 1 <= k < 512 /\
    (r = Request (2097152 * k) (2097152 * k) _2M \/
     r = Request (info_hhdm_base g + 2097152 * k) (2097152 * k) _2M).
Proof using All.
  unfold low_requests. rewrite list_elem_of_bind. change (count 0x200000 0x40000000 0x200000) with 511%nat.
  setoid_rewrite elem_of_counters. unfold twice. split.
  - intros (i & Hr & k & Hk & ->). exists (k + 1). split; [lia|].
    apply elem_of_cons in Hr as [->| ->%list_elem_of_singleton]; [left | right]; f_equal; lia.
  - intros (k & Hk & Hr). exists (2097152 * k). split; [|exists (k - 1); lia].
    destruct Hr as [-> | ->]; [left | right; left].
Qed.

Lemma high_count : Z.of_nat (count 0x40000000 0x100000000 0x1000) = 2 ^ 20 - 2 ^ 18.
Proof using. unfold count. rewrite Z2Nat.id; [done|]. by vm_compute. Qed.

Lemma high_shapes r :
  r ∈ high_requests g <-> exists k, 2 ^ 18 <= k < 2 ^ 20 /\
    (r = Request (4096 * k) (4096 * k) _4K \/ r = Request (info_hhdm_base g + 4096 * k) (4096 * k) _4K).
Proof using All.
  unfold high_requests. rewrite list_elem_of_bind. setoid_rewrite elem_of_counters.
  rewrite high_count. unfold twice. pows. split.
  - intros (i & Hr & k & Hk & ->). exists (k + 262144). split; [lia|].
    apply elem_of_cons in Hr as [->| ->%list_elem_of_singleton]; [left | right]; f_equal; lia.
  - intros (k & Hk & Hr). exists (4096 * k). split; [|exists (k - 262144); lia].
    destruct Hr as [-> | ->]; [left | right; left].
Qed.

Lemma entry_shapes r : r ∈ info_mmap g ≫= entry_requests -> exists e j,
  r = Request j j _4K /\ e ∈ info_mmap g /\ entry_base e mod 4096 = 0 /\
  entry_base e <= j < entry_base e + entry_length e /\ 4096 <= j /\ j + 4096 <= 2 ^ 47 /\ j mod 4096 = 0.
Proof using All.
  intros (e & Hr & He)%list_elem_of_bind. destruct (dl_entry g Hg e He) as (H1 & H2 & H3).
  unfold entry_requests in Hr. apply list_elem_of_bind in Hr as (j & Hr & (k & Hk & Hj)%elem_of_counters).
  destruct (Z.eqb_spec (j mod 4096) 0) as [Hz|Hz]; [|by apply not_elem_of_nil in Hr].
  apply list_elem_of_singleton in Hr as ->. exists e, j. split; [done|]. split; [done|].
  unfold count in Hk. rewrite Z2Nat.id in Hk by (apply Z.div_pos; lia). pows. lia.
Qed.

Lemma default_shape r : r ∈ default_requests g -> shape g r.
Proof using All.
  unfold default_requests. rewrite !elem_of_app.
  intros [[Hr|Hr]|[Hr|[Hr|[Hr|Hr]]]].
  - apply kernel_shapes in Hr as (k & Hk & ->). by constructor.
  - apply first_shapes in Hr as [(k & Hk & ->)|(k & Hk & ->)]; constructor; lia.
  - apply low_shapes in Hr as (k & Hk & [->| ->]); by constructor.
  - apply high_shapes in Hr as (k & Hk & [->| ->]); constructor; by right.
  - apply entry_shapes in Hr as (e & j & -> & ? & ? & ? & ? & ? & ?). by apply (shape_entry g e).
  - apply screen_shapes in Hr as (k & Hk & ->). by constructor.
Qed.

(** ** Every request is well formed *)

Lemma shape_ok r : shape g r -> request_ok r.
Proof using All.
  destruct (dl_hhdm g Hg) as (H1 & H2 & H3). destruct (dl_virt g Hg) as (V1 & V2 & V3).
  destruct (dl_phys g Hg) as (P1 & P2 & P3). pose proof (dl_size g Hg).
  destruct (dl_screen g Hg) as (S1 & S2 & S3 & S4 & S5 & _).
  assert (info_hhdm_base g mod 4096 = 0) by (pows; lia).
  unfold kernel_pages, screen_pages in *.
  intros [k Hk|k Hk|k Hk|k Hk|k Hk|e j He J1 J2 J3 J4 J5|k Hk]; unfold kernel_pages, screen_pages in *;
    (split; cbn [rq_virt rq_phys rq_size level]; pows; lia).
Qed.

Lemma shape_half r : shape g r -> half (rq_virt r).
Proof using All.
  destruct (dl_hhdm g Hg) as (H1 & H2 & H3). destruct (dl_virt g Hg) as (V1 & V2 & V3).
  pose proof (dl_size g Hg). destruct (dl_screen g Hg) as (S1 & S2 & S3 & S4 & S5 & _).
  intros [k Hk|k Hk|k Hk|k Hk|k Hk|e j He J1 J2 J3 J4 J5|k Hk]; unfold kernel_pages, screen_pages in *;
    cbn [rq_virt]; pows; lia.
Qed.

End Shapes.

(** ** CreateDefaultMappings runs the requests *)

Section Create.
Context `{PSO : PageSourceOk} (g : paging_info) (Hg : default_layout g).

(** Enough rounds for every loop: the one from 1 GiB to 4 GiB takes 786432. *)
Record fuel_ok (fuel : nat) : Prop := {
  fu_high : 786433 <= Z.of_nat fuel;
  fu_kernel : info_kernelSize g <= 4096 * (Z.of_nat fuel - 1);
  fu_screen : info_fbSize g <= 4096 * (Z.of_nat fuel - 1);
  fu_entry e : e ∈ info_mmap g -> entry_length e <= 4096 * (Z.of_nat fuel - 1);
}.

Lemma bind_same {A} (c c' : M unit) (k k' : M A) s :
  (forall s, c s = c' s) -> (forall s, k s = k' s) -> (c;; k) s = (c';; k') s.
Proof using. intros Hc Hk. unfold bind. rewrite Hc. destruct (c' s); [apply Hk | done | done | done]. Qed.

Lemma run_one root r s : map_ root (rq_virt r) (rq_phys r) (rq_size r) false s = run_requests root [r] s.
Proof using.
  cbn [run_requests]. unfold bind. by destruct (map_ _ _ _ _ _ s) as [[] ?|?|? ?|].
Qed.
Lemma run_two root r q s :
  (map_ root (rq_virt r) (rq_phys r) (rq_size r) false;;
   map_ root (rq_virt q) (rq_phys q) (rq_size q) false) s = run_requests root [r; q] s.
Proof using.
  cbn [run_requests]. unfold bind. destruct (map_ _ _ _ _ _ s) as [[] ?|?|? ?|]; try done.
  by destruct (map_ _ _ _ _ _ _) as [[] ?|?|? ?|].
Qed.

Lemma map_kernel_run fuel root s : fuel_ok fuel -> map_kernel fuel root g s = run_requests root (kernel_requests g) s.
Proof using Hg.
  intros [F1 F2 _ _]. destruct (dl_virt g Hg) as (V1 & V2 & V3). destruct (dl_phys g Hg) as (P1 & P2 & P3).
  pose proof (dl_size g Hg). unfold map_kernel, kernel_requests.
  apply for_loop_requests; [lia | pows; lia | lia | lia | lia |].
  intros j s' Hj _. rewrite !u64_small by (pows; lia). apply (run_one root (Request _ _ _)).
Qed.

Lemma map_low_run fuel root s : fuel_ok fuel -> map_low fuel root g s = run_requests root (low_requests g) s.
Proof using Hg.
  intros [F1 _ _ _]. destruct (dl_hhdm g Hg) as (H1 & H2 & H3). unfold map_low, low_requests.
  apply for_loop_requests; [lia | pows; lia | lia | lia | lia |].
  intros j s' Hj _. rewrite u64_small by (pows; lia). apply (run_two root (Request _ _ _) (Request _ _ _)).
Qed.

Lemma map_entry_run fuel root e s :
  fuel_ok fuel -> e ∈ info_mmap g -> map_mmap_entry fuel root e s = run_requests root (entry_requests e) s.
Proof using Hg.
  intros [F1 _ _ F4] He. destruct (dl_entry g Hg e He) as (E1 & E2 & E3). specialize (F4 e He).
  unfold map_mmap_entry, entry_requests. rewrite u64_small by (pows; lia).
  apply for_loop_requests; [lia | pows; lia | lia | lia | lia |].
  intros j s' Hj _. destruct (j mod 4096 =? 0); cbn [negb]; [apply (run_one root (Request _ _ _)) | done].
Qed.

Lemma map_mmap_run fuel root mmap s :
  fuel_ok fuel -> (forall e, e ∈ mmap -> e ∈ info_mmap g) ->
  map_mmap fuel root mmap s = run_requests root (mmap ≫= entry_requests) s.
Proof using Hg.
  intros F. revert s. induction mmap as [|e mmap IH]; intros s Hin; [done|].
  cbn [map_mmap]. rewrite bind_cons, run_requests_app. apply bind_same.
  - intros s'. apply map_entry_run; [done | apply Hin; left].
  - intros s'. apply IH. intros e' He'. apply Hin. by right.
Qed.

Lemma CreateDefaultMappings_run fuel root s :
  fuel_ok fuel -> GlobalPagingInfo (paging_g s) = g ->
  CreateDefaultMappings fuel root s = run_requests root (default_requests g) s.
Proof using Hg.
  intros F Hs. pose proof F as [F1 _ F3 _]. destruct (dl_hhdm g Hg) as (H1 & H2 & H3).
  destruct (dl_screen g Hg) as (S1 & S2 & S3 & S4 & S5 & _).
  unfold CreateDefaultMappings. erewrite bind_Ok by reflexivity. cbv beta. rewrite Hs.
  unfold default_requests. rewrite <- app_assoc, run_requests_app. apply bind_same.
  { intros s'. by apply map_kernel_run. }
  intros s1. rewrite run_requests_app. apply bind_same.
  { intros s'. unfold first_requests. apply for_loop_requests; [lia | pows; lia | lia | lia | lia |].
    intros j s2 Hj _. rewrite u64_small by (pows; lia).
    destruct (Z.eqb_spec j 0) as [->|Hz]; cbn [negb when].
    - rewrite Z.add_0_r. erewrite bind_Ok by reflexivity. apply (run_one root (Request _ _ _)).
    - apply (run_two root (Request _ _ _) (Request _ _ _)). }
  intros s2. rewrite run_requests_app. apply bind_same; [intros s'; by apply map_low_run|].
  intros s3. rewrite run_requests_app. apply bind_same.
  { intros s'. unfold high_requests. apply for_loop_requests; [lia | pows; lia | lia | lia | lia |].
    intros j s4 Hj _. rewrite u64_small by (pows; lia). apply (run_two root (Request _ _ _) (Request _ _ _)). }
  intros s4. rewrite run_requests_app. apply bind_same; [intros s'; by apply map_mmap_run|].
  intros s5. rewrite u64_small by (pows; lia). unfold screen_requests.
  apply for_loop_requests; [lia | pows; lia | pows; lia | lia | lia |].
  intros j s6 Hj _. rewrite u64_small by (pows; lia). apply (run_one root (Request _ _ _)).
Qed.
End Create.

(** The 2 MiB pages the memory map makes [CreateDefaultMappings] write into. *)
Definition scribbled (g : paging_info) (a : Z) : Prop :=
  0x200000 <= a < 0x40000000 /\ exists e j, e ∈ info_mmap g /\ entry_base e mod 4096 = 0 /\
    entry_base e <= j < entry_base e + entry_length e /\ j / 0x200000 = a / 0x200000.

(** ** What the requests translate *)

Section Translations.
Context (g : paging_info) (Hg : default_layout g).

Lemma covers_shape r v : shape g r -> half v ->
  covers r v <-> match rq_size r with
                 | _4K => v / 4096 = rq_virt r / 4096
                 | _2M => v / 2097152 = rq_virt r / 2097152
                 end.
Proof using Hg.
  intros Hs Hv. pose proof (shape_half g Hg r Hs). unfold covers, level.
  destruct (rq_size r); [by apply same_page_half_0 | by apply same_page_half_1].
Qed.

(** A covering request's page holds the address, at its offset. *)
Lemma covers_offset r v : shape g r -> half v -> covers r v ->
  0 <= v - rq_virt r < page_len (level r) /\ v mod page_len (level r) = v - rq_virt r.
Proof using Hg.
  intros Hs Hv Hc. apply (covers_shape r v Hs Hv) in Hc.
  pose proof (ro_virt r (shape_ok g Hg r Hs)) as Ha.
  unfold level. destruct (rq_size r) eqn:E; pows; [lia|].
  assert (rq_virt r mod 2097152 = 0); [|lia].
  destruct (dl_hhdm g Hg) as (_ & _ & H3). clear Ha Hc. pows.
  destruct Hs; cbn [rq_size rq_virt] in *; try discriminate; lia.
Qed.

(** All requests that cover [v] translate it to [p]. *)
Ltac agree v p :=
  let r := fresh "r" in let Hr := fresh "Hr" in let Hs := fresh "Hs" in let Hc := fresh "Hc" in
  let Hm := fresh "Hm" in
  intros r Hr Hc; pose proof (default_shape g Hg r Hr) as Hs;
  destruct (covers_offset r v Hs) as [Hc' Hm]; [pows; lia | done |];
  unfold target; rewrite Hm; clear Hm Hc;
  destruct Hs; unfold level, kernel_pages, screen_pages in *; cbn [rq_size rq_virt rq_phys] in *;
  pows; f_equal; lia.

Ltac layout :=
  destruct (dl_hhdm g Hg) as (H1 & H2 & H3); destruct (dl_virt g Hg) as (V1 & V2 & V3);
  destruct (dl_phys g Hg) as (P1 & P2 & P3); pose proof (dl_size g Hg) as Hsz;
  destruct (dl_screen g Hg) as (S1 & S2 & S3 & S4 & S5 & S6);
  pose proof (dl_apart g Hg) as A1; pose proof (dl_screen_apart g Hg) as A2;
  unfold kernel_pages, screen_pages in *.

Lemma in_default r :
  r ∈ kernel_requests g \/ r ∈ first_requests g \/ r ∈ low_requests g \/ r ∈ high_requests g \/
  r ∈ screen_requests g -> r ∈ default_requests g.
Proof using. unfold default_requests. rewrite !elem_of_app. tauto. Qed.

Lemma identity_covered v : 4096 <= v < 2 ^ 32 -> exists r, r ∈ default_requests g /\ covers r v.
Proof using Hg.
  intros Hv. layout.
  destruct (decide (v < 0x200000)); [|destruct (decide (v < 0x40000000))].
  - exists (Request (4096 * (v / 4096)) (4096 * (v / 4096)) _4K).
    assert (Hin : Request (4096 * (v / 4096)) (4096 * (v / 4096)) _4K ∈ default_requests g).
    { apply in_default. right; left. apply (first_shapes g Hg). left. exists (v / 4096). split; [lia | done]. }
    split; [done|]. apply covers_shape; [by apply default_shape | pows; lia | cbn [rq_size rq_virt]; lia].
  - exists (Request (2097152 * (v / 2097152)) (2097152 * (v / 2097152)) _2M).
    assert (Hin : Request (2097152 * (v / 2097152)) (2097152 * (v / 2097152)) _2M ∈ default_requests g).
    { apply in_default. do 2 right; left. apply (low_shapes g Hg). exists (v / 2097152). split; [lia | by left]. }
    split; [done|]. apply covers_shape; [by apply default_shape | pows; lia | cbn [rq_size rq_virt]; lia].
  - exists (Request (4096 * (v / 4096)) (4096 * (v / 4096)) _4K).
    assert (Hin : Request (4096 * (v / 4096)) (4096 * (v / 4096)) _4K ∈ default_requests g).
    { apply in_default. do 3 right; left. apply (high_shapes g Hg). exists (v / 4096). split; [pows; lia | by left]. }
    split; [done|]. apply covers_shape; [by apply default_shape | pows; lia | cbn [rq_size rq_virt]; lia].
Qed.

Lemma direct_covered p : 0 <= p < 2 ^ 32 ->
  exists r, r ∈ default_requests g /\ covers r (info_hhdm_base g + p).
Proof using Hg.
  intros Hp. layout.
  destruct (decide (p < 0x200000)); [|destruct (decide (p < 0x40000000))].
  - exists (Request (info_hhdm_base g + 4096 * (p / 4096)) (4096 * (p / 4096)) _4K).
    assert (Hin : Request (info_hhdm_base g + 4096 * (p / 4096)) (4096 * (p / 4096)) _4K ∈ default_requests g).
    { apply in_default. right; left. apply (first_shapes g Hg). right. exists (p / 4096). split; [lia | done]. }
    split; [done|]. apply covers_shape; [by apply default_shape | pows; lia | cbn [rq_size rq_virt]; pows; lia].
  - exists (Request (info_hhdm_base g + 2097152 * (p / 2097152)) (2097152 * (p / 2097152)) _2M).
    assert (Hin : Request (info_hhdm_base g + 2097152 * (p / 2097152)) (2097152 * (p / 2097152)) _2M ∈ default_requests g).
    { apply in_default. do 2 right; left. apply (low_shapes g Hg). exists (p / 2097152). split; [lia | by right]. }
    split; [done|]. apply covers_shape; [by apply default_shape | pows; lia | cbn [rq_size rq_virt]; pows; lia].
  - exists (Request (info_hhdm_base g + 4096 * (p / 4096)) (4096 * (p / 4096)) _4K).
    assert (Hin : Request (info_hhdm_base g + 4096 * (p / 4096)) (4096 * (p / 4096)) _4K ∈ default_requests g).
    { apply in_default. do 3 right; left. apply (high_shapes g Hg). exists (p / 4096). split; [pows; lia | by right]. }
    split; [done|]. apply covers_shape; [by apply default_shape | pows; lia | cbn [rq_size rq_virt]; pows; lia].
Qed.

Lemma identity_agree v r : 4096 <= v < 2 ^ 32 -> r ∈ default_requests g -> covers r v ->
  target r v = Xlat v true false.
Proof using Hg. intros Hv. layout. revert r. agree v v. Qed.
Lemma identity_mapped v : 4096 <= v < 2 ^ 32 -> mapped_by (effective [] (default_requests g)) v = Some (Xlat v true false).
Proof using Hg.
  intros Hv. apply effective_agree; [|by apply identity_covered].
  intros r. by apply identity_agree.
Qed.
Lemma direct_mapped p : 0 <= p < 2 ^ 32 ->
  mapped_by (effective [] (default_requests g)) (info_hhdm_base g + p) = Some (Xlat p true false).
Proof using Hg.
  intros Hp. apply effective_agree; [|by apply direct_covered]. layout. agree (info_hhdm_base g + p) p.
Qed.
Lemma kernel_mapped o : 0 <= o < info_kernelSize g ->
  mapped_by (effective [] (default_requests g)) (info_kernelVirtBase g + o) = Some (Xlat (info_kernelPhysBase g + o) true false).
Proof using Hg.
  intros Ho. apply effective_agree.
  - layout. agree (info_kernelVirtBase g + o) (info_kernelPhysBase g + o).
  - eexists. assert (Hin : Request (info_kernelVirtBase g + 4096 * (o / 4096)) (info_kernelPhysBase g + 4096 * (o / 4096)) _4K ∈ default_requests g).
    { apply in_default. left. apply (kernel_shapes g Hg). exists (o / 4096). split; [unfold kernel_pages; lia | done]. }
    split; [exact Hin|]. layout.
    apply covers_shape; [by apply default_shape | pows; lia | cbn [rq_size rq_virt]; lia].
Qed.
Lemma screen_mapped o : 0 <= o < info_fbSize g ->
  mapped_by (effective [] (default_requests g)) (info_fbBase g + o) =
    Some (Xlat (info_fbBase g - info_hhdm_base g + o) true false).
Proof using Hg.
  intros Ho. apply effective_agree.
  - layout. agree (info_fbBase g + o) (info_fbBase g - info_hhdm_base g + o).
  - eexists. assert (Hin : Request (info_fbBase g + 4096 * (o / 4096)) (info_fbBase g + 4096 * (o / 4096) - info_hhdm_base g) _4K ∈ default_requests g).
    { apply in_default. do 4 right. apply (screen_shapes g Hg). exists (o / 4096). split; [unfold screen_pages; lia | done]. }
    split; [exact Hin|]. layout.
    apply covers_shape; [by apply default_shape | pows; lia | cbn [rq_size rq_virt]; lia].
Qed.
Lemma null_unmapped v : 0 <= v < 4096 -> mapped_by (effective [] (default_requests g)) v = None.
Proof using Hg.
  intros Hv. apply effective_none. intros r Hr Hc. layout.
  pose proof (default_shape g Hg r Hr) as Hs. apply (covers_shape r v Hs) in Hc; [|pows; lia].
  destruct Hs; unfold kernel_pages, screen_pages in *; cbn [rq_size rq_virt rq_phys] in *; pows; lia.
Qed.

(** ** The requests are sound *)

Lemma default_requests_ok : requests_ok (scribbled g) (default_requests g).
Proof using All.
  split; [intros r Hr; by apply (shape_ok g Hg), default_shape|].
  intros r q a Hr Hq Hz (p & Hp & Hpsz & Hpc)%large_by_true Hc Ha.
  pose proof (default_shape g Hg r Hr) as Hs. pose proof (shape_half g Hg r Hs) as Hh.
  apply (covers_offset p _ (default_shape g Hg p Hp) Hh) in Hpc as [Hpc _].
  assert (Hent : exists e, e ∈ info_mmap g /\ entry_base e mod 4096 = 0 /\
    entry_base e <= rq_virt r < entry_base e + entry_length e /\ 0x200000 <= rq_virt r < 0x40000000).
  { apply (default_shape g Hg) in Hp. layout.
    destruct Hp; cbn [rq_size rq_virt rq_phys] in *; try discriminate;
      destruct Hs; unfold level, kernel_pages, screen_pages in *; cbn [rq_size rq_virt] in *; try discriminate;
      try (exfalso; pows; lia); exists e; split_and!; (done || pows; lia). }
  destruct Hent as (e & He & He' & Hj & Hl).
  assert (target q (rq_virt r) = Xlat (rq_virt r) true false) as Ht.
  { apply identity_agree; [pows; lia | done | done]. }
  rewrite Ht in Ha. cbn [x_phys] in Ha. split; [lia|]. by exists e, (rq_virt r).
Qed.
End Translations.

(** ** How many tables the requests need *)

(** The 2 MiB blocks of virtual memory the requests fall into. *)
Definition blocks (g : paging_info) : list Z :=
  let span b n := seqZ (b / 0x200000) (n / 0x200000 + 2) in
  span 0 (2 ^ 32) ++ span (info_hhdm_base g) (2 ^ 32) ++
  span (info_kernelVirtBase g) (info_kernelSize g) ++ span (info_fbBase g) (info_fbSize g) ++
  (info_mmap g ≫= fun e => span (entry_base e) (entry_length e)).

(** Three tables for each block are enough. *)
Definition table_budget (g : paging_info) : Z := 3 * Z.of_nat (length (blocks g)).

Lemma table_budget_nonneg g : 0 <= table_budget g.
Proof. unfold table_budget. lia. Qed.

Lemma tpath_block k v : (k <= 3)%nat -> tpath k v = tpath k (v / 0x200000 * 0x200000).
Proof.
  induction k as [|k IH]; intros Hk; [done|]. cbn [tpath]. rewrite <- IH by lia. f_equal.
  replace (3 - k)%nat with (1 + (2 - k))%nat by lia. rewrite !idx_up. change (page_len 1) with 0x200000.
  by rewrite Z.div_mul.
Qed.

Definition block_tables (b : Z) : list (list Z) := tables_of 0 (b * 0x200000).

Lemma tables_of_block l v p : p ∈ tables_of l v -> p ∈ block_tables (v / 0x200000).
Proof.
  unfold block_tables. rewrite !tables_of_spec. intros [->|[->|[_ ->]]]; [left | right; left | right; right];
    (split; [done|] || idtac); apply tpath_block; lia.
Qed.

Lemma length_blocks_tables bs : length (bs ≫= block_tables) = (3 * length bs)%nat.
Proof.
  induction bs as [|b bs IH]; [done|]. rewrite bind_cons, length_app, IH. cbn [block_tables tables_of length]. lia.
Qed.

Lemma size_list_to_set_le (l : list (list Z)) : (size (list_to_set l : gset (list Z)) <= length l)%nat.
Proof.
  induction l as [|x l IH]; [done|]. cbn [list_to_set length].
  pose proof (size_union_alt ({[x]} : gset (list Z)) (list_to_set l)) as Hu. rewrite size_singleton in Hu.
  pose proof (subseteq_size (list_to_set l ∖ {[x]}) (list_to_set l : gset (list Z)) ltac:(set_solver)). lia.
Qed.

Lemma needs_blocks rs bs :
  (forall r, r ∈ rs -> rq_virt r / 0x200000 ∈ bs) -> needs [] rs <= 3 * Z.of_nat (length bs).
Proof.
  intros Hb. unfold needs.
  assert (Hsub : paths_of (effective [] rs) ⊆ list_to_set (bs ≫= block_tables)).
  { intros p. unfold paths_of. rewrite !elem_of_list_to_set, !list_elem_of_bind.
    intros (r & Hp & [Hr%not_elem_of_nil|Hr]%effective_sub); [done|].
    exists (rq_virt r / 0x200000). split; [by eapply tables_of_block | by apply Hb]. }
  apply subseteq_size in Hsub. pose proof (size_list_to_set_le (bs ≫= block_tables)) as Hl.
  rewrite length_blocks_tables in Hl. lia.
Qed.

Lemma default_blocks g r : default_layout g -> r ∈ default_requests g -> rq_virt r / 0x200000 ∈ blocks g.
Proof.
  intros Hg. unfold default_requests, blocks. rewrite !elem_of_app.
  destruct (dl_hhdm g Hg) as (H1 & H2 & H3). destruct (dl_virt g Hg) as (V1 & V2 & V3).
  pose proof (dl_size g Hg). destruct (dl_screen g Hg) as (S1 & S2 & S3 & S4 & S5 & _).
  intros [[Hr|Hr]|[Hr|[Hr|[Hr|Hr]]]].
  - apply (kernel_shapes g Hg) in Hr as (k & Hk & ->). do 2 right; left. cbn [rq_virt].
    unfold kernel_pages in Hk. rewrite elem_of_seqZ. lia.
  - apply (first_shapes g Hg) in Hr as [(k & Hk & ->)|(k & Hk & ->)]; [left | right; left];
      cbn [rq_virt]; pows; rewrite elem_of_seqZ; lia.
  - apply (low_shapes g Hg) in Hr as (k & Hk & [->| ->]); [left | right; left];
      cbn [rq_virt]; pows; rewrite elem_of_seqZ; lia.
  - apply (high_shapes g Hg) in Hr as (k & Hk & [->| ->]); [left | right; left];
      cbn [rq_virt]; pows; rewrite elem_of_seqZ; lia.
  - apply list_elem_of_bind in Hr as (e & Hr & He). do 4 right. apply list_elem_of_bind. exists e. split; [|done].
    destruct (dl_entry g Hg e He) as (E1 & E2 & E3).
    unfold entry_requests in Hr. apply list_elem_of_bind in Hr as (j & Hr & (k & Hk & ->)%elem_of_counters).
    destruct (_ =? 0); [|by apply not_elem_of_nil in Hr].
    apply list_elem_of_singleton in Hr as ->. cbn [rq_virt]. unfold count in Hk.
    rewrite Z2Nat.id in Hk by (apply Z.div_pos; lia). rewrite elem_of_seqZ. lia.
  - apply (screen_shapes g Hg) in Hr as (k & Hk & ->). do 3 right; left. cbn [rq_virt].
    unfold screen_pages in Hk. rewrite elem_of_seqZ. lia.
Qed.

Lemma default_needs g : default_layout g -> needs [] (default_requests g) <= table_budget g.
Proof. intros Hg. apply needs_blocks. intros r. by apply default_blocks. Qed.

(** ** InitializePaging *)

Section Initialize.
Context `{PSO : PageSourceOk}.

(** The machine after [InitializePaging]: the kernel's tables are recorded and
    loaded; [m] is the memory. *)
Definition paging_on (root : Z) (info : paging_info) (s : machine) (m : gmap Z Z) : machine :=
  with_trace (with_CR3 (with_paging (with_mem s m) (PagingGlobals root info)) root)
    (EvLoadCR3 root :: trace s).

Lemma kernel_space fuel info s :
  default_layout info -> fuel_ok info fuel ->
  ps_inv s -> (forall q, q ∈ ps_pool s -> q < 2 ^ 40) ->
  (forall a, scribbled info a -> ~ pool_byte s a) ->
  1 + table_budget info <= Z.of_nat (length (ps_pool s)) ->
  exists root m, let s' := paging_on root info s m in
    InitializePaging fuel info s = Ok tt s' /\
    root ∈ ps_pool s /\ tables_inv root s' /\
    (forall v, translate m root v = mapped_by (effective [] (default_requests info)) v) /\
    same_on (fun a => ~ pool_byte s a /\ ~ scribbled info a) (mem s) m /\
    (exists gone, ps_pool s = gone ++ ps_pool s' /\
       Z.of_nat (length gone) <= 1 + table_budget info) /\
    (forall a, paging_byte root s' a -> pool_byte s a).
Proof.
  intros Hg Hfuel Hi Hlow Hsc Hpool. pose proof (default_needs info Hg) as Hneed.
  destruct (ps_pool s) as [|root ps] eqn:Hps; [pose proof (table_budget_nonneg info); cbn [length] in Hpool; lia|].
  destruct (ps_alloc s root ps Hi Hps) as (s1 & R1 & Hi1 & Hp1 & Hz & Hfr).
  destruct (fresh_tree s root ps s1 Hi Hps) as (I1 & T1 & L1 & B1); try done; [by rewrite Hps|].
  destruct Hfr as [G1 F1].
  set (s2 := with_paging (with_paging s1 (PagingGlobals root (GlobalPagingInfo (paging_g s1)))) (PagingGlobals root info)).
  destruct (ps_stable s1 s2) as [Hi2 Hp2]; [done | done | done |].
  destruct (tables_stable root s1 s2) as (I2 & _ & T2 & L2); [done | done | done | by exists []; rewrite Hp2 | done |].
  assert (Hf2 : follows root [] s2).
  { split; [done | intros v; by rewrite T2, T1 | intros v; by rewrite L2, L1 |].
    intros p Hp. by apply not_elem_of_empty in Hp. }
  assert (Hout2 : forall a, paging_byte root s2 a -> pool_byte s a).
  { intros a Ha. apply B1. unfold paging_byte in *. by rewrite Hp2 in Ha. }
  destruct (run_requests_spec (scribbled info) root (default_requests info) (default_requests info) [] s2)
    as (s3 & R3 & [G3 (gone & P3 & Ln3) F3 B3] & [I3 T3 _ _]);
    [done | by apply default_requests_ok | by intros r Hr%not_elem_of_nil | done
    | | rewrite Hp2, Hp1; cbn [length] in Hpool; lia |].
  { intros a Ha. split; [|intros Hb%Hout2; by apply (Hsc a)]. destruct Ha as [Ha _].
    pows. change (2 ^ 40) with 1099511627776. lia. }
  set (s4 := paging_on root info s (mem s3)).
  assert (Hs3 : s4 = with_trace (with_CR3 s3 root) (EvLoadCR3 root :: trace s3)).
  { unfold s4, paging_on. red in G1, G3. rewrite G3. unfold s2. rewrite G1. by destruct s. }
  destruct (ps_stable s3 s4) as [Hi4 Hp4]; [apply I3 | by rewrite Hs3 | by rewrite Hs3 |].
  destruct (tables_stable root s3 s4) as (I4 & _); [done | by rewrite Hs3 | done | by exists []; rewrite Hp4 | by rewrite Hs3 |].
  exists root, (mem s3). cbn zeta. fold s4. split_and!.
  - unfold InitializePaging. erewrite bind_Ok by exact R1. cbv beta.
    erewrite bind_Ok by reflexivity. erewrite bind_Ok by reflexivity. erewrite bind_Ok by reflexivity.
    cbv beta. cbn [pml4 paging_g with_paging]. fold s2.
    rewrite <- (CreateDefaultMappings_run info Hg fuel) in R3 by done.
    erewrite bind_Ok by exact R3. rewrite Hs3. unfold LoadKernelPML4.
    erewrite bind_Ok by reflexivity. unfold cr3load. red in G3. rewrite G3. done.
  - left.
  - done.
  - intros v. by rewrite T3.
  - intros a [Ha Hna]. rewrite (F3 a) by (split; [by intros Hb%Hout2 | done]).
    apply F1. unfold pool_byte in Ha. rewrite Hps in Ha.
    split; intros Hx; apply Ha; [right; exists root; split; [left | done] | by left].
  - exists (root :: gone). cbn [app length]. rewrite Hp4, <- P3, Hp2, Hp1. split; [done | lia].
  - intros a Ha. apply Hout2, B3. unfold paging_byte in *. rewrite Hp4 in Ha. by rewrite Hs3 in Ha.
Qed.
End Initialize.

(** C9. InitializePaging, given enough free pages below 1 TiB (three for each
    2 MiB the requests touch suffice), returns with a well-formed tree of tables
    recorded and loaded in CR3, in which everything below 4 GiB but the page at
    address 0 is mapped to itself, the direct map covers the first 4 GiB, the
    kernel image and the screen are where the boot loader put them, and address
    0 is not mapped.  It takes the root and at most three tables for each 2 MiB the
    requests touch from the front of the pool.  It writes only free pages, the
    allocator's data and, where an entry of the memory map lies between 2 MiB and
    1 GiB, the 2 MiB pages it falls into: the theorem is for an allocator that has no
    memory there, as when the largest region lies above 1 GiB;
    otherwise those writes hit tables that are in use. *)
Theorem InitializePaging_maps `{PSO : PageSourceOk} fuel info s :
  default_layout info -> fuel_ok info fuel ->
  ps_inv s -> (forall q, q ∈ ps_pool s -> q < 2 ^ 40) ->
  (forall a, scribbled info a -> ~ pool_byte s a) ->
  1 + table_budget info <= Z.of_nat (length (ps_pool s)) ->
  exists root m,
    InitializePaging fuel info s = Ok tt (paging_on root info s m) /\
    root ∈ ps_pool s /\ tables_inv root (paging_on root info s m) /\
    (forall v, 4096 <= v < 2 ^ 32 -> translate m root v = Some (Xlat v true false)) /\
    (forall p, 0 <= p < 2 ^ 32 -> translate m root (info_hhdm_base info + p) = Some (Xlat p true false)) /\
    (forall o, 0 <= o < info_kernelSize info ->
       translate m root (info_kernelVirtBase info + o) = Some (Xlat (info_kernelPhysBase info + o) true false)) /\
    (forall o, 0 <= o < info_fbSize info ->
       translate m root (info_fbBase info + o) =
         Some (Xlat (info_fbBase info - info_hhdm_base info + o) true false)) /\
    (forall v, 0 <= v < 4096 -> translate m root v = None) /\
    (exists gone, ps_pool s = gone ++ ps_pool (paging_on root info s m) /\
       Z.of_nat (length gone) <= 1 + table_budget info) /\
    same_on (fun a => ~ pool_byte s a /\ ~ scribbled info a) (mem s) m.
Proof.
  intros Hg Hfuel Hi Hlow Hsc Hpool.
  destruct (kernel_space fuel info s) as (root & m & R & Hr & I & T & F & Hgone & _); try done.
  exists root, m. split_and!; try exact Hgone; try done; intros; rewrite T;
    [by apply identity_mapped | by apply direct_mapped | by apply kernel_mapped | by apply screen_mapped
    | by apply null_unmapped].
Qed.

(** A machine whose largest region lies above 4 GiB, with usable memory below
    as well. *)
Definition wide_map : list limine_memmap_entry :=
  [MemmapEntry 0x100000 0x3f00000 0; MemmapEntry 0x100000000 0x4000000 0].
Definition wide_info : paging_info :=
  PagingInfo wide_map
    0xffff800000000000 0x2345 0x7e000000 0xffffffff80000000 0xffff8000fd000000 0x300000.

Lemma wide_layout : default_layout wide_info.
Proof.
  split; cbn [wide_info info_mmap info_hhdm_base info_kernelSize info_kernelPhysBase info_kernelVirtBase info_fbBase info_fbSize];
    [pows; lia..| |pows; lia|pows; lia].
  intros e He. apply elem_of_cons in He as [->| ->%list_elem_of_singleton];
    cbn [entry_base entry_length]; pows; lia.
Qed.

Lemma wide_fuel : fuel_ok wide_info (Z.to_nat 1000000).
Proof.
  split; rewrite Z2Nat.id by done; cbn [wide_info info_mmap info_kernelSize info_fbSize]; try lia.
  intros e He. apply elem_of_cons in He as [->| ->%list_elem_of_singleton]; cbn; lia.
Qed.

Lemma InitializePaging_maps_witness :
  exists s root m, InitializePaging (Z.to_nat 1000000) wide_info s = Ok tt (paging_on root wide_info s m) /\
    translate m root 0xb8000 = Some (Xlat 0xb8000 true false) /\
    translate m root 0xffffffff80001234 = Some (Xlat 0x7e001234 true false) /\
    translate m root 8 = None.
Proof.
  destruct (InitializeAllocator_run wide_map blank _ eq_refl)
    as (s & _ & Hok & Hg & Hp & _); [by vm_compute | split; vm_compute; congruence |].
  assert (Hn : nframes (region_globals (largest_entry wide_map)) < 20000) by by vm_compute.
  assert (Hb : 0x100000000 < frames_base (region_globals (largest_entry wide_map)) < 0x110000000)
    by (split; by vm_compute).
  assert (Ht : FrameList (region_globals (largest_entry wide_map)) = 0x100000000) by by vm_compute.
  destruct (@InitializePaging_maps _ frame_source_ok (Z.to_nat 1000000) wide_info s)
    as (root & m & R & _ & _ & Hid & _ & Hk & _ & Hnull & _).
  - exact wide_layout.
  - exact wide_fuel.
  - exact Hok.
  - cbn [ps_pool frame_source_ok]. rewrite Hp. intros q (j & -> & Hj)%list_elem_of_fmap.
    apply elem_of_seqZ in Hj.
    unfold frame_addr. change (2 ^ 40) with 1099511627776. lia.
  - intros a [Ha _] [Hx|(q & Hq & Hx)].
    + cbn [ps_owned frame_source_ok] in Hx. rewrite Hg in Hx. unfold table_bytes, within in Hx. lia.
    + cbn [ps_pool frame_source_ok] in Hq. rewrite Hp in Hq.
      apply list_elem_of_fmap in Hq as (j & -> & Hj). apply elem_of_seqZ in Hj.
      unfold page_bytes, within, frame_addr in Hx. lia.
  - cbn [ps_pool frame_source_ok]. rewrite Hp, length_fmap, length_seqZ. vm_compute. congruence.
  - exists s, root, m. split; [exact R|]. split; [apply Hid; vm_compute; split; congruence|].
    split; [apply (Hk 0x1234); vm_compute; split; congruence|]. apply Hnull. lia.
Defined.
