(* ===== verification/CString.v ===== *)
(** util/string.c: C strings in memory.

    [char] is signed and a string is the bytes up to the first zero ([cstr]).
    Loops over strings take fuel; the conversions of numbers have loops whose
    length is bounded by the width of the number, and the fuel is that bound. *)
From S2P Require Import Prelude Memory Machine.

(** The static buffers of string.c: [itoa]'s [ret[64]] and [hexString[128]]. *)
Class StringStatics := {
  addr_ret : Z;
  addr_hexString : Z;
}.

(** ** Operations *)

Fixpoint strlen_loop (fuel : nat) (str i : Z) : M Z :=
  match fuel with
  | O => out_of_fuel
  | S fuel =>
      c ← load 1 (str + i);
      if c =? 0 then ret i else strlen_loop fuel str (i + 1)
  end.
Definition strlen (fuel : nat) (str : Z) : M Z := strlen_loop fuel str 0.

Fixpoint strnlen_loop (fuel : nat) (str n i : Z) : M Z :=
  match fuel with
  | O => out_of_fuel
  | S fuel =>
      if i =? n then ret i
      else
        c ← load 1 (str + i);
        if c =? 0 then ret i else strnlen_loop fuel str n (i + 1)
  end.
Definition strnlen (fuel : nat) (str n : Z) : M Z :=
  if n =? 0 then ret 0 else strnlen_loop fuel str n 0.

Definition char_diff (str1 str2 : Z) : M Z :=
  a ← load 1 str1; b ← load 1 str2; ret (s8 a - s8 b).

(** The shared condition [*str1 && ( *str1 == *str2)]. *)
Definition chars_go_on (str1 str2 : Z) : M bool :=
  a ← load 1 str1;
  if a =? 0 then ret false else b ← load 1 str2; ret (a =? b).

Fixpoint strcmp (fuel : nat) (str1 str2 : Z) : M Z :=
  match fuel with
  | O => out_of_fuel
  | S fuel =>
      go ← chars_go_on str1 str2;
      if go then strcmp fuel (str1 + 1) (str2 + 1) else char_diff str1 str2
  end.

Fixpoint strncmp_loop (fuel : nat) (i str1 str2 n : Z) : M Z :=
  match fuel with
  | O => out_of_fuel
  | S fuel =>
      go ← (if i =? n then ret false else chars_go_on str1 str2);
      if go then strncmp_loop fuel (i + 1) (str1 + 1) (str2 + 1) n
      else if i =? n then ret 0 else char_diff str1 str2
  end.
Definition strncmp (fuel : nat) (str1 str2 n : Z) : M Z := strncmp_loop fuel 0 str1 str2 n.

(** [strncmp] against a string literal. *)
Fixpoint strncmp_lit (fuel : nat) (i str1 : Z) (lit : list Z) (n : Z) : M Z :=
  match fuel with
  | O => out_of_fuel
  | S fuel =>
      go ← (if i =? n then ret false
            else a ← load 1 str1;
                 if a =? 0 then ret false
                 else a ← load 1 str1; ret (a =? default 0 (head lit)));
      if go then strncmp_lit fuel (i + 1) (str1 + 1) (tail lit) n
      else if i =? n then ret 0
      else a ← load 1 str1; ret (s8 a - s8 (default 0 (head lit)))
  end.

Fixpoint strcpy_loop (fuel : nat) (dest src i : Z) : M unit :=
  match fuel with
  | O => out_of_fuel
  | S fuel =>
      c ← load 1 (src + i);
      if c =? 0 then store 1 (dest + i) 0
      else store 1 (dest + i) c;; strcpy_loop fuel dest src (i + 1)
  end.
Definition strcpy (fuel : nat) (dest src : Z) : M unit := strcpy_loop fuel dest src 0.

Section Conversions.
Context `{StringStatics}.

(** [int] division truncates; an [int] has at most ten decimal digits. *)
Fixpoint count_digits (fuel : nat) (t size : Z) : M Z :=
  match fuel with
  | O => out_of_fuel
  | S fuel =>
      if Z.quot t 10 =? 0 then ret size else count_digits fuel (Z.quot t 10) (size + 1)
  end.
Fixpoint put_digits (fuel : nat) (i t : Z) : M unit :=
  match fuel with
  | O => out_of_fuel
  | S fuel =>
      if 0 <=? i then
        store 1 (addr_ret + i) (u8 (Z.rem t 10 + 48));;
        put_digits fuel (i - 1) (Z.quot t 10)
      else ret tt
  end.
Definition itoa (res : Z) : M Z :=
  size ← count_digits 10 res 0;
  let size := size + 1 in
  store 1 (addr_ret + size) 0;;
  put_digits 11 (size - 1) res;;
  ret addr_ret.

Definition hexChars : list Z :=
  [48; 49; 50; 51; 52; 53; 54; 55; 56; 57; 65; 66; 67; 68; 69; 70].
Definition hex_char (d : Z) : Z := default 0 (hexChars !! Z.to_nat d).

Fixpoint put_hex (fuel : nat) (ptr value : Z) : M Z :=
  match fuel with
  | O => out_of_fuel
  | S fuel =>
      if 0 <? value then
        store 1 (ptr - 1) (hex_char (Z.land value 0xF));;
        put_hex fuel (ptr - 1) (Z.shiftr value 4)
      else ret ptr
  end.
Definition hexToString (value : Z) : M Z :=
  let ptr := addr_hexString + 127 in
  store 1 ptr 0;;
  if value =? 0 then store 1 (ptr - 1) 48;; ret (ptr - 1)
  else put_hex 17 ptr value.
End Conversions.

(** ** Strings in memory *)

Definition is_char (c : Z) : Prop := 0 < c < 256.

(** The string [l] with its terminator is at [p]. *)
Fixpoint cstr (m : gmap Z Z) (p : Z) (l : list Z) : Prop :=
  match l with
  | [] => rd m p = 0
  | c :: l => rd m p = c /\ is_char c /\ cstr m (p + 1) l
  end.

Lemma cstr_ext m m' p l :
  same_on (fun a => within a p (Z.of_nat (length l) + 1)) m m' -> cstr m p l -> cstr m' p l.
Proof.
  revert p. induction l as [|c l IH]; intros p Hm; cbn [cstr length] in *.
  - intros <-. apply Hm. unfold within. lia.
  - intros (<- & Hc & Hl). split_and!; [apply Hm; unfold within; lia | done |].
    apply IH; [|done]. eapply same_on_weaken; [exact Hm|]. unfold within. lia.
Qed.

Lemma cstr_app m p l1 l2 :
  cstr m p (l1 ++ l2) <->
  Forall is_char l1 /\ (forall i c, l1 !! i = Some c -> rd m (p + Z.of_nat i) = c) /\
  cstr m (p + Z.of_nat (length l1)) l2.
Proof.
  revert p. induction l1 as [|c l1 IH]; intros p; cbn [app cstr length].
  - rewrite Z.add_0_r. split; [|tauto]. intros H. split_and!; [constructor | done | done].
  - rewrite IH. replace (p + 1 + Z.of_nat (length l1)) with (p + Z.of_nat (S (length l1))) by lia.
    split.
    + intros (Hr & Hc & Hl1 & Hi & Hl2). split_and!; [by constructor | | done].
      intros [|i] x Hx; cbn in Hx; [injection Hx as <-; by rewrite Z.add_0_r|].
      replace (p + Z.of_nat (S i)) with (p + 1 + Z.of_nat i) by lia. by apply Hi.
    + intros (Hl1 & Hi & Hl2). inversion Hl1; subst. split_and!; try done.
      * specialize (Hi 0%nat c eq_refl). by rewrite Z.add_0_r in Hi.
      * intros i x Hx. specialize (Hi (S i) x Hx).
        by replace (p + 1 + Z.of_nat i) with (p + Z.of_nat (S i)) by lia.
Qed.

Lemma is_char_s8_inj a b : 0 <= a < 256 -> 0 <= b < 256 -> s8 a = s8 b -> a = b.
Proof. word. Qed.

(** ** strlen and strnlen *)

Lemma strlen_loop_run l fuel p i s :
  PAGE <= p + i -> cstr (mem s) (p + i) l -> (length l < fuel)%nat ->
  strlen_loop fuel p i s = Ok (i + Z.of_nat (length l)) s.
Proof.
  revert fuel i. induction l as [|c l IH]; intros [|fuel] i Hp Hl Hf; try (simpl in Hf; lia);
    cbn [strlen_loop cstr length] in *; erewrite bind_Ok by (by apply load_ok);
    cbv beta; rewrite ld1_rd.
  - rewrite Hl. cbn. by rewrite Z.add_0_r.
  - destruct Hl as (-> & Hc & Hl). unfold is_char in Hc.
    rewrite (proj2 (Z.eqb_neq c 0)) by lia.
    rewrite IH; [f_equal; lia | lia | by rewrite Z.add_assoc | lia].
Qed.

Lemma strlen_run l fuel p s :
  PAGE <= p -> cstr (mem s) p l -> (length l < fuel)%nat ->
  strlen fuel p s = Ok (Z.of_nat (length l)) s.
Proof.
  intros. unfold strlen. rewrite (strlen_loop_run l); [done | lia | by rewrite Z.add_0_r | done].
Qed.

Lemma strnlen_loop_run l fuel p n i s :
  PAGE <= p + i -> i <= n -> cstr (mem s) (p + i) l -> (length l < fuel)%nat ->
  strnlen_loop fuel p n i s = Ok (Z.min n (i + Z.of_nat (length l))) s.
Proof.
  revert fuel i. induction l as [|c l IH]; intros [|fuel] i Hp Hi Hl Hf; try (simpl in Hf; lia);
    cbn [strnlen_loop cstr length] in *; (destruct (Z.eqb_spec i n); [unfold ret; f_equal; lia|]);
    erewrite bind_Ok by (by apply load_ok); cbv beta; rewrite ld1_rd.
  - rewrite Hl. cbn. unfold ret. f_equal. lia.
  - destruct Hl as (-> & Hc & Hl). unfold is_char in Hc.
    rewrite (proj2 (Z.eqb_neq c 0)) by lia.
    rewrite IH; [f_equal; lia | lia | lia | by rewrite Z.add_assoc | lia].
Qed.

(** ** Comparison *)

(** The value [strcmp] returns: the difference of the signed characters at the
    first place where the strings differ. *)
Fixpoint str_diff (l1 l2 : list Z) : Z :=
  match l1, l2 with
  | c1 :: l1, c2 :: l2 => if c1 =? c2 then str_diff l1 l2 else s8 c1 - s8 c2
  | c1 :: _, [] => s8 c1
  | [], c2 :: _ => - s8 c2
  | [], [] => 0
  end.

Lemma is_char_s8 c : is_char c -> s8 c <> 0.
Proof. unfold is_char. word. Qed.

Lemma str_diff_zero l1 l2 :
  Forall is_char l1 -> Forall is_char l2 -> str_diff l1 l2 = 0 <-> l1 = l2.
Proof.
  intros H1 H2. revert l2 H2. induction H1 as [|c1 l1 Hc1 H1 IH]; intros l2 H2;
    destruct H2 as [|c2 l2 Hc2 H2]; cbn [str_diff].
  - done.
  - split; [|done]. pose proof (is_char_s8 c2 Hc2). lia.
  - split; [|done]. pose proof (is_char_s8 c1 Hc1). lia.
  - case_Z.
    + subst. rewrite (IH l2 H2). split; [by intros -> | by intros [= ->]].
    + split; [|by intros [= -> ->]]. intros Heq.
      assert (c1 = c2) by (apply is_char_s8_inj; [unfold is_char in *; lia.. | lia]). lia.
Qed.

Lemma cstr_chars m p l : cstr m p l -> Forall is_char l.
Proof.
  revert p. induction l as [|c l IH]; intros p Hl; [constructor|].
  destruct Hl as (_ & Hc & Hl). constructor; [done | by eapply IH].
Qed.

(** The first characters of two strings, as the comparison loops see them. *)
Definition head_char (l : list Z) : Z := default 0 (head l).

Lemma cstr_head m p l : cstr m p l -> rd m p = head_char l.
Proof. destruct l; [done | by intros (? & _)]. Qed.

Lemma chars_go_on_run p q l1 l2 s :
  PAGE <= p -> PAGE <= q -> cstr (mem s) p l1 -> cstr (mem s) q l2 ->
  chars_go_on p q s = Ok (negb (head_char l1 =? 0) && (head_char l1 =? head_char l2)) s.
Proof.
  intros Hp Hq H1%cstr_head H2%cstr_head. unfold chars_go_on.
  erewrite bind_Ok by (by apply load_ok). cbv beta. rewrite ld1_rd, H1.
  destruct (head_char l1 =? 0); [done|].
  erewrite bind_Ok by (by apply load_ok). cbv beta. by rewrite ld1_rd, H2.
Qed.

Lemma char_diff_run p q l1 l2 s :
  PAGE <= p -> PAGE <= q -> cstr (mem s) p l1 -> cstr (mem s) q l2 ->
  char_diff p q s = Ok (s8 (head_char l1) - s8 (head_char l2)) s.
Proof.
  intros Hp Hq H1%cstr_head H2%cstr_head. unfold char_diff.
  erewrite bind_Ok by (by apply load_ok). cbv beta.
  erewrite bind_Ok by (by apply load_ok). cbv beta. by rewrite !ld1_rd, H1, H2.
Qed.

(** One turn of a comparison loop: either both strings go on with the same
    character, or the result is known, however far one looks. *)
Lemma compare_cases l1 l2 :
  Forall is_char l1 -> Forall is_char l2 ->
  (exists c k1 k2, l1 = c :: k1 /\ l2 = c :: k2 /\
     negb (head_char l1 =? 0) && (head_char l1 =? head_char l2) = true) \/
  (negb (head_char l1 =? 0) && (head_char l1 =? head_char l2) = false /\
   str_diff l1 l2 = s8 (head_char l1) - s8 (head_char l2) /\
   forall n, str_diff (take (S n) l1) (take (S n) l2) = s8 (head_char l1) - s8 (head_char l2)).
Proof.
  assert (Hz : forall c, is_char c -> (c =? 0) = false)
    by (unfold is_char; intros; apply Z.eqb_neq; lia).
  intros H1 H2. destruct H1 as [|c1 l1 Hc1 H1], H2 as [|c2 l2 Hc2 H2];
    unfold head_char; cbn -[s8 Z.eqb]; change (s8 0) with 0; rewrite ?(Hz c1 Hc1).
  - right. split_and!; done.
  - right. split_and!; [done | lia | intros _; lia].
  - right. by rewrite Z.sub_0_r.
  - destruct (Z.eqb_spec c1 c2) as [->|Hne].
    + left. by exists c2, l1, l2.
    + right. done.
Qed.

Lemma strcmp_run l1 l2 fuel p q s :
  PAGE <= p -> PAGE <= q -> cstr (mem s) p l1 -> cstr (mem s) q l2 ->
  (length l1 < fuel)%nat -> strcmp fuel p q s = Ok (str_diff l1 l2) s.
Proof.
  revert l1 l2 p q. induction fuel as [|fuel IH]; intros l1 l2 p q Hp Hq H1 H2 Hf; [lia|].
  cbn [strcmp]. erewrite bind_Ok by (by apply (chars_go_on_run p q l1 l2)). cbv beta.
  destruct (compare_cases l1 l2 (cstr_chars _ _ _ H1) (cstr_chars _ _ _ H2))
    as [(c & k1 & k2 & -> & -> & Hgo) | (-> & -> & _)]; [|by apply char_diff_run].
  rewrite Hgo. cbn [cstr str_diff length] in *. rewrite Z.eqb_refl.
  apply IH; [lia | lia | apply H1 | apply H2 | lia].
Qed.

Lemma strncmp_loop_run l1 l2 fuel i p q n s :
  PAGE <= p -> PAGE <= q -> cstr (mem s) p l1 -> cstr (mem s) q l2 -> 0 <= i <= n ->
  (length l1 < fuel)%nat ->
  strncmp_loop fuel i p q n s =
    Ok (str_diff (take (Z.to_nat (n - i)) l1) (take (Z.to_nat (n - i)) l2)) s.
Proof.
  revert l1 l2 i p q. induction fuel as [|fuel IH]; intros l1 l2 i p q Hp Hq H1 H2 Hi Hf; [lia|].
  cbn [strncmp_loop]. destruct (Z.eqb_spec i n) as [->|Hne].
  { rewrite Z.sub_diag. done. }
  erewrite bind_Ok by (by apply (chars_go_on_run p q l1 l2)). cbv beta.
  assert (Hn : exists k, Z.to_nat (n - i) = S k) by (exists (Z.to_nat (n - i - 1)); lia).
  destruct Hn as [k Hk].
  assert (Hk' : Z.to_nat (n - (i + 1)) = k) by lia.
  destruct (compare_cases l1 l2 (cstr_chars _ _ _ H1) (cstr_chars _ _ _ H2))
    as [(c & k1 & k2 & -> & -> & Hgo) | (-> & _ & Hd)].
  - rewrite Hgo. cbn [cstr length] in *. rewrite Hk. cbn [take str_diff]. rewrite Z.eqb_refl, <- Hk'.
    apply IH; [lia | lia | apply H1 | apply H2 | lia | lia].
  - rewrite Hk, Hd. by apply char_diff_run.
Qed.

(** ** strcpy *)

(** The comparison with a literal of [n] characters looks at [n] bytes. *)
Lemma strncmp_lit_run lit fuel i str1 s :
  PAGE <= str1 -> Forall is_char lit -> (length lit < fuel)%nat ->
  exists r, strncmp_lit fuel i str1 lit (i + Z.of_nat (length lit)) s = Ok r s /\
    (r = 0 <-> bytes_at (mem s) str1 (length lit) = lit).
Proof.
  revert fuel i str1. induction lit as [|c lit IH]; intros [|fuel] i str1 Hp Hc Hf;
    try (cbn in Hf; lia); cbn [strncmp_lit length] in *.
  - rewrite Z.add_0_r, Z.eqb_refl. by exists 0.
  - apply Forall_cons in Hc as [Hch Hc]. rewrite (proj2 (Z.eqb_neq i _)) by lia.
    cbn [head tail default from_option id bytes_at]. unfold is_char in Hch.
    assert (Hload : load 1 str1 s = Ok (rd (mem s) str1) s) by (rewrite load_ok by done; by rewrite ld1_rd).
    pose proof (rd_range (mem s) str1) as Hr.
    destruct (Z.eqb_spec (rd (mem s) str1) c) as [He|Hne].
    + destruct (IH fuel (i + 1) (str1 + 1)) as (r & R & Hz); [lia | done | lia |].
      exists r. split.
      * rewrite (bind_Ok _ _ s true s).
        -- replace (i + Z.of_nat (S (length lit))) with (i + 1 + Z.of_nat (length lit)) by lia. exact R.
        -- erewrite bind_Ok by exact Hload. cbv beta. rewrite (proj2 (Z.eqb_neq _ 0)) by lia.
           erewrite bind_Ok by exact Hload. cbv beta. by rewrite He, Z.eqb_refl.
      * rewrite Hz, He. split; [by intros -> | by intros [=]].
    + exists (s8 (rd (mem s) str1) - s8 c). split.
      * rewrite (bind_Ok _ _ s false s).
        -- by erewrite bind_Ok by exact Hload.
        -- erewrite bind_Ok by exact Hload. cbv beta. destruct (_ =? 0); [done|].
           erewrite bind_Ok by exact Hload. cbv beta. by rewrite (proj2 (Z.eqb_neq _ c)).
      * split; [|by intros [=]]. intros Hd. exfalso. apply Hne, is_char_s8_inj; lia.
Qed.

Lemma strcpy_loop_run l fuel dest src i s :
  PAGE <= dest + i -> PAGE <= src + i -> cstr (mem s) (src + i) l ->
  apart (dest + i) (Z.of_nat (length l) + 1) (src + i) (Z.of_nat (length l) + 1) ->
  (length l < fuel)%nat ->
  exists s', strcpy_loop fuel dest src i s = Ok tt s' /\ same_regs s s' /\
    cstr (mem s') (dest + i) l /\
    same_on (fun a => ~ within a (dest + i) (Z.of_nat (length l) + 1)) (mem s) (mem s').
Proof.
  revert fuel i s. induction l as [|c l IH]; intros [|fuel] i s Hd Hs Hl Hap Hf;
    try (simpl in Hf; lia); cbn [strcpy_loop cstr length] in *;
    erewrite bind_Ok by (by apply load_ok); cbv beta; rewrite ld1_rd.
  - rewrite Hl. cbn [Z.eqb]. rewrite store_ok by done. eexists. split; [reflexivity|].
    split_and!; [done | apply rd_wr_eq | by apply same_on_st].
  - destruct Hl as (-> & Hc & Hl). rewrite (proj2 (Z.eqb_neq c 0)) by (unfold is_char in Hc; lia).
    erewrite bind_Ok by (by apply store_ok).
    set (s1 := with_mem s _).
    assert (Hm1 : same_on (fun a => ~ within a (dest + i) 1) (mem s) (mem s1))
      by (apply same_on_st; intros b Hb; exact Hb).
    destruct (IH fuel (i + 1) s1) as (s' & Hrun & Hr & Hd' & Hm);
      [lia | lia | | unfold apart in *; lia | lia |].
    { rewrite Z.add_assoc. eapply cstr_ext; [|exact Hl]. eapply same_on_weaken; [exact Hm1|].
      unfold apart, within in *. lia. }
    exists s'. split; [exact Hrun|]. split_and!.
    + eapply same_regs_trans; [apply same_regs_with_mem | exact Hr].
    + rewrite Hm by (unfold within; lia). cbn. rewrite rd_wr_eq. unfold is_char in Hc. word.
    + done.
    + by rewrite <- Z.add_assoc.
    + intros a Ha. rewrite Hm by (unfold within in *; lia). apply Hm1. unfold within in *. lia.
Qed.

(** ** Numerals *)

Section Numerals.
Context (b : Z) (enc dec : Z -> Z) (Hb : 1 < b).

(** The [n] low digits of [t], most significant first. *)
Fixpoint numeral (n : nat) (t : Z) : list Z :=
  match n with
  | O => []
  | S n => numeral n (t / b) ++ [enc (t mod b)]
  end.

(** The number a list of digits stands for. *)
Definition num_value (l : list Z) : Z := foldl (fun a c => b * a + dec c) 0 l.

Lemma numeral_length n t : length (numeral n t) = n.
Proof. clear dec Hb. revert t. induction n as [|n IH]; intros t; [done|]. cbn. rewrite length_app, IH. cbn. lia. Qed.

Lemma num_value_numeral n t :
  0 <= t -> (forall d, 0 <= d < b -> dec (enc d) = d) -> num_value (numeral n t) = t mod b ^ Z.of_nat n.
Proof using Hb.
  intros Ht Hd. revert t Ht. induction n as [|n IH]; intros t Ht.
  - cbn. by rewrite Z.mod_1_r.
  - cbn [numeral]. unfold num_value in *. rewrite foldl_app. cbn [foldl].
    rewrite IH by (apply Z.div_pos; lia). rewrite Hd by (apply Z.mod_pos_bound; lia).
    replace (Z.of_nat (S n)) with (1 + Z.of_nat n) by lia.
    rewrite Z.pow_add_r, Z.pow_1_r, Z.rem_mul_r by (try apply Z.pow_nonzero; lia). lia.
Qed.

Lemma numeral_digits (P : Z -> Prop) n t :
  (forall d, 0 <= d < b -> P (enc d)) -> Forall P (numeral n t).
Proof using Hb.
  clear dec. intros HP. revert t. induction n as [|n IH]; intros t; [constructor|].
  cbn. apply Forall_app. split; [done|]. constructor; [|constructor].
  apply HP, Z.mod_pos_bound. lia.
Qed.

(** The first digit of a number with exactly [n + 1] digits is not zero. *)
Lemma numeral_head n t :
  b ^ Z.of_nat n <= t < b ^ Z.of_nat (S n) ->
  exists d l, numeral (S n) t = enc d :: l /\ 0 < d < b.
Proof using Hb.
  clear dec. revert t. induction n as [|n IH]; intros t Ht.
  - exists t, []. rewrite Z.pow_1_r in Ht. cbn. rewrite Z.mod_small by lia. split; [done | lia].
  - destruct (IH (t / b)) as (d & l & Hl & Hd).
    { replace (Z.of_nat (S (S n))) with (1 + Z.of_nat (S n)) in Ht by lia.
      replace (Z.of_nat (S n)) with (1 + Z.of_nat n) in Ht at 1 by lia.
      rewrite !Z.pow_add_r, Z.pow_1_r in Ht by lia. split.
      - apply Z.div_le_lower_bound; lia.
      - apply Z.div_lt_upper_bound; lia. }
    exists d, (l ++ [enc (t mod b)]). split; [|done].
    change (numeral (S (S n)) t) with (numeral (S n) (t / b) ++ [enc (t mod b)]). by rewrite Hl.
Qed.
End Numerals.

Definition dec_char (d : Z) : Z := d + 48.
Definition dec_val (c : Z) : Z := c - 48.
Definition hex_val (c : Z) : Z := if c <? 65 then c - 48 else c - 55.

Lemma hex_char_val d : 0 <= d < 16 -> hex_val (hex_char d) = d /\ is_char (hex_char d).
Proof.
  intros Hd. unfold is_char.
  assert (Hall : Forall (fun d => hex_val (hex_char d) = d /\ 0 < hex_char d < 256) (seqZ 0 16))
    by (apply (bool_decide_unpack _); by vm_compute).
  rewrite Forall_forall in Hall. apply Hall, elem_of_seqZ. lia.
Qed.

Lemma cstr_intro m p l : (forall i c, l !! i = Some c -> rd m (p + Z.of_nat i) = c) ->
  Forall is_char l -> rd m (p + Z.of_nat (length l)) = 0 -> cstr m p l.
Proof.
  intros Hi Hc Hz. rewrite <- (app_nil_r l). apply cstr_app. split_and!; [done | done | exact Hz].
Qed.

(** Writing a string with its terminator. *)
Lemma cstr_write_bytes m a l : Forall is_char l -> cstr (write_bytes m a (l ++ [0])) a l.
Proof.
  intros Hl. apply cstr_intro; [| done |].
  - intros i c Hi. rewrite (rd_write_bytes _ _ _ i c) by (by apply lookup_app_l_Some).
    rewrite Forall_forall in Hl. specialize (Hl c (list_elem_of_lookup_2 _ _ _ Hi)).
    unfold is_char in Hl. word.
  - by rewrite (rd_write_bytes _ _ _ (length l) 0) by (by rewrite lookup_app_r, Nat.sub_diag).
Qed.

Section ConversionSpecs.
Context `{StringStatics}.

Lemma count_digits_spec fuel t size s :
  0 <= t < 10 ^ Z.of_nat fuel -> (0 < fuel)%nat ->
  exists k, count_digits fuel t size s = Ok (size + Z.of_nat k) s /\
    t < 10 ^ Z.of_nat (S k) /\ (k = 0%nat \/ 10 ^ Z.of_nat k <= t) /\ (k < fuel)%nat.
Proof.
  revert t size. induction fuel as [|fuel IH]; intros t size Ht Hf; [lia|].
  cbn [count_digits]. rewrite Z.quot_div_nonneg by lia. case_Z.
  - exists 0%nat. rewrite Z.add_0_r, Z.pow_1_r. split_and!; [done | lia | by left | lia].
  - replace (Z.of_nat (S fuel)) with (1 + Z.of_nat fuel) in Ht by lia.
    rewrite Z.pow_add_r, Z.pow_1_r in Ht by lia.
    destruct fuel as [|fuel]; [cbn in Ht; lia|].
    destruct (IH (t / 10) (size + 1)) as (k & Hrun & Hlt & Hge & Hk); [lia | lia |].
    exists (S k). split_and!.
    + rewrite Hrun. f_equal. lia.
    + replace (Z.of_nat (S (S k))) with (1 + Z.of_nat (S k)) by lia.
      rewrite Z.pow_add_r, Z.pow_1_r by lia. lia.
    + right. destruct Hge as [-> | Hge]; [cbn; lia|].
      replace (Z.of_nat (S k)) with (1 + Z.of_nat k) by lia.
      rewrite Z.pow_add_r, Z.pow_1_r by lia. lia.
    + lia.
Qed.

Lemma put_digits_spec n fuel t s :
  PAGE <= addr_ret -> 0 <= t -> (n < fuel)%nat ->
  exists s', put_digits fuel (Z.of_nat n - 1) t s = Ok tt s' /\ same_regs s s' /\
    (forall i c, numeral 10 dec_char n t !! i = Some c -> rd (mem s') (addr_ret + Z.of_nat i) = c) /\
    same_on (fun a => ~ within a addr_ret (Z.of_nat n)) (mem s) (mem s').
Proof.
  intros Ha. revert fuel t s. induction n as [|n IH]; intros [|fuel] t s Ht Hf; try lia;
    cbn [put_digits].
  - exists s. split_and!; [done | apply same_regs_refl | done | done].
  - rewrite (proj2 (Z.leb_le 0 _)) by lia. erewrite bind_Ok by (apply store_ok; lia).
    rewrite Z.quot_div_nonneg, Z.rem_mod_nonneg by lia.
    replace (Z.of_nat (S n) - 1 - 1) with (Z.of_nat n - 1) by lia.
    set (s1 := with_mem s _).
    destruct (IH fuel (t / 10) s1) as (s' & Hrun & Hr & Hd & Hm); [lia | lia |].
    exists s'. split_and!; [exact Hrun | eapply same_regs_trans; [apply same_regs_with_mem | exact Hr] | |].
    + intros i c. cbn [numeral]. intros [Hi | (Hi & Hc)]%lookup_app_Some; [by apply Hd|].
      rewrite numeral_length in *. apply list_lookup_singleton_Some in Hc as [Hc <-].
      assert (i = n) as -> by lia. rewrite Hm by (unfold within; lia).
      unfold s1. cbn [mem with_mem st]. replace (addr_ret + (Z.of_nat (S n) - 1)) with (addr_ret + Z.of_nat n) by lia.
      rewrite rd_wr_eq. unfold dec_char. pose proof (Z.mod_pos_bound t 10). word.
    + intros a Hna. rewrite Hm by (unfold within in *; lia). apply rd_st_ne.
      unfold within in *. lia.
Qed.

(** The string [itoa] leaves for a number that is not negative. *)
Lemma itoa_spec res s :
  PAGE <= addr_ret -> 0 <= res < 2 ^ 31 ->
  exists s' n, itoa res s = Ok addr_ret s' /\ same_regs s s' /\
    cstr (mem s') addr_ret (numeral 10 dec_char (S n) res) /\
    res < 10 ^ Z.of_nat (S n) /\ (n = 0%nat \/ 10 ^ Z.of_nat n <= res) /\ (n < 10)%nat /\
    same_on (fun a => ~ within a addr_ret 11) (mem s) (mem s').
Proof.
  intros Ha Hres. unfold itoa.
  destruct (count_digits_spec 10 res 0 s) as (n & Hrun & Hlt & Hge & Hn);
    [change (2 ^ 31) with 2147483648 in Hres; cbn; lia | lia |].
  erewrite bind_Ok by exact Hrun. cbv beta zeta. rewrite Z.add_0_l.
  erewrite bind_Ok by (apply store_ok; lia). set (s1 := with_mem s _).
  replace (Z.of_nat n + 1 - 1) with (Z.of_nat (S n) - 1) by lia.
  destruct (put_digits_spec (S n) 11 res s1) as (s2 & Hrun2 & Hr & Hd & Hm); [done | lia | lia |].
  erewrite bind_Ok by exact Hrun2.
  assert (Hm1 : same_on (fun a => a <> addr_ret + (Z.of_nat n + 1)) (mem s) (mem s1)).
  { apply same_on_st. unfold within. lia. }
  exists s2, n. split; [reflexivity|]. split_and!; [exact Hr | | done | done | done |].
  - apply cstr_intro.
    + exact Hd.
    + apply numeral_digits; [lia|]. unfold is_char, dec_char. lia.
    + rewrite numeral_length, Hm by (unfold within; lia). unfold s1. cbn [mem with_mem st].
      replace (addr_ret + (Z.of_nat n + 1)) with (addr_ret + Z.of_nat (S n)) by lia. apply rd_wr_eq.
  - intros a Hna. rewrite Hm by (unfold within in *; lia). apply Hm1. unfold within in *. lia.
Qed.

Lemma put_hex_spec fuel ptr v s :
  PAGE + Z.of_nat fuel <= ptr -> 0 <= v < 16 ^ (Z.of_nat fuel - 1) ->
  (0 < fuel)%nat ->
  exists s' n, put_hex fuel ptr v s = Ok (ptr - Z.of_nat n) s' /\ same_regs s s' /\
    (forall i c, numeral 16 hex_char n v !! i = Some c ->
       rd (mem s') (ptr - Z.of_nat n + Z.of_nat i) = c) /\
    v < 16 ^ Z.of_nat n /\ (n = 0%nat \/ 16 ^ (Z.of_nat n - 1) <= v) /\ (n < fuel)%nat /\
    same_on (fun a => ~ within a (ptr - Z.of_nat n) (Z.of_nat n)) (mem s) (mem s').
Proof.
  revert ptr v s. induction fuel as [|fuel IH]; intros ptr v s Hp Hv Hf; [lia|].
  cbn [put_hex]. destruct (Z.ltb_spec 0 v) as [Hpos|Hz].
  - erewrite bind_Ok by (apply store_ok; lia). set (s1 := with_mem s _).
    rewrite Z.shiftr_div_pow2 by lia. change (2 ^ 4) with 16.
    destruct fuel as [|fuel]; [cbn in Hv; lia|].
    assert (Hpow : 16 ^ (Z.of_nat (S (S fuel)) - 1) = 16 * 16 ^ (Z.of_nat (S fuel) - 1)).
    { replace (Z.of_nat (S (S fuel)) - 1) with (1 + (Z.of_nat (S fuel) - 1)) by lia.
      by rewrite Z.pow_add_r, Z.pow_1_r by lia. }
    destruct (IH (ptr - 1) (v / 16) s1) as (s' & n & Hrun & Hr & Hd & Hlt & Hge & Hn & Hm);
      [lia | lia | lia |].
    exists s', (S n). replace (ptr - Z.of_nat (S n)) with (ptr - 1 - Z.of_nat n) by lia.
    split_and!; [exact Hrun | eapply same_regs_trans; [apply same_regs_with_mem | exact Hr] | | | | lia |].
    + intros i c. cbn [numeral]. intros [Hi | (Hi & Hc)]%lookup_app_Some; [by apply Hd|].
      rewrite numeral_length in *. apply list_lookup_singleton_Some in Hc as [Hc <-].
      assert (i = n) as -> by lia. rewrite Hm by (unfold within; lia).
      unfold s1. cbn [mem with_mem st]. replace (ptr - 1 - Z.of_nat n + Z.of_nat n) with (ptr - 1) by lia.
      rewrite rd_wr_eq. change 15 with (Z.ones 4). rewrite Z.land_ones by lia. change (2 ^ 4) with 16.
      destruct (hex_char_val (v mod 16)) as [_ Hch]; [lia|]. unfold is_char in Hch. word.
    + replace (Z.of_nat (S n)) with (1 + Z.of_nat n) by lia. rewrite Z.pow_add_r, Z.pow_1_r by lia. lia.
    + right. replace (Z.of_nat (S n) - 1) with (Z.of_nat n) by lia.
      destruct Hge as [-> | Hge]; [cbn; lia|].
      destruct n as [|n]; [cbn; lia|].
      replace (Z.of_nat (S n)) with (1 + (Z.of_nat (S n) - 1)) by lia.
      rewrite Z.pow_add_r, Z.pow_1_r by lia. lia.
    + intros a Hna. rewrite Hm by (unfold within in *; lia). apply rd_st_ne.
      unfold within in *. lia.
  - exists s, 0%nat. rewrite Z.sub_0_r. cbn [numeral].
    split_and!; [done | apply same_regs_refl | done | cbn; lia | by left | lia | done].
Qed.
End ConversionSpecs.

(** ** Correctness *)

(** On strings in memory [strcmp] terminates without a fault and returns
    zero exactly when the strings are equal; otherwise it returns the difference
    of the (signed) characters where they first differ. *)
Theorem strcmp_decides_equality fuel p q l1 l2 s :
  PAGE <= p -> PAGE <= q -> cstr (mem s) p l1 -> cstr (mem s) q l2 ->
  (length l1 < fuel)%nat ->
  exists r, strcmp fuel p q s = Ok r s /\ r = str_diff l1 l2 /\ (r = 0 <-> l1 = l2).
Proof.
  intros Hp Hq H1 H2 Hf. exists (str_diff l1 l2). split_and!; [by apply strcmp_run | done |].
  apply str_diff_zero; by eapply cstr_chars.
Qed.

(** [strcpy] to a buffer that does not overlap the source leaves the
    string and its terminator at the destination and changes nothing else. *)
Theorem strcpy_copies fuel dest src l s :
  PAGE <= dest -> PAGE <= src -> cstr (mem s) src l ->
  apart dest (Z.of_nat (length l) + 1) src (Z.of_nat (length l) + 1) ->
  (length l < fuel)%nat ->
  exists s', strcpy fuel dest src s = Ok tt s' /\ same_regs s s' /\ cstr (mem s') dest l /\
    same_on (fun a => ~ within a dest (Z.of_nat (length l) + 1)) (mem s) (mem s').
Proof.
  intros Hd Hs Hl Hap Hf. pose proof (strcpy_loop_run l fuel dest src 0 s) as H.
  rewrite !Z.add_0_r in H. by apply H.
Qed.

Section ConversionTheorems.
Context `{StringStatics}.

(** The results of the two conversions: the notation of the number, without a
    leading zero, in the static buffer. *)
Definition decimal (v : Z) (l : list Z) : Prop :=
  Forall (fun c => 48 <= c <= 57) l /\ num_value 10 dec_val l = v /\ (0 < v -> head l <> Some 48) /\
  (length l <= 10)%nat.
Definition hexadecimal (v : Z) (l : list Z) : Prop :=
  num_value 16 hex_val l = v /\ (0 < v -> head l <> Some 48) /\ (length l <= 16)%nat.

Lemma itoa_run res s :
  PAGE <= addr_ret -> 0 <= res < 2 ^ 31 ->
  exists s' l, itoa res s = Ok addr_ret s' /\ same_regs s s' /\ cstr (mem s') addr_ret l /\
    decimal res l /\ same_on (fun a => ~ within a addr_ret 11) (mem s) (mem s').
Proof.
  intros Ha Hres. destruct (itoa_spec res s Ha Hres) as (s' & n & Hrun & Hr & Hl & Hlt & Hge & Hn & Hm).
  exists s', (numeral 10 dec_char (S n) res).
  split_and!; [done | done | done | split_and! | done].
  - apply numeral_digits; [lia|]. unfold dec_char. lia.
  - rewrite num_value_numeral; [apply Z.mod_small; split; [lia | done] | lia | lia | unfold dec_char, dec_val; lia].
  - intros Hpos. destruct Hge as [-> | Hge].
    + cbn in *. unfold dec_char. rewrite Z.mod_small by lia. intros [=]. lia.
    + destruct (numeral_head 10 dec_char ltac:(lia) n res) as (d & l & -> & Hd); [done|].
      cbn. unfold dec_char. intros [=]. lia.
  - rewrite numeral_length. lia.
Qed.

(** [itoa] of a number that is not negative returns its decimal notation:
    digits without leading zero whose value is the number, within the first
    eleven bytes of the static buffer. *)
Theorem itoa_decimal res s :
  PAGE <= addr_ret -> 0 <= res < 2 ^ 31 ->
  exists s' l, itoa res s = Ok addr_ret s' /\ cstr (mem s') addr_ret l /\
    Forall (fun c => 48 <= c <= 57) l /\ num_value 10 dec_val l = res /\
    (0 < res -> head l <> Some 48) /\
    same_on (fun a => ~ within a addr_ret 11) (mem s) (mem s').
Proof.
  intros Ha Hres. destruct (itoa_run res s Ha Hres) as (s' & l & H1 & _ & H2 & (H3 & H4 & H5 & _) & H6).
  by exists s', l.
Qed.

Lemma hexToString_run value s :
  PAGE <= addr_hexString -> 0 <= value < 2 ^ 64 ->
  exists p s' l, hexToString value s = Ok p s' /\ same_regs s s' /\ within p addr_hexString 128 /\
    cstr (mem s') p l /\ hexadecimal value l /\
    same_on (fun a => ~ within a addr_hexString 128) (mem s) (mem s').
Proof.
  intros Ha Hv. unfold hexToString. cbv zeta.
  erewrite bind_Ok by (apply store_ok; lia). set (s1 := with_mem s _).
  assert (Hm1 : same_on (fun a => a <> addr_hexString + 127) (mem s) (mem s1))
    by (apply same_on_st; unfold within; lia).
  assert (Hr1 : same_regs s s1) by apply same_regs_with_mem.
  assert (Hz1 : rd (mem s1) (addr_hexString + 127) = 0) by (apply rd_wr_eq).
  destruct (Z.eqb_spec value 0) as [Hv0|Hv0].
  - subst. erewrite bind_Ok by (apply store_ok; lia). set (s2 := with_mem s1 _).
    assert (Hm2 : same_on (fun a => a <> addr_hexString + 127 - 1) (mem s1) (mem s2))
      by (apply same_on_st; unfold within; lia).
    exists (addr_hexString + 127 - 1), s2, [48].
    split_and!; [done | eapply same_regs_trans; [exact Hr1 | apply same_regs_with_mem] | | | split_and!; [done | done | cbn; lia] |].
    + unfold within. lia.
    + split; [apply rd_wr_eq | split; [unfold is_char; lia|]].
      cbn [cstr]. rewrite (Hm2 _) by lia. rewrite <- Hz1. f_equal. lia.
    + intros a Hna. rewrite Hm2, Hm1 by (unfold within in *; lia). done.
  - destruct (put_hex_spec 17 (addr_hexString + 127) value s1)
      as (s2 & n & Hrun & Hr2 & Hd & Hlt & Hge & Hn & Hm);
      [lia | change (2 ^ 64) with (16 ^ 16) in Hv; cbn -[Z.pow]; lia | lia |].
    set (p := addr_hexString + 127 - Z.of_nat n) in *.
    exists p, s2, (numeral 16 hex_char n value).
    assert (Hcv : forall d, 0 <= d < 16 -> hex_val (hex_char d) = d) by (intros; by apply hex_char_val).
    split_and!; [exact Hrun | eapply same_regs_trans; [exact Hr1 | exact Hr2] | unfold p, within; lia | | split_and! |].
    + apply cstr_intro; [exact Hd | |].
      * apply numeral_digits; [lia|]. intros. by apply hex_char_val.
      * rewrite numeral_length, Hm by (unfold p, within; lia). rewrite <- Hz1. f_equal. lia.
    + rewrite num_value_numeral; [apply Z.mod_small; split; [lia | done] | lia | lia | done].
    + intros _. destruct n as [|n]; [cbn in Hlt; lia|].
      destruct (numeral_head 16 hex_char ltac:(lia) n value) as (d & l & -> & Hdr).
      { split; [|done]. destruct Hge as [|Hge]; [done|].
        by replace (Z.of_nat (S n) - 1) with (Z.of_nat n) in Hge by lia. }
      cbn. intros [= Heq]. pose proof (Hcv d ltac:(lia)) as Hv'. rewrite Heq in Hv'. cbn in Hv'. lia.
    + rewrite numeral_length. lia.
    + intros a Hna. rewrite Hm, Hm1 by (unfold p, within in *; lia). done.
Qed.

(** [hexToString] returns the hexadecimal notation of every 64-bit value,
    inside its static buffer, without leading zeros. *)
Theorem hexToString_hexadecimal value s :
  PAGE <= addr_hexString -> 0 <= value < 2 ^ 64 ->
  exists p s' l, hexToString value s = Ok p s' /\ within p addr_hexString 128 /\
    cstr (mem s') p l /\ num_value 16 hex_val l = value /\
    (0 < value -> head l <> Some 48) /\
    same_on (fun a => ~ within a addr_hexString 128) (mem s) (mem s').
Proof.
  intros Ha Hv. destruct (hexToString_run value s Ha Hv) as (p & s' & l & H1 & _ & H2 & H3 & (H4 & H5 & _) & H6).
  by exists p, s', l.
Qed.

(** A negative number of one digit comes out as one character below '0',
    without a sign: [itoa] only handles numbers that are not negative. *)
Theorem itoa_negative_digit res s :
  PAGE <= addr_ret -> -10 < res < 0 ->
  exists s', itoa res s = Ok addr_ret s' /\ cstr (mem s') addr_ret [48 + res].
Proof.
  intros Ha Hres. unfold itoa. cbn [count_digits].
  assert (Hq : Z.quot res 10 = 0) by (rewrite <- (Z.opp_involutive res), Z.quot_opp_l, Z.quot_small; lia).
  assert (Hr : Z.rem res 10 = res) by (rewrite <- (Z.opp_involutive res), Z.rem_opp_l, Z.rem_small; lia).
  rewrite Hq. cbn [Z.eqb]. erewrite bind_Ok by reflexivity. cbv beta zeta. rewrite Z.add_0_l.
  erewrite bind_Ok by (apply store_ok; lia). rewrite Z.sub_diag.
  cbn [put_digits]. cbn [Z.leb Z.compare]. rewrite Hr, Hq.
  erewrite bind_Ok by (erewrite bind_Ok by (apply store_ok; lia); reflexivity).
  eexists. split; [reflexivity|]. cbn [mem with_mem st].
  rewrite Z.add_0_r. split_and!; [rewrite rd_wr_eq; word | unfold is_char; lia |].
  cbn [cstr]. rewrite rd_wr_ne by lia. apply rd_wr_eq.
Qed.
End ConversionTheorems.

(** ** Examples: the strings "ab" and "b", and static buffers *)

#[export] Instance demo_strings : StringStatics := {|
  addr_ret := 0xffffffff80011000;
  addr_hexString := 0xffffffff80011100;
|}.

Definition two_strings : machine :=
  with_mem blank (write_bytes (write_bytes ∅ 0x2000 [97; 98; 0]) 0x3000 [98; 0]).

Lemma strcmp_decides_equality_witness :
  cstr (mem two_strings) 0x2000 [97; 98] /\ cstr (mem two_strings) 0x3000 [98] /\
  exists r, strcmp 5 0x2000 0x3000 two_strings = Ok r two_strings /\ r = -1.
Proof.
  assert (H1 : cstr (mem two_strings) 0x2000 [97; 98]) by (vm_compute; repeat split).
  assert (H2 : cstr (mem two_strings) 0x3000 [98]) by (vm_compute; repeat split).
  split; [exact H1|]. split; [exact H2|].
  destruct (strcmp_decides_equality 5 0x2000 0x3000 [97; 98] [98] two_strings) as (r & Hr & Hd & _).
  - lia.
  - lia.
  - exact H1.
  - exact H2.
  - simpl. lia.
  - exists r. split; [exact Hr | rewrite Hd; reflexivity].
Defined.

Lemma strcpy_copies_witness :
  exists s', strcpy 5 0x4000 0x2000 two_strings = Ok tt s' /\ cstr (mem s') 0x4000 [97; 98].
Proof.
  destruct (strcpy_copies 5 0x4000 0x2000 [97; 98] two_strings) as (s' & Hr & _ & Hc & _).
  - lia.
  - lia.
  - vm_compute; repeat split.
  - right. simpl. lia.
  - simpl. lia.
  - exists s'. split; [exact Hr | exact Hc].
Defined.

Lemma itoa_decimal_witness :
  exists s' l, itoa 2023 blank = Ok addr_ret s' /\ cstr (mem s') addr_ret l /\
    num_value 10 dec_val l = 2023.
Proof.
  destruct (itoa_decimal 2023 blank) as (s' & l & H1 & H2 & _ & H3 & _).
  - vm_compute; congruence.
  - vm_compute; split; congruence.
  - exists s', l. split; [exact H1|]. split; [exact H2 | exact H3].
Defined.

Lemma hexToString_hexadecimal_witness :
  exists p s' l, hexToString 0xCAFE blank = Ok p s' /\ cstr (mem s') p l /\
    num_value 16 hex_val l = 0xCAFE.
Proof.
  destruct (hexToString_hexadecimal 0xCAFE blank) as (p & s' & l & H1 & _ & H2 & H3 & _).
  - vm_compute; congruence.
  - vm_compute; split; congruence.
  - exists p, s', l. split; [exact H1|]. split; [exact H2 | exact H3].
Defined.

Lemma itoa_negative_digit_witness :
  exists s', itoa (-7) blank = Ok addr_ret s' /\ cstr (mem s') addr_ret [41].
Proof.
  destruct (itoa_negative_digit (-7) blank) as (s' & H1 & H2).
  - vm_compute; congruence.
  - lia.
  - exists s'. split; [exact H1 | exact H2].
Defined.
