(* ===== verification/Scheduler.v ===== *)
(** multitasking/scheduler.c (with RTC_Check of drivers/rtc/rtc.c): the list of
    processes, the timer-driven task switch and the termination of processes.

    [struct ProcessFrame] has its fields at the offsets gcc gives them: the
    packed [struct Registers] starts at byte 33.  The frames form a list that
    starts at the static [prochead].  [tick] is the round-robin scheduler the
    code implements, on a list of process records; [TaskSwitch_run] relates it
    to the code. *)
From S2P Require Import Prelude Memory Machine.

(** ** struct ProcessFrame and struct Registers *)

Definition off_pid : Z := 0.
Definition off_processName : Z := 1.
Definition off_registers : Z := 33.
Definition off_quanta : Z := 193.
Definition off_cr3 : Z := 200.
Definition off_invalid : Z := 208.
Definition off_next : Z := 216.
Definition sizeof_ProcessFrame : Z := 224.
Definition sizeof_Registers : Z := 160.

(** Offsets in [struct Registers] of the fields [IntAddTask] sets. *)
Definition reg_rip : Z := 120.
Definition reg_cs : Z := 128.
Definition reg_flags : Z := 136.
Definition reg_rsp : Z := 144.
Definition reg_ss : Z := 152.

(** ** Operations *)

Definition RTC_Check : M unit := outb 0x70 0x0C;; _v ← inb 0x71; ret tt.

Definition get_current : M Z := gets (fun s => current (sched_g s)).
Definition set_current (p : Z) : M unit :=
  modify (fun s => with_sched s
    (SchedGlobals (highest_pid (sched_g s)) (schedulingStarted (sched_g s)) p)).

(** The quotation mark of the format strings. *)
Definition quote : string := String (Ascii.ascii_of_nat 34) EmptyString.

Section Ops.
Context `{Statics}.

Fixpoint TerminateTask_loop (fuel : nat) (current_frame pid : Z) : M unit :=
  match fuel with
  | O => out_of_fuel
  | S fuel =>
      let prev_frame := current_frame in
      current_frame ← load 8 (current_frame + off_next);
      p ← load 1 (current_frame + off_pid);
      if p =? pid then
        next ← load 8 (current_frame + off_next);
        store 8 (prev_frame + off_next) next
      else if current_frame =? 0 then ret tt
      else TerminateTask_loop fuel current_frame pid
  end.
Definition TerminateTask (fuel : nat) (pid : Z) : M unit :=
  printf "[DEBUG] Task termination requested for PID %d.\n" [AVal pid];;
  cli;;
  TerminateTask_loop fuel addr_prochead pid.

(** The three stages of [TaskSwitch]; each says whether the routine goes on. *)
Definition switch_enter (stack : Z) : M bool :=
  cur ← get_current;
  if (cur =? 0) || (cur =? addr_prochead) then
    next ← load 8 (addr_prochead + off_next);
    if negb (next =? 0) then
      next ← load 8 (addr_prochead + off_next);
      set_current next;; ret true
    else ret false
  else
    memcpy (cur + off_registers) stack sizeof_Registers;; ret true.

Definition switch_reap (fuel : nat) : M bool :=
  cur ← get_current;
  invalid ← load 1 (cur + off_invalid);
  if negb (invalid =? 0) then
    cur ← get_current;
    pid ← load 1 (cur + off_pid);
    TerminateTask fuel pid;;
    cur ← get_current;
    next ← load 8 (cur + off_next);
    when (negb (next =? 0)) (set_current next);;
    first ← load 8 (addr_prochead + off_next);
    if negb (first =? 0) then set_current first;; ret true
    else set_current addr_prochead;; ret false
  else ret true.

Definition switch_next (stack : Z) : M unit :=
  cur ← get_current;
  q ← load 1 (cur + off_quanta);
  when (q =? 0)
    (store 1 (cur + off_quanta) 10;;
     next ← load 8 (cur + off_next);
     if negb (next =? 0) then set_current next
     else first ← load 8 (addr_prochead + off_next); set_current first);;
  cur ← get_current;
  q ← load 1 (cur + off_quanta);
  store 1 (cur + off_quanta) (u8 (q - 1));;
  memcpy stack (cur + off_registers) sizeof_Registers.

Definition TaskSwitch (fuel : nat) (stack : Z) : M unit :=
  RTC_Check;;
  go ← switch_enter stack;
  if negb go then ret tt
  else
    go ← switch_reap fuel;
    if negb go then ret tt else switch_next stack.

Definition _TaskSwitch_Stage2 : M unit :=
  cur ← get_current;
  if (cur =? 0) || (cur =? addr_prochead) then ret tt
  else
    cr3 ← load 8 (cur + off_cr3);
    if cr3 =? 0 then ret tt
    else
      q ← load 1 (cur + off_quanta);
      when (negb (q =? 0)) (cr3load cr3).

(** [while (1);] after [sti]: the machine waits for the timer. *)
Definition ProcessExit : M unit :=
  cli;;
  cur ← get_current;
  store 1 (cur + off_invalid) 1;;
  sti;;
  halt.

(** The name is printed from memory: the log records its address. *)
Definition CommonExceptionHandler (exceptionType : string) : M unit :=
  cli;;
  started ← gets (fun s => schedulingStarted (sched_g s));
  if started then
    cur ← get_current;
    when (cur =? 0) (panic exceptionType);;
    pid ← load 1 (cur + off_pid);
    printf ("(!) The process " ++ quote ++ "%s" ++ quote ++
            " with PID %d has been terminated due to an exception (%s).\n")
      [AVal (cur + off_processName); AVal pid; AText exceptionType];;
    store 1 (cur + off_invalid) 1;;
    sti;;
    halt
  else panic exceptionType.

Definition MarkSchedulingActive : M unit :=
  modify (fun s => with_sched s
    (SchedGlobals (highest_pid (sched_g s)) true (current (sched_g s)))).
End Ops.

(** ** The abstract scheduler *)

Record proc := Proc {
  pr_addr : Z;
  pr_pid : Z;
  pr_regs : list Z;      (* the 160 bytes of struct Registers *)
  pr_quanta : Z;
  pr_cr3 : Z;
  pr_invalid : bool;
}.

Definition with_regs (r : list Z) (p : proc) : proc :=
  Proc (pr_addr p) (pr_pid p) r (pr_quanta p) (pr_cr3 p) (pr_invalid p).
Definition with_quanta (q : Z) (p : proc) : proc :=
  Proc (pr_addr p) (pr_pid p) (pr_regs p) q (pr_cr3 p) (pr_invalid p).
Definition with_invalid (p : proc) : proc :=
  Proc (pr_addr p) (pr_pid p) (pr_regs p) (pr_quanta p) (pr_cr3 p) true.

(** Change the process at address [a]. *)
Definition alter_proc (a : Z) (f : proc -> proc) (ps : list proc) : list proc :=
  (fun p => if decide (pr_addr p = a) then f p else p) <$> ps.
Definition remove_proc (a : Z) (ps : list proc) : list proc :=
  filter (fun p => pr_addr p <> a) ps.
Fixpoint find_proc (a : Z) (ps : list proc) : option proc :=
  match ps with
  | [] => None
  | p :: ps => if decide (pr_addr p = a) then Some p else find_proc a ps
  end.

(** The process after [a] in the list, or the first one. *)
Fixpoint after_proc (a : Z) (ps : list proc) : option Z :=
  match ps with
  | [] => None
  | p :: ps => if decide (pr_addr p = a) then pr_addr <$> head ps else after_proc a ps
  end.
Definition next_proc (a : Z) (ps : list proc) : Z :=
  match after_proc a ps with
  | Some b => b
  | None => default 0 (pr_addr <$> head ps)
  end.

Definition quanta_of (a : Z) (ps : list proc) : Z := default 0 (pr_quanta <$> find_proc a ps).
Definition regs_of (a : Z) (ps : list proc) : list Z := default [] (pr_regs <$> find_proc a ps).
Definition invalid_of (a : Z) (ps : list proc) : bool := default false (pr_invalid <$> find_proc a ps).

(** Scheduler states: the processes, the running one, the interrupted context. *)
Definition sched : Type := list proc * option Z * list Z.

(** Give the processor to [a] for one tick. *)
Definition run_proc (ps : list proc) (a : Z) : sched :=
  (alter_proc a (with_quanta (u8 (quanta_of a ps - 1))) ps, Some a, regs_of a ps).

(** Account for the time slice of [a]. *)
Definition charge (ps : list proc) (a : Z) : sched :=
  if quanta_of a ps =? 0 then run_proc (alter_proc a (with_quanta 10) ps) (next_proc a ps)
  else run_proc ps a.

(** Drop [a] if it has terminated. *)
Definition reap (ps : list proc) (a : Z) (ctx : list Z) : sched :=
  if invalid_of a ps then
    match remove_proc a ps with
    | [] => ([], None, ctx)
    | p :: ps' => charge (p :: ps') (pr_addr p)
    end
  else charge ps a.

Definition tick (st : sched) : sched :=
  let '(ps, cur, ctx) := st in
  match cur with
  | Some a => reap (alter_proc a (with_regs ctx) ps) a ctx
  | None => match ps with
            | [] => st
            | p :: _ => reap ps (pr_addr p) ctx
            end
  end.

(** ** Process records in memory *)

Definition proc_at (m : gmap Z Z) (p : proc) : Prop :=
  rd m (pr_addr p + off_pid) = pr_pid p /\
  bytes_at m (pr_addr p + off_registers) 160 = pr_regs p /\
  rd m (pr_addr p + off_quanta) = pr_quanta p /\
  ld64 m (pr_addr p + off_cr3) = pr_cr3 p /\
  (rd m (pr_addr p + off_invalid) =? 0) = negb (pr_invalid p).

(** The processes of the list that the [next] field of the frame at [pa] begins. *)
Fixpoint queue (m : gmap Z Z) (pa : Z) (ps : list proc) : Prop :=
  match ps with
  | [] => ld64 m (pa + off_next) = 0
  | p :: ps => ld64 m (pa + off_next) = pr_addr p /\ proc_at m p /\ queue m (pr_addr p) ps
  end.

Definition body (a x : Z) : Prop := within x a off_next.

Ltac offs := unfold body, off_pid, off_processName, off_registers, off_quanta, off_cr3,
  off_invalid, off_next, sizeof_ProcessFrame, sizeof_Registers in *.

Lemma proc_at_ext m m' p : same_on (body (pr_addr p)) m m' -> proc_at m p -> proc_at m' p.
Proof.
  intros Hm (H1 & H2 & H3 & H4 & H5). offs. unfold proc_at. offs. split_and!.
  - rewrite Hm; [done | unfold within; lia].
  - rewrite <- H2. apply bytes_at_ext. intros i Hi. apply Hm. unfold within. lia.
  - rewrite Hm; [done | unfold within; lia].
  - rewrite <- H4. apply (same_on_ld _ _ _ _ _ Hm). unfold within. lia.
  - rewrite Hm; [done | unfold within; lia].
Qed.

Lemma queue_elem m pa ps p : queue m pa ps -> p ∈ ps -> proc_at m p.
Proof.
  revert pa. induction ps as [|q ps IH]; intros pa Hq Hp; [by apply not_elem_of_nil in Hp|].
  destruct Hq as (_ & Hat & Hq). apply elem_of_cons in Hp as [->|Hp]; [done | by eapply IH].
Qed.

Lemma queue_head m pa ps : queue m pa ps -> ld64 m (pa + off_next) = default 0 (pr_addr <$> head ps).
Proof. destruct ps; [done | by intros (? & _)]. Qed.

(** Writes in the body of one frame change one record. *)
Lemma queue_alter m m' pa ps a f :
  (forall p, pr_addr (f p) = pr_addr p) ->
  (forall p, p ∈ ps -> pr_addr p = a -> proc_at m p -> proc_at m' (f p)) ->
  (forall p, p ∈ ps -> pr_addr p <> a -> same_on (body (pr_addr p)) m m') ->
  (forall p, p ∈ ps -> ld64 m' (pr_addr p + off_next) = ld64 m (pr_addr p + off_next)) ->
  ld64 m' (pa + off_next) = ld64 m (pa + off_next) ->
  queue m pa ps -> queue m' pa (alter_proc a f ps).
Proof.
  intros Hf. revert pa. induction ps as [|q ps IH]; intros pa Ha Hne Hnext Hpa Hq;
    cbn [alter_proc fmap list_fmap queue] in *; [congruence|].
  destruct Hq as (H1 & H2 & H3).
  assert (Haddr : pr_addr (if decide (pr_addr q = a) then f q else q) = pr_addr q)
    by (case_decide; [apply Hf | done]).
  split_and!.
  - rewrite Haddr. congruence.
  - case_decide as Hd; [apply Ha; [left | done | done]|].
    eapply proc_at_ext; [|exact H2]. apply Hne; [left | done].
  - rewrite Haddr. apply IH; try done.
    + intros p Hp. apply Ha. by right.
    + intros p Hp. apply Hne. by right.
    + intros p Hp. apply Hnext. by right.
    + apply Hnext. left.
Qed.

Lemma alter_addrs a f ps :
  (forall p, pr_addr (f p) = pr_addr p) -> pr_addr <$> alter_proc a f ps = pr_addr <$> ps.
Proof.
  intros Hf. induction ps as [|q ps IH]; [done|]. cbn. f_equal; [|exact IH].
  case_decide; [apply Hf | done].
Qed.

Lemma alter_pids a f ps :
  (forall p, pr_pid (f p) = pr_pid p) -> pr_pid <$> alter_proc a f ps = pr_pid <$> ps.
Proof.
  intros Hf. induction ps as [|q ps IH]; [done|]. cbn. f_equal; [|exact IH].
  case_decide; [apply Hf | done].
Qed.

Lemma elem_of_alter a f ps p :
  (forall p, pr_addr (f p) = pr_addr p) -> p ∈ alter_proc a f ps ->
  exists q, q ∈ ps /\ pr_addr q = pr_addr p.
Proof.
  intros Hf (q & -> & Hq)%list_elem_of_fmap. exists q. split; [done|].
  case_decide; [by rewrite Hf | done].
Qed.

(** Lookups in a list of records. *)
Lemma find_proc_Some a ps :
  a ∈ pr_addr <$> ps -> exists p, find_proc a ps = Some p /\ p ∈ ps /\ pr_addr p = a.
Proof.
  induction ps as [|q ps IH]; cbn; [by intros ?%not_elem_of_nil|].
  case_decide as Hd.
  - intros _. exists q. split_and!; [done | left | done].
  - intros [?|Ha]%elem_of_cons; [congruence|]. destruct (IH Ha) as (p & ? & ? & ?).
    exists p. split_and!; [done | by right | done].
Qed.

Lemma queue_next m pa ps a :
  queue m pa ps -> a ∈ pr_addr <$> ps ->
  ld64 m (a + off_next) = default 0 (after_proc a ps).
Proof.
  revert pa. induction ps as [|q ps IH]; intros pa Hq; cbn; [by intros ?%not_elem_of_nil|].
  destruct Hq as (_ & _ & Hq). case_decide as Hd.
  - intros _. subst. by apply queue_head.
  - intros [?|Ha]%elem_of_cons; [congruence|]. by eapply IH.
Qed.

(** Rewriting one field of a record. *)
Section Fields.
Context (m m' : gmap Z Z) (p : proc) (off k : Z)
  (Hm : same_on (fun x => body (pr_addr p) x /\ ~ within x (pr_addr p + off) k) m m')
  (Hp : proc_at m p).

Lemma field_rd o :
  0 <= o < off_next -> o < off \/ off + k <= o -> rd m' (pr_addr p + o) = rd m (pr_addr p + o).
Proof using Hm. intros Ho Ha. apply Hm. offs. unfold within. lia. Qed.

Lemma field_ld n o :
  0 <= o -> o + Z.of_nat n <= off_next -> o + Z.of_nat n <= off \/ off + k <= o ->
  ld m' n (pr_addr p + o) = ld m n (pr_addr p + o).
Proof using Hm. intros Ho Ho' Ha. apply (same_on_ld _ _ _ _ _ Hm). offs. unfold within. lia. Qed.

Lemma field_bytes n o :
  0 <= o -> o + Z.of_nat n <= off_next -> o + Z.of_nat n <= off \/ off + k <= o ->
  bytes_at m' (pr_addr p + o) n = bytes_at m (pr_addr p + o) n.
Proof using Hm.
  intros Ho Ho' Ha. apply bytes_at_ext. intros i Hi. apply Hm. offs. unfold within. lia.
Qed.
End Fields.

Lemma set_regs_at m m' p r :
  same_on (fun x => body (pr_addr p) x /\ ~ within x (pr_addr p + off_registers) 160) m m' ->
  bytes_at m' (pr_addr p + off_registers) 160 = r ->
  proc_at m p -> proc_at m' (with_regs r p).
Proof.
  intros Hm Hr (H1 & H2 & H3 & H4 & H5). unfold proc_at. cbn [pr_addr pr_pid pr_regs pr_quanta pr_cr3 pr_invalid with_regs].
  split_and!; [| done | | |].
  - rewrite (field_rd _ _ _ _ _ Hm); [done | offs; lia | offs; lia].
  - rewrite (field_rd _ _ _ _ _ Hm); [done | offs; lia | offs; lia].
  - rewrite (field_ld _ _ _ _ _ Hm); [done | offs; lia | offs; lia | offs; lia].
  - rewrite (field_rd _ _ _ _ _ Hm); [done | offs; lia | offs; lia].
Qed.

Lemma set_quanta_at m m' p q :
  same_on (fun x => body (pr_addr p) x /\ ~ within x (pr_addr p + off_quanta) 1) m m' ->
  rd m' (pr_addr p + off_quanta) = q -> proc_at m p -> proc_at m' (with_quanta q p).
Proof.
  intros Hm Hr (H1 & H2 & H3 & H4 & H5). unfold proc_at. cbn [pr_addr pr_pid pr_regs pr_quanta pr_cr3 pr_invalid with_quanta].
  split_and!; [| | done | |].
  - rewrite (field_rd _ _ _ _ _ Hm); [done | offs; lia | offs; lia].
  - rewrite (field_bytes _ _ _ _ _ Hm); [done | offs; lia | offs; lia | offs; lia].
  - rewrite (field_ld _ _ _ _ _ Hm); [done | offs; lia | offs; lia | offs; lia].
  - rewrite (field_rd _ _ _ _ _ Hm); [done | offs; lia | offs; lia].
Qed.

Lemma set_invalid_at m m' p :
  same_on (fun x => body (pr_addr p) x /\ ~ within x (pr_addr p + off_invalid) 1) m m' ->
  rd m' (pr_addr p + off_invalid) = 1 -> proc_at m p -> proc_at m' (with_invalid p).
Proof.
  intros Hm Hr (H1 & H2 & H3 & H4 & H5). unfold proc_at. cbn [pr_addr pr_pid pr_regs pr_quanta pr_cr3 pr_invalid with_invalid].
  split_and!; [| | | | by rewrite Hr].
  - rewrite (field_rd _ _ _ _ _ Hm); [done | offs; lia | offs; lia].
  - rewrite (field_bytes _ _ _ _ _ Hm); [done | offs; lia | offs; lia | offs; lia].
  - rewrite (field_rd _ _ _ _ _ Hm); [done | offs; lia | offs; lia].
  - rewrite (field_ld _ _ _ _ _ Hm); [done | offs; lia | offs; lia | offs; lia].
Qed.

(** ** The invariant of the scheduler *)

Section Inv.
Context `{StaticsOk}.

(** [stack] is where the interrupt stub pushed the registers. *)
Record sched_inv (stack : Z) (s : machine) (ps : list proc) (cur : option Z) : Prop := {
  si_queue : queue (mem s) addr_prochead ps;
  si_addrs : NoDup (pr_addr <$> ps);
  si_pids : NoDup (pr_pid <$> ps);
  si_apart p q : p ∈ ps -> q ∈ ps -> pr_addr p <> pr_addr q ->
    apart (pr_addr p) sizeof_ProcessFrame (pr_addr q) sizeof_ProcessFrame;
  si_place p : p ∈ ps ->
    PAGE <= pr_addr p /\
    apart (pr_addr p) sizeof_ProcessFrame addr_prochead sizeof_ProcessFrame /\
    apart (pr_addr p) sizeof_ProcessFrame stack sizeof_Registers;
  si_stack : PAGE <= stack /\ apart stack sizeof_Registers addr_prochead sizeof_ProcessFrame;
  si_cur : match cur with
           | None => current (sched_g s) = 0 \/ current (sched_g s) = addr_prochead
           | Some a => current (sched_g s) = a /\ a ∈ pr_addr <$> ps
           end;
}.

Lemma prochead_page : PAGE <= addr_prochead.
Proof using All. destruct prochead_range. unfold KERNEL_BASE in *. lia. Qed.

Lemma si_find stack s ps cur a :
  sched_inv stack s ps cur -> a ∈ pr_addr <$> ps ->
  exists p, find_proc a ps = Some p /\ p ∈ ps /\ pr_addr p = a /\ proc_at (mem s) p /\ PAGE <= a.
Proof using All.
  intros Hinv Ha. destruct (find_proc_Some a ps Ha) as (p & Hf & Hp & <-).
  exists p. split_and!; try done.
  - eapply queue_elem; [apply Hinv | done].
  - by apply (si_place _ _ _ _ Hinv).
Qed.

(** What the code reads from the frame at [a]. *)
Lemma si_quanta stack s ps cur a :
  sched_inv stack s ps cur -> a ∈ pr_addr <$> ps -> rd (mem s) (a + off_quanta) = quanta_of a ps.
Proof using All.
  intros Hinv Ha. destruct (si_find _ _ _ _ _ Hinv Ha) as (p & Hf & _ & <- & (_ & _ & Hq & _) & _).
  unfold quanta_of. by rewrite Hf.
Qed.
Lemma si_regs stack s ps cur a :
  sched_inv stack s ps cur -> a ∈ pr_addr <$> ps ->
  bytes_at (mem s) (a + off_registers) 160 = regs_of a ps.
Proof using All.
  intros Hinv Ha. destruct (si_find _ _ _ _ _ Hinv Ha) as (p & Hf & _ & <- & (_ & Hq & _) & _).
  unfold regs_of. by rewrite Hf.
Qed.
Lemma si_invalid stack s ps cur a :
  sched_inv stack s ps cur -> a ∈ pr_addr <$> ps ->
  (rd (mem s) (a + off_invalid) =? 0) = negb (invalid_of a ps).
Proof using All.
  intros Hinv Ha. destruct (si_find _ _ _ _ _ Hinv Ha) as (p & Hf & _ & <- & (_ & _ & _ & _ & Hq) & _).
  unfold invalid_of. by rewrite Hf.
Qed.

Lemma si_range stack s ps cur a :
  sched_inv stack s ps cur -> a ∈ pr_addr <$> ps ->
  PAGE <= a /\ a <> addr_prochead /\ a <> 0.
Proof using All.
  intros Hinv (p & -> & Hp)%list_elem_of_fmap.
  destruct (si_place _ _ _ _ Hinv p Hp) as (H1 & H2 & _).
  unfold apart, sizeof_ProcessFrame in *. lia.
Qed.

(** A write in the body of the frame at [a]. *)
Lemma sched_alter stack s s' ps cur a f :
  sched_inv stack s ps cur -> a ∈ pr_addr <$> ps -> same_regs s s' ->
  same_on (fun x => ~ body a x) (mem s) (mem s') ->
  (forall p, pr_addr (f p) = pr_addr p) -> (forall p, pr_pid (f p) = pr_pid p) ->
  (forall p, p ∈ ps -> pr_addr p = a -> proc_at (mem s) p -> proc_at (mem s') (f p)) ->
  sched_inv stack s' (alter_proc a f ps) cur.
Proof using All.
  intros Hinv Ha Hr Hm Hfa Hfp Hat.
  pose proof Ha as (pa & -> & Hpa)%list_elem_of_fmap.
  assert (Hnext : forall p, p ∈ ps -> ld64 (mem s') (pr_addr p + off_next) = ld64 (mem s) (pr_addr p + off_next)).
  { intros p Hp. apply (same_on_ld _ _ _ _ _ Hm). intros x Hx Hb.
    destruct (decide (pr_addr p = pr_addr pa)) as [He|Hne]; [offs; unfold within in *; lia|].
    pose proof (si_apart _ _ _ _ Hinv p pa Hp Hpa Hne). offs. unfold apart, within in *. lia. }
  destruct (si_place _ _ _ _ Hinv pa Hpa) as (Hpg & Hph & Hst).
  split.
  - apply (queue_alter (mem s)); [done | done | | done | | apply Hinv].
    + intros p Hp Hne x Hx. apply Hm. intros Hb.
      pose proof (si_apart _ _ _ _ Hinv p pa Hp Hpa Hne). offs. unfold apart, within in *. lia.
    + apply (same_on_ld _ _ _ _ _ Hm). intros x Hx Hb. offs. unfold apart, within in *. lia.
  - rewrite alter_addrs by done. apply Hinv.
  - rewrite alter_pids by done. apply Hinv.
  - intros p q (p' & Hp & <-)%elem_of_alter (q' & Hq & <-)%elem_of_alter; [|done..].
    by apply (si_apart _ _ _ _ Hinv).
  - intros p (p' & Hp & <-)%elem_of_alter; [|done]. by apply (si_place _ _ _ _ Hinv).
  - apply Hinv.
  - assert (Hg : sched_g s' = sched_g s) by (by rewrite Hr). rewrite Hg.
    pose proof (si_cur _ _ _ _ Hinv) as Hc. destruct cur; [|done].
    by rewrite alter_addrs by done.
Qed.

(** Changing the [current] pointer. *)
Lemma sched_set_current stack s ps cur a :
  sched_inv stack s ps cur -> a ∈ pr_addr <$> ps ->
  exists s', set_current a s = Ok tt s' /\ mem s' = mem s /\ sched_inv stack s' ps (Some a).
Proof using All.
  intros Hinv Ha. eexists. split; [reflexivity|]. split; [done|].
  destruct Hinv. split; try done.
Qed.
End Inv.

(** ** Removal *)

Fixpoint all_apart (l : list Z) : Prop :=
  match l with
  | [] => True
  | a :: l => (forall b, b ∈ l -> apart a sizeof_ProcessFrame b sizeof_ProcessFrame) /\ all_apart l
  end.

(** The [next] fields of the frames at [l]. *)
Definition next_field (l : list Z) (x : Z) : Prop := exists a, a ∈ l /\ within x (a + off_next) 8.

(** Frames apart from every frame that may be relinked keep their list. *)
Lemma queue_ext m m' pa ps l :
  queue m pa ps -> same_on (fun x => ~ next_field l x) m m' ->
  (forall p a, p ∈ ps -> a ∈ l -> apart (pr_addr p) sizeof_ProcessFrame a sizeof_ProcessFrame) ->
  ld64 m' (pa + off_next) = ld64 m (pa + off_next) -> queue m' pa ps.
Proof.
  intros Hq Hm. revert pa Hq. induction ps as [|p ps IH]; intros pa Hq Hap Hpa; cbn [queue] in *.
  { congruence. }
  destruct Hq as (H1 & H2 & H3).
  assert (Hp : forall x, within x (pr_addr p) sizeof_ProcessFrame -> rd m' x = rd m x).
  { intros x Hx. apply Hm. intros (a & Ha & Hw). pose proof (Hap p a ltac:(left) Ha).
    offs. unfold apart, within in *. lia. }
  split_and!; [congruence | |].
  - eapply proc_at_ext; [|exact H2]. intros x Hx. apply Hp. offs. unfold within in *. lia.
  - apply IH; [done | intros q a Hq Ha; apply Hap; [by right | done] |].
    apply ld_ext. intros x Hx. apply Hp. offs. unfold within in *. lia.
Qed.

Lemma terminate_run ps1 p ps2 pa fuel s :
  queue (mem s) pa (ps1 ++ p :: ps2) ->
  all_apart (pa :: (pr_addr <$> ps1 ++ p :: ps2)) ->
  PAGE <= pa -> (forall q, q ∈ ps1 ++ p :: ps2 -> PAGE <= pr_addr q) ->
  Forall (fun q => pr_pid q <> pr_pid p) ps1 -> (length ps1 < fuel)%nat ->
  exists s', TerminateTask_loop fuel pa (pr_pid p) s = Ok tt s' /\ same_regs s s' /\
    queue (mem s') pa (ps1 ++ ps2) /\
    same_on (fun x => ~ next_field (pa :: (pr_addr <$> ps1)) x) (mem s) (mem s').
Proof.
  revert pa fuel. induction ps1 as [|q ps1 IH]; intros pa fuel Hq Hap Hpa Hpg Hpid Hfuel;
    (destruct fuel as [|fuel]; [simpl in Hfuel; lia|]); cbn [app] in *;
    destruct Hq as (H1 & (Hpd & Hat) & Hq); cbn [TerminateTask_loop];
    erewrite bind_Ok by (apply load_ok; offs; lia); cbv beta; rewrite H1.
  - assert (Hp : PAGE <= pr_addr p) by (apply Hpg; left).
    erewrite bind_Ok by (apply load_ok; offs; lia). cbv beta. cbn [ld]. rewrite Hpd, Z.mul_0_r, Z.add_0_r.
    rewrite Z.eqb_refl. erewrite bind_Ok by (apply load_ok; offs; lia). cbv beta.
    rewrite store_ok by (offs; lia). eexists. split; [reflexivity|].
    assert (Hm : same_on (fun x => ~ next_field [pa] x) (mem s)
      (mem (with_mem s (st (mem s) 8 (pa + off_next) (ld64 (mem s) (pr_addr p + off_next)))))).
    { apply same_on_st. intros x Hx Hw. apply Hx. exists pa. split; [left | exact Hw]. }
    destruct Hap as [Hap1 [Hap2 _]].
    split_and!; [apply same_regs_with_mem | | exact Hm].
    assert (Hld : ld64 (mem (with_mem s (st (mem s) 8 (pa + off_next) (ld64 (mem s) (pr_addr p + off_next)))))
                       (pa + off_next) = ld64 (mem s) (pr_addr p + off_next)).
    { cbn [mem with_mem]. rewrite ld64_st_eq. apply u64_small, ld64_range. }
    destruct ps2 as [|r ps2]; cbn [queue] in *; [by rewrite Hld|].
    destruct Hq as (Hr1 & Hr2 & Hr3).
    assert (Hx : queue (mem s) (pr_addr p) (r :: ps2)) by done.
    split; [by rewrite Hld|].
    assert (Hy : forall x, within x (pr_addr r) sizeof_ProcessFrame ->
      rd (mem (with_mem s (st (mem s) 8 (pa + off_next) (ld64 (mem s) (pr_addr p + off_next))))) x
      = rd (mem s) x).
    { intros x Hx'. apply Hm. intros (a & ->%list_elem_of_singleton & Hw).
      pose proof (Hap1 (pr_addr r) ltac:(cbn; right; left)). offs. unfold apart, within in *. lia. }
    split.
    + eapply proc_at_ext; [|exact Hr2]. intros x Hx'. apply Hy. offs. unfold within in *. lia.
    + eapply (queue_ext (mem s) _ _ _ [pa]); [exact Hr3 | exact Hm | |].
      * intros t a Ht ->%list_elem_of_singleton. unfold apart.
        pose proof (Hap1 (pr_addr t)) as Hz. unfold apart in Hz. apply or_comm, Hz.
        cbn. right. right. by apply list_elem_of_fmap_2.
      * apply ld_ext. intros x Hx'. apply Hy. offs. unfold within in *. lia.
  - inversion Hpid as [|? ? Hne Hpid']; subst.
    assert (Hp : PAGE <= pr_addr q) by (apply Hpg; left).
    erewrite bind_Ok by (apply load_ok; offs; lia). cbv beta. cbn [ld]. rewrite Hpd, Z.mul_0_r, Z.add_0_r.
    rewrite (proj2 (Z.eqb_neq _ _)) by done. rewrite (proj2 (Z.eqb_neq (pr_addr q) 0)) by lia.
    destruct Hap as [Hap1 Hap2].
    destruct (IH (pr_addr q) fuel Hq Hap2 Hp) as (s' & Hrun & Hr & Hq' & Hm);
      [intros; apply Hpg; by right | done | simpl in Hfuel; lia |].
    exists s'. split_and!; [exact Hrun | exact Hr | |].
    + assert (Hfix : forall x, ~ next_field (pr_addr q :: (pr_addr <$> ps1)) x -> rd (mem s') x = rd (mem s) x)
        by exact Hm.
      split_and!; [| | exact Hq'].
      * rewrite <- H1. apply ld_ext. intros x Hx. apply Hfix. intros (a & Ha & Hw).
        assert (Ha' : a ∈ pr_addr <$> q :: ps1 ++ p :: ps2).
        { rewrite fmap_cons, fmap_app. apply elem_of_cons in Ha as [->|Ha]; [left | right].
          apply elem_of_app. by left. }
        pose proof (Hap1 a Ha'). offs. unfold apart, within in *. lia.
      * eapply (proc_at_ext (mem s)); [|by split]. intros x Hx. apply Hfix. intros (a & Ha & Hw).
        apply elem_of_cons in Ha as [->|Ha]; [offs; unfold within in *; lia|].
        assert (Ha' : a ∈ pr_addr <$> ps1 ++ p :: ps2) by (rewrite fmap_app; apply elem_of_app; by left).
        pose proof (proj1 Hap2 a Ha'). offs. unfold apart, within in *. lia.
    + eapply same_on_weaken; [exact Hm|]. intros x Hx (a & Ha & Hw). apply Hx. exists a.
      split; [by right | done].
Qed.
