(* ===== verification/SchedulerSpec.v ===== *)
(** [TaskSwitch] implements the round-robin scheduler [tick], and what [tick]
    guarantees: time slices, the order of the processes, and that a preempted
    process resumes with the registers it was interrupted with. *)
From S2P Require Import Prelude Memory Machine Scheduler.

Lemma queue_same m m' pa ps :
  (forall p, p ∈ ps -> same_on (fun x => within x (pr_addr p) sizeof_ProcessFrame) m m') ->
  ld64 m' (pa + off_next) = ld64 m (pa + off_next) -> queue m pa ps -> queue m' pa ps.
Proof.
  revert pa. induction ps as [|p ps IH]; intros pa Hm Hpa Hq; cbn [queue] in *; [congruence|].
  destruct Hq as (H1 & H2 & H3). pose proof (Hm p ltac:(left)) as Hp. split_and!; [congruence | |].
  - eapply proc_at_ext; [|exact H2]. eapply same_on_weaken; [exact Hp|]. offs. unfold within. lia.
  - apply IH; [intros q Hq; apply Hm; by right | | done].
    apply (same_on_ld _ _ _ _ _ Hp). offs. unfold within. lia.
Qed.

Lemma all_apart_intro l :
  NoDup l ->
  (forall a b, a ∈ l -> b ∈ l -> a <> b -> apart a sizeof_ProcessFrame b sizeof_ProcessFrame) ->
  all_apart l.
Proof.
  induction 1 as [|a l Ha Hnd IH]; intros Hap; [done|]. split.
  - intros b Hb. apply Hap; [left | by right | by intros ->].
  - apply IH. intros x y Hx Hy. apply Hap; by right.
Qed.

Lemma remove_proc_split ps1 p ps2 :
  NoDup (pr_addr <$> ps1 ++ p :: ps2) -> remove_proc (pr_addr p) (ps1 ++ p :: ps2) = ps1 ++ ps2.
Proof.
  rewrite fmap_app. cbn. intros (_ & Hd & Hnd)%NoDup_app. apply NoDup_cons in Hnd as [Hn _].
  unfold remove_proc. rewrite filter_app, filter_cons_False by (intros Hx; by apply Hx).
  f_equal; apply filter_all; intros q Hq Heq.
  - apply (Hd (pr_addr p)); [rewrite <- Heq; by apply list_elem_of_fmap_2 | left].
  - apply Hn. rewrite <- Heq. by apply list_elem_of_fmap_2.
Qed.

Lemma after_proc_elem a ps b : after_proc a ps = Some b -> b ∈ pr_addr <$> ps.
Proof.
  induction ps as [|q ps IH]; [done|]. cbn. case_decide.
  - intros Hb. right. destruct ps as [|r ps]; [done|]. cbn in *. injection Hb as <-. left.
  - intros Hb. right. by apply IH.
Qed.

Lemma next_proc_elem a ps : ps <> [] -> next_proc a ps ∈ pr_addr <$> ps.
Proof.
  intros Hps. unfold next_proc. destruct (after_proc a ps) as [b|] eqn:Hb.
  - by eapply after_proc_elem.
  - destruct ps; [done | cbn; left].
Qed.

Lemma after_proc_addrs a ps ps' :
  pr_addr <$> ps = pr_addr <$> ps' -> after_proc a ps = after_proc a ps'.
Proof.
  revert ps'. induction ps as [|q ps IH]; intros [|q' ps'] Heq; try done. cbn in *.
  injection Heq as Hq Heq. rewrite Hq. case_decide; [|by apply IH].
  destruct ps, ps'; try done. cbn in *. congruence.
Qed.

Lemma head_addrs ps ps' :
  pr_addr <$> ps = pr_addr <$> ps' -> pr_addr <$> head ps = pr_addr <$> head ps'.
Proof. destruct ps, ps'; try done. cbn. congruence. Qed.

Lemma find_alter_eq a f ps p :
  (forall p, pr_addr (f p) = pr_addr p) ->
  find_proc a ps = Some p -> find_proc a (alter_proc a f ps) = Some (f p).
Proof.
  intros Hf. induction ps as [|q ps IH]; [done|]. cbn. intros Hp. destruct (decide (pr_addr q = a)).
  - rewrite decide_True by (by rewrite Hf). congruence.
  - rewrite decide_False by done. by apply IH.
Qed.

Lemma find_alter_ne a b f ps :
  (forall p, pr_addr (f p) = pr_addr p) -> a <> b ->
  find_proc b (alter_proc a f ps) = find_proc b ps.
Proof.
  intros Hf Hne. induction ps as [|q ps IH]; [done|]. cbn. destruct (decide (pr_addr q = a)) as [Hq|Hq].
  - rewrite !decide_False by (rewrite ?Hf; congruence). exact IH.
  - case_decide; [done | exact IH].
Qed.

Section Refinement.
Context `{StaticsOk}.

Lemma sched_stable stack s s' ps cur cur' :
  sched_inv stack s ps cur ->
  (forall p, p ∈ ps -> same_on (fun x => within x (pr_addr p) sizeof_ProcessFrame) (mem s) (mem s')) ->
  ld64 (mem s') (addr_prochead + off_next) = ld64 (mem s) (addr_prochead + off_next) ->
  match cur' with
  | None => current (sched_g s') = 0 \/ current (sched_g s') = addr_prochead
  | Some a => current (sched_g s') = a /\ a ∈ pr_addr <$> ps
  end -> sched_inv stack s' ps cur'.
Proof using All.
  intros Hinv Hm Hh Hc. split; try apply Hinv; [|exact Hc].
  eapply queue_same; [exact Hm | exact Hh | apply Hinv].
Qed.

Lemma get_current_run stack s ps a :
  sched_inv stack s ps (Some a) -> get_current s = Ok a s.
Proof using All. intros Hinv. destruct (si_cur _ _ _ _ Hinv) as [<- _]. done. Qed.

(** [sched_inv] and the context on the stack. *)
Definition sched_state (stack : Z) (s : machine) (st : sched) : Prop :=
  sched_inv stack s st.1.1 st.1.2 /\ bytes_at (mem s) stack 160 = st.2.

(** What a task switch may write: the context on the stack, the frames of the
    processes at [l] and the head of the list. *)
Definition sched_byte (stack : Z) (l : list Z) (x : Z) : Prop :=
  within x stack sizeof_Registers \/ exists a, a ∈ addr_prochead :: l /\ within x a sizeof_ProcessFrame.
Definition sched_only (stack : Z) (l : list Z) (m m' : gmap Z Z) : Prop :=
  same_on (fun x => ~ sched_byte stack l x) m m'.

Lemma sched_only_sub stack l l' m m' :
  (forall a, a ∈ l' -> a ∈ l) -> sched_only stack l' m m' -> sched_only stack l m m'.
Proof using.
  intros Hl Hm. eapply same_on_weaken; [exact Hm|]. intros x Hx [Hs|(a & Ha & Hw)]; apply Hx; [by left | right].
  exists a. split; [|done]. apply elem_of_cons in Ha as [->|Ha]; [left | right; auto].
Qed.
Lemma sched_only_st stack l m n a o v :
  a ∈ l -> 0 <= o -> o + Z.of_nat n <= sizeof_ProcessFrame -> sched_only stack l m (st m n (a + o) v).
Proof using.
  intros Ha Ho Hn. apply same_on_st. intros x Hx Hw. apply Hx. right. exists a.
  split; [by right|]. unfold within in *. lia.
Qed.

(** ** Giving the processor to a process *)
Lemma run_proc_spec stack s ps a :
  sched_inv stack s ps (Some a) ->
  exists s', (cur ← get_current;
              q ← load 1 (cur + off_quanta);
              store 1 (cur + off_quanta) (u8 (q - 1));;
              memcpy stack (cur + off_registers) sizeof_Registers) s = Ok tt s' /\
    sched_state stack s' (run_proc ps a) /\ sched_only stack (pr_addr <$> ps) (mem s) (mem s').
Proof using All.
  intros Hinv. destruct (si_cur _ _ _ _ Hinv) as [_ Ha].
  destruct (si_range _ _ _ _ _ Hinv Ha) as (Hpg & _ & _). destruct (si_stack _ _ _ _ Hinv) as [Hst Hsp].
  destruct (si_find _ _ _ _ _ Hinv Ha) as (p & Hf & Hp & Hpa & _).
  erewrite bind_Ok by (by eapply get_current_run). cbv beta.
  erewrite bind_Ok by (apply load_ok; offs; lia). cbv beta.
  erewrite bind_Ok by (apply store_ok; offs; lia).
  assert (Hq : ld (mem s) 1 (a + off_quanta) = quanta_of a ps).
  { cbn [ld]. rewrite (si_quanta _ _ _ _ _ Hinv Ha). lia. }
  rewrite Hq. set (s1 := with_mem s _).
  assert (Hinv1 : sched_inv stack s1 (alter_proc a (with_quanta (u8 (quanta_of a ps - 1))) ps) (Some a)).
  { eapply sched_alter; [exact Hinv | exact Ha | apply same_regs_with_mem | | done | done |].
    - apply same_on_st. intros x Hx Hw. apply Hx. offs. unfold within in *. lia.
    - intros q _ <- Hat. eapply set_quanta_at; [| |exact Hat].
      + apply same_on_st. intros x [_ Hx] Hw. apply Hx, Hw.
      + unfold s1. cbn [mem with_mem st]. rewrite rd_wr_eq. apply u8_idem. }
  rewrite memcpy_run by (offs; lia). eexists. split; [reflexivity|].
  change (Z.to_nat sizeof_Registers) with 160%nat.
  unfold run_proc, sched_state. cbn [fst snd]. split; [split|].
  - eapply sched_stable; [exact Hinv1 | | |].
    + intros q Hq'%elem_of_alter x Hx; [|done]. destruct Hq' as (q' & Hq' & Hqa). cbn [mem with_mem].
      apply rd_copy_ne. destruct (si_place _ _ _ _ Hinv q' Hq') as (_ & _ & Hap).
      offs. unfold apart, within in *. lia.
    + apply ld_ext. intros x Hx. cbn [mem with_mem]. apply rd_copy_ne.
      offs. unfold apart, within in *. lia.
    + split; [apply (si_cur _ _ _ _ Hinv1) | by rewrite alter_addrs].
  - destruct (si_place _ _ _ _ Hinv p Hp) as (_ & _ & Hap).
    assert (Hbs : bytes_at (mem s1) (a + off_registers) 160 = regs_of a ps).
    { erewrite (si_regs _ _ _ _ _ Hinv1) by (by rewrite alter_addrs).
      unfold regs_of. rewrite (find_alter_eq _ _ _ p) by done. by rewrite Hf. }
    rewrite <- Hbs. apply bytes_at_ext. intros i Hi. cbn [mem with_mem].
    apply rd_copy; [|lia]. offs. unfold apart in *. lia.
  - transitivity (mem s1); [apply sched_only_st; [done | by vm_compute..]|].
    intros x Hx. cbn [mem with_mem]. apply rd_copy_ne. intros Hw. apply Hx. by left.
Qed.

(** ** Charging the time slice *)
Lemma switch_next_spec stack s ps a :
  sched_inv stack s ps (Some a) ->
  exists s', switch_next stack s = Ok tt s' /\ sched_state stack s' (charge ps a) /\
    sched_only stack (pr_addr <$> ps) (mem s) (mem s').
Proof using All.
  intros Hinv. destruct (si_cur _ _ _ _ Hinv) as [_ Ha].
  destruct (si_range _ _ _ _ _ Hinv Ha) as (Hpg & _ & _). pose proof prochead_page as Hpp.
  unfold switch_next. erewrite bind_Ok by (by eapply get_current_run). cbv beta.
  erewrite bind_Ok by (apply load_ok; offs; lia). cbv beta.
  assert (Hq : ld (mem s) 1 (a + off_quanta) = quanta_of a ps).
  { cbn [ld]. rewrite (si_quanta _ _ _ _ _ Hinv Ha). lia. }
  rewrite Hq. unfold charge. destruct (quanta_of a ps =? 0); cbn [when].
  - set (s1 := with_mem s (st (mem s) 1 (a + off_quanta) 10)).
    assert (Hinv1 : sched_inv stack s1 (alter_proc a (with_quanta 10) ps) (Some a)).
    { eapply sched_alter; [exact Hinv | exact Ha | apply same_regs_with_mem | | done | done |].
      - apply same_on_st. intros x Hx Hw. apply Hx. offs. unfold within in *. lia.
      - intros q _ <- Hat. eapply set_quanta_at; [| |exact Hat].
        + apply same_on_st. intros x [_ Hx] Hw. apply Hx, Hw.
        + unfold s1. cbn [mem with_mem st]. by rewrite rd_wr_eq. }
    set (ps1 := alter_proc a (with_quanta 10) ps) in *.
    assert (Haddrs : pr_addr <$> ps1 = pr_addr <$> ps) by (by apply alter_addrs).
    assert (Ha1 : a ∈ pr_addr <$> ps1) by (by rewrite Haddrs).
    assert (Hps : ps <> []) by (intros ->; by apply not_elem_of_nil in Ha).
    assert (Hn1 : next_proc a ps ∈ pr_addr <$> ps1) by (rewrite Haddrs; by apply next_proc_elem).
    assert (Hmove : exists s2,
      (next ← load 8 (a + off_next);
       if negb (next =? 0) then set_current next
       else first ← load 8 (addr_prochead + off_next); set_current first) s1 = Ok tt s2 /\
      mem s2 = mem s1 /\ sched_inv stack s2 ps1 (Some (next_proc a ps))).
    { erewrite bind_Ok by (apply load_ok; offs; lia). cbv beta.
      rewrite (queue_next _ _ _ _ (si_queue _ _ _ _ Hinv1) Ha1).
      destruct (after_proc a ps1) as [b|] eqn:Hb.
      - change (default 0 (Some b)) with b. pose proof (after_proc_elem _ _ _ Hb) as Hbe.
        destruct (si_range _ _ _ _ _ Hinv1 Hbe) as (_ & _ & Hb0).
        rewrite (proj2 (Z.eqb_neq b 0)) by done. cbn [negb].
        assert (Hnx : next_proc a ps = b).
        { unfold next_proc. by rewrite <- (after_proc_addrs a ps1 ps), Hb. }
        rewrite Hnx in *. destruct (sched_set_current _ _ _ _ b Hinv1 Hbe) as (s2 & ? & ? & ?).
        by exists s2.
      - change (default 0 None) with 0. cbn [Z.eqb negb]. erewrite bind_Ok by (apply load_ok; offs; lia). cbv beta.
        rewrite (queue_head _ _ _ (si_queue _ _ _ _ Hinv1)).
        assert (Hnx : next_proc a ps = default 0 (pr_addr <$> head ps1)).
        { unfold next_proc. rewrite <- (after_proc_addrs a ps1 ps), Hb by done.
          by rewrite (head_addrs ps ps1). }
        rewrite <- Hnx. destruct (sched_set_current _ _ _ _ _ Hinv1 Hn1) as (s2 & ? & ? & ?).
        by exists s2. }
    destruct Hmove as (s2 & R2 & M2 & Hinv2).
    destruct (run_proc_spec stack s2 ps1 _ Hinv2) as (s3 & R3 & Hst3 & M3). rewrite M2, Haddrs in M3.
    exists s3. split; [|split; [exact Hst3|]].
    2:{ transitivity (mem s1); [apply sched_only_st; [done | by vm_compute..] | exact M3]. }
    erewrite bind_Ok by (erewrite bind_Ok by (apply store_ok; offs; lia); exact R2). exact R3.
  - destruct (run_proc_spec stack s ps a Hinv) as (s3 & R3 & Hst3).
    exists s3. split; [|exact Hst3]. erewrite bind_Ok by reflexivity. exact R3.
Qed.

(** ** Reaping *)

(** [TerminateTask] on the process at [a] takes exactly it out of the list. *)
Lemma terminate_spec stack s ps cur p fuel :
  sched_inv stack s ps cur -> p ∈ ps -> (length ps <= fuel)%nat ->
  exists s', TerminateTask fuel (pr_pid p) s = Ok tt s' /\
    sched_g s' = sched_g s /\
    queue (mem s') addr_prochead (remove_proc (pr_addr p) ps) /\
    same_on (fun x => ~ next_field (addr_prochead :: (pr_addr <$> ps)) x) (mem s) (mem s').
Proof using All.
  intros Hinv Hp Hfuel. destruct (list_elem_of_split _ _ Hp) as (ps1 & ps2 & Heq).
  unfold TerminateTask. erewrite bind_Ok by reflexivity. cbv beta.
  erewrite bind_Ok by reflexivity. cbv beta. set (s1 := with_IF _ false).
  assert (Hnd : NoDup (addr_prochead :: (pr_addr <$> ps))).
  { constructor; [|apply Hinv]. intros Hin. by destruct (si_range _ _ _ _ _ Hinv Hin) as (_ & ? & _). }
  assert (Hap : all_apart (addr_prochead :: (pr_addr <$> ps))).
  { apply all_apart_intro; [done|]. intros x y Hx Hy Hne.
    apply elem_of_cons in Hx, Hy. destruct Hx as [->|Hx], Hy as [->|Hy]; try done.
    - apply list_elem_of_fmap in Hy as (q & -> & Hq).
      destruct (si_place _ _ _ _ Hinv q Hq) as (_ & H1 & _). unfold apart in *. lia.
    - apply list_elem_of_fmap in Hx as (q & -> & Hq). by apply (si_place _ _ _ _ Hinv q Hq).
    - apply list_elem_of_fmap in Hx as (q & -> & Hq), Hy as (r & -> & Hr).
      by apply (si_apart _ _ _ _ Hinv). }
  pose proof (si_pids _ _ _ _ Hinv) as Hpids. pose proof (si_addrs _ _ _ _ Hinv) as Haddrs.
  subst ps. destruct (terminate_run ps1 p ps2 addr_prochead fuel s1) as (s' & Hrun & Hr & Hq & Hm).
  - apply Hinv.
  - done.
  - apply prochead_page.
  - intros q Hq. by apply (si_place _ _ _ _ Hinv).
  - rewrite fmap_app in Hpids. cbn in Hpids. apply NoDup_app in Hpids as (_ & Hd & _).
    apply Forall_forall. intros q Hq Heq. apply (Hd (pr_pid q)); [by apply list_elem_of_fmap_2|].
    rewrite Heq. left.
  - rewrite length_app in Hfuel. simpl in Hfuel. lia.
  - exists s'. rewrite remove_proc_split by done. split_and!; [exact Hrun | by rewrite Hr | exact Hq |].
    eapply same_on_weaken; [exact Hm|]. intros x Hx (y & Hy & Hw). apply Hx. exists y.
    split; [|exact Hw]. apply elem_of_cons in Hy as [->|Hy]; [left | right].
    rewrite fmap_app. apply elem_of_app. by left.
Qed.

Lemma remove_proc_sub a ps p : p ∈ remove_proc a ps -> p ∈ ps.
Proof. by intros [_ ?]%list_elem_of_filter. Qed.

Lemma remove_sublist a ps : sublist (remove_proc a ps) ps.
Proof. apply sublist_filter. Qed.

(** The state after a process was taken out, once [current] is right. *)
Lemma removed_inv stack s s' ps cur p cur' :
  sched_inv stack s ps cur -> p ∈ ps ->
  queue (mem s') addr_prochead (remove_proc (pr_addr p) ps) ->
  match cur' with
  | None => current (sched_g s') = 0 \/ current (sched_g s') = addr_prochead
  | Some a => current (sched_g s') = a /\ a ∈ pr_addr <$> remove_proc (pr_addr p) ps
  end -> sched_inv stack s' (remove_proc (pr_addr p) ps) cur'.
Proof using All.
  intros Hinv Hp Hq Hc. pose proof (remove_sublist (pr_addr p) ps) as Hsub. split.
  - done.
  - eapply (sublist_NoDup _ (pr_addr <$> ps)); [apply Hinv | by apply fmap_sublist].
  - eapply (sublist_NoDup _ (pr_pid <$> ps)); [apply Hinv | by apply fmap_sublist].
  - intros q r ?%remove_proc_sub ?%remove_proc_sub. by apply (si_apart _ _ _ _ Hinv).
  - intros q ?%remove_proc_sub. by apply (si_place _ _ _ _ Hinv).
  - apply Hinv.
  - done.
Qed.

Lemma remove_none a ps : a ∉ pr_addr <$> remove_proc a ps.
Proof. by intros (p & -> & [Hne _]%list_elem_of_filter)%list_elem_of_fmap. Qed.

Lemma reap_spec stack s ps a fuel ctx :
  sched_inv stack s ps (Some a) -> bytes_at (mem s) stack 160 = ctx -> (length ps <= fuel)%nat ->
  exists s', (go ← switch_reap fuel; if negb go then ret tt else switch_next stack) s = Ok tt s' /\
    sched_state stack s' (reap ps a ctx) /\ sched_only stack (pr_addr <$> ps) (mem s) (mem s').
Proof using All.
  intros Hinv Hctx Hfuel. destruct (si_cur _ _ _ _ Hinv) as [_ Ha].
  destruct (si_range _ _ _ _ _ Hinv Ha) as (Hpg & _ & _). pose proof prochead_page as Hpp.
  destruct (si_find _ _ _ _ _ Hinv Ha) as (p & Hf & Hp & Hpa & Hat & _).
  unfold switch_reap, reap. rewrite bind_assoc.
  erewrite bind_Ok by (by eapply get_current_run). cbv beta. rewrite bind_assoc.
  erewrite bind_Ok by (apply load_ok; offs; lia). cbv beta. cbn [ld]. rewrite Z.mul_0_r, Z.add_0_r.
  rewrite (si_invalid _ _ _ _ _ Hinv Ha), negb_involutive.
  destruct (invalid_of a ps).
  - rewrite bind_assoc. erewrite bind_Ok by (by eapply get_current_run). cbv beta. rewrite bind_assoc.
    erewrite bind_Ok by (apply load_ok; offs; lia). cbv beta. cbn [ld]. rewrite Z.mul_0_r, Z.add_0_r.
    assert (Hpid : rd (mem s) (a + off_pid) = pr_pid p) by (rewrite <- Hpa; apply Hat).
    rewrite Hpid. rewrite bind_assoc.
    destruct (terminate_spec stack s ps (Some a) p fuel Hinv Hp Hfuel) as (s1 & R1 & G1 & Q1 & M1).
    erewrite bind_Ok by exact R1. cbv beta. rewrite bind_assoc.
    assert (Hc1 : current (sched_g s1) = a) by (rewrite G1; apply (si_cur _ _ _ _ Hinv)).
    erewrite bind_Ok by reflexivity. cbv beta. rewrite bind_assoc, Hc1.
    erewrite bind_Ok by (apply load_ok; offs; lia). cbv beta. rewrite bind_assoc.
    assert (Hw : exists s2, when (negb (ld64 (mem s1) (a + off_next) =? 0))
        (set_current (ld64 (mem s1) (a + off_next))) s1 = Ok tt s2 /\ mem s2 = mem s1).
    { destruct (negb _); cbn [when]; eexists; split; reflexivity || done. }
    assert (M1' : sched_only stack (pr_addr <$> ps) (mem s) (mem s1)).
    { eapply same_on_weaken; [exact M1|]. intros x Hx (y & Hy & Hwy). apply Hx. right.
      exists y. split; [done|]. unfold within in *. offs. lia. }
    destruct Hw as (s2 & R2 & M2). erewrite bind_Ok by exact R2. cbv beta. rewrite bind_assoc.
    erewrite bind_Ok by (apply load_ok; offs; lia). cbv beta. rewrite M2, (queue_head _ _ _ Q1), Hpa.
    rewrite Hpa in Q1.
    destruct (remove_proc a ps) as [|r rs] eqn:Hrem.
    + change (default 0 _) with 0. cbn [Z.eqb negb]. rewrite bind_assoc.
      erewrite bind_Ok by reflexivity. cbv beta. erewrite bind_Ok by reflexivity. cbn [negb].
      eexists. split; [reflexivity|]. split; [split|]; cbn [fst snd mem with_sched]; [| | by rewrite M2].
      * pose proof (removed_inv stack s (with_sched s2 (SchedGlobals (highest_pid (sched_g s2))
          (schedulingStarted (sched_g s2)) addr_prochead)) ps (Some a) p None Hinv Hp) as Hri.
        rewrite Hpa, Hrem in Hri. apply Hri; [cbn [mem with_sched]; by rewrite M2 | by right].
      * rewrite <- Hctx. apply bytes_at_ext. intros i Hi. cbn [mem with_sched]. rewrite M2.
        apply M1. intros (y & Hy & Hwy). apply elem_of_cons in Hy as [->|Hy].
        -- destruct (si_stack _ _ _ _ Hinv) as [_ Hsp]. offs. unfold apart, within in *. lia.
        -- apply list_elem_of_fmap in Hy as (q & -> & Hq).
           destruct (si_place _ _ _ _ Hinv q Hq) as (_ & _ & Hsp). offs. unfold apart, within in *. lia.
    + change (default 0 (pr_addr <$> head (r :: rs))) with (pr_addr r).
      assert (Hr : r ∈ ps).
      { apply (remove_proc_sub a). rewrite Hrem. left. }
      destruct (si_range _ _ _ _ _ Hinv (list_elem_of_fmap_2 pr_addr ps r Hr)) as (_ & _ & Hr0).
      rewrite (proj2 (Z.eqb_neq _ 0)) by exact Hr0. cbn [negb]. rewrite bind_assoc.
      erewrite bind_Ok by reflexivity. cbv beta. erewrite bind_Ok by reflexivity. cbn [negb].
      match goal with |- context [switch_next stack ?s3] => set (s3' := s3) end.
      destruct (switch_next_spec stack s3' (r :: rs) (pr_addr r)) as (s4 & R4 & H4 & M4).
      2:{ exists s4. split_and!; [exact R4 | exact H4 |]. etransitivity; [exact M1'|]. rewrite <- M2.
          eapply sched_only_sub; [|exact M4]. rewrite <- Hrem.
          intros x (q & -> & Hq%remove_proc_sub)%list_elem_of_fmap. by apply list_elem_of_fmap_2. }
      pose proof (removed_inv stack s (with_sched s2 (SchedGlobals (highest_pid (sched_g s2))
          (schedulingStarted (sched_g s2)) (pr_addr r))) ps (Some a) p (Some (pr_addr r)) Hinv Hp) as Hri.
      rewrite Hpa, Hrem in Hri. apply Hri; [cbn [mem with_sched]; by rewrite M2 | split; [done | left]].
  - erewrite bind_Ok by reflexivity. cbn [negb]. by apply switch_next_spec.
Qed.

(** ** The task switch *)
Lemma TaskSwitch_run fuel stack s st :
  sched_state stack s st -> (length st.1.1 <= fuel)%nat ->
  exists s', TaskSwitch fuel stack s = Ok tt s' /\ sched_state stack s' (tick st) /\
    sched_only stack (pr_addr <$> st.1.1) (mem s) (mem s').
Proof using All.
  destruct st as [[ps cur] ctx]. intros [Hinv Hctx] Hfuel. cbn [fst snd] in *.
  pose proof prochead_page as Hpp.
  unfold TaskSwitch. erewrite bind_Ok by reflexivity. cbv beta.
  set (s0 := with_trace _ _). assert (Hinv0 : sched_inv stack s0 ps cur) by (destruct Hinv; by split).
  assert (Hctx0 : bytes_at (mem s0) stack 160 = ctx) by exact Hctx.
  change (mem s) with (mem s0). clearbody s0. clear s Hinv Hctx. rename s0 into s, Hinv0 into Hinv, Hctx0 into Hctx.
  unfold switch_enter. rewrite bind_assoc.
  erewrite bind_Ok by reflexivity. cbv beta. pose proof (si_cur _ _ _ _ Hinv) as Hc.
  destruct cur as [a|].
  - destruct Hc as [-> Ha]. destruct (si_range _ _ _ _ _ Hinv Ha) as (Hpg & Hn1 & Hn2).
    rewrite (proj2 (Z.eqb_neq a 0)), (proj2 (Z.eqb_neq a addr_prochead)) by done. cbn [orb].
    destruct (si_find _ _ _ _ _ Hinv Ha) as (p & Hf & Hp & Hpa & Hat & _).
    destruct (si_place _ _ _ _ Hinv p Hp) as (_ & _ & Hap).
    destruct (si_stack _ _ _ _ Hinv) as [Hst Hsp].
    rewrite bind_assoc. erewrite bind_Ok by (apply memcpy_run; offs; lia).
    change (Z.to_nat sizeof_Registers) with 160%nat. cbv beta.
    erewrite bind_Ok by reflexivity. cbn [negb]. set (s1 := with_mem s _).
    assert (Hinv1 : sched_inv stack s1 (alter_proc a (with_regs ctx) ps) (Some a)).
    { eapply sched_alter; [exact Hinv | exact Ha | apply same_regs_with_mem | | done | done |].
      - intros x Hx. cbn [mem with_mem]. apply rd_copy_ne. offs. unfold within in *. lia.
      - intros q _ <- Hat'. apply (set_regs_at (mem s)); [| |exact Hat'].
        + intros x [_ Hx]. cbn [mem with_mem]. apply rd_copy_ne. offs. unfold within in *. lia.
        + rewrite <- Hctx. apply bytes_at_ext. intros i Hi. cbn [mem with_mem].
          apply rd_copy; [|lia]. rewrite Hpa in Hap. offs. unfold apart in *. lia. }
    destruct (reap_spec stack s1 (alter_proc a (with_regs ctx) ps) a fuel ctx Hinv1) as (s2 & R2 & H2 & M2).
    3:{ exists s2. split_and!; [exact R2 | exact H2 |]. rewrite alter_addrs in M2 by done.
        etransitivity; [|exact M2]. intros x Hx. cbn [mem s1 with_mem]. apply rd_copy_ne. intros Hw. apply Hx.
        right. exists a. split; [by right|]. unfold within in *. offs. lia. }
    2:{ unfold alter_proc; by rewrite length_fmap. }
    rewrite <- Hctx. apply bytes_at_ext. intros i Hi. cbn [mem with_mem]. apply rd_copy_ne.
    rewrite Hpa in Hap. offs. unfold apart, within in *. lia.
  - assert ((current (sched_g s) =? 0) || (current (sched_g s) =? addr_prochead) = true) as ->
      by (destruct Hc as [-> | ->]; [done | rewrite Z.eqb_refl; by rewrite orb_true_r]).
    rewrite bind_assoc. erewrite bind_Ok by (apply load_ok; offs; lia). cbv beta.
    rewrite (queue_head _ _ _ (si_queue _ _ _ _ Hinv)). cbn [tick].
    destruct ps as [|p ps'].
    + change (default 0 _) with 0. cbn [Z.eqb negb]. erewrite bind_Ok by reflexivity. cbn [negb].
      eexists. split; [reflexivity|]. by split.
    + change (default 0 (pr_addr <$> head (p :: ps'))) with (pr_addr p).
      assert (Hin : pr_addr p ∈ pr_addr <$> p :: ps') by (cbn; left).
      destruct (si_range _ _ _ _ _ Hinv Hin) as (_ & _ & Hp0).
      rewrite (proj2 (Z.eqb_neq _ 0)) by exact Hp0. cbn [negb].
      rewrite bind_assoc. erewrite bind_Ok by (apply load_ok; offs; lia). cbv beta.
      rewrite (queue_head _ _ _ (si_queue _ _ _ _ Hinv)).
      change (default 0 (pr_addr <$> head (p :: ps'))) with (pr_addr p).
      rewrite bind_assoc. destruct (sched_set_current _ _ _ _ _ Hinv Hin) as (s1 & R1 & M1 & Hinv1).
      erewrite bind_Ok by exact R1. cbv beta. erewrite bind_Ok by reflexivity. cbn [negb].
      rewrite <- M1. apply reap_spec; [done | by rewrite M1 | done].
Qed.
End Refinement.
