(* ===== verification/RoundRobin.v ===== *)
(** The promises of the scheduler: [TaskSwitch] runs the abstract scheduler
    [tick]; in runs of [tick] processes take turns of ten ticks each, and a preempted
    process gets back the registers it was interrupted with; a process that exits or
    raises an exception is gone at the next tick. *)
From S2P Require Import Prelude Memory Machine Scheduler SchedulerSpec.

(** ** Runs of the abstract scheduler

    Between two ticks the running process changes its registers: [run_ticks]
    takes the context of each interrupt. *)
Definition running (st : sched) : option Z := st.1.2.
Definition run_ticks (st : sched) (ctxs : list (list Z)) : sched :=
  foldl (fun st ctx => tick (st.1.1, st.1.2, ctx)) st ctxs.

Lemma run_ticks_snoc st cs c :
  run_ticks st (cs ++ [c]) = tick ((run_ticks st cs).1.1, (run_ticks st cs).1.2, c).
Proof. unfold run_ticks. by rewrite foldl_app. Qed.

Lemma quanta_alter a f ps :
  (forall p, pr_addr (f p) = pr_addr p) -> a ∈ pr_addr <$> ps ->
  exists p, find_proc a ps = Some p /\ quanta_of a (alter_proc a f ps) = pr_quanta (f p) /\
    regs_of a (alter_proc a f ps) = pr_regs (f p) /\ invalid_of a (alter_proc a f ps) = pr_invalid (f p).
Proof.
  intros Hf (p & Hp & _)%find_proc_Some. exists p. unfold quanta_of, regs_of, invalid_of.
  by rewrite !(find_alter_eq a f ps p) by done.
Qed.

Lemma quanta_alter_ne a b f ps :
  (forall p, pr_addr (f p) = pr_addr p) -> a <> b ->
  quanta_of b (alter_proc a f ps) = quanta_of b ps /\
  regs_of b (alter_proc a f ps) = regs_of b ps /\
  invalid_of b (alter_proc a f ps) = invalid_of b ps.
Proof. intros. unfold quanta_of, regs_of, invalid_of. by rewrite !find_alter_ne. Qed.

Lemma run_ticks_ctx ps cur c c' cs : (run_ticks (ps, cur, c) cs).1 = (run_ticks (ps, cur, c') cs).1.
Proof. by destruct cs. Qed.

(** A tick brings no process into the list. *)
Lemma tick_addrs st : sublist (pr_addr <$> (tick st).1.1) (pr_addr <$> st.1.1).
Proof.
  assert (Hrun : forall ps b, pr_addr <$> (run_proc ps b).1.1 = pr_addr <$> ps)
    by (intros; unfold run_proc; by apply alter_addrs).
  assert (Hch : forall ps b, pr_addr <$> (charge ps b).1.1 = pr_addr <$> ps).
  { intros ps b. unfold charge. destruct (_ =? _); rewrite Hrun; [by apply alter_addrs | done]. }
  assert (Hre : forall ps b c, sublist (pr_addr <$> (reap ps b c).1.1) (pr_addr <$> ps)).
  { intros ps b c. unfold reap. destruct (invalid_of b ps); [|by rewrite Hch].
    transitivity (pr_addr <$> remove_proc b ps); [|apply fmap_sublist, remove_sublist].
    destruct (remove_proc b ps); [done | by rewrite Hch]. }
  destruct st as [[ps [b|]] c]; cbn [tick fst].
  - rewrite <- (alter_addrs b (with_regs c) ps) by done. apply Hre.
  - destruct ps; [done|]. apply Hre.
Qed.

Lemma run_ticks_addrs cs : forall st, sublist (pr_addr <$> (run_ticks st cs).1.1) (pr_addr <$> st.1.1).
Proof.
  induction cs as [|c cs IH]; intros st; [done|].
  etransitivity; [apply IH | apply (tick_addrs (st.1.1, st.1.2, c))].
Qed.

(** ** Time slices *)

(** [a] runs, has [k] ticks left, and every other process a whole slice. *)
Record in_slice (ps : list proc) (a k : Z) : Prop := {
  sl_run : a ∈ pr_addr <$> ps;
  sl_left : quanta_of a ps = k;
  sl_full b : b ∈ pr_addr <$> ps -> b <> a -> quanta_of b ps = 10;
  sl_valid b : b ∈ pr_addr <$> ps -> invalid_of b ps = false;
}.

(** A change of records that keeps validity and the quanta of the others. *)
Lemma slice_alter a f ps k k' :
  (forall p, pr_addr (f p) = pr_addr p) -> (forall p, pr_invalid (f p) = pr_invalid p) ->
  (forall p, find_proc a ps = Some p -> pr_quanta (f p) = k') ->
  in_slice ps a k -> in_slice (alter_proc a f ps) a k'.
Proof.
  intros Hfa Hfi Hq [H1 H2 H3 H4].
  destruct (quanta_alter a f ps Hfa H1) as (p & Hp & E1 & E2 & E3).
  split; rewrite ?alter_addrs by done; [done | by rewrite E1, Hq | |].
  - intros b Hb Hne. destruct (quanta_alter_ne a b f ps) as (-> & _); [done | done |]. by apply H3.
  - intros b Hb. destruct (decide (a = b)) as [<-|Hne].
    + rewrite E3, Hfi. specialize (H4 a H1). unfold invalid_of in H4. by rewrite Hp in H4.
    + destruct (quanta_alter_ne a b f ps) as (_ & _ & ->); [done | done |]. by apply H4.
Qed.

Lemma slice_step ps a k ctx :
  in_slice ps a k -> 0 < k <= 10 ->
  exists ps' ctx', tick (ps, Some a, ctx) = (ps', Some a, ctx') /\ in_slice ps' a (k - 1) /\
    pr_addr <$> ps' = pr_addr <$> ps.
Proof.
  intros Hs Hk. cbn [tick]. unfold reap, charge.
  assert (H1 : in_slice (alter_proc a (with_regs ctx) ps) a k).
  { apply (slice_alter a _ ps k); [done | done | | done].
    intros p Hp. destruct Hs as [_ Hq _ _]. unfold quanta_of in Hq. by rewrite Hp in Hq. }
  set (ps1 := alter_proc a _ ps) in *.
  rewrite (sl_valid _ _ _ H1 a (sl_run _ _ _ H1)), (sl_left _ _ _ H1).
  rewrite (proj2 (Z.eqb_neq k 0)) by lia. unfold run_proc. rewrite (sl_left _ _ _ H1).
  eexists _, _. split; [reflexivity|]. split.
  - apply (slice_alter a _ ps1 k); try done. intros p _. cbn. word.
  - unfold ps1. by rewrite !alter_addrs.
Qed.

Lemma next_proc_addrs a ps ps' :
  pr_addr <$> ps = pr_addr <$> ps' -> next_proc a ps = next_proc a ps'.
Proof.
  intros Heq. unfold next_proc. rewrite (after_proc_addrs a ps ps' Heq).
  by rewrite (head_addrs ps ps' Heq).
Qed.

Lemma slice_switch ps a ctx :
  in_slice ps a 0 ->
  exists ps' ctx', tick (ps, Some a, ctx) = (ps', Some (next_proc a ps), ctx') /\
    in_slice ps' (next_proc a ps) 9 /\ pr_addr <$> ps' = pr_addr <$> ps.
Proof.
  intros Hs. cbn [tick]. unfold reap, charge.
  assert (H1 : in_slice (alter_proc a (with_regs ctx) ps) a 0).
  { apply (slice_alter a _ ps 0); [done | done | | done].
    intros p Hp. destruct Hs as [_ Hq _ _]. unfold quanta_of in Hq. by rewrite Hp in Hq. }
  set (ps1 := alter_proc a _ ps) in *.
  assert (Hn1 : next_proc a ps1 = next_proc a ps) by (apply next_proc_addrs; by apply alter_addrs).
  rewrite (sl_valid _ _ _ H1 a (sl_run _ _ _ H1)), (sl_left _ _ _ H1). cbn [Z.eqb].
  rewrite Hn1.
  assert (H2 : in_slice (alter_proc a (with_quanta 10) ps1) a 10)
    by (apply (slice_alter a _ ps1 0); done).
  set (ps2 := alter_proc a (with_quanta 10) ps1) in *.
  assert (Ha2 : pr_addr <$> ps2 = pr_addr <$> ps) by (unfold ps2, ps1; by rewrite !alter_addrs).
  assert (Hb : next_proc a ps ∈ pr_addr <$> ps2).
  { rewrite Ha2. apply next_proc_elem. intros ->. destruct Hs as [Hr _ _ _].
    by apply not_elem_of_nil in Hr. }
  set (b := next_proc a ps) in *.
  assert (H3 : in_slice ps2 b 10).
  { destruct H2 as [Hr Hl Hf Hv]. split; try done.
    - destruct (decide (b = a)) as [->|Hne]; [done | by apply Hf].
    - intros c Hc _. destruct (decide (c = a)) as [->|Hne]; [done | by apply Hf]. }
  unfold run_proc. rewrite (sl_left _ _ _ H3). eexists _, _. split; [reflexivity|]. split.
  - by apply (slice_alter b _ ps2 10).
  - by rewrite alter_addrs.
Qed.

Lemma slice_run ps a ctx (cs : list (list Z)) (k : nat) :
  in_slice ps a 9 -> length cs = k -> (k <= 9)%nat ->
  exists ps' ctx', run_ticks (ps, Some a, ctx) cs = (ps', Some a, ctx') /\
    in_slice ps' a (9 - Z.of_nat k) /\ pr_addr <$> ps' = pr_addr <$> ps.
Proof.
  intros Hs. revert cs. induction k as [|k IH]; intros cs Hlen Hk.
  { apply length_zero_iff_nil in Hlen as ->. by exists ps, ctx. }
  destruct cs as [|c cs _] using rev_ind; [done|]. rewrite length_app in Hlen. cbn in Hlen.
  destruct (IH cs) as (ps' & ctx' & Hrun & Hs' & Ha'); [lia | lia |].
  rewrite run_ticks_snoc, Hrun. cbn [fst snd].
  destruct (slice_step ps' a (9 - Z.of_nat k) c Hs') as (ps2 & c2 & Ht & Hs2 & Ha2); [lia|].
  exists ps2, c2. rewrite Ht. split_and!; [done | | congruence].
  by replace (9 - Z.of_nat (S k)) with (9 - Z.of_nat k - 1) by lia.
Qed.

(** The process that runs after [n] more slices. *)
Fixpoint nth_next (n : nat) (a : Z) (ps : list proc) : Z :=
  match n with
  | O => a
  | S n => next_proc (nth_next n a ps) ps
  end.

Lemma slices_run n ps a ctx cs k :
  in_slice ps a 9 -> length cs = (10 * n + k)%nat -> (k < 10)%nat ->
  exists ps' ctx', run_ticks (ps, Some a, ctx) cs = (ps', Some (nth_next n a ps), ctx') /\
    in_slice ps' (nth_next n a ps) (9 - Z.of_nat k) /\ pr_addr <$> ps' = pr_addr <$> ps.
Proof.
  revert cs k. induction n as [|n IH]; intros cs k Hs Hlen Hk; [apply slice_run; [done | lia | lia]|].
  assert (Hsplit : cs = take (10 * n + 9) cs ++ drop (10 * n + 9) cs) by (by rewrite take_drop).
  destruct (IH (take (10 * n + 9) cs) 9%nat Hs) as (ps1 & c1 & Hrun & Hs1 & Ha1);
    [rewrite length_take; lia | lia |].
  assert (Hd : length (drop (10 * n + 9) cs) = S k) by (rewrite length_drop; lia).
  destruct (drop (10 * n + 9) cs) as [|c rest]; [done|]. injection Hd as Hd.
  rewrite Hsplit. unfold run_ticks. rewrite foldl_app. cbn [foldl].
  fold (run_ticks (ps, Some a, ctx) (take (10 * n + 9) cs)). rewrite Hrun. cbn [fst snd].
  change (9 - Z.of_nat 9) with 0 in Hs1.
  destruct (slice_switch ps1 _ c Hs1) as (ps2 & c2 & Ht & Hs2 & Ha2). rewrite Ht.
  rewrite (next_proc_addrs _ ps1 ps) in * by done.
  destruct (slice_run ps2 _ c2 rest k Hs2 Hd) as (ps3 & c3 & Hrun3 & Hs3 & Ha3); [lia|].
  exists ps3, c3. split_and!; [exact Hrun3 | exact Hs3 | congruence].
Qed.

(** The list is run through in order and then from the start. *)
Lemma after_proc_index ps i a :
  NoDup (pr_addr <$> ps) -> (pr_addr <$> ps) !! i = Some a -> after_proc a ps = (pr_addr <$> ps) !! S i.
Proof.
  revert i. induction ps as [|p ps IH]; intros i Hnd Hi; [done|]. cbn in *.
  apply NoDup_cons in Hnd as [Hn Hnd]. destruct i as [|i]; cbn in Hi.
  - injection Hi as <-. rewrite decide_True by done. by destruct ps.
  - rewrite decide_False; [by apply IH|]. intros Heq. apply Hn. rewrite Heq.
    by eapply list_elem_of_lookup_2.
Qed.

Lemma next_proc_index ps i a :
  NoDup (pr_addr <$> ps) -> (pr_addr <$> ps) !! i = Some a ->
  (pr_addr <$> ps) !! (S i `mod` length ps)%nat = Some (next_proc a ps).
Proof.
  intros Hnd Hi. unfold next_proc. rewrite (after_proc_index ps i a Hnd Hi).
  pose proof (lookup_lt_Some _ _ _ Hi) as Hlt. rewrite length_fmap in Hlt.
  destruct (decide (S i < length ps)%nat) as [Hs|Hs].
  - rewrite Nat.mod_small by done.
    destruct (lookup_lt_is_Some_2 (pr_addr <$> ps) (S i)) as [b Hb]; [by rewrite length_fmap|].
    by rewrite Hb.
  - replace (S i) with (length ps) by lia. rewrite Nat.Div0.mod_same.
    rewrite (lookup_ge_None_2 _ (length ps)) by (by rewrite length_fmap).
    destruct ps; [done | cbn; done].
Qed.

Lemma nth_next_index n ps i a :
  NoDup (pr_addr <$> ps) -> (pr_addr <$> ps) !! i = Some a ->
  (pr_addr <$> ps) !! ((i + n) `mod` length ps)%nat = Some (nth_next n a ps).
Proof.
  intros Hnd Hi. pose proof (lookup_lt_Some _ _ _ Hi) as Hlt. rewrite length_fmap in Hlt.
  induction n as [|n IH].
  - by rewrite Nat.add_0_r, Nat.mod_small.
  - cbn [nth_next]. pose proof (next_proc_index ps _ _ Hnd IH) as Hn.
    assert (Hm : (S ((i + n) `mod` length ps) `mod` length ps = (i + S n) `mod` length ps)%nat).
    { replace (S ((i + n) `mod` length ps))%nat with ((i + n) `mod` length ps + 1)%nat by apply Nat.add_1_r.
      rewrite Nat.Div0.add_mod_idemp_l. by replace (i + n + 1)%nat with (i + S n)%nat by lia. }
    by rewrite <- Hm.
Qed.

(** When the process at index [i] has just been given the processor, the process at
    index [i + n] modulo the length of the list runs after [10 n + k] ticks. *)
Lemma ticks_round_robin n ps i a ctx cs k :
  NoDup (pr_addr <$> ps) -> (pr_addr <$> ps) !! i = Some a -> in_slice ps a 9 ->
  length cs = (10 * n + k)%nat -> (k < 10)%nat ->
  exists ps' b ctx', run_ticks (ps, Some a, ctx) cs = (ps', Some b, ctx') /\
    (pr_addr <$> ps) !! ((i + n) `mod` length ps)%nat = Some b /\
    pr_addr <$> ps' = pr_addr <$> ps /\ quanta_of b ps' = 9 - Z.of_nat k.
Proof.
  intros Hnd Hi Hs Hlen Hk. destruct (slices_run n ps a ctx cs k Hs Hlen Hk) as (ps' & ctx' & Hr & Hs' & Ha').
  exists ps', (nth_next n a ps), ctx'. split_and!; [done | by apply nth_next_index | done |].
  apply (sl_left _ _ _ Hs').
Qed.

(** ** Contexts *)

(** What a process that is not running keeps over a tick, and what it gets when
    the tick gives it the processor. *)
Definition kept (b : Z) (c : list Z) (st : sched) : Prop :=
  b ∈ pr_addr <$> st.1.1 /\ invalid_of b st.1.1 = false /\ regs_of b st.1.1 = c.

Lemma kept_alter b c ps a f cur ctx :
  (forall p, pr_addr (f p) = pr_addr p) -> (forall p, pr_invalid (f p) = pr_invalid p) ->
  (a = b -> forall p, pr_regs (f p) = pr_regs p) ->
  kept b c (ps, cur, ctx) -> kept b c (alter_proc a f ps, cur, ctx).
Proof.
  intros Hfa Hfi Hfr (H1 & H2 & H3). unfold kept in *. cbn [fst] in *. rewrite alter_addrs by done.
  split; [done|]. destruct (decide (a = b)) as [<-|Hne].
  - destruct (quanta_alter a f ps Hfa H1) as (p & Hp & _ & -> & ->).
    unfold invalid_of, regs_of in *. rewrite Hp in *. cbn in *. by rewrite Hfi, Hfr.
  - by destruct (quanta_alter_ne a b f ps) as (_ & -> & ->).
Qed.

Lemma kept_charge b c ps a ctx :
  kept b c (ps, Some a, ctx) ->
  kept b c (charge ps a) /\ ((charge ps a).1.2 = Some b -> (charge ps a).2 = c).
Proof.
  intros Hk. unfold charge, run_proc. destruct (quanta_of a ps =? 0); cbn [fst snd].
  - assert (H1 : kept b c (alter_proc a (with_quanta 10) ps, Some a, ctx)) by (by apply kept_alter).
    split.
    + by apply (kept_alter b c (alter_proc a (with_quanta 10) ps) (next_proc a ps) _ (Some a) ctx).
    + intros [= ->]. apply H1.
  - split.
    + by apply (kept_alter b c ps a _ (Some a) ctx).
    + intros [= ->]. apply Hk.
Qed.

Lemma find_remove_ne a b ps : a <> b -> find_proc b (remove_proc a ps) = find_proc b ps.
Proof.
  intros Hne. induction ps as [|p ps IH]; [done|]. unfold remove_proc in *. cbn [find_proc].
  destruct (decide (pr_addr p = a)) as [Hp|Hp].
  - rewrite filter_cons_False by tauto. rewrite decide_False by congruence. exact IH.
  - rewrite filter_cons_True by done. cbn [find_proc]. case_decide; [done | exact IH].
Qed.

Lemma kept_remove b c ps a cur ctx :
  a <> b -> kept b c (ps, cur, ctx) -> kept b c (remove_proc a ps, cur, ctx).
Proof.
  intros Hne (H1 & H2 & H3). unfold kept, invalid_of, regs_of in *. cbn [fst] in *.
  rewrite find_remove_ne by done. split_and!; [|done|done].
  apply list_elem_of_fmap in H1 as (p & -> & Hp). apply list_elem_of_fmap_2.
  apply list_elem_of_filter. split; [congruence | done].
Qed.

Lemma kept_reap b c ps a ctx :
  kept b c (ps, Some a, ctx) ->
  kept b c (reap ps a ctx) /\ ((reap ps a ctx).1.2 = Some b -> (reap ps a ctx).2 = c).
Proof.
  intros Hk. unfold reap. destruct (invalid_of a ps) eqn:Hinv; [|by apply (kept_charge b c ps a ctx)].
  assert (Hne : a <> b) by (intros ->; destruct Hk as (_ & H2 & _); cbn [fst] in H2; congruence).
  pose proof (kept_remove b c ps a (Some a) ctx Hne Hk) as Hr.
  destruct (remove_proc a ps) as [|p ps'] eqn:Hrem.
  - destruct Hr as (Hr & _). by apply not_elem_of_nil in Hr.
  - by apply (kept_charge b c (p :: ps') (pr_addr p) ctx).
Qed.

Lemma kept_tick b c ps cur ctx ctx' :
  cur <> Some b -> kept b c (ps, cur, ctx') ->
  kept b c (tick (ps, cur, ctx)) /\
  ((tick (ps, cur, ctx)).1.2 = Some b -> (tick (ps, cur, ctx)).2 = c).
Proof.
  intros Hcur Hk. cbn [tick]. destruct cur as [a|].
  - apply (kept_reap b c). apply (kept_alter b c ps a _ (Some a) ctx'); [done | done | congruence | done].
  - destruct ps as [|p ps]; [destruct Hk as (Hk & _); by apply not_elem_of_nil in Hk|].
    by apply (kept_reap b c).
Qed.

(** If a valid process is interrupted with registers [c] and loses the processor,
    then its registers are [c] again when it is next given it. *)
Lemma ticks_restore ps b c cs ctx :
  b ∈ pr_addr <$> ps -> invalid_of b ps = false ->
  let st := tick (ps, Some b, c) in
  (forall n, (n <= length cs)%nat -> running (run_ticks st (take n cs)) <> Some b) ->
  running (run_ticks st (cs ++ [ctx])) = Some b ->
  (run_ticks st (cs ++ [ctx])).2 = c.
Proof.
  intros Hb Hv st Hout Hback.
  assert (Hk0 : kept b c (alter_proc b (with_regs c) ps, Some b, c)).
  { unfold kept. cbn [fst]. rewrite alter_addrs by done. split; [done|].
    destruct (quanta_alter b (with_regs c) ps (fun _ => eq_refl) Hb) as (p & Hp & _ & -> & ->).
    unfold invalid_of in Hv. rewrite Hp in Hv. done. }
  assert (Hk : forall n, (n <= length cs)%nat ->
    kept b c (run_ticks st (take n cs))).
  { induction n as [|n IH]; intros Hn.
    - cbn. unfold st. cbn [tick]. by apply (kept_reap b c).
    - destruct (lookup_lt_is_Some_2 cs n) as [x Hx]; [lia|].
      rewrite (take_S_r _ _ _ Hx), run_ticks_snoc. specialize (IH ltac:(lia)).
      pose proof (Hout n ltac:(lia)) as Ho. destruct (run_ticks st (take n cs)) as [[ps' cur'] c'].
      by apply (kept_tick b c ps' cur' x c'). }
  specialize (Hk (length cs) ltac:(lia)). specialize (Hout (length cs) ltac:(lia)).
  rewrite take_ge in Hk, Hout by lia. rewrite run_ticks_snoc in *.
  destruct (run_ticks st cs) as [[ps' cur'] c']. cbn [fst snd] in *.
  by apply (kept_tick b c ps' cur' ctx c').
Qed.

Lemma remove_alter a f ps :
  (forall p, pr_addr (f p) = pr_addr p) -> remove_proc a (alter_proc a f ps) = remove_proc a ps.
Proof.
  intros Hf. unfold remove_proc, alter_proc. induction ps as [|q ps IH]; [done|]. rewrite fmap_cons.
  destruct (decide (pr_addr q = a)) as [Hq|Hq].
  - rewrite !filter_cons_False by (rewrite ?Hf; tauto). exact IH.
  - rewrite !filter_cons_True by done. by rewrite IH.
Qed.

(** ** The code *)

Section Code.
Context `{StaticsOk}.

(** C7. [TaskSwitch] implements the abstract scheduler: on a well-formed list
    of processes, with the interrupted registers on the stack, it finishes
    without a fault, leaves the list, the current process, the saved registers and
    the registers on the stack exactly as [tick] says, and writes nothing but the
    stack, the frames of the processes and the head of the list. *)
Theorem TaskSwitch_implements_tick fuel stack s ps cur ctx :
  sched_inv stack s ps cur -> bytes_at (mem s) stack 160 = ctx -> (length ps <= fuel)%nat ->
  exists s', TaskSwitch fuel stack s = Ok tt s' /\
    let st := tick (ps, cur, ctx) in
    sched_inv stack s' st.1.1 st.1.2 /\ bytes_at (mem s') stack 160 = st.2 /\
    sched_only stack (pr_addr <$> ps) (mem s) (mem s').
Proof using All.
  intros Hinv Hctx Hf. destruct (TaskSwitch_run fuel stack s (ps, cur, ctx)) as (s' & ? & [??] & ?); [done | done |].
  by exists s'.
Qed.

(** Marking the current process and waiting. *)
Lemma mark_invalid stack s ps a :
  sched_inv stack s ps (Some a) ->
  sched_inv stack (with_mem s (st (mem s) 1 (a + off_invalid) 1)) (alter_proc a with_invalid ps) (Some a).
Proof using All.
  intros Hinv. destruct (si_cur _ _ _ _ Hinv) as [_ Ha].
  eapply sched_alter; [exact Hinv | exact Ha | apply same_regs_with_mem | | done | done |].
  - apply same_on_st. intros x Hx Hw. apply Hx. offs. unfold within in *. lia.
  - intros q _ <- Hat. eapply set_invalid_at; [| |exact Hat].
    + apply same_on_st. intros x [_ Hx] Hw. apply Hx, Hw.
    + cbn [mem with_mem st]. by rewrite rd_wr_eq.
Qed.

(** The tick after a process was marked. *)
Lemma tick_marked ps a ctx :
  a ∈ pr_addr <$> ps ->
  let st := tick (alter_proc a with_invalid ps, Some a, ctx) in
  pr_addr <$> st.1.1 = pr_addr <$> remove_proc a ps /\
  match running st with
  | None => remove_proc a ps = []
  | Some b => b ∈ pr_addr <$> remove_proc a ps
  end.
Proof using.
  intros Ha. cbn [tick]. unfold reap.
  set (ps1 := alter_proc a with_invalid ps). set (ps2 := alter_proc a (with_regs ctx) ps1).
  assert (Ha1 : a ∈ pr_addr <$> ps1) by (unfold ps1; by rewrite alter_addrs).
  destruct (quanta_alter a (with_regs ctx) ps1 (fun _ => eq_refl) Ha1) as (p1 & Hp1 & _ & _ & E).
  destruct (quanta_alter a with_invalid ps (fun _ => eq_refl) Ha) as (p & Hp & _ & _ & E').
  assert (Hv : invalid_of a ps2 = true).
  { unfold ps2. rewrite E. unfold invalid_of, ps1 in *. rewrite Hp1 in E'. exact E'. }
  rewrite Hv. assert (Heq : remove_proc a ps2 = remove_proc a ps)
    by (unfold ps2, ps1; by rewrite !remove_alter).
  rewrite Heq. destruct (remove_proc a ps) as [|q ps'] eqn:Hr2; [done|].
  unfold charge, run_proc, running. case_Z; cbn [fst snd]; rewrite !alter_addrs by done;
    (split; [done|]); [by apply next_proc_elem | cbn; left].
Qed.

(** C29. A process that calls [ProcessExit] waits with interrupts enabled, and
    the next tick unlinks it and nothing else: the remaining processes keep
    their order, and one of them runs unless none is left. *)
Theorem ProcessExit_removed stack s ps a ctx fuel :
  sched_inv stack s ps (Some a) -> bytes_at (mem s) stack 160 = ctx -> (length ps <= fuel)%nat ->
  exists s1 s2 ps' cur', ProcessExit s = Halt s1 /\ IF s1 = true /\
    TaskSwitch fuel stack s1 = Ok tt s2 /\ sched_inv stack s2 ps' cur' /\
    pr_addr <$> ps' = pr_addr <$> remove_proc a ps /\
    match cur' with
    | None => remove_proc a ps = []
    | Some b => b ∈ pr_addr <$> remove_proc a ps
    end.
Proof using All.
  intros Hinv Hctx Hf. destruct (si_cur _ _ _ _ Hinv) as [Hc Ha].
  destruct (si_range _ _ _ _ _ Hinv Ha) as (Hpg & _ & _).
  pose proof (mark_invalid _ _ _ _ Hinv) as Hm.
  set (s1 := with_IF (with_mem (with_IF s false) (st (mem s) 1 (a + off_invalid) 1)) true).
  assert (Hm1 : sched_inv stack s1 (alter_proc a with_invalid ps) (Some a)) by (destruct Hm; by split).
  destruct (TaskSwitch_run fuel stack s1 (alter_proc a with_invalid ps, Some a, ctx)) as (s2 & Hrun & Hs2 & _).
  { split; [exact Hm1|]. rewrite <- Hctx. cbn [snd]. apply bytes_at_ext. intros i Hi.
    apply rd_st_ne. apply list_elem_of_fmap in Ha as (p & -> & Hp).
    destruct (si_place _ _ _ _ Hinv p Hp) as (_ & _ & Hap). offs. unfold apart, within in *. lia. }
  { cbn [fst]. unfold alter_proc. by rewrite length_fmap. }
  destruct (tick_marked ps a ctx Ha) as [T1 T2]. destruct Hs2 as [Hs2 _].
  exists s1, s2. eexists _, _. split_and!; [| done | exact Hrun | exact Hs2 | exact T1 | exact T2].
  unfold ProcessExit. erewrite bind_Ok by reflexivity. cbv beta.
  erewrite bind_Ok by reflexivity. cbv beta. cbn [with_IF sched_g]. rewrite Hc.
  erewrite bind_Ok by (apply store_ok; offs; lia). done.
Qed.

(** C30. Exceptions.  Before scheduling has started, and as long as nothing was ever
    given the processor, an exception panics: the report names it, interrupts stay off
    and memory is as it was.  When a process runs, the exception prints its name and
    pid, marks its frame - one byte - and waits with interrupts on, so that the next
    tick drops it.  When the last process has gone, the kernel's own exceptions mark
    the head of the list instead of panicking. *)
Theorem exception_handling name s :
  (schedulingStarted (sched_g s) = false \/ current (sched_g s) = 0 ->
    CommonExceptionHandler name s = Halt (panic_state name s)) /\
  (schedulingStarted (sched_g s) = true -> forall a, current (sched_g s) = a -> PAGE <= a ->
    exists s1, CommonExceptionHandler name s = Halt s1 /\ IF s1 = true /\
      trace s1 = EvPrintf ("(!) The process " ++ quote ++ "%s" ++ quote ++
          " with PID %d has been terminated due to an exception (%s).\n")
        [AVal (a + off_processName); AVal (rd (mem s) (a + off_pid)); AText name] :: trace s /\
      rd (mem s1) (a + off_invalid) = 1 /\ same_on (fun x => x <> a + off_invalid) (mem s) (mem s1) /\
      (forall stack ps, sched_inv stack s ps (Some a) -> sched_inv stack s1 (alter_proc a with_invalid ps) (Some a)) /\
      forall stack ps, sched_inv stack s ps None -> a = addr_prochead /\ sched_inv stack s1 ps None).
Proof using All.
  unfold CommonExceptionHandler. split.
  - intros Hno. erewrite bind_Ok by reflexivity. cbv beta. erewrite bind_Ok by reflexivity. cbv beta.
    cbn [with_IF sched_g]. destruct (schedulingStarted (sched_g s)) eqn:Hs; [|by rewrite panic_run].
    destruct Hno as [|Hc]; [done|]. erewrite bind_Ok by reflexivity. cbv beta. cbn [with_IF sched_g]. rewrite Hc.
    cbn [Z.eqb]. rewrite when_true by done. erewrite bind_Halt by apply panic_run. done.
  - intros Hs a Hc Hpg. erewrite bind_Ok by reflexivity. cbv beta. erewrite bind_Ok by reflexivity. cbv beta.
    cbn [with_IF sched_g]. rewrite Hs. erewrite bind_Ok by reflexivity. cbv beta. cbn [with_IF sched_g]. rewrite Hc.
    rewrite when_false by (apply Z.eqb_neq; lia). erewrite bind_Ok by reflexivity. cbv beta.
    erewrite bind_Ok by (apply load_ok; offs; lia). cbv beta. rewrite ld1_rd.
    erewrite bind_Ok by reflexivity. cbv beta. erewrite bind_Ok by (apply store_ok; offs; lia). cbv beta.
    erewrite bind_Ok by reflexivity. cbv beta. eexists. split; [reflexivity|].
    assert (M : same_on (fun x => x <> a + off_invalid) (mem s) (st (mem s) 1 (a + off_invalid) 1)).
    { apply same_on_st. intros x Hx Hw. apply Hx. unfold within in Hw. lia. }
    split; [done|]. split; [done|]. split; [|split; [exact M|split]].
    + cbn [mem with_mem with_IF with_trace st]. by rewrite rd_wr_eq.
    + intros stack ps Hinv. pose proof (mark_invalid _ _ _ _ Hinv) as Hm. destruct Hm. by split.
    + intros stack ps Hinv. pose proof (si_cur _ _ _ _ Hinv) as [Hz|Ha]; [lia|]. rewrite Hc in Ha. split; [done|].
      subst a. eapply sched_stable; [exact Hinv | | | right; exact Ha].
      * intros p Hp. eapply same_on_weaken; [exact M|]. intros x Hx ->.
        destruct (si_place _ _ _ _ Hinv p Hp) as (_ & Hap & _). offs. unfold apart, within in *. lia.
      * apply (same_on_ld _ _ _ _ _ M). offs. unfold within. lia.
Qed.

(** Running off the end of the list. *)
Lemma terminate_missing ps pa pid fuel s :
  queue (mem s) pa ps -> PAGE <= pa -> (forall q, q ∈ ps -> PAGE <= pr_addr q) ->
  Forall (fun q => pr_pid q <> pid) ps -> (length ps < fuel)%nat ->
  TerminateTask_loop fuel pa pid s = Fault 0 s.
Proof using.
  revert pa fuel. induction ps as [|q ps IH]; intros pa [|fuel] Hq Hpa Hpg Hpid Hf;
    try (simpl in Hf; lia); cbn [queue TerminateTask_loop] in *;
    erewrite bind_Ok by (apply load_ok; offs; lia); cbv beta.
  - rewrite Hq. unfold bind. by rewrite load_null by (offs; lia).
  - destruct Hq as (Hn & (Hp & _) & Hq). rewrite Hn.
    assert (Hq0 : PAGE <= pr_addr q) by (apply Hpg; left).
    inversion Hpid as [|? ? Hne Hpid']; subst.
    erewrite bind_Ok by (apply load_ok; offs; lia). cbv beta. cbn [ld]. rewrite Hp, Z.mul_0_r, Z.add_0_r.
    rewrite (proj2 (Z.eqb_neq _ _)) by done. rewrite (proj2 (Z.eqb_neq (pr_addr q) 0)) by lia.
    apply IH; [done | lia | intros; apply Hpg; by right | done | simpl in Hf; lia].
Qed.

(** [TerminateTask] for a pid that no process has dereferences the null
    pointer at the end of the list: the pid is compared before the test for
    the end. *)
Theorem TerminateTask_unknown_pid_faults stack s ps cur pid fuel :
  sched_inv stack s ps cur -> pid ∉ pr_pid <$> ps -> (length ps < fuel)%nat ->
  exists s', TerminateTask fuel pid s = Fault 0 s'.
Proof using All.
  intros Hinv Hpid Hf. unfold TerminateTask. erewrite bind_Ok by reflexivity. cbv beta.
  erewrite bind_Ok by reflexivity. cbv beta. eexists.
  apply (terminate_missing ps); [apply Hinv | apply prochead_page | | | done].
  - intros q Hq. by apply (si_place _ _ _ _ Hinv).
  - apply Forall_forall. intros q Hq Heq. apply Hpid. rewrite <- Heq. by apply list_elem_of_fmap_2.
Qed.

(** The second stage of the switch loads the page tables of the running
    process, except when it has none or when its time slice is used up: the
    last tick of a slice runs on the kernel's tables. *)
Theorem Stage2_loads stack s ps a :
  sched_inv stack s ps (Some a) ->
  exists p, find_proc a ps = Some p /\
    _TaskSwitch_Stage2 s =
      if (pr_cr3 p =? 0) || (pr_quanta p =? 0) then Ok tt s
      else Ok tt (with_trace (with_CR3 s (pr_cr3 p)) (EvLoadCR3 (pr_cr3 p) :: trace s)).
Proof using All.
  intros Hinv. destruct (si_cur _ _ _ _ Hinv) as [Hc Ha].
  destruct (si_range _ _ _ _ _ Hinv Ha) as (Hpg & Hn1 & Hn0).
  destruct (si_find _ _ _ _ _ Hinv Ha) as (p & Hf & _ & Hpa & (_ & _ & Hq & Hcr & _) & _).
  exists p. split; [done|]. unfold _TaskSwitch_Stage2. erewrite bind_Ok by reflexivity. cbv beta.
  rewrite Hc, (proj2 (Z.eqb_neq a 0)), (proj2 (Z.eqb_neq a addr_prochead)) by done. cbn [orb].
  erewrite bind_Ok by (apply load_ok; offs; lia). cbv beta. rewrite <- Hpa, Hcr.
  destruct (pr_cr3 p =? 0); [done|]. cbn [orb].
  erewrite bind_Ok by (apply load_ok; offs; lia). cbv beta. cbn [ld]. rewrite Hq, Z.mul_0_r, Z.add_0_r.
  by destruct (pr_quanta p =? 0).
Qed.
End Code.
