(* ===== verification/SchedWitness.v ===== *)
(** Concrete instances of the scheduler theorems: two processes in memory, the
    first one running. *)
From S2P Require Import Prelude Memory Machine PageSource FrameAlloc Heap Demo.
From S2P Require Import Scheduler SchedulerSpec RoundRobin.

(** Frames at 2 MiB and the page behind it, registers all zero. *)
Definition procA (q : Z) : proc := Proc 0x200000 2 (replicate 160 0) q 0x180000 false.
Definition procB : proc := Proc 0x201000 1 (replicate 160 0) 10 0x181000 false.

Definition demo_sched_mem (q : Z) : gmap Z Z :=
  let m := st ∅ 8 (addr_prochead + off_next) 0x200000 in
  let m := st m 1 (0x200000 + off_pid) 2 in
  let m := st m 1 (0x200000 + off_quanta) q in
  let m := st m 8 (0x200000 + off_cr3) 0x180000 in
  let m := st m 8 (0x200000 + off_next) 0x201000 in
  let m := st m 1 (0x201000 + off_pid) 1 in
  let m := st m 1 (0x201000 + off_quanta) 10 in
  st m 8 (0x201000 + off_cr3) 0x181000.
Definition demo_sched (q : Z) : machine :=
  with_sched (with_mem blank (demo_sched_mem q)) (SchedGlobals 3 true 0x200000).

Definition demo_stack : Z := 0x300000.
Definition zero_regs : list Z := replicate 160 0.

Lemma demo_sched_place n :
  queue (mem (demo_sched n)) addr_prochead [procA n; procB] ->
  sched_inv demo_stack (demo_sched n) [procA n; procB] (Some 0x200000).
Proof.
  intros Hqueue. split.
  - exact Hqueue.
  - apply (bool_decide_unpack _). by vm_compute.
  - apply (bool_decide_unpack _). by vm_compute.
  - intros p q Hp Hq Hne. apply list_elem_of_In in Hp, Hq. unfold apart.
    destruct Hp as [<-|[<-|[]]], Hq as [<-|[<-|[]]]; cbn in *; unfold sizeof_ProcessFrame; lia.
  - intros p Hp. apply list_elem_of_In in Hp. unfold apart.
    destruct Hp as [<-|[<-|[]]]; cbn; unfold sizeof_ProcessFrame, sizeof_Registers, demo_stack; lia.
  - unfold apart, demo_stack, sizeof_Registers. cbn. lia.
  - split; [done | cbn; left].
Qed.

Lemma demo_sched_inv : sched_inv demo_stack (demo_sched 9) [procA 9; procB] (Some 0x200000).
Proof. apply demo_sched_place. vm_compute. repeat split. Qed.
(** The first process has used up its slice. *)
Lemma demo_sched_inv0 : sched_inv demo_stack (demo_sched 0) [procA 0; procB] (Some 0x200000).
Proof. apply demo_sched_place. vm_compute. repeat split. Qed.

Lemma demo_stack_zero : bytes_at (mem (demo_sched 9)) demo_stack 160 = zero_regs.
Proof. by vm_compute. Qed.

Lemma TaskSwitch_implements_tick_witness :
  exists s', TaskSwitch 2 demo_stack (demo_sched 9) = Ok tt s' /\
    sched_inv demo_stack s' [procA 8; procB] (Some 0x200000).
Proof.
  destruct (TaskSwitch_implements_tick 2 demo_stack (demo_sched 9) [procA 9; procB] (Some 0x200000)
    zero_regs demo_sched_inv demo_stack_zero) as (s' & Hrun & Hinv & _).
  - simpl. lia.
  - exists s'. split; [exact Hrun | exact Hinv].
Defined.

Lemma demo_slice : in_slice [procA 9; procB] 0x200000 9.
Proof.
  split.
  - cbn. left.
  - reflexivity.
  - intros b [->|[->|Hb%not_elem_of_nil]%elem_of_cons]%elem_of_cons Hne; [by destruct Hne | done | done].
  - intros b [->|[->|Hb%not_elem_of_nil]%elem_of_cons]%elem_of_cons; done.
Qed.

Lemma ProcessExit_removed_witness :
  exists s1 s2 ps' cur', ProcessExit (demo_sched 9) = Halt s1 /\
    TaskSwitch 2 demo_stack s1 = Ok tt s2 /\ sched_inv demo_stack s2 ps' cur' /\
    pr_addr <$> ps' = [0x201000].
Proof.
  destruct (ProcessExit_removed demo_stack (demo_sched 9) [procA 9; procB] 0x200000 zero_regs 2
    demo_sched_inv demo_stack_zero) as (s1 & s2 & ps' & cur' & H1 & _ & H2 & H3 & H4 & _).
  - simpl. lia.
  - exists s1, s2, ps', cur'. split; [exact H1|]. split; [exact H2|]. split; [exact H3 | exact H4].
Defined.

(** The three cases: at boot, with a process running, and after the last one has gone. *)
Definition lone_sched : machine :=
  with_sched (with_mem blank ∅) (SchedGlobals 3 true addr_prochead).

Lemma exception_handling_witness :
  CommonExceptionHandler "Page fault" blank =
    Halt (panic_state "Page fault" blank) /\
  (exists s1, CommonExceptionHandler "Page fault" (demo_sched 9) = Halt s1 /\ IF s1 = true /\
    sched_inv demo_stack s1 [with_invalid (procA 9); procB] (Some 0x200000)) /\
  (exists s1, CommonExceptionHandler "Page fault" lone_sched = Halt s1 /\ IF s1 = true /\
    rd (mem s1) (addr_prochead + off_invalid) = 1).
Proof.
  destruct (exception_handling "Page fault" blank) as [H1 _].
  destruct (exception_handling "Page fault" (demo_sched 9)) as [_ H2].
  destruct (exception_handling "Page fault" lone_sched) as [_ H3].
  destruct (H2 eq_refl 0x200000 eq_refl) as (s2 & R2 & F2 & _ & _ & _ & I2 & _); [vm_compute; congruence|].
  destruct (H3 eq_refl addr_prochead eq_refl) as (s3 & R3 & F3 & _ & V3 & _); [apply prochead_page|].
  split; [apply H1; by left|]. split.
  - exists s2. split; [exact R2|]. split; [exact F2|]. exact (I2 demo_stack _ demo_sched_inv).
  - exists s3. split; [exact R3|]. split; [exact F3 | exact V3].
Defined.

Lemma TerminateTask_unknown_pid_faults_witness :
  exists s', TerminateTask 3 7 (demo_sched 9) = Fault 0 s'.
Proof.
  apply (TerminateTask_unknown_pid_faults demo_stack (demo_sched 9) [procA 9; procB] (Some 0x200000) 7 3
    demo_sched_inv).
  - apply (bool_decide_unpack _). vm_compute. exact I.
  - simpl. lia.
Defined.

Lemma Stage2_loads_witness :
  _TaskSwitch_Stage2 (demo_sched 9) =
    Ok tt (with_trace (with_CR3 (demo_sched 9) 0x180000) [EvLoadCR3 0x180000]).
Proof.
  destruct (Stage2_loads demo_stack (demo_sched 9) [procA 9; procB] 0x200000 demo_sched_inv)
    as (p & Hf & Hs).
  cbn in Hf. injection Hf as <-. exact Hs.
Defined.
