(* ===== verification/Spawn.v ===== *)
(** multitasking/scheduler.c, [IntAddTask] and its two callers: a process is a
    heap block for its frame, an address space, a page for its stack and an
    entry at the front of the process list.  mm/vmm/vmm.c: a page for the
    running process. *)
From S2P Require Import Prelude Memory Machine PageSource Heap Bitfield PageWalk Paging.
From S2P Require Import PagingSpec AddressSpace CString Scheduler SchedulerSpec.

(** [strcpy] from a string literal of the kernel image. *)
Fixpoint strcpy_literal (dest : Z) (l : list Z) : M unit :=
  match l with
  | [] => store 1 dest 0
  | c :: l => store 1 dest c;; strcpy_literal (dest + 1) l
  end.

(** The characters of "Process". *)
Definition default_name : list Z := [80; 114; 111; 99; 101; 115; 115].

Section Ops.
Context `{Statics} `{PageSource}.

Definition take_pid : M Z :=
  g ← gets sched_g;
  modify (fun s => with_sched s
    (SchedGlobals (u8 (highest_pid g + 1)) (schedulingStarted g) (current g)));;
  ret (highest_pid g).

Definition set_name (fuel : nat) (dest taskName : Z) : M unit :=
  n ← strlen fuel taskName;
  if 32 <? n then strcpy_literal dest default_name else strcpy fuel dest taskName.

(** [IntAddTask], up to the registers that need no page. *)
Definition spawn_frame (fuel : nat) (taskName start : Z) : M Z :=
  cli;;
  frame ← malloc fuel sizeof_ProcessFrame;
  pid ← take_pid;
  store 1 (frame + off_pid) pid;;
  set_name fuel (frame + off_processName) taskName;;
  store 1 (frame + off_quanta) 10;;
  store 8 (frame + off_registers + reg_cs) 0x08;;
  store 8 (frame + off_registers + reg_rip) start;;
  store 8 (frame + off_registers + reg_ss) 0x10;;
  ret frame.

(** The address space, the stack and the link into the list. *)
Definition spawn_space (fuel : nat) (frame start end_ : Z) (kernel : bool) : M unit :=
  cr3 ← CreateProcessPML4 fuel start end_ kernel;
  store 8 (frame + off_cr3) cr3;;
  rsp ← page_alloc;
  store 8 (frame + off_registers + reg_rsp) rsp;;
  store 8 (frame + off_registers + reg_flags) 0x202;;
  first ← load 8 (addr_prochead + off_next);
  store 8 (frame + off_next) first;;
  store 8 (addr_prochead + off_next) frame;;
  sti.

Definition IntAddTask (fuel : nat) (taskName start end_ : Z) (kernel : bool) : M unit :=
  frame ← spawn_frame fuel taskName start;
  spawn_space fuel frame start end_ kernel.

Definition AddTask (fuel : nat) (taskName start end_ : Z) : M unit :=
  IntAddTask fuel taskName start end_ false.
Definition KeAddTask (fuel : nat) (taskName start end_ : Z) : M unit :=
  IntAddTask fuel taskName start end_ true.

(** A struct read as a whole, and a little-endian field of the copy. *)
Definition load_bytes (n : nat) (a : Z) : M (list Z) := fun s =>
  if null_page a then Fault a s else Ok (bytes_at (mem s) a n) s.
Definition field64 (bs : list Z) (off : Z) : Z :=
  foldr (fun b v => b + 256 * v) 0 (take 8 (drop (Z.to_nat off) bs)).

Definition GetCurrentProcess : M (list Z) :=
  cur ← get_current; load_bytes (Z.to_nat sizeof_ProcessFrame) cur.

Definition AllocatePage : M Z :=
  process ← GetCurrentProcess;
  page ← page_alloc;
  _s ← MapMemory (field64 process off_cr3) page page _4K true;
  ret page.

(** Not finished in the source. *)
Definition AllocateBlock (n : Z) : M Z := ret 0.
End Ops.

Lemma bytes_at_take m a n k : (k <= n)%nat -> take k (bytes_at m a n) = bytes_at m a k.
Proof.
  revert a k. induction n as [|n IH]; intros a [|k] Hk; try done; [lia|].
  cbn. rewrite IH by lia. done.
Qed.

Lemma bytes_at_drop m a n k : (k <= n)%nat -> drop k (bytes_at m a n) = bytes_at m (a + Z.of_nat k) (n - k).
Proof.
  revert a k. induction n as [|n IH]; intros a [|k] Hk; cbn [drop bytes_at Nat.sub]; try done; try lia.
  - rewrite Z.add_0_r. done.
  - rewrite IH by lia. f_equal. lia.
Qed.

Lemma foldr_ld m a n : foldr (fun b v => b + 256 * v) 0 (bytes_at m a n) = ld m n a.
Proof. revert a. induction n as [|n IH]; intros a; [done|]. cbn. by rewrite IH. Qed.

Lemma field64_ld m a n off :
  0 <= off -> off + 8 <= Z.of_nat n -> field64 (bytes_at m a n) off = ld64 m (a + off).
Proof.
  intros H0 Hn. unfold field64. rewrite bytes_at_drop, bytes_at_take, foldr_ld by lia.
  f_equal. lia.
Qed.

(** ** Steps that leave the allocator and the tables alone *)

Definition quiet (W : Z -> Prop) (s s' : machine) : Prop :=
  alloc_g s' = alloc_g s /\ paging_g s' = paging_g s /\ same_on (fun x => ~ W x) (mem s) (mem s').

Lemma quiet_trans W s1 s2 s3 : quiet W s1 s2 -> quiet W s2 s3 -> quiet W s1 s3.
Proof.
  intros (A1 & P1 & M1) (A2 & P2 & M2). split_and!; [congruence | congruence | by etransitivity].
Qed.

Lemma quiet_store W s n a v :
  (forall x, within x a (Z.of_nat n) -> W x) -> quiet W s (with_mem s (st (mem s) n a v)).
Proof. intros HW. split_and!; [done | done |]. apply same_on_st. intros x Hx Hw. by apply Hx, HW. Qed.

Lemma quiet_sched W s g : quiet W s (with_sched s g).
Proof. done. Qed.

Section Steps.
Context `{StaticsOk} `{PSO : PageSourceOk}.

Lemma quiet_source W s s' :
  ps_inv s -> quiet W s s' -> (forall x, W x -> ~ ps_owned (alloc_g s) x) ->
  ps_inv s' /\ ps_pool s' = ps_pool s.
Proof.
  intros Hi (A & _ & M) HW. apply ps_stable; [done | done |].
  eapply same_on_weaken; [exact M|]. intros x Hx Hw. by apply (HW x).
Qed.

Lemma quiet_tables W root s s' :
  tables_inv root s -> quiet W s s' ->
  (forall x, W x -> ~ ps_owned (alloc_g s) x /\ ~ table_byte root (mem s) x) ->
  tables_inv root s' /\ ps_pool s' = ps_pool s /\
  (forall v, translate (mem s') root v = translate (mem s) root v) /\
  (forall p, vpath p -> table_at (mem s') root p = table_at (mem s) root p).
Proof.
  intros Hinv Hq HW. pose proof Hq as (A & _ & M).
  destruct (quiet_source W s s') as [Hi' Hp']; [apply Hinv | done | intros x Hx; by apply HW |].
  destruct (tables_stable root s s') as (I & T & X & _); try done.
  - exists []. by rewrite Hp'.
  - eapply same_on_weaken; [exact M|]. intros x Hx Hw. by apply (HW x).
Qed.

(** The bytes of a tree and of the pool, when only pages left the pool. *)
Lemma paging_byte_mono root s s' x :
  alloc_g s' = alloc_g s -> (forall q, q ∈ ps_pool s' -> q ∈ ps_pool s) ->
  (forall p, vpath p -> table_at (mem s') root p = table_at (mem s) root p) ->
  paging_byte root s' x -> paging_byte root s x.
Proof using.
  intros A P T [Ho | [(q & Hq & Hx) | (p & t & Hp & Ht & Hx)]].
  - left. by rewrite <- A.
  - right. left. exists q. auto.
  - do 2 right. exists p, t. rewrite <- T by done. by split_and!.
Qed.
End Steps.

(** ** The frame of a new process *)

Record fresh_frame (m : gmap Z Z) (frame pid start : Z) (name : list Z) : Prop := {
  ff_pid : rd m (frame + off_pid) = u8 pid;
  ff_name : cstr m (frame + off_processName) name;
  ff_quanta : rd m (frame + off_quanta) = 10;
  ff_cs : ld64 m (frame + off_registers + reg_cs) = 0x08;
  ff_rip : ld64 m (frame + off_registers + reg_rip) = u64 start;
  ff_ss : ld64 m (frame + off_registers + reg_ss) = 0x10;
}.

Ltac regs := unfold reg_rip, reg_cs, reg_flags, reg_rsp, reg_ss in *; offs.

Definition in_frame (frame x : Z) : Prop := within x frame sizeof_ProcessFrame.

(** Reads inside a frame that did not change. *)
Lemma frame_ld frame m m' n a :
  same_on (in_frame frame) m m' -> frame <= a -> a + Z.of_nat n <= frame + sizeof_ProcessFrame ->
  ld m' n a = ld m n a.
Proof. intros Hm H1 H2. apply (same_on_ld _ _ _ _ _ Hm). unfold in_frame, within. lia. Qed.

Lemma fresh_frame_same m m' frame pid start name :
  (length name <= 31)%nat ->
  same_on (fun x => within x frame off_cr3 /\
                    ~ within x (frame + off_registers + reg_flags) 16) m m' ->
  fresh_frame m frame pid start name -> fresh_frame m' frame pid start name.
Proof.
  intros Hlen Hm [F1 F2 F3 F4 F5 F6].
  assert (Hl : forall n a, frame <= a -> a + Z.of_nat n <= frame + off_cr3 ->
    apart a (Z.of_nat n) (frame + off_registers + reg_flags) 16 -> ld m' n a = ld m n a).
  { intros n a L1 L2 L3. apply (same_on_ld _ _ _ _ _ Hm). unfold apart, within in *. lia. }
  split.
  - rewrite <- F1, <- !ld1_rd. apply Hl; unfold apart; regs; lia.
  - eapply cstr_ext; [|exact F2]. eapply same_on_weaken; [exact Hm|].
    intros x Hx. unfold within in *. regs. lia.
  - rewrite <- F3, <- !ld1_rd. apply Hl; unfold apart; regs; lia.
  - rewrite <- F4. apply Hl; unfold apart; regs; lia.
  - rewrite <- F5. apply Hl; unfold apart; regs; lia.
  - rewrite <- F6. apply Hl; unfold apart; regs; lia.
Qed.

Section Spawn.
Context `{StaticsOk} `{PSO : PageSourceOk}.

(** What [IntAddTask] needs: a well-formed list whose frames are live heap
    blocks, a free block for the new frame, a name of at most 31 characters
    outside the free blocks, the kernel's layout, outside the kernel a range for the
    program, and enough low pages. *)
Record spawn_ready (fuel : nat) (stack taskName start end_ : Z) (kernel : bool) (s : machine) (ps : list proc)
    (cur : option Z) (l : list block) (b : block) (l' : list block) (name : list Z) : Prop := {
  sr_sched : sched_inv stack s ps cur;
  sr_heap : heap_inv s l;
  sr_fit : take_fit (sizeof_HeapNode + sizeof_ProcessFrame) l = Some (b, l');
  sr_mult : b.2 mod 16 = 0;
  sr_live p : p ∈ ps ->
    block_free_of s l (pr_addr p - sizeof_HeapNode, sizeof_HeapNode + sizeof_ProcessFrame);
  sr_head x : within x addr_prochead sizeof_ProcessFrame -> ~ ps_owned (alloc_g s) x;
  sr_stack : apart b.1 b.2 stack sizeof_Registers;
  sr_name : cstr (mem s) taskName name /\ (length name <= 31)%nat /\ PAGE <= taskName;
  sr_name_out x : within x taskName (Z.of_nat (length name) + 1) -> outside l x;
  sr_layout : layout_ok (GlobalPagingInfo (paging_g s));
  sr_low q : q ∈ ps_pool s -> q < 2 ^ 40;
  sr_range : kernel = false -> program_range (GlobalPagingInfo (paging_g s)) fuel start end_;
  sr_pages : 1 + space_budget (GlobalPagingInfo (paging_g s)) kernel start end_ <= Z.of_nat (length (ps_pool s));
  sr_fuel : (512 <= fuel)%nat /\ (length l <= fuel)%nat /\
    info_kernelSize (GlobalPagingInfo (paging_g s)) <= 4096 * (Z.of_nat fuel - 1);
  sr_pid : 0 <= highest_pid (sched_g s) < 256 /\ highest_pid (sched_g s) ∉ pr_pid <$> ps;
}.

Lemma set_name_short fuel dest taskName name s :
  cstr (mem s) taskName name -> (length name <= 31)%nat -> (32 <= fuel)%nat ->
  PAGE <= taskName -> PAGE <= dest ->
  apart dest (Z.of_nat (length name) + 1) taskName (Z.of_nat (length name) + 1) ->
  exists s', set_name fuel dest taskName s = Ok tt s' /\ same_regs s s' /\
    cstr (mem s') dest name /\
    same_on (fun x => ~ within x dest (Z.of_nat (length name) + 1)) (mem s) (mem s').
Proof using.
  intros Hc Hlen Hf Hp Hd Hap. unfold set_name.
  erewrite bind_Ok by (apply (strlen_run name); done || lia). cbv beta.
  rewrite (proj2 (Z.ltb_ge 32 _)) by lia.
  pose proof (strcpy_loop_run name fuel dest taskName 0 s) as Hrun. rewrite !Z.add_0_r in Hrun.
  apply Hrun; done || lia.
Qed.

(** The fields that are filled in once the pid is taken. *)
Lemma fill_frame_run fuel frame taskName name pid start s :
  PAGE <= frame -> PAGE <= taskName -> cstr (mem s) taskName name -> (length name <= 31)%nat -> (32 <= fuel)%nat ->
  apart (frame + off_processName) (Z.of_nat (length name) + 1) taskName (Z.of_nat (length name) + 1) ->
  same_on (fun x => within x taskName (Z.of_nat (length name) + 1)) (mem s)
    (st (mem s) 1 (frame + off_pid) pid) ->
  exists s', (store 1 (frame + off_pid) pid;;
    set_name fuel (frame + off_processName) taskName;;
    store 1 (frame + off_quanta) 10;;
    store 8 (frame + off_registers + reg_cs) 0x08;;
    store 8 (frame + off_registers + reg_rip) start;;
    store 8 (frame + off_registers + reg_ss) 0x10;;
    ret frame) s = Ok frame s' /\ same_regs s s' /\ fresh_frame (mem s') frame pid start name /\
    same_on (fun x => ~ in_frame frame x) (mem s) (mem s') /\
    rd (mem s') (frame + off_invalid) = rd (mem s) (frame + off_invalid).
Proof using.
  intros Hframe Hp Hc Hlen Hfuel Hap Hm0. set (s3 := with_mem s (st (mem s) 1 (frame + off_pid) pid)).
  destruct (set_name_short fuel (frame + off_processName) taskName name s3)
    as (s4 & R4 & G4 & C4 & M4); [by eapply cstr_ext | done | lia | done | offs; lia | done |].
  erewrite bind_Ok by (apply store_ok; offs; lia). cbv beta. fold s3.
  erewrite bind_Ok by exact R4. cbv beta.
  do 4 (erewrite bind_Ok by (apply store_ok; regs; lia); cbv beta).
  eexists. split; [reflexivity|]. cbn [mem with_mem].
  set (m5 := st (st (st (st (mem s4) 1 _ 10) 8 _ 8) 8 _ start) 8 _ 16).
  assert (Hm45 : same_on (fun x => ~ within x (frame + off_quanta) 1 /\
    ~ within x (frame + off_registers + reg_rip) 16 /\ ~ within x (frame + off_registers + reg_ss) 8) (mem s4) m5).
  { intros x Hx. unfold m5. rewrite !rd_st_ne; [done | | | |]; unfold within in *; regs; lia. }
  split_and!.
  - red in G4 |- *. rewrite G4. reflexivity.
  - split.
    + rewrite Hm45, M4 by (unfold within; regs; lia). unfold s3. cbn [mem with_mem st]. apply rd_wr_eq.
    + eapply cstr_ext; [|exact C4]. eapply same_on_weaken; [exact Hm45|].
      intros x Hx. unfold within in *. regs. lia.
    + unfold m5. rewrite !rd_st_ne by (unfold within; regs; lia). cbn [st]. by rewrite rd_wr_eq.
    + unfold m5. rewrite !ld_st_ne by (unfold apart; regs; lia). by rewrite ld64_st_eq.
    + unfold m5. rewrite ld_st_ne by (unfold apart; regs; lia). apply ld64_st_eq.
    + unfold m5. by rewrite ld64_st_eq.
  - intros x Hx. unfold in_frame, within in Hx.
    rewrite Hm45, M4 by (unfold within in *; regs; lia). apply rd_st_ne. unfold within. offs. lia.
  - rewrite Hm45, M4 by (unfold within; regs; lia). apply rd_st_ne. unfold within. offs. lia.
Qed.

(** A name outside the frame does not meet the field it is copied to. *)
Lemma frame_apart_name frame taskName n :
  0 <= n <= 31 -> (forall x, within x taskName (n + 1) -> ~ in_frame frame x) ->
  apart (frame + off_processName) (n + 1) taskName (n + 1).
Proof using.
  intros Hn Hx. unfold apart. destruct (decide (frame + off_processName + (n + 1) <= taskName)); [by left|].
  destruct (decide (taskName + (n + 1) <= frame + off_processName)); [by right|]. exfalso.
  apply (Hx (Z.max taskName (frame + off_processName))); unfold in_frame, within; offs; lia.
Qed.

Lemma spawn_frame_spec fuel stack taskName s ps cur l b l' name start end_ kernel :
  spawn_ready fuel stack taskName start end_ kernel s ps cur l b l' name ->
  exists s1, spawn_frame fuel taskName start s = Ok (b.1 + sizeof_HeapNode) s1 /\
    driver_g s1 = driver_g s /\ fresh_frame (mem s1) (b.1 + sizeof_HeapNode) (highest_pid (sched_g s)) start name /\
    same_on (outside l) (mem s) (mem s1) /\
    alloc_g s1 = alloc_g s /\ paging_g s1 = paging_g s /\
    sched_g s1 = SchedGlobals (u8 (highest_pid (sched_g s) + 1)) (schedulingStarted (sched_g s))
                   (current (sched_g s)) /\
    ps_pool s1 = ps_pool s /\ heap_inv s1 (carve sizeof_ProcessFrame b l') /\
    block_free_of s1 (carve sizeof_ProcessFrame b l') (b.1, sizeof_HeapNode + sizeof_ProcessFrame) /\
    rd (mem s1) (b.1 + sizeof_HeapNode + off_invalid) = rd (mem s) (b.1 + sizeof_HeapNode + off_invalid).
Proof using All.
  intros [Hs Hh Hfit Hmul Hlive Hph Hst (Hn1 & Hn2 & Hn3) Hno Hlay Hlow Hrange Hpages (Hf1 & Hf2 & Hf3) Hpid].
  set (frame := b.1 + sizeof_HeapNode).
  destruct (take_fit_Some _ _ _ _ Hfit) as (l1 & l2 & Hl & _ & Hfits & _).
  assert (Hbl : b ∈ l) by (rewrite Hl; set_solver).
  pose proof (hi_blocks _ _ Hh) as Hbo. rewrite Forall_forall in Hbo.
  destruct (Hbo b Hbl) as (Hb1 & Hb2 & Hb3). unfold KERNEL_BASE in Hb3.
  assert (Hin : forall x, in_frame frame x -> ~ outside l x).
  { intros x Hx [_ Ho]. apply (Ho b Hbl). unfold in_frame, within, frame, sizeof_HeapNode in *. offs. lia. }
  set (s0 := with_IF s false).
  assert (Hi0 : ps_inv s0 /\ ps_pool s0 = ps_pool s) by (apply ps_stable; [apply Hh | done | done]).
  assert (Hh0 : heap_inv s0 l).
  { apply (heap_inv_keep s); [done | apply Hi0 | done | by rewrite (proj2 Hi0) | done]. }
  destruct (malloc_fit_run fuel sizeof_ProcessFrame s0 l b l') as (s1 & R1 & [A1 A2 A3] & G1 & P1 & M1s);
    [done | offs; lia | by vm_compute | done | | done |].
  { unfold clean_split, sizeof_HeapNode in *. offs. lia. }
  assert (M1 : same_on (outside l) (mem s) (mem s1))
    by (eapply same_on_weaken; [exact M1s|]; intros x Hx; by left).
  assert (Hg1 : sched_g s1 = sched_g s) by (by rewrite G1). assert (Hp1 : paging_g s1 = paging_g s) by (by rewrite G1).
  assert (Hframe : PAGE <= frame) by (unfold frame, sizeof_HeapNode; lia).
  assert (Hname : forall x, within x taskName (Z.of_nat (length name) + 1) -> ~ in_frame frame x)
    by (intros x Hx Hw; by apply (Hin x Hw), Hno).
  set (s2 := with_sched s1 (SchedGlobals (u8 (highest_pid (sched_g s) + 1))
               (schedulingStarted (sched_g s)) (current (sched_g s)))).
  destruct (fill_frame_run fuel frame taskName name (highest_pid (sched_g s)) start s2)
    as (s5 & R5 & G5 & F5 & M5 & V5); [done | done | | done | lia | | |].
  { eapply cstr_ext; [|exact Hn1]. intros x Hx. apply M1. by apply Hno. }
  { apply frame_apart_name; [lia|]. intros x Hx. by apply Hname. }
  { apply same_on_st. intros x Hx Hw. apply (Hname x Hx). unfold in_frame, within in *. offs. lia. }
  assert (Hga : alloc_g s5 = alloc_g s1) by exact (same_regs_alloc _ _ G5).
  destruct (heap_inv_write s1 (carve sizeof_ProcessFrame b l') (b.1, sizeof_HeapNode + sizeof_ProcessFrame) (mem s5) A1 A3)
    as [I5 P5].
  { eapply same_on_weaken; [exact M5|]. intros x Hx Hw. apply Hx.
    unfold in_frame, within, frame, sizeof_HeapNode in *. cbn [fst snd] in *. offs. lia. }
  assert (Hi5 : heap_inv s5 (carve sizeof_ProcessFrame b l') /\ ps_pool s5 = ps_pool s1).
  { destruct (ps_stable (with_mem s1 (mem s5)) s5 (hi_pages _ _ I5) Hga ltac:(done)) as [J Q]. split; [|congruence].
    apply (heap_inv_keep (with_mem s1 (mem s5))); [done | done | done | by rewrite Q | done]. }
  exists s5. split_and!.
  - unfold spawn_frame. erewrite bind_Ok by reflexivity. cbv beta. fold s0.
    erewrite bind_Ok by exact R1. cbv beta. fold frame.
    erewrite bind_Ok by (unfold take_pid; cbn; rewrite Hg1; reflexivity). exact R5.
  - red in G5. rewrite G5. change (driver_g s1 = driver_g s). by rewrite G1.
  - exact F5.
  - etransitivity; [exact M1|]. eapply same_on_weaken; [exact M5|]. intros x Hx Hw. by apply (Hin x).
  - rewrite Hga. exact (same_regs_alloc _ _ G1).
  - red in G5. rewrite G5. exact Hp1.
  - red in G5. by rewrite G5.
  - rewrite (proj2 Hi5), P1. apply Hi0.
  - apply Hi5.
  - apply (block_free_pool s1); [done | by rewrite (proj2 Hi5) | done].
  - rewrite V5. apply M1s. right. unfold within. offs. lia.
Qed.

(** What [spawn_space] writes of the process list. *)
Definition link_byte (frame x : Z) : Prop := in_frame frame x \/ within x addr_prochead sizeof_ProcessFrame.

(** Stack and flags are filled in and the frame becomes the first of the list. *)
Lemma link_frame_run frame sp s :
  PAGE <= frame < 2 ^ 64 -> 0 <= sp < 2 ^ 64 -> apart frame sizeof_ProcessFrame addr_prochead sizeof_ProcessFrame ->
  exists s', (store 8 (frame + off_registers + reg_rsp) sp;;
    store 8 (frame + off_registers + reg_flags) 0x202;;
    first ← load 8 (addr_prochead + off_next);
    store 8 (frame + off_next) first;;
    store 8 (addr_prochead + off_next) frame;;
    sti) s = Ok tt s' /\ quiet (link_byte frame) s s' /\ sched_g s' = sched_g s /\
    driver_g s' = driver_g s /\ IF s' = true /\
    same_on (fun x => ~ within x (frame + off_registers + reg_flags) 16 /\ ~ within x (frame + off_next) 8 /\
      ~ within x (addr_prochead + off_next) 8) (mem s) (mem s') /\
    ld64 (mem s') (frame + off_registers + reg_rsp) = sp /\
    ld64 (mem s') (frame + off_registers + reg_flags) = 0x202 /\
    ld64 (mem s') (frame + off_next) = ld64 (mem s) (addr_prochead + off_next) /\
    ld64 (mem s') (addr_prochead + off_next) = frame.
Proof using All.
  intros Hf Hsp Hap. pose proof prochead_page as Hpp.
  set (m6 := st (st (mem s) 8 (frame + off_registers + reg_rsp) sp) 8 (frame + off_registers + reg_flags) 0x202).
  assert (Hfirst : ld64 m6 (addr_prochead + off_next) = ld64 (mem s) (addr_prochead + off_next)).
  { unfold m6. by rewrite !ld_st_ne by (unfold apart in *; regs; lia). }
  set (m8 := st (st m6 8 (frame + off_next) (ld64 m6 (addr_prochead + off_next))) 8 (addr_prochead + off_next) frame).
  exists (with_IF (with_mem s m8) true). split.
  { do 2 (erewrite bind_Ok by (apply store_ok; regs; lia); cbv beta).
    erewrite bind_Ok by (apply load_ok; regs; lia). cbv beta.
    do 2 (erewrite bind_Ok by (apply store_ok; regs; lia); cbv beta). done. }
  cbn [mem sched_g IF with_IF with_mem]. split_and!; try done.
  - split_and!; [done | done |]. intros x Hx. cbn [mem with_mem with_IF]. unfold m8, m6.
    rewrite !rd_st_ne; [done | | | |]; intros Hw; apply Hx;
      [left | left | left | right]; unfold in_frame, within in *; regs; lia.
  - intros x Hx. unfold m8, m6. rewrite !rd_st_ne; [done | | | |]; unfold within in *; regs; lia.
  - unfold m8, m6. rewrite !ld_st_ne by (unfold apart in *; regs; lia). rewrite ld64_st_eq. by apply u64_small.
  - unfold m8, m6. rewrite !ld_st_ne by (unfold apart in *; regs; lia). by rewrite ld64_st_eq.
  - unfold m8. rewrite ld_st_ne by (unfold apart in *; regs; lia). rewrite ld64_st_eq, Hfirst.
    apply u64_small, ld64_range.
  - unfold m8. rewrite ld64_st_eq. apply u64_small. lia.
Qed.

(** The allocations of the address space and the stack leave [W] alone. *)
Lemma spawn_pages_spec fuel frame start end_ kernel s :
  let g := GlobalPagingInfo (paging_g s) in
  layout_ok g -> (kernel = false -> program_range g fuel start end_) ->
  ps_inv s -> (forall q, q ∈ ps_pool s -> q < 2 ^ 40) ->
  (512 <= fuel)%nat -> info_kernelSize g <= 4096 * (Z.of_nat fuel - 1) ->
  1 + space_budget g kernel start end_ <= Z.of_nat (length (ps_pool s)) -> PAGE <= frame < 2 ^ 64 ->
  (forall x, link_byte frame x -> ~ pool_byte s x) ->
  exists s' root sp, (forall X (go_on : Z -> M X),
      (cr3 ← CreateProcessPML4 fuel start end_ kernel;
       store 8 (frame + off_cr3) cr3;;
       bind page_alloc go_on) s = go_on sp s') /\
    tables_inv root s' /\ (forall v, translate (mem s') root v = space_map g kernel start end_ v) /\
    (forall x, paging_byte root s' x -> pool_byte s x) /\ sp ∈ ps_pool s /\ same_regs s s' /\ (forall q, q ∈ ps_pool s' -> q ∈ ps_pool s) /\
    (forall x, link_byte frame x -> ~ ps_owned (alloc_g s') x /\ ~ table_byte root (mem s') x) /\
    same_on (fun x => ~ pool_byte s x /\ ~ link_byte frame x) (mem s) (mem s') /\
    same_on (fun x => link_byte frame x /\ ~ within x (frame + off_cr3) 8) (mem s) (mem s') /\
    ld64 (mem s') (frame + off_cr3) = root.
Proof using All.
  intros g Hg Hr Hi Hlow Hf Hks Hlen Hfr HW.
  destruct (process_space fuel start end_ kernel s Hg Hr Hi Hlow Hf Hks)
    as (root & s2 & R2 & Hroot & I2 & T2 & G2 & M2 & (gone & P2 & Lg) & B2); [fold g; lia|].
  fold g in Lg, T2. assert (HrootR : PAGE <= root < 2 ^ 40).
  { destruct (ps_page_ok s root Hi (ps_pool_managed s root Hi Hroot)) as (? & _). auto using Hlow. }
  set (s3 := with_mem s2 (st (mem s2) 8 (frame + off_cr3) root)).
  assert (HWc : forall x, within x (frame + off_cr3) 8 -> link_byte frame x).
  { intros x Hx. left. unfold in_frame, within in *. offs. lia. }
  assert (HWt2 : forall x, link_byte frame x -> ~ ps_owned (alloc_g s2) x /\ ~ table_byte root (mem s2) x).
  { intros x Hx. pose proof (HW x Hx) as Hn. split; intros Ho; apply Hn.
    - left. by rewrite <- (same_regs_alloc _ _ G2).
    - apply B2. by do 2 right. }
  destruct (quiet_tables (link_byte frame) root s2 s3 I2 (quiet_store _ s2 8 _ root HWc) HWt2) as (I3 & P3 & T3 & A3).
  destruct (ps_pool s3) as [|sp ps4] eqn:Hps3.
  { rewrite <- P3 in P2. rewrite P2, app_nil_r in Hlen. lia. }
  destruct (ps_alloc s3 sp ps4 (ti_src _ _ I3) Hps3) as (s4 & R4 & Hi4 & P4 & Hz4 & F4).
  destruct (alloc_stable root s3 s4 sp ps4 I3 Hps3 Hi4 P4 F4) as (I4 & A4 & T4 & _ & _).
  destruct F4 as [G4 M4].
  assert (Hsp : sp ∈ ps_pool s) by (rewrite P2, <- P3; apply elem_of_app; right; left).
  assert (G : same_regs s s4).
  { eapply same_regs_trans; [exact G2|]. eapply same_regs_trans; [apply same_regs_with_mem | exact G4]. }
  assert (M34 : same_on (fun x => ~ pool_byte s x) (mem s3) (mem s4)).
  { intros x Hx. apply M4. split; intros Ho; apply Hx; [right; by exists sp|].
    left. cbn in Ho. by rewrite <- (same_regs_alloc _ _ G2). }
  assert (M23 : same_on (fun x => ~ within x (frame + off_cr3) 8) (mem s2) (mem s3)) by by apply same_on_st.
  exists s4, root, sp. split_and!.
  - intros X go_on. erewrite bind_Ok by exact R2. cbv beta.
    erewrite bind_Ok by (apply store_ok; offs; lia). cbv beta. fold s3. by erewrite bind_Ok by exact R4.
  - exact I4.
  - intros v. by rewrite T4, T3, T2.
  - intros x Hx. apply B2, (paging_byte_mono root s2 s4); [| | |exact Hx].
    + by rewrite (same_regs_alloc _ _ G), (same_regs_alloc _ _ G2).
    + intros q Hq. rewrite <- P3, P4 in *. by right.
    + intros p Hp. by rewrite A4, A3.
  - exact Hsp.
  - exact G.
  - intros q Hq. rewrite P2, <- P3. apply elem_of_app. right. rewrite P4 in Hq. by right.
  - intros x Hx. destruct (HWt2 x Hx) as [Ho Ht]. rewrite (same_regs_alloc _ _ G), <- (same_regs_alloc _ _ G2).
    split; [exact Ho|]. intros (p & t & Hp & Hpt & Hxt). apply Ht. exists p, t. rewrite A4, A3 in Hpt by done. done.
  - intros x [Hx1 Hx2]. rewrite M34 by done. rewrite M23 by (intros Hw; by apply Hx2, HWc). by apply M2.
  - intros x [Hx1 Hx2]. rewrite M34, M23 by auto. by apply M2, HW.
  - rewrite (same_on_ld _ _ _ _ _ M34) by (intros x Hx; by apply HW, HWc).
    unfold s3. cbn [mem with_mem]. rewrite ld64_st_eq. apply u64_small.
    change (2 ^ 40) with 1099511627776 in *. change (2 ^ 64) with 18446744073709551616. lia.
Qed.

(** The second half: address space, stack page, link. *)
Lemma spawn_space_spec fuel frame start end_ kernel s :
  let g := GlobalPagingInfo (paging_g s) in
  layout_ok g -> (kernel = false -> program_range g fuel start end_) ->
  ps_inv s -> (forall q, q ∈ ps_pool s -> q < 2 ^ 40) ->
  (512 <= fuel)%nat -> info_kernelSize g <= 4096 * (Z.of_nat fuel - 1) ->
  1 + space_budget g kernel start end_ <= Z.of_nat (length (ps_pool s)) ->
  PAGE <= frame < 2 ^ 64 -> apart frame sizeof_ProcessFrame addr_prochead sizeof_ProcessFrame ->
  (forall x, link_byte frame x -> ~ pool_byte s x) ->
  exists s' root sp, spawn_space fuel frame start end_ kernel s = Ok tt s' /\
    tables_inv root s' /\ (forall v, translate (mem s') root v = space_map g kernel start end_ v) /\
    (forall x, paging_byte root s' x -> pool_byte s x) /\ sp ∈ ps_pool s /\
    alloc_g s' = alloc_g s /\ sched_g s' = sched_g s /\ driver_g s' = driver_g s /\ IF s' = true /\
    (forall q, q ∈ ps_pool s' -> q ∈ ps_pool s) /\
    same_on (fun x => ~ pool_byte s x /\ ~ link_byte frame x) (mem s) (mem s') /\
    same_on (fun x => within x frame off_cr3 /\ ~ within x (frame + off_registers + reg_flags) 16)
      (mem s) (mem s') /\
    rd (mem s') (frame + off_invalid) = rd (mem s) (frame + off_invalid) /\
    ld64 (mem s') (frame + off_cr3) = root /\
    ld64 (mem s') (frame + off_registers + reg_rsp) = sp /\
    ld64 (mem s') (frame + off_registers + reg_flags) = 0x202 /\
    ld64 (mem s') (frame + off_next) = ld64 (mem s) (addr_prochead + off_next) /\
    ld64 (mem s') (addr_prochead + off_next) = frame.
Proof using All.
  intros g Hg Hr Hi Hlow Hf Hks Hlen Hfr Hap HW.
  destruct (spawn_pages_spec fuel frame start end_ kernel s Hg Hr Hi Hlow Hf Hks Hlen Hfr HW)
    as (s4 & root & sp & R4 & I4 & T4 & B4 & Hsp & G4 & P4 & W4 & M4 & F4 & C4).
  destruct (ps_page_ok s sp Hi (ps_pool_managed s sp Hi Hsp)) as (Hsp0 & _). specialize (Hlow sp Hsp).
  change (2 ^ 40) with 1099511627776 in *.
  destruct (link_frame_run frame sp s4) as (s8 & R8 & Q8 & S8 & D8 & IF8 & M8 & L1 & L2 & L3 & L4); [done | word | done |].
  destruct (quiet_tables (link_byte frame) root s4 s8 I4 Q8 W4) as (I8 & P8 & T8 & A8).
  assert (Hfix : forall x, in_frame frame x -> ~ within x (frame + off_cr3) 8 ->
    ~ within x (frame + off_registers + reg_flags) 16 -> ~ within x (frame + off_next) 8 -> rd (mem s8) x = rd (mem s) x).
  { intros x D1 D2 D3 D4. rewrite M8, F4; [done | |].
    - split; [by left | done].
    - split_and!; [done | done |]. unfold in_frame, apart, within in *. offs. lia. }
  exists s8, root, sp. split_and!; try done.
  - unfold spawn_space. rewrite R4. exact R8.
  - intros v. by rewrite T8, T4.
  - intros x Hx. apply B4, (paging_byte_mono root s4 s8); [apply Q8 | by rewrite P8 | done | done].
  - rewrite (proj1 Q8). by apply same_regs_alloc.
  - rewrite S8. by rewrite G4.
  - rewrite D8. by rewrite G4.
  - intros q Hq. apply P4. by rewrite <- P8.
  - intros x [Hx1 Hx2]. rewrite (proj2 (proj2 Q8) x Hx2). by apply M4.
  - intros x [Hx1 Hx2]. apply Hfix; unfold in_frame, within in *; regs; lia.
  - apply Hfix; unfold in_frame, within; regs; lia.
  - rewrite (same_on_ld _ _ _ _ _ M8); [exact C4|]. intros x Hx. unfold within, apart in *. regs. lia.
  - rewrite L3. apply (same_on_ld _ _ _ _ _ F4). intros x Hx. split; [right|]; unfold within, apart in *; offs; lia.
Qed.

(** ** The new frame among the old ones *)

Section Link.
Context (fuel : nat) (stack taskName start end_ : Z) (kernel : bool) (s : machine) (ps : list proc).
Context (cur : option Z) (l : list block) (b : block) (l' : list block) (name : list Z).
Hypothesis Hready : spawn_ready fuel stack taskName start end_ kernel s ps cur l b l' name.
#[local] Notation frame := (b.1 + sizeof_HeapNode).

Lemma frame_place :
  b ∈ l /\ PAGE <= b.1 /\ sizeof_HeapNode + sizeof_ProcessFrame <= b.2 /\
  frame + sizeof_ProcessFrame <= KERNEL_BASE /\ apart frame sizeof_ProcessFrame addr_prochead sizeof_ProcessFrame.
Proof using All.
  destruct (take_fit_Some _ _ _ _ (sr_fit _ _ _ _ _ _ _ _ _ _ _ _ _ Hready)) as (l1 & l2 & Hl & _ & Hfits & _).
  assert (Hbl : b ∈ l) by (rewrite Hl; set_solver).
  pose proof (hi_blocks _ _ (sr_heap _ _ _ _ _ _ _ _ _ _ _ _ _ Hready)) as Hbo. rewrite Forall_forall in Hbo.
  destruct (Hbo b Hbl) as (B1 & B2 & B3). pose proof prochead_range as [Hpk _].
  unfold KERNEL_BASE, apart, sizeof_HeapNode in *. split_and!; [done | lia | lia | lia |]. left. lia.
Qed.

Lemma frame_apart_old p :
  p ∈ ps -> apart frame sizeof_ProcessFrame (pr_addr p) sizeof_ProcessFrame.
Proof using All.
  intros Hp. destruct frame_place as (Hbl & _ & Hb2 & _).
  pose proof (bf_sep _ _ _ (sr_live _ _ _ _ _ _ _ _ _ _ _ _ _ Hready p Hp) b Hbl) as Hsb. cbn [fst snd] in Hsb.
  unfold apart, sizeof_HeapNode in *. lia.
Qed.

Lemma link_off_pool s1 l1 x :
  heap_inv s1 l1 -> block_free_of s1 l1 (b.1, sizeof_HeapNode + sizeof_ProcessFrame) -> alloc_g s1 = alloc_g s ->
  link_byte frame x -> ~ pool_byte s1 x.
Proof using All.
  intros Hh1 Hbf A1 Hx Hpb. pose proof prochead_range as [Hpk _]. destruct Hpb as [Ho | (q & Hq & Hxq)].
  - destruct Hx as [Hx|Hx].
    + apply (bf_clear _ _ _ Hbf x); [|done]. cbn. unfold in_frame, within, sizeof_HeapNode in *. offs. lia.
    + rewrite A1 in Ho. by apply (sr_head _ _ _ _ _ _ _ _ _ _ _ _ _ Hready x).
  - pose proof (hi_low _ _ Hh1 q Hq). pose proof (bf_pool _ _ _ Hbf q Hq) as Hsep. cbn [fst snd] in Hsep.
    unfold KERNEL_BASE in *.
    destruct Hx as [Hx|Hx]; unfold in_frame, page_bytes, apart, within, sizeof_HeapNode in *; offs; lia.
Qed.

(** The old frames stay as they are. *)
Lemma old_frames_kept s1 m2 p x :
  alloc_g s1 = alloc_g s -> ps_pool s1 = ps_pool s -> same_on (outside l) (mem s) (mem s1) ->
  same_on (fun x => ~ pool_byte s1 x /\ ~ link_byte frame x) (mem s1) m2 ->
  p ∈ ps -> within x (pr_addr p) sizeof_ProcessFrame -> rd m2 x = rd (mem s) x.
Proof using All.
  intros A1 P1 M1 M2 Hp Hx.
  destruct (sr_live _ _ _ _ _ _ _ _ _ _ _ _ _ Hready p Hp) as [(L1 & L2 & L3) Lsep Lclear Lpool]. cbn [fst snd] in *.
  pose proof (frame_apart_old p Hp) as Hfp. pose proof head_range as [Hhk _].
  destruct (si_place _ _ _ _ (sr_sched _ _ _ _ _ _ _ _ _ _ _ _ _ Hready) p Hp) as (_ & Hpp & _).
  unfold KERNEL_BASE in *. rewrite M2; [apply M1|].
  - split; [unfold within, apart, sizeof_HeapNode in *; offs; lia|].
    intros c Hc Hw. specialize (Lsep c Hc). unfold apart, within, sizeof_HeapNode in *. offs. lia.
  - split; [|intros [Hw|Hw]; unfold in_frame, apart, within in *; offs; lia].
    intros [Ho | (q & Hq & Hxq)].
    + rewrite A1 in Ho. apply (Lclear x); [|done]. unfold within, sizeof_HeapNode in *. offs. lia.
    + rewrite P1 in Hq. specialize (Lpool q Hq).
      unfold apart, page_bytes, within, sizeof_HeapNode in *. offs. lia.
Qed.

(** So the list grows by the new frame. *)
Lemma link_inv s2 new :
  pr_addr new = frame -> pr_pid new = highest_pid (sched_g s) -> proc_at (mem s2) new ->
  current (sched_g s2) = current (sched_g s) ->
  ld64 (mem s2) (frame + off_next) = ld64 (mem s) (addr_prochead + off_next) ->
  ld64 (mem s2) (addr_prochead + off_next) = frame ->
  (forall p x, p ∈ ps -> within x (pr_addr p) sizeof_ProcessFrame -> rd (mem s2) x = rd (mem s) x) ->
  sched_inv stack s2 (new :: ps) cur.
Proof using All.
  intros Ha Hpid Hnew Hc Hnext Hfirst Hkeep. pose proof frame_apart_old as Hold.
  destruct frame_place as (_ & Hb1 & Hb2 & Hb3 & Hb4). destruct Hready as [Hs _ _ Hmul _ _ Hst _ _ _ _ _ _ _ [_ Hfresh]].
  unfold sizeof_HeapNode, KERNEL_BASE in *. split.
  - cbn [queue]. rewrite Ha. split_and!; [done | done |]. pose proof (si_queue _ _ _ _ Hs) as Hq.
    destruct ps as [|p ps']; cbn [queue] in *; [congruence|].
    destruct Hq as (Hq1 & Hq2 & Hq3). split_and!; [congruence | |].
    + eapply proc_at_ext; [|exact Hq2]. intros x Hx. apply (Hkeep p); [left|].
      unfold within in *. offs. unfold within in *. lia.
    + eapply queue_same; [| |exact Hq3].
      * intros q Hq x Hx. apply (Hkeep q); [by right | done].
      * apply ld_ext. intros x Hx. apply (Hkeep p); [left|]. unfold within in *. offs. lia.
  - cbn. constructor; [|apply Hs]. intros (p & Heq & Hp)%list_elem_of_fmap.
    specialize (Hold p Hp). rewrite <- Heq, Ha in Hold. unfold apart in Hold. offs. lia.
  - cbn. constructor; [by rewrite Hpid | apply Hs].
  - intros p q [->|Hp]%elem_of_cons [->|Hq]%elem_of_cons Hne; [done | rewrite Ha; by apply Hold | |].
    + specialize (Hold p Hp). rewrite Ha. unfold apart in *. lia.
    + by apply (si_apart _ _ _ _ Hs).
  - intros p [->|Hp]%elem_of_cons; [|by apply (si_place _ _ _ _ Hs)]. rewrite Ha.
    split_and!; [lia | done |]. unfold apart in *. offs. lia.
  - apply Hs.
  - rewrite Hc. pose proof (si_cur _ _ _ _ Hs) as Hcur.
    destruct cur; [|done]. split; [apply Hcur | right; apply Hcur].
Qed.

Lemma link_heap s1 l1 s2 :
  heap_inv s1 l1 -> block_free_of s1 l1 (b.1, sizeof_HeapNode + sizeof_ProcessFrame) -> ps_inv s2 ->
  alloc_g s2 = alloc_g s1 -> (forall q, q ∈ ps_pool s2 -> q ∈ ps_pool s1) ->
  same_on (fun x => ~ pool_byte s1 x /\ ~ link_byte frame x) (mem s1) (mem s2) -> heap_inv s2 l1.
Proof using All.
  intros Hh1 Hbf I2 A2 P2 M2. pose proof head_range as [Hhk _]. pose proof prochead_range as [Hpk _].
  pose proof head_prochead_apart as Hhp. destruct frame_place as (_ & Hb1 & Hb2 & Hb3 & _).
  pose proof (hi_blocks _ _ Hh1) as Hbo. rewrite Forall_forall in Hbo. unfold KERNEL_BASE in *.
  apply (heap_inv_keep s1); [exact Hh1 | done | done | done |].
  eapply same_on_weaken; [exact M2|]. intros x [Hx | (c & Hc & Hx)]; split.
  - intros [Ho | (q & Hq & Hxq)]; [by apply (hi_head _ _ Hh1 x)|].
    pose proof (hi_low _ _ Hh1 q Hq). unfold page_bytes, within, KERNEL_BASE in *. lia.
  - intros [Hw|Hw]; unfold in_frame, apart, within, sizeof_HeapNode in *; offs; lia.
  - intros [Ho | (q & Hq & Hxq)]; [by apply (hi_clear _ _ Hh1 c x)|].
    pose proof (hi_pool _ _ Hh1 c q Hc Hq). unfold apart, page_bytes, within in *. lia.
  - destruct (Hbo c Hc) as (_ & _ & Hc3). pose proof (bf_sep _ _ _ Hbf c Hc) as Hsep. cbn [fst snd] in Hsep.
    unfold KERNEL_BASE in Hc3.
    intros [Hw|Hw]; unfold in_frame, apart, within, sizeof_HeapNode in *; offs; lia.
Qed.

(** Nothing before the link reaches the head of the list. *)
Lemma first_kept s1 :
  same_on (outside l) (mem s) (mem s1) ->
  ld64 (mem s1) (addr_prochead + off_next) = ld64 (mem s) (addr_prochead + off_next).
Proof using All.
  intros M1. pose proof head_prochead_apart as Hhp. pose proof prochead_range as [Hpk _].
  apply (same_on_ld _ _ _ _ _ M1). intros x Hx. split.
  - unfold apart, within in *. offs. lia.
  - intros c Hc Hw. pose proof (hi_blocks _ _ (sr_heap _ _ _ _ _ _ _ _ _ _ _ _ _ Hready)) as Hbo.
    rewrite Forall_forall in Hbo. destruct (Hbo c Hc) as (_ & _ & Hc3). unfold KERNEL_BASE, within in *. offs. lia.
Qed.
End Link.

(** All that [IntAddTask] does, with the bytes its tables lie in. *)
Lemma IntAddTask_run fuel stack taskName s ps cur l b l' name start end_ kernel :
  spawn_ready fuel stack taskName start end_ kernel s ps cur l b l' name ->
  exists s' new root sp,
    IntAddTask fuel taskName start end_ kernel s = Ok tt s' /\ IF s' = true /\
    sched_inv stack s' (new :: ps) cur /\ heap_inv s' (carve sizeof_ProcessFrame b l') /\
    pr_addr new = b.1 + sizeof_HeapNode /\
    pr_pid new = highest_pid (sched_g s) /\
    highest_pid (sched_g s') = u8 (highest_pid (sched_g s) + 1) /\
    pr_quanta new = 10 /\ pr_cr3 new = root /\
    fresh_frame (mem s') (pr_addr new) (pr_pid new) start name /\
    ld64 (mem s') (pr_addr new + off_registers + reg_rsp) = sp /\ sp ∈ ps_pool s /\
    ld64 (mem s') (pr_addr new + off_registers + reg_flags) = 0x202 /\
    tables_inv root s' /\
    (forall v, translate (mem s') root v = space_map (GlobalPagingInfo (paging_g s)) kernel start end_ v) /\
    pr_invalid new = negb (rd (mem s) (pr_addr new + off_invalid) =? 0) /\
    (forall x, paging_byte root s' x -> pool_byte s x) /\
    pr_regs new = bytes_at (mem s') (pr_addr new + off_registers) 160 /\ driver_g s' = driver_g s.
Proof using All.
  intros Hready.
  destruct (spawn_frame_spec fuel stack taskName s ps cur l b l' name start end_ kernel Hready)
    as (s1 & R1 & D1 & FF1 & M1 & A1 & G1 & S1 & P1 & Hh1 & Hbf & Hinv0).
  destruct (frame_place _ _ _ _ _ _ _ _ _ _ _ _ _ Hready) as (_ & Hb1 & _ & Hb3 & Hap).
  pose proof Hready as [Hs _ _ _ _ _ _ _ _ Hlay Hlow Hrange Hpages (Hf1 & _ & Hf3) [Hpr _]].
  rewrite <- G1 in Hlay, Hrange, Hpages, Hf3. rewrite <- P1 in Hpages, Hlow.
  set (frame := b.1 + sizeof_HeapNode) in *.
  assert (Hfr : PAGE <= frame < 2 ^ 64).
  { change (2 ^ 64) with 18446744073709551616. unfold KERNEL_BASE, frame, sizeof_HeapNode in *. offs. lia. }
  destruct (spawn_space_spec fuel frame start end_ kernel s1 Hlay Hrange (hi_pages _ _ Hh1) Hlow Hf1 Hf3 Hpages
    Hfr Hap) as (s2 & root & sp & R2 & I2 & T2 & B2 & Hsp & A2 & S2 & D2 & IF2 & P2 & M2 & MF2 & V2 & C2 & SP2 & FL2 & N2 & H2).
  { intros x. by apply (link_off_pool _ _ _ _ _ _ _ _ _ _ _ _ _ Hready s1 (carve sizeof_ProcessFrame b l')). }
  rewrite (first_kept _ _ _ _ _ _ _ _ _ _ _ _ _ Hready s1 M1) in N2.
  set (new := Proc frame (highest_pid (sched_g s)) (bytes_at (mem s2) (frame + off_registers) 160) 10 root
                (negb (rd (mem s) (frame + off_invalid) =? 0))).
  assert (FF2 : fresh_frame (mem s2) frame (highest_pid (sched_g s)) start name)
    by (apply (fresh_frame_same (mem s1)); [apply Hready | done | done]).
  exists s2, new, root, sp.
  split; [unfold IntAddTask; by erewrite bind_Ok by exact R1|].
  split; [done|]. split; [|split; [|split_and!; try done]].
  - eapply (link_inv _ _ _ _ _ _ _ _ _ _ _ _ _ Hready); try done.
    + unfold proc_at, new. cbn [pr_addr pr_pid pr_regs pr_quanta pr_cr3 pr_invalid].
      destruct FF2. split_and!; [rewrite ff_pid0; by apply u8_small | done | done | done |].
      by rewrite V2, Hinv0, negb_involutive.
    + by rewrite S2, S1.
    + intros p x. by apply (old_frames_kept _ _ _ _ _ _ _ _ _ _ _ _ _ Hready s1).
  - eapply (link_heap _ _ _ _ _ _ _ _ _ _ _ _ _ Hready s1); try done. apply I2.
  - by rewrite S2, S1.
  - by rewrite <- P1.
  - intros v. by rewrite T2, G1.
  - intros x Hx%B2. unfold pool_byte in *. by rewrite <- A1, <- P1.
  - by rewrite D2.
Qed.

(** C16. Adding a task: [IntAddTask] - for kernel code ([KeAddTask]) or a program
    ([AddTask]) - finishes with interrupts enabled and the new process at the front
    of a well-formed list, with the next pid, a whole time slice, its name, an
    address space that translates exactly as intended, and a context that starts at
    [start] in kernel mode with interrupts enabled and the stack pointer at the
    start of a fresh page.  The heap stays well formed.  Whether the process counts
    as terminated is what the heap block happened to contain: [invalid] is not
    initialised. *)
Theorem IntAddTask_adds fuel stack taskName s ps cur l b l' name start end_ kernel :
  spawn_ready fuel stack taskName start end_ kernel s ps cur l b l' name ->
  exists s' new root sp,
    IntAddTask fuel taskName start end_ kernel s = Ok tt s' /\ IF s' = true /\
    sched_inv stack s' (new :: ps) cur /\ heap_inv s' (carve sizeof_ProcessFrame b l') /\
    pr_addr new = b.1 + sizeof_HeapNode /\
    pr_pid new = highest_pid (sched_g s) /\
    highest_pid (sched_g s') = u8 (highest_pid (sched_g s) + 1) /\
    pr_quanta new = 10 /\ pr_cr3 new = root /\
    fresh_frame (mem s') (pr_addr new) (pr_pid new) start name /\
    ld64 (mem s') (pr_addr new + off_registers + reg_rsp) = sp /\ sp ∈ ps_pool s /\
    ld64 (mem s') (pr_addr new + off_registers + reg_flags) = 0x202 /\
    tables_inv root s' /\
    (forall v, translate (mem s') root v = space_map (GlobalPagingInfo (paging_g s)) kernel start end_ v) /\
    pr_invalid new = negb (rd (mem s) (pr_addr new + off_invalid) =? 0).
Proof using All.
  intros Hready. destruct (IntAddTask_run _ _ _ _ _ _ _ _ _ _ _ _ _ Hready) as (s' & new & root & sp & H').
  exists s', new, root, sp. destruct H' as (?&?&?&?&?&?&?&?&?&?&?&?&?&?&?&?&_). by split_and!.
Qed.

(** C28. [AllocatePage] gives the running process a fresh zeroed page mapped at
    its own address in the process's tables, provided the address is not
    covered by a 2 MiB page there. *)
Theorem AllocatePage_maps s root p ps a :
  current (sched_g s) = a -> PAGE <= a -> ld64 (mem s) (a + off_cr3) = root ->
  tables_inv root s -> ps_pool s = p :: ps -> 3 <= Z.of_nat (length ps) ->
  in_large (mem s) root p = false ->
  exists s', AllocatePage s = Ok p s' /\ tables_inv root s' /\ same_regs s s' /\
    zeroed (mem s') p PAGE /\
    forall v, translate (mem s') root v =
      if decide (same_page 0 v p) then Some (Xlat (p + v mod 4096) true false)
      else translate (mem s) root v.
Proof using All.
  intros Hc Ha Hroot Hinv Hps Hlen Hlg. pose proof (ti_src _ _ Hinv) as Hi.
  destruct (ps_alloc_page s p ps Hi Hps) as (Hp1 & _ & Hp3 & Hnin).
  assert (Hp : p ∈ ps_pool s) by (rewrite Hps; left).
  pose proof (ti_low _ _ Hinv p Hp) as Hp2.
  destruct (ps_alloc s p ps Hi Hps) as (s1 & R1 & Hi1 & P1 & Z1 & Fr1).
  destruct (alloc_stable root s s1 p ps Hinv Hps Hi1 P1 Fr1) as (I1 & A1 & T1 & L1 & _).
  destruct (map_4K_spec root s1 p p true I1) as (s2 & R2 & [I2 G2 _ M2 _] & T2 & _);
    [rewrite P1; lia | done | done
    | change (2 ^ 52) with 4503599627370496; change (2 ^ 40) with 1099511627776 in *; lia
    | by rewrite L1 |].
  exists s2. split_and!.
  - unfold AllocatePage, GetCurrentProcess.
    erewrite bind_Ok by (erewrite bind_Ok by reflexivity; cbv beta; unfold load_bytes, null_page;
      rewrite Hc, (proj2 (Z.ltb_ge a _)) by lia; reflexivity).
    cbv beta. change (Z.to_nat sizeof_ProcessFrame) with 224%nat.
    rewrite field64_ld by (offs; lia). rewrite Hroot.
    erewrite bind_Ok by exact R1. cbv beta. erewrite bind_Ok by exact R2. done.
  - done.
  - eapply same_regs_trans; [apply Fr1 | exact G2].
  - intros x Hx. rewrite M2; [by apply Z1|]. intros [Ho | [(q & Hq & Hxq) | (k & t & Hk & Ht & Hxt)]].
    + rewrite (same_regs_alloc _ _ (proj1 Fr1)) in Ho.
      destruct (ps_page_ok s p Hi (ps_pool_managed s p Hi Hp)) as (_ & _ & _ & Hno). by apply (Hno x).
    + destruct (ps_page_ok s1 q Hi1 (ps_pool_managed s1 q Hi1 Hq)) as (_ & _ & Hqa & _).
      assert (p = q) as <- by (by eapply page_bytes_inj). rewrite P1 in Hq. done.
    + rewrite A1 in Ht by done. destruct (ti_tab _ _ Hinv k t Hk Ht) as (_ & Htn & _).
      destruct (ti_page _ _ _ _ Hinv Hk Ht) as (_ & _ & Hta & _).
      assert (p = t) as -> by (by eapply page_bytes_inj). done.
  - intros v. rewrite (T2 v), T1. done.
Qed.
End Spawn.
