(* ===== verification/SpawnWitness.v ===== *)
(** Concrete instances for [IntAddTask] and [AllocatePage]: the machine with
    2200 pages after one small allocation, an empty process list and the name
    "init" in memory. *)
From S2P Require Import Prelude Memory Machine PageSource FrameAlloc Heap Demo Bitfield.
From S2P Require Import PageWalk Paging PagingSpec AddressSpace PagingWitness.
From S2P Require Import CString Scheduler SchedulerSpec Spawn.

Definition init_name : list Z := [105; 110; 105; 116].
Definition name_addr : Z := 0x50000000.
Definition idle_sched : sched_globals := SchedGlobals 1 false 0.

(** The heap of the roomy machine after [malloc(64)]. *)
Lemma roomy_heap :
  exists s p ps, heap_inv s [(p + 80, 4016)] /\ ps_pool s = ps /\ length ps = 2199%nat /\
    0x109000 <= p < 0x9a2000 /\ p mod 4096 = 0 /\ (forall q, q ∈ ps -> q < 2 ^ 40) /\
    GlobalPagingInfo (paging_g s) = roomy_info /\
    alloc_g s = region_globals (largest_entry roomy_map).
Proof.
  destruct roomy as (s & p & ps & Hok & Hp & Hlen & Hlow & Hi & Hg & Hhigh & Hz).
  assert (Hn : nframes (alloc_g s) = 2200) by (rewrite Hg; by vm_compute).
  assert (HF : FrameList (alloc_g s) = 0x100000) by (rewrite Hg; by vm_compute).
  assert (Hinv : heap_inv s []).
  { split.
    - exact Hok.
    - unfold heap_at. cbn [chain]. apply (ld_zeroed _ addr_head 16); [|done|done].
      intros x Hx. apply Hz. unfold within in *. cbn in Hx. lia.
    - done.
    - done.
    - by intros ? ? ?%not_elem_of_nil.
    - by intros ? ? ?%not_elem_of_nil.
    - intros q Hq. apply Hhigh in Hq. unfold KERNEL_BASE. lia.
    - intros x Hx Ht. cbn [ps_owned frame_source_ok] in Ht. unfold table_bytes in Ht.
      rewrite Hn, HF in Ht. unfold within, sizeof_Page in *. cbn in Hx. lia. }
  destruct (@ps_alloc_page _ frame_source_ok s p ps Hok Hp) as (_ & _ & Hp4 & _).
  destruct (find_empty_spec 0 64 s p ps Hinv) as (s1 & Hrun & Hfd & Hp1 & _); [done | done | done |].
  destruct (malloc_found 1 64 s s1 [] [] (p, PAGE) Hrun Hfd)
    as (s2 & _ & [A1 _ _] & Hr & Hp2 & _); [vm_compute; split; congruence | right; vm_compute; congruence |].
  exists s2, p, ps. split_and!; try done; try apply Hlow; try apply Hhigh.
  - replace (p + 80) with (p + sizeof_HeapNode + 64) by (unfold sizeof_HeapNode; lia). exact A1.
  - congruence.
  - rewrite Hp. left.
  - rewrite Hp. left.
  - intros q Hq. apply Hlow. rewrite Hp. by right.
  - by rewrite Hr.
  - by rewrite (same_regs_alloc _ _ Hr).
Qed.


Definition spawn_stack : Z := 0x60000000.

(** The same machine with an empty process list and the name in memory. *)
Lemma spawn_demo :
  exists s b, spawn_ready 600 spawn_stack name_addr 0x40000000 0x40001800 false s [] None [b] b [] init_name /\
    0x109000 <= b.1 < 0x9a3000 /\ sched_g s = idle_sched /\
    GlobalPagingInfo (paging_g s) = roomy_info /\ localAPIC (driver_g s) = 0xfee00000 /\
    rd (mem s) (b.1 + sizeof_HeapNode + off_invalid) = 0 /\ forall x, pool_byte s x -> x < 2 ^ 41.
Proof.
  destruct roomy_heap as (s & p & ps & Hh & Hp & Hlen & Hr & Ha & Hlow & Hi & Hg).
  assert (Hn : nframes (alloc_g s) = 2200) by (rewrite Hg; by vm_compute).
  assert (HF : FrameList (alloc_g s) = 0x100000) by (rewrite Hg; by vm_compute).
  assert (Hown : forall x, ps_owned (alloc_g s) x -> within x 0x100000 35200).
  { intros x Ht. cbn [ps_owned frame_source_ok] in Ht. unfold table_bytes in Ht.
    rewrite Hn, HF in Ht. unfold within, sizeof_Page in *. lia. }
  set (m0 := st (write_bytes (mem s) name_addr (init_name ++ [0])) 8 (addr_prochead + off_next) 0).
  set (m := st m0 1 (p + 80 + sizeof_HeapNode + off_invalid) 0).
  set (s' := with_driver (with_sched (with_mem s m) idle_sched)
    (DriverGlobals false 0 0 0xfee00000 0 false 0 false)).
  assert (Hm : same_on (fun x => ~ within x name_addr 5 /\ ~ within x (addr_prochead + off_next) 8 /\
    ~ within x (p + 80 + sizeof_HeapNode + off_invalid) 1) (mem s) m).
  { intros x (H1 & H2 & H3). unfold m, m0. rewrite !rd_st_ne by done. by rewrite rd_write_bytes_ne. }
  assert (Hi' : ps_inv s' /\ ps_pool s' = ps_pool s).
  { apply ps_stable; [apply Hh | done|]. eapply same_on_weaken; [exact Hm|]. intros x Hx%Hown.
    unfold within, name_addr, sizeof_HeapNode, off_invalid in *. cbn. unfold off_next. lia. }
  assert (Hh' : heap_inv s' [(p + 80, 4016)]).
  { apply (heap_inv_keep_headers s); [exact Hh | apply Hi' | done | by rewrite (proj2 Hi') |].
    eapply same_on_weaken; [exact Hm|]. intros x [Hx | (a & ->%list_elem_of_singleton & Hx)];
      unfold within, name_addr, off_next, sizeof_HeapNode, off_invalid in *; cbn in *; lia. }
  assert (Hname : cstr m name_addr init_name).
  { eapply (cstr_ext (write_bytes (mem s) name_addr (init_name ++ [0]))).
    - intros x Hx. unfold m, m0. unfold within, name_addr, off_next, sizeof_HeapNode, off_invalid in *.
      rewrite !rd_st_ne; [done | |]; unfold within; cbn in *; lia.
    - apply cstr_write_bytes. repeat constructor. }
  exists s', (p + 80, 4016). split; [|split_and!; [cbn; lia | cbn; lia | done | exact Hi | done | |]].
  2:{ cbn [mem s' with_driver with_sched with_mem fst]. unfold m. cbn [st]. by rewrite rd_wr_eq. }
  2:{ change (2 ^ 41) with 2199023255552. intros x [Hx%Hown | (q & Hq & Hx)]; [unfold within in Hx; lia|].
      rewrite (proj2 Hi'), Hp in Hq. apply Hlow in Hq. change (2 ^ 40) with 1099511627776 in Hq.
      unfold page_bytes, within in Hx. lia. }
  assert (Hkp : kernel_pages roomy_info = 2) by by vm_compute.
  split.
  - split.
    + cbn [queue]. change (mem s') with m. unfold m. rewrite ld_st_ne; [unfold m0; by rewrite ld64_st_eq|].
      unfold apart, off_next, sizeof_HeapNode, off_invalid. cbn. lia.
    + constructor.
    + constructor.
    + by intros ? ? ?%not_elem_of_nil.
    + by intros ? ?%not_elem_of_nil.
    + unfold apart, spawn_stack, sizeof_Registers. cbn. lia.
    + by left.
  - exact Hh'.
  - reflexivity.
  - reflexivity.
  - by intros ? ?%not_elem_of_nil.
  - intros x Hx Ho. cbn [alloc_g with_sched with_mem] in Ho. apply Hown in Ho.
    unfold within in *. cbn in Hx. lia.
  - left. unfold spawn_stack, sizeof_Registers. cbn. lia.
  - split_and!; [exact Hname | cbn; lia | unfold name_addr; lia].
  - intros x Hx. split; [unfold within, name_addr in *; cbn in *; lia|].
    intros b ->%list_elem_of_singleton. unfold within, name_addr in *. cbn in *. lia.
  - change (paging_g s') with (paging_g s). rewrite Hi. exact roomy_layout.
  - intros q Hq. rewrite (proj2 Hi'), Hp in Hq. by apply Hlow.
  - intros _. change (paging_g s') with (paging_g s). rewrite Hi. apply roomy_range. lia.
  - change (paging_g s') with (paging_g s). unfold space_budget, program_pages.
    change (page_count 0x40000000 0x40001800) with 2. rewrite Hi, (proj2 Hi'), Hp, Hlen, Hkp. lia.
  - change (paging_g s') with (paging_g s). rewrite Hi. cbn. lia.
  - split; [cbn; lia | by intros ?%not_elem_of_nil].
Qed.

Lemma IntAddTask_adds_witness :
  exists s s' new, IntAddTask 600 name_addr 0x40000000 0x40001800 false s = Ok tt s' /\
    sched_inv spawn_stack s' [new] None /\ pr_pid new = 1 /\
    translate (mem s') (pr_cr3 new) 0x40001234 = Some (Xlat 0x40001234 true false).
Proof.
  destruct spawn_demo as (s & b & Hready & Hb & Hg & Hi & _).
  destruct (IntAddTask_adds 600 spawn_stack name_addr s [] None [b] b [] init_name
    0x40000000 0x40001800 false Hready) as (s' & new & root & sp & H1 & _ & H2 & _ & _ & H3 & _ & _ & H4 & _ & _ & _ & _ & _ & H5 & _).
  exists s, s', new. split; [exact H1|]. split; [exact H2|]. split; [rewrite H3, Hg; reflexivity|].
  rewrite H4, H5, Hi. vm_compute. reflexivity.
Defined.

(** A new tree and a frame at 1.25 GiB whose [cr3] is its root. *)
Lemma AllocatePage_maps_witness :
  exists s s' p root, AllocatePage s = Ok p s' /\
    translate (mem s') root p = Some (Xlat p true false).
Proof.
  destruct new_tree as (s1 & root & ps & Hinv & Hp & Hlen & Ht & Hl & Hg).
  set (s := with_sched (with_mem s1 (st (mem s1) 8 (0x50000000 + off_cr3) root)) (SchedGlobals 2 true 0x50000000)).
  assert (Hq : quiet (fun x => within x (0x50000000 + off_cr3) 8) s1 s).
  { eapply quiet_trans; [|apply quiet_sched]. by apply quiet_store. }
  destruct (quiet_tables _ root s1 s Hinv Hq) as (I & P & _ & _).
  { intros x Hx. assert (Hno : ~ paging_byte root s1 x).
    { intros Hb%roomy_paging_byte; [|done|done]. unfold within, off_cr3 in Hx. lia. }
    split; intros Ho; apply Hno; [by left | by do 2 right]. }
  destruct ps as [|p ps]; [done|].
  assert (Hp' : @ps_pool _ frame_source_ok s = p :: ps) by (rewrite P; exact Hp).
  destruct (ti_tab _ _ I [] root (tpath_vpath 0 0 ltac:(lia)) eq_refl) as (_ & _ & Hroot).
  destruct (ti_page _ _ [] root I (tpath_vpath 0 0 ltac:(lia)) eq_refl) as (Hroot0 & _).
  assert (Hlg : in_large (mem s) root p = false).
  { rewrite <- (Hl p). destruct (tables_stable root s1 s) as (_ & _ & _ & Hlg); try done.
    - apply I.
    - exists []. by rewrite P.
    - eapply same_on_weaken; [apply Hq|]. intros x Hx Hw.
      assert (Hb : paging_byte root s1 x) by (by do 2 right).
      apply roomy_paging_byte in Hb; [|done|done]. unfold within, off_cr3 in Hw. lia. }
  destruct (AllocatePage_maps s root p ps 0x50000000) as (s' & Hrun & _ & _ & _ & Htr).
  - reflexivity.
  - lia.
  - unfold s. cbn [mem with_sched with_mem]. rewrite ld64_st_eq. apply u64_small.
    change (2 ^ 40) with 1099511627776 in Hroot. lia.
  - exact I.
  - exact Hp'.
  - simpl in Hlen. lia.
  - exact Hlg.
  - exists s, s', p, root. split; [exact Hrun|]. rewrite Htr, decide_True by reflexivity.
    destruct (@ps_alloc_page _ frame_source_ok s p ps (ti_src _ _ I) Hp') as (_ & _ & Hal & _).
    rewrite Hal, Z.add_0_r. reflexivity.
Defined.
