(* ===== verification/Ramdisk.v ===== *)
(** ramdisk/tar.c: the tar archive the boot loader hands over.

    [InitializeRamdisk] walks the archive's 512-byte headers and pushes one
    [struct FileNode] per member in front of the list that starts at the static
    [filehead]; the other functions look files up in that list. *)
From S2P Require Import Prelude Memory Machine PageSource Heap CString.

(** ** struct FileNode and struct tar_header *)

Definition off_FilePath : Z := 0.
Definition off_FileSize : Z := 100.
Definition off_FileBegin : Z := 104.
Definition off_fnext : Z := 112.
Definition sizeof_FileNode : Z := 120.
Definition off_path : Z := 0.
Definition off_size : Z := 124.

(** [ALIGN_UP] at type [uint32_t]. *)
Definition ALIGN_UP32 (value boundary : Z) : Z :=
  u32 (u32 (value + (boundary - 1)) / boundary * boundary).

(** ** Operations *)

Definition is_initialized : M bool := gets (fun s => ramdiskInitialized (driver_g s)).

(** The loop of [DecodeValue] with [j] iterations left. *)
Fixpoint DecodeValue_loop (j : nat) (value ret_ count : Z) : M Z :=
  match j with
  | O => ret ret_
  | S k =>
      c ← load 1 (value + Z.of_nat k);
      DecodeValue_loop k value (u32 (ret_ + u32 (s8 c - 48) * count)) (u32 (count * 8))
  end.
Definition DecodeValue (value : Z) : M Z := DecodeValue_loop 11 value 0 1.

Section Ops.
Context `{Statics} `{PageSource}.

Definition InsertEntry (fuel : nat) (FilePath FileSize FileBegin : Z) : M unit :=
  node ← malloc fuel sizeof_FileNode;
  first ← load 8 (addr_filehead + off_fnext);
  store 8 (node + off_fnext) first;;
  strcpy fuel (node + off_FilePath) FilePath;;
  store 4 (node + off_FileSize) FileSize;;
  store 8 (node + off_FileBegin) FileBegin;;
  store 8 (addr_filehead + off_fnext) node.

Definition GetRamdiskListing : M Z :=
  i ← is_initialized; ret (if i then addr_filehead else 0).

Fixpoint find_file (fuel : nat) (path current : Z) : M Z :=
  match fuel with
  | O => out_of_fuel
  | S fuel =>
      next ← load 8 (current + off_fnext);
      if next =? 0 then ret 0
      else
        r ← strncmp (S fuel) path (next + off_FilePath) 100;
        if r =? 0 then load 8 (current + off_fnext)
        else
          next ← load 8 (current + off_fnext);
          find_file fuel path next
  end.
Definition RdFileGetFrame (fuel : nat) (path : Z) : M Z :=
  i ← is_initialized;
  if negb i then ret 0
  else if path =? 0 then ret 0
  else find_file fuel path addr_filehead.

(** [n] is an [int]; [memcpy] takes it as a [size_t]. *)
Definition RdFileGetStream (fuel : nat) (path buffer n : Z) : M unit :=
  i ← is_initialized;
  if negb i then ret tt
  else
    frame ← RdFileGetFrame fuel path;
    if frame =? 0 then ret tt
    else
      begin_ ← load 8 (frame + off_FileBegin);
      if begin_ =? 0 then ret tt
      else
        begin_ ← load 8 (frame + off_FileBegin);
        memcpy buffer begin_ (u64 n).

Definition RdFileGetSz (fuel : nat) (path : Z) : M Z :=
  i ← is_initialized;
  if negb i then ret 0
  else
    frame ← RdFileGetFrame fuel path;
    if frame =? 0 then ret 0 else load 4 (frame + off_FileSize).

(** The name is printed from memory: the log records its address. *)
Fixpoint register_files (fuel : nat) (rdstart : Z) : M unit :=
  match fuel with
  | O => out_of_fuel
  | S fuel' =>
      c ← load 1 rdstart;
      if c =? 0 then ret tt
      else
        printf "Registering file:\n" [];;
        printf "    - File path: %s\n" [AVal (rdstart + off_path)];;
        sz ← DecodeValue (rdstart + off_size);
        (if negb (sz =? 0) then
           sz ← DecodeValue (rdstart + off_size);
           printf "    - File size: %d bytes\n" [AVal sz]
         else printf "    - File is directory/0 bytes\n" []);;
        sz ← DecodeValue (rdstart + off_size);
        InsertEntry fuel (rdstart + off_path) sz (rdstart + 512);;
        sz ← DecodeValue (rdstart + off_size);
        register_files fuel' (rdstart + ALIGN_UP32 (u32 (512 + sz)) 512)
  end.
Definition InitializeRamdisk (fuel : nat) (ramdiskOffset : Z) : M unit :=
  register_files fuel ramdiskOffset;;
  modify (set_ramdiskInitialized true).
End Ops.

(** ** Octal numbers *)

Definition oct_digits (n : Z) : list Z := numeral 8 dec_char 11 n.

Lemma bytes_at_snoc m a n : bytes_at m a (S n) = bytes_at m a n ++ [rd m (a + Z.of_nat n)].
Proof.
  revert a. induction n as [|n IH]; intros a; [cbn; do 2 f_equal; lia|].
  change (bytes_at m a (S (S n))) with (rd m a :: bytes_at m (a + 1) (S n)).
  rewrite IH. cbn [bytes_at app]. do 4 f_equal. lia.
Qed.

Lemma DecodeValue_loop_run n value r p t s :
  PAGE <= value -> 0 <= t -> 0 <= p ->
  bytes_at (mem s) value n = numeral 8 dec_char n t ->
  DecodeValue_loop n value (u32 r) (u32 p) s =
    Ok (u32 (r + p * (t mod 8 ^ Z.of_nat n))) s.
Proof.
  intros Hv. revert r p t. induction n as [|n IH]; intros r p t Ht Hp Hb; cbn [DecodeValue_loop].
  { rewrite Z.mod_1_r, Z.mul_0_r, Z.add_0_r. done. }
  rewrite bytes_at_snoc in Hb. cbn [numeral] in Hb.
  apply app_inj_2 in Hb as [Hb Hc]; [|done]. injection Hc as Hc.
  erewrite bind_Ok by (apply load_ok; lia). cbv beta. rewrite ld1_rd, Hc.
  assert (Hd : u32 (s8 (dec_char (t mod 8)) - 48) = t mod 8)
    by (unfold dec_char; rewrite s8_small by lia; rewrite u32_small; lia).
  rewrite Hd.
  replace (u32 (u32 r + t mod 8 * u32 p)) with (u32 (r + t mod 8 * p)).
  2:{ unfold u32. by rewrite Zplus_mod_idemp_l, <- (Zplus_mod_idemp_r (t mod 8 * (p mod 2 ^ 32))),
        Zmult_mod_idemp_r,
        Zplus_mod_idemp_r. }
  replace (u32 (u32 p * 8)) with (u32 (8 * p)).
  2:{ unfold u32. rewrite (Z.mul_comm (p mod _)). by rewrite Zmult_mod_idemp_r. }
  rewrite (IH _ _ (t / 8)); [| lia | lia | done]. f_equal. f_equal.
  replace (Z.of_nat (S n)) with (1 + Z.of_nat n) by lia.
  rewrite Z.pow_add_r, Z.pow_1_r, Z.rem_mul_r by (try apply Z.pow_nonzero; lia). lia.
Qed.

Lemma DecodeValue_run value n s :
  PAGE <= value -> 0 <= n < 8 ^ 11 -> bytes_at (mem s) value 11 = oct_digits n ->
  DecodeValue value s = Ok (u32 n) s.
Proof.
  intros Hv Hn Hb. unfold DecodeValue.
  pose proof (DecodeValue_loop_run 11 value 0 1 n s Hv ltac:(lia) ltac:(lia) Hb) as Hrun.
  change (u32 0) with 0 in Hrun. change (u32 1) with 1 in Hrun. rewrite Hrun.
  f_equal. f_equal. change (Z.of_nat 11) with 11. rewrite Z.mod_small by lia. lia.
Qed.

(** ** The list of files *)

Record file := File {
  fi_node : Z;        (* address of the FileNode *)
  fi_path : list Z;
  fi_size : Z;
  fi_begin : Z;
}.

Definition file_at (m : gmap Z Z) (f : file) : Prop :=
  PAGE <= fi_node f /\ (length (fi_path f) <= 99)%nat /\
  cstr m (fi_node f + off_FilePath) (fi_path f) /\
  ld32 m (fi_node f + off_FileSize) = fi_size f /\
  ld64 m (fi_node f + off_FileBegin) = fi_begin f.

(** The files of the list that the [next] field of the node at [pa] begins. *)
Fixpoint listing (m : gmap Z Z) (pa : Z) (fs : list file) : Prop :=
  match fs with
  | [] => ld64 m (pa + off_fnext) = 0
  | f :: fs => ld64 m (pa + off_fnext) = fi_node f /\ file_at m f /\ listing m (fi_node f) fs
  end.

Definition node_bytes (f : file) (x : Z) : Prop := within x (fi_node f) sizeof_FileNode.

Ltac foffs := unfold node_bytes, off_FilePath, off_FileSize, off_FileBegin, off_fnext,
  sizeof_FileNode, off_path, off_size in *.

Lemma file_at_ext m m' f : same_on (node_bytes f) m m' -> file_at m f -> file_at m' f.
Proof.
  intros Hm (H1 & H2 & H3 & H4 & H5). split_and!; [done | done | | |].
  - eapply cstr_ext; [|exact H3]. eapply same_on_weaken; [exact Hm|].
    intros x Hx. foffs. unfold within in *. lia.
  - rewrite <- H4. apply (same_on_ld _ _ _ _ _ Hm). intros x Hx. foffs. unfold within in *. lia.
  - rewrite <- H5. apply (same_on_ld _ _ _ _ _ Hm). intros x Hx. foffs. unfold within in *. lia.
Qed.

Lemma listing_ext m m' pa pa' fs :
  (forall f, f ∈ fs -> same_on (node_bytes f) m m') ->
  ld64 m' (pa' + off_fnext) = ld64 m (pa + off_fnext) -> listing m pa fs -> listing m' pa' fs.
Proof.
  revert pa pa'. induction fs as [|f fs IH]; intros pa pa' Hm Hpa Hl; cbn [listing] in *; [congruence|].
  destruct Hl as (H1 & H2 & H3). pose proof (Hm f ltac:(left)) as Hf. split_and!; [congruence | |].
  - by eapply file_at_ext.
  - apply (IH (fi_node f)); [intros g Hg; apply Hm; by right | | done].
    apply (same_on_ld _ _ _ _ _ Hf). intros x Hx. foffs. unfold within in *. lia.
Qed.

(** The first file with the path. *)
Fixpoint lookup_file (path : list Z) (fs : list file) : option file :=
  match fs with
  | [] => None
  | f :: fs => if decide (fi_path f = path) then Some f else lookup_file path fs
  end.

Lemma take_short {A} n (l : list A) : (length l <= n)%nat -> take n l = l.
Proof. apply take_ge. Qed.

Lemma find_file_run fuel path l pa fs s :
  listing (mem s) pa fs -> PAGE <= pa -> PAGE <= path -> cstr (mem s) path l ->
  (length l <= 99)%nat -> (length l + length fs < fuel)%nat ->
  find_file fuel path pa s = Ok (default 0 (fi_node <$> lookup_file l fs)) s.
Proof.
  revert fuel pa. induction fs as [|f fs IH]; intros [|fuel] pa Hl Hpa Hp Hc Hlen Hf;
    try (simpl in Hf; lia); cbn [listing find_file lookup_file] in *.
  - erewrite bind_Ok by (apply load_ok; foffs; lia). cbv beta. rewrite Hl. done.
  - destruct Hl as (H1 & (F1 & F2 & F3 & F4) & H3).
    erewrite bind_Ok by (apply load_ok; foffs; lia). cbv beta. rewrite H1.
    rewrite (proj2 (Z.eqb_neq (fi_node f) 0)) by lia.
    assert (Hcmp : strncmp (S fuel) path (fi_node f + off_FilePath) 100 s =
                   Ok (str_diff l (fi_path f)) s).
    { unfold strncmp. rewrite (strncmp_loop_run l (fi_path f));
        [| done | foffs; lia | done | done | lia | simpl in Hf; lia].
      by rewrite !take_short by (cbn; lia). }
    erewrite bind_Ok by exact Hcmp. cbv beta.
    pose proof (str_diff_zero l (fi_path f) (cstr_chars _ _ _ Hc) (cstr_chars _ _ _ F3)) as Hz.
    destruct (Z.eqb_spec (str_diff l (fi_path f)) 0) as [He|He].
    + rewrite decide_True by (symmetry; by apply Hz). cbn.
      rewrite load_ok by (foffs; lia). by rewrite H1.
    + rewrite decide_False by (intros Heq; apply He, Hz; done).
      erewrite bind_Ok by (apply load_ok; foffs; lia). cbv beta. rewrite H1.
      apply IH; [done | lia | done | done | done | simpl in Hf; lia].
Qed.

Lemma copy_bytes m n d a :
  apart d (Z.of_nat n) a (Z.of_nat n) -> bytes_at (copy m n d a) d n = bytes_at m a n.
Proof. intros Hap. apply bytes_at_ext. intros i Hi. apply rd_copy; [unfold apart in Hap; lia | done]. Qed.

(** ** InsertEntry *)

(** The stores that follow the copy of the path. *)
Definition filled (m : gmap Z Z) (node size begin_ head : Z) : gmap Z Z :=
  st (st (st m 4 (node + off_FileSize) size) 8 (node + off_FileBegin) begin_) 8 (head + off_fnext) node.

Lemma fill_node m node l size begin_ head first :
  PAGE <= node -> node + sizeof_FileNode <= head -> head + sizeof_FileNode <= 2 ^ 64 ->
  cstr m (node + off_FilePath) l -> (length l <= 99)%nat ->
  0 <= size < 2 ^ 32 -> 0 <= begin_ < 2 ^ 64 -> ld64 m (node + off_fnext) = first ->
  file_at (filled m node size begin_ head) (File node l size begin_) /\
  ld64 (filled m node size begin_ head) (node + off_fnext) = first /\
  ld64 (filled m node size begin_ head) (head + off_fnext) = node /\
  same_on (fun x => ~ within x (node + off_FileSize) 12 /\ ~ within x (head + off_fnext) 8)
    m (filled m node size begin_ head).
Proof.
  intros Hn Hh Hhk Hc Hl Hs Hb Hf.
  assert (Hm : same_on (fun x => ~ within x (node + off_FileSize) 12 /\ ~ within x (head + off_fnext) 8)
    m (filled m node size begin_ head)).
  { intros x [H1 H2]. unfold filled. rewrite !rd_st_ne; [done | | |];
      unfold within in *; foffs; lia. }
  split_and!; [split_and!; [done | done | | |] | | | done]; cbn [fi_node fi_path fi_size fi_begin].
  - eapply cstr_ext; [|exact Hc]. eapply same_on_weaken; [exact Hm|].
    intros x Hx. unfold within in *. foffs. lia.
  - unfold filled. do 2 rewrite ld_st_ne by (unfold apart; foffs; lia). rewrite ld_st_eq. by apply u32_small.
  - unfold filled. rewrite ld_st_ne by (unfold apart; foffs; lia). rewrite ld_st_eq. by apply u64_small.
  - rewrite <- Hf. apply (same_on_ld _ _ _ _ _ Hm). intros x Hx. unfold within in *. foffs. lia.
  - unfold filled. rewrite ld_st_eq. apply u64_small. foffs. lia.
Qed.

Section Insert.
Context `{StaticsOk} `{PSO : PageSourceOk}.

(** The heap has one free block, which does not touch the files, and the head
    of the list is outside the allocator's data. *)
Record rd_ready (s : machine) (fs : list file) (a sz : Z) : Prop := {
  rr_heap : heap_inv s [(a, sz)];
  rr_list : listing (mem s) addr_filehead fs;
  rr_live f : f ∈ fs -> apart (fi_node f) sizeof_FileNode a sz /\
                        fi_node f + sizeof_FileNode <= KERNEL_BASE;
  rr_head x : within x addr_filehead sizeof_FileNode -> ~ ps_owned (alloc_g s) x;
}.

(** Memory that [InsertEntry] leaves alone. *)
Definition rd_outside (a sz : Z) (x : Z) : Prop :=
  outside [(a, sz)] x /\ ~ within x addr_filehead sizeof_FileNode.

Lemma rd_outside_sub a sz a' sz' x :
  a <= a' -> a' + sz' <= a + sz -> rd_outside a sz x -> rd_outside a' sz' x.
Proof using.
  intros Hlo Hhi [[Ho1 Ho2] Ho3]. split; [split|]; [done | | done].
  intros b ->%list_elem_of_singleton Hx. apply (Ho2 (a, sz)); [left|].
  cbn in *. unfold within in *. lia.
Qed.

Definition entry_size : Z := sizeof_HeapNode + sizeof_FileNode.

Lemma InsertEntry_spec fuel path l size begin_ s fs a sz :
  rd_ready s fs a sz -> cstr (mem s) path l -> (length l <= 99)%nat -> PAGE <= path ->
  (forall x, within x path (Z.of_nat (length l) + 1) -> rd_outside a sz x) ->
  entry_size + sizeof_HeapNode <= sz -> (100 <= fuel)%nat ->
  0 <= size < 2 ^ 32 -> 0 <= begin_ < 2 ^ 64 ->
  exists s', InsertEntry fuel path size begin_ s = Ok tt s' /\ same_regs s s' /\
    rd_ready s' (File (a + sizeof_HeapNode) l size begin_ :: fs) (a + entry_size) (sz - entry_size) /\
    same_on (rd_outside a sz) (mem s) (mem s') /\ ps_pool s' = ps_pool s.
Proof using All.
  intros [Hh Hl Hlive Hhd] Hc Hlen Hp Hpo Hsz Hf Hsize Hbeg.
  pose proof filehead_range as [Hfk Hfk2]. pose proof head_filehead_apart as Hhf.
  pose proof head_range as [Hhk _].
  pose proof (hi_blocks _ _ Hh) as Hbo. inversion Hbo as [|? ? (Ha1 & Ha2 & Ha3) _]; subst.
  cbn [fst snd] in *. unfold KERNEL_BASE, entry_size, sizeof_HeapNode in *.
  destruct (malloc_fit_spec fuel sizeof_FileNode s [(a, sz)] (a, sz) [])
    as (s1 & R1 & [A1 A2 A3] & G1 & P1 & M1); [done | foffs; lia | by vm_compute | | | simpl; lia |].
  { cbn [take_fit snd]. unfold sizeof_HeapNode. foffs. by rewrite (proj2 (Z.leb_le _ _)) by lia. }
  { right. cbn. unfold sizeof_HeapNode. foffs. lia. }
  cbn [fst snd] in *.
  assert (Hcarve : carve sizeof_FileNode (a, sz) [] = [(a + 136, sz - 136)]).
  { unfold carve. cbn [fst snd]. unfold sizeof_HeapNode. foffs.
    rewrite (proj2 (Z.ltb_lt 0 _)) by lia. do 2 f_equal; lia. }
  rewrite Hcarve in *. clear Hcarve. unfold sizeof_HeapNode in *.
  set (node := a + 16) in *.
  set (s2 := with_mem s1 (st (mem s1) 8 (node + off_fnext) (ld64 (mem s1) (addr_filehead + off_fnext)))).
  assert (Hin : forall x, within x node sizeof_FileNode -> ~ outside [(a, sz)] x).
  { intros x Hx [_ Ho]. apply (Ho (a, sz)); [left|]. cbn. unfold within, node in *. foffs. lia. }
  assert (M12 : same_on (fun x => ~ within x node sizeof_FileNode) (mem s1) (mem s2)).
  { apply same_on_st. intros x Hx Hw. apply Hx. unfold within, node in *. foffs. lia. }
  assert (Hc2 : cstr (mem s2) path l).
  { eapply cstr_ext; [|exact Hc]. intros x Hx. destruct (Hpo x Hx) as [Ho _].
    rewrite M12 by (intros Hw; by apply (Hin x)). by apply M1. }
  assert (Hap : apart (node + off_FilePath) (Z.of_nat (length l) + 1) path (Z.of_nat (length l) + 1)).
  { unfold apart. destruct (decide (node + off_FilePath + (Z.of_nat (length l) + 1) <= path)); [by left|].
    destruct (decide (path + (Z.of_nat (length l) + 1) <= node + off_FilePath)); [by right|]. exfalso.
    set (x := Z.max path (node + off_FilePath)).
    apply (Hin x); [unfold within, x; foffs; lia | apply Hpo; unfold within, x; lia]. }
  pose proof (strcpy_loop_run l fuel (node + off_FilePath) path 0 s2) as Hcp.
  rewrite (Z.add_0_r (node + off_FilePath)), (Z.add_0_r path) in Hcp.
  destruct Hcp as (s3 & R3 & G3 & C3 & M3); [unfold node; foffs; lia | done | done | done | lia |].
  assert (Hnext : ld64 (mem s3) (node + off_fnext) = ld64 (mem s1) (addr_filehead + off_fnext)).
  { rewrite (same_on_ld _ _ _ _ _ M3) by (intros x Hx; foffs; unfold within in *; lia).
    cbn [mem with_mem s2]. rewrite ld_st_eq. apply u64_small, ld64_range. }
  destruct (fill_node (mem s3) node l size begin_ addr_filehead
    (ld64 (mem s1) (addr_filehead + off_fnext))) as (N1 & N2 & N3 & M36); try done;
    [unfold node; lia | unfold node; foffs; lia |].
  set (m6 := filled _ _ _ _ _) in *.
  assert (M16 : same_on (fun x => ~ within x node sizeof_FileNode /\
                   ~ within x (addr_filehead + off_fnext) 8) (mem s1) m6).
  { intros x [H1' H2']. rewrite M36, M3, M12; [done | done | |];
      unfold within, node in *; foffs; lia. }
  assert (Hnode : PAGE <= node) by (unfold node; lia).
  assert (Hg : alloc_g (with_mem s3 m6) = alloc_g s1) by (cbn; by rewrite G3).
  assert (Hps : ps_inv (with_mem s3 m6) /\ ps_pool (with_mem s3 m6) = ps_pool s1).
  { apply ps_stable; [apply A1 | done |]. eapply same_on_weaken; [exact M16|].
    intros x Hx. split; intros Hw.
    - apply (Heap.bf_clear _ _ _ A3 x); [|done]. cbn. unfold within, node in *. foffs. lia.
    - apply (Hhd x); [unfold within in *; foffs; lia | rewrite G1 in Hx; exact Hx]. }
  destruct Hps as [Hpi Hpp].
  exists (with_mem s3 m6). split; [|split; [|split; [|split; [|congruence]]]].
  - unfold InsertEntry. erewrite bind_Ok by exact R1. cbv beta.
    erewrite bind_Ok by (apply load_ok; foffs; lia). cbv beta.
    erewrite bind_Ok by (apply store_ok; foffs; lia). cbv beta. fold s2.
    erewrite bind_Ok by exact R3. cbv beta.
    erewrite bind_Ok by (apply store_ok; foffs; lia). cbv beta.
    erewrite bind_Ok by (apply store_ok; foffs; lia). cbv beta.
    by rewrite store_ok by (foffs; lia).
  - eapply same_regs_trans; [exact G1|]. eapply same_regs_trans; [apply same_regs_with_mem|].
    eapply same_regs_trans; [exact G3 | apply same_regs_with_mem].
  - assert (Hout : forall f, apart (fi_node f) sizeof_FileNode a sz /\
                     fi_node f + sizeof_FileNode <= KERNEL_BASE ->
                   forall x, node_bytes f x -> outside [(a, sz)] x).
    { intros f [Hfa Hfb] x Hx. split; [foffs; unfold within, KERNEL_BASE in *; lia|].
      intros b ->%list_elem_of_singleton. cbn. foffs. unfold apart, within in *. lia. }
    assert (Hbl : forall x, within x (a + 136) (sz - 136) -> within x a sz) by (unfold within; lia).
    split.
    + replace (a + (sizeof_HeapNode + sizeof_FileNode)) with (a + 136) by (unfold sizeof_HeapNode; foffs; lia).
      replace (sz - (sizeof_HeapNode + sizeof_FileNode)) with (sz - 136) by (unfold sizeof_HeapNode; foffs; lia).
      apply (heap_inv_keep s1); [done | done | done | by rewrite Hpp |].
      eapply same_on_weaken; [exact M16|]. intros x Hx. split; intros Hw.
      * destruct Hx as [Hx|(b & ->%list_elem_of_singleton & Hx)]; cbn [fst snd] in Hx;
          unfold within, node in *; foffs; lia.
      * destruct Hx as [Hx|(b & ->%list_elem_of_singleton & Hx)]; cbn [fst snd] in Hx;
          unfold within, apart, node in *; foffs; lia.
    + assert (Hls : listing (mem s1) addr_filehead fs).
      { eapply listing_ext; [| |exact Hl].
        - intros f Hfi. eapply same_on_weaken; [exact M1|]. intros x Hx. by apply (Hout f (Hlive f Hfi)).
        - apply (same_on_ld _ _ _ _ _ M1). intros x Hx. split; [unfold apart, within in *; foffs; lia|].
          intros b ->%list_elem_of_singleton. cbn. unfold within in *. foffs. lia. }
      cbn [listing]. split_and!; [done | done |].
      eapply listing_ext; [| |exact Hls].
      * intros f Hfi. destruct (Hlive f Hfi) as [Hfa Hfb].
        eapply same_on_weaken; [exact M16|]. intros x Hx. foffs. unfold apart, within, node in *. lia.
      * exact N2.
    + intros f [->|Hfi]%elem_of_cons; cbn [fi_node].
      * foffs. unfold apart, node, KERNEL_BASE. lia.
      * destruct (Hlive f Hfi) as [Hfa Hfb]. foffs. unfold apart, KERNEL_BASE in *. lia.
    + intros x Hx. rewrite Hg, G1. by apply Hhd.
  - intros x [Hx1 Hx2]. cbn [mem with_mem]. rewrite M16; [by apply M1 | split].
    + intros Hw. by apply (Hin x).
    + intros Hw. apply Hx2. unfold within in *. foffs. lia.
Qed.
End Insert.

(** ** Archives *)

Record member := Member { mb_path : list Z; mb_size : Z }.

(** Header and data of a member, both in whole blocks of 512 bytes. *)
Definition member_len (mb : member) : Z := 512 + (mb_size mb + 511) / 512 * 512.

Definition member_ok (mb : member) : Prop :=
  mb_path mb <> [] /\ (length (mb_path mb) <= 99)%nat /\ 0 <= mb_size mb < 2 ^ 32 - 1024.

(** A tar archive in memory: the headers, then a zero byte. *)
Fixpoint archive (m : gmap Z Z) (a : Z) (mbs : list member) : Prop :=
  match mbs with
  | [] => rd m a = 0
  | mb :: mbs =>
      member_ok mb /\ cstr m (a + off_path) (mb_path mb) /\
      bytes_at m (a + off_size) 11 = oct_digits (mb_size mb) /\
      archive m (a + member_len mb) mbs
  end.

Fixpoint total (mbs : list member) : Z :=
  match mbs with [] => 0 | mb :: mbs => member_len mb + total mbs end.

(** The list after the members from [a] on, the first node at [node]. *)
Fixpoint registered (a node : Z) (mbs : list member) (fs : list file) : list file :=
  match mbs with
  | [] => fs
  | mb :: mbs =>
      registered (a + member_len mb) (node + entry_size) mbs
        (File (node + sizeof_HeapNode) (mb_path mb) (mb_size mb) (a + 512) :: fs)
  end.

(** The last member with the path: its size and where its data begin. *)
Fixpoint locate (path : list Z) (a : Z) (mbs : list member) : option (Z * Z) :=
  match mbs with
  | [] => None
  | mb :: mbs =>
      match locate path (a + member_len mb) mbs with
      | Some r => Some r
      | None => if decide (mb_path mb = path) then Some (mb_size mb, a + 512) else None
      end
  end.

Lemma registered_length a node mbs fs :
  length (registered a node mbs fs) = (length mbs + length fs)%nat.
Proof. revert a node fs. induction mbs as [|mb mbs IH]; intros; cbn; [done|]. rewrite IH. cbn. lia. Qed.

Definition file_info (f : file) : Z * Z := (fi_size f, fi_begin f).

Lemma lookup_registered path a node mbs fs :
  file_info <$> lookup_file path (registered a node mbs fs) =
  match locate path a mbs with Some r => Some r | None => file_info <$> lookup_file path fs end.
Proof.
  revert a node fs. induction mbs as [|mb mbs IH]; intros a node fs; [done|].
  cbn [registered locate]. rewrite IH. destruct (locate path (a + member_len mb) mbs); [done|].
  cbn [lookup_file fi_path]. by case_decide.
Qed.

Lemma member_len_bounds mb : 0 <= mb_size mb -> 512 <= member_len mb /\ 512 + mb_size mb <= member_len mb.
Proof. intros H. unfold member_len. lia. Qed.

Lemma member_len_align mb : member_ok mb ->
  ALIGN_UP32 (u32 (512 + mb_size mb)) 512 = member_len mb.
Proof.
  intros (_ & _ & H). unfold ALIGN_UP32, member_len.
  rewrite (u32_small (512 + _)) by lia. rewrite (u32_small (_ + _ + _)) by lia.
  rewrite u32_small by lia. lia.
Qed.

Lemma total_nonneg mbs m a : archive m a mbs -> 0 <= total mbs.
Proof.
  revert a. induction mbs as [|mb mbs IH]; intros a Ha; [done|]. cbn [total archive] in *.
  destruct Ha as ((_ & _ & H) & _ & _ & Ha). apply IH in Ha.
  pose proof (member_len_bounds mb ltac:(lia)). lia.
Qed.

Lemma archive_ext m m' a mbs :
  same_on (fun x => within x a (total mbs + 1)) m m' -> archive m a mbs -> archive m' a mbs.
Proof.
  revert a. induction mbs as [|mb mbs IH]; intros a Hm Ha; cbn [total archive] in *.
  - rewrite <- Ha. apply Hm. unfold within. lia.
  - destruct Ha as (Hok & Hc & Hb & Ha). pose proof (total_nonneg _ _ _ Ha) as Ht.
    pose proof Hok as (_ & Hl & Hs). pose proof (member_len_bounds mb ltac:(lia)).
    split_and!; [done | | |].
    + eapply cstr_ext; [|exact Hc]. eapply same_on_weaken; [exact Hm|].
      intros x Hx. foffs. unfold within in *. lia.
    + rewrite <- Hb. apply bytes_at_ext. intros i Hi. apply Hm. foffs. unfold within. lia.
    + apply IH; [|done]. eapply same_on_weaken; [exact Hm|].
      intros x Hx. unfold within in *. lia.
Qed.

Lemma cstr_nonzero m p l : cstr m p l -> l <> [] -> rd m p <> 0.
Proof. destruct l; [done|]. intros (-> & Hc & _) _. unfold is_char in Hc. lia. Qed.

Section Register.
Context `{StaticsOk} `{PSO : PageSourceOk}.

Lemma rd_ready_ext s s' fs a sz :
  rd_ready s fs a sz -> mem s' = mem s -> alloc_g s' = alloc_g s -> rd_ready s' fs a sz.
Proof using All.
  intros [Hh Hl Hv Hd] Hm Hg.
  destruct (ps_stable s s') as [Hi Hp]; [apply Hh | done | by rewrite Hm |].
  split; [|by rewrite Hm | done | by rewrite Hg].
  apply (heap_inv_keep s); [done | done | done | by rewrite Hp | by rewrite Hm].
Qed.

(** What is printed about a header. *)
Definition member_report (a : Z) (mb : member) : list event :=
  [EvPrintf "Registering file:\n" []; EvPrintf "    - File path: %s\n" [AVal (a + off_path)];
   if mb_size mb =? 0 then EvPrintf "    - File is directory/0 bytes\n" []
   else EvPrintf "    - File size: %d bytes\n" [AVal (mb_size mb)]].

Fixpoint archive_report (a : Z) (mbs : list member) : list event :=
  match mbs with
  | [] => []
  | mb :: mbs => member_report a mb ++ archive_report (a + member_len mb) mbs
  end.

(** One header: two lines are printed, the size is decoded and the entry is
    inserted. *)
Lemma register_head fuel a0 mb mbs s s' :
  archive (mem s) a0 (mb :: mbs) -> PAGE <= a0 ->
  InsertEntry (S fuel) (a0 + off_path) (mb_size mb) (a0 + 512) (printed s (member_report a0 mb)) = Ok tt s' ->
  archive (mem s') a0 (mb :: mbs) ->
  register_files (S fuel) a0 s = register_files fuel (a0 + member_len mb) s'.
Proof using All.
  intros Ha Ha0 Hrun Ha'. pose proof Ha as (Hok & Hc & _ & _). pose proof Hok as (Hne & Hl & Hs).
  assert (Hdec : forall t, archive (mem t) a0 (mb :: mbs) ->
    DecodeValue (a0 + off_size) t = Ok (mb_size mb) t).
  { intros t (_ & _ & Hbt & _).
    rewrite (DecodeValue_run _ (mb_size mb)); [by rewrite u32_small by lia | | | done];
      [foffs; lia | change (8 ^ 11) with 8589934592; lia]. }
  assert (Hfirst : ld (mem s) 1 a0 <> 0).
  { rewrite ld1_rd, <- (Z.add_0_r a0). by eapply cstr_nonzero. }
  set (t1 := [EvPrintf "Registering file:\n" []] ++ trace s).
  set (t2 := EvPrintf "    - File path: %s\n" [AVal (a0 + off_path)] :: t1).
  set (t3 := (if mb_size mb =? 0 then EvPrintf "    - File is directory/0 bytes\n" []
              else EvPrintf "    - File size: %d bytes\n" [AVal (mb_size mb)]) :: t2).
  change (printed s (member_report a0 mb)) with (with_trace s t3) in Hrun.
  cbn [register_files]. erewrite bind_Ok by (apply load_ok; lia). cbv beta.
  rewrite (proj2 (Z.eqb_neq _ 0)) by exact Hfirst.
  erewrite bind_Ok by reflexivity. cbv beta. erewrite bind_Ok by reflexivity. cbv beta.
  erewrite bind_Ok by (apply (Hdec (with_trace s t2)); exact Ha). cbv beta.
  assert (Hsay : (if negb (mb_size mb =? 0) then
      sz0 ← DecodeValue (a0 + off_size);
      printf "    - File size: %d bytes\n" [AVal sz0]
    else printf "    - File is directory/0 bytes\n" []) (with_trace s t2) = Ok tt (with_trace s t3)).
  { unfold t3. destruct (mb_size mb =? 0) eqn:He; cbn [negb]; [reflexivity|].
    erewrite bind_Ok by (apply (Hdec (with_trace s t2)); exact Ha). reflexivity. }
  erewrite bind_Ok by exact Hsay. cbv beta.
  erewrite bind_Ok by (apply (Hdec (with_trace s t3)); exact Ha). cbv beta.
  erewrite bind_Ok by exact Hrun. cbv beta.
  erewrite bind_Ok by (by apply Hdec). cbv beta. by rewrite member_len_align.
Qed.

(** What registering the members [mbs] from [a0] on leaves: [same_regs] but for the
    lines it printed. *)
Definition registered_regs (a0 : Z) (mbs : list member) (s s' : machine) : Prop :=
  s' = with_mem (printed s (archive_report a0 mbs)) (mem s').

Lemma registered_regs_cons a0 mb mbs s s1 s' :
  same_regs (printed s (member_report a0 mb)) s1 -> registered_regs (a0 + member_len mb) mbs s1 s' ->
  registered_regs a0 (mb :: mbs) s s'.
Proof using.
  unfold registered_regs, same_regs, printed. cbn [archive_report]. intros E1 E2.
  assert (T : trace s1 = rev (member_report a0 mb) ++ trace s) by (by rewrite E1).
  assert (W : forall t m, with_mem (with_trace s1 t) m = with_mem (with_trace s t) m)
    by (intros; by rewrite E1).
  rewrite E2 at 1. by rewrite W, T, rev_app_distr, <- app_assoc.
Qed.

Lemma register_step fuel a0 mb mbs s fs a sz :
  rd_ready s fs a sz -> archive (mem s) a0 (mb :: mbs) -> PAGE <= a0 ->
  a0 + total (mb :: mbs) < 2 ^ 64 ->
  (forall x, within x a0 (total (mb :: mbs) + 1) -> rd_outside a sz x) ->
  entry_size + sizeof_HeapNode <= sz -> (100 <= fuel)%nat ->
  exists s', InsertEntry fuel (a0 + off_path) (mb_size mb) (a0 + 512) (printed s (member_report a0 mb)) = Ok tt s' /\
    rd_ready s' (File (a + sizeof_HeapNode) (mb_path mb) (mb_size mb) (a0 + 512) :: fs)
      (a + entry_size) (sz - entry_size) /\
    archive (mem s') a0 (mb :: mbs) /\ same_on (rd_outside a sz) (mem s) (mem s') /\
    same_regs (printed s (member_report a0 mb)) s' /\ ps_pool s' = ps_pool s.
Proof using All.
  intros Hr Ha Ha0 Hend Hout Hsz Hf.
  pose proof Ha as ((Hne & Hl & Hs) & Hc & Hb & Har). cbn [total] in *.
  pose proof (total_nonneg _ _ _ Har) as Ht. pose proof (member_len_bounds mb ltac:(lia)) as [Hm1 Hm2].
  destruct (ps_stable s (printed s (member_report a0 mb)) (hi_pages _ _ (rr_heap _ _ _ _ Hr)))
    as [_ Hpool]; [done | done |].
  destruct (InsertEntry_spec fuel (a0 + off_path) (mb_path mb) (mb_size mb) (a0 + 512)
    (printed s (member_report a0 mb)) fs a sz) as (s' & Hrun & Hg & Hr' & Hm & Hp);
    [by eapply rd_ready_ext | done | done | foffs; lia | | done | lia | lia | lia |].
  { intros x Hx. apply Hout. foffs. unfold within in *. lia. }
  exists s'. split_and!; [done | done | | done | done | congruence].
  eapply archive_ext; [|exact Ha]. cbn [total]. eapply same_on_weaken; [exact Hm | exact Hout].
Qed.

Lemma register_files_run fuel mbs : forall a0 s fs a sz,
  rd_ready s fs a sz -> archive (mem s) a0 mbs -> PAGE <= a0 -> a0 + total mbs < 2 ^ 64 ->
  (forall x, within x a0 (total mbs + 1) -> rd_outside a sz x) ->
  entry_size * Z.of_nat (length mbs) + sizeof_HeapNode <= sz -> (length mbs + 100 <= fuel)%nat ->
  exists s', register_files fuel a0 s = Ok tt s' /\
    rd_ready s' (registered a0 a mbs fs) (a + entry_size * Z.of_nat (length mbs))
      (sz - entry_size * Z.of_nat (length mbs)) /\
    same_on (rd_outside a sz) (mem s) (mem s') /\ registered_regs a0 mbs s s' /\ ps_pool s' = ps_pool s.
Proof using All.
  revert fuel. induction mbs as [|mb mbs IH]; intros [|fuel] a0 s fs a sz Hr Ha Ha0 Hend Hout Hsz Hf;
    try (cbn in Hf; lia).
  - exists s. cbn [register_files archive registered length] in *.
    erewrite bind_Ok by (apply load_ok; lia). cbv beta. rewrite ld1_rd, Ha.
    rewrite Z.mul_0_r, (Z.add_0_r a), Z.sub_0_r. split_and!; try done. unfold registered_regs, printed. by destruct s.
  - assert (He : entry_size = 136) by reflexivity. cbn [length] in *. unfold sizeof_HeapNode in *.
    pose proof Ha as ((_ & _ & Hs) & _ & _ & Har). pose proof (total_nonneg _ _ _ Har).
    pose proof (member_len_bounds mb ltac:(lia)) as [Hm _].
    destruct (register_step (S fuel) a0 mb mbs s fs a sz) as (s1 & R1 & Hr1 & Ha1 & M1 & G1 & P1);
      [done | done | done | done | done | unfold sizeof_HeapNode; lia | lia |].
    cbn [total] in *. rewrite He in Hr1.
    destruct (IH fuel (a0 + member_len mb) s1 _ _ _ Hr1 (proj2 (proj2 (proj2 Ha1))))
      as (s' & R & Hr' & M' & G' & P'); [lia | lia | | unfold sizeof_HeapNode; lia | lia |].
    { intros x Hx. apply (rd_outside_sub a sz); [lia | lia |]. apply Hout. unfold within in *. lia. }
    exists s'. split; [by rewrite (register_head fuel a0 mb mbs s s1)|]. cbn [registered]. rewrite He in *.
    split_and!; [| | by eapply registered_regs_cons | congruence].
    2:{ etransitivity; [exact M1|]. eapply same_on_weaken; [exact M'|].
        intros x Hx. by apply (rd_outside_sub a sz); [lia | lia |]. }
    replace (a + 136 * Z.of_nat (S (length mbs))) with (a + 136 + 136 * Z.of_nat (length mbs)) by lia.
    by replace (sz - 136 * Z.of_nat (S (length mbs))) with (sz - 136 - 136 * Z.of_nat (length mbs)) by lia.
Qed.
End Register.

(** ** Correctness *)

Section Correct.
Context `{StaticsOk} `{PSO : PageSourceOk}.

Lemma RdFileGetFrame_run fuel path l fs s :
  ramdiskInitialized (driver_g s) = true -> listing (mem s) addr_filehead fs ->
  PAGE <= path -> cstr (mem s) path l -> (length l <= 99)%nat ->
  (length l + length fs < fuel)%nat ->
  RdFileGetFrame fuel path s = Ok (default 0 (fi_node <$> lookup_file l fs)) s.
Proof using All.
  intros Hi Hl Hp Hc Hlen Hf. pose proof filehead_range as [Hfh _]. unfold KERNEL_BASE in Hfh.
  unfold RdFileGetFrame. erewrite bind_Ok by reflexivity. cbv beta. rewrite Hi. cbn [negb].
  rewrite (proj2 (Z.eqb_neq path 0)) by lia. apply find_file_run; done || lia.
Qed.

Lemma lookup_file_at m l pa fs f :
  listing m pa fs -> lookup_file l fs = Some f -> file_at m f.
Proof using.
  revert pa. induction fs as [|g fs IH]; intros pa Hl Hf; [done|].
  destruct Hl as (_ & Hg & Hl). cbn [lookup_file] in Hf.
  case_decide; [by simplify_eq | by eapply IH].
Qed.

Lemma RdFileGetSz_run fuel path l fs s :
  ramdiskInitialized (driver_g s) = true -> listing (mem s) addr_filehead fs ->
  PAGE <= path -> cstr (mem s) path l -> (length l <= 99)%nat ->
  (length l + length fs < fuel)%nat ->
  RdFileGetSz fuel path s = Ok (default 0 (fi_size <$> lookup_file l fs)) s.
Proof using All.
  intros Hi Hl Hp Hc Hlen Hf. unfold RdFileGetSz. erewrite bind_Ok by reflexivity. cbv beta.
  rewrite Hi. cbn [negb]. erewrite bind_Ok by (by eapply RdFileGetFrame_run). cbv beta.
  destruct (lookup_file l fs) as [f|] eqn:Hlk; [|done]. cbn [fmap option_fmap option_map from_option id].
  destruct (lookup_file_at _ _ _ _ _ Hl Hlk) as (Hn & _ & _ & Hsz & _).
  rewrite (proj2 (Z.eqb_neq (fi_node f) 0)) by lia. rewrite load_ok by (foffs; lia). by rewrite Hsz.
Qed.

(** C20. Starting the RAM disk: for an archive of well-formed members (names
    of 1 to 99 characters, octal sizes) and a heap block with room for the
    nodes, [InitializeRamdisk] registers every member, and then [RdFileGetSz]
    of a path gives the size of the last member of that name, 0 when there is
    none. *)
Theorem InitializeRamdisk_registers fuel ramdiskOffset mbs s a sz :
  rd_ready s [] a sz -> archive (mem s) ramdiskOffset mbs -> PAGE <= ramdiskOffset ->
  ramdiskOffset + total mbs < 2 ^ 64 ->
  (forall x, within x ramdiskOffset (total mbs + 1) -> rd_outside a sz x) ->
  entry_size * Z.of_nat (length mbs) + sizeof_HeapNode <= sz -> (length mbs + 100 <= fuel)%nat ->
  exists s', InitializeRamdisk fuel ramdiskOffset s = Ok tt s' /\
    ramdiskInitialized (driver_g s') = true /\
    rd_ready s' (registered ramdiskOffset a mbs []) (a + entry_size * Z.of_nat (length mbs))
      (sz - entry_size * Z.of_nat (length mbs)) /\
    same_on (rd_outside a sz) (mem s) (mem s') /\
    forall path l, PAGE <= path -> cstr (mem s') path l -> (length l <= 99)%nat ->
      RdFileGetSz fuel path s' = Ok (default 0 (fst <$> locate l ramdiskOffset mbs)) s'.
Proof using All.
  intros Hr Ha Ha0 Hend Hout Hsz Hf.
  destruct (register_files_run fuel mbs ramdiskOffset s [] a sz) as (s1 & R & Hr1 & Hm1 & _); try done.
  eexists. split_and!; [unfold InitializeRamdisk; erewrite bind_Ok by exact R; reflexivity
    | reflexivity | by eapply rd_ready_ext | exact Hm1 |].
  intros path l Hp Hc Hl. erewrite RdFileGetSz_run; [| reflexivity | apply Hr1 | done | done | done |].
  - pose proof (lookup_registered l ramdiskOffset a mbs []) as Hlk. cbn [lookup_file] in Hlk.
    f_equal. f_equal. destruct (lookup_file l _) as [f|], (locate l _ mbs) as [r|]; simplify_eq/=; done.
  - rewrite registered_length. cbn [length]. lia.
Qed.

Lemma RdFileGetStream_run fuel path l buffer n fs s :
  ramdiskInitialized (driver_g s) = true -> listing (mem s) addr_filehead fs ->
  PAGE <= path -> cstr (mem s) path l -> (length l <= 99)%nat ->
  (length l + length fs < fuel)%nat -> PAGE <= buffer -> 0 <= n < 2 ^ 31 ->
  (forall f, lookup_file l fs = Some f -> PAGE <= fi_begin f /\ apart buffer n (fi_begin f) n) ->
  exists s', RdFileGetStream fuel path buffer n s = Ok tt s' /\
    same_on (fun x => ~ within x buffer n) (mem s) (mem s') /\ same_regs s s' /\
    match lookup_file l fs with
    | Some f => bytes_at (mem s') buffer (Z.to_nat n) = bytes_at (mem s) (fi_begin f) (Z.to_nat n)
    | None => s' = s
    end.
Proof using All.
  intros Hi Hl Hp Hc Hlen Hf Hb Hn Hd. unfold RdFileGetStream.
  erewrite bind_Ok by reflexivity. cbv beta. rewrite Hi. cbn [negb].
  erewrite bind_Ok by (by eapply RdFileGetFrame_run). cbv beta.
  destruct (lookup_file l fs) as [f|] eqn:Hlk; cbn [fmap option_fmap option_map from_option id];
    [|exists s; split_and!; [done | done | by apply same_regs_refl | done]].
  destruct (lookup_file_at _ _ _ _ _ Hl Hlk) as (Hfn & _ & _ & _ & Hbe).
  destruct (Hd f eq_refl) as [Hfb Hap]. rewrite (proj2 (Z.eqb_neq (fi_node f) 0)) by lia.
  assert (Hload : load 8 (fi_node f + off_FileBegin) s = Ok (fi_begin f) s)
    by (rewrite load_ok by (foffs; lia); by rewrite Hbe).
  erewrite bind_Ok by exact Hload. cbv beta. rewrite (proj2 (Z.eqb_neq (fi_begin f) 0)) by lia.
  erewrite bind_Ok by exact Hload. cbv beta. rewrite u64_small by word.
  rewrite memcpy_run by lia. eexists. split; [reflexivity|]. cbn [mem with_mem].
  split_and!; [| apply same_regs_with_mem |].
  - intros x Hx. apply rd_copy_ne. by rewrite Z2Nat.id by lia.
  - apply copy_bytes. by rewrite Z2Nat.id by lia.
Qed.

(** Reading a file: [RdFileGetStream] copies [n] bytes from the start of
    the file's data to the buffer when the path names a registered file, and
    changes nothing when it does not. *)
Theorem RdFileGetStream_copies fuel path l buffer n fs s :
  ramdiskInitialized (driver_g s) = true -> listing (mem s) addr_filehead fs ->
  PAGE <= path -> cstr (mem s) path l -> (length l <= 99)%nat ->
  (length l + length fs < fuel)%nat -> PAGE <= buffer -> 0 <= n < 2 ^ 31 ->
  (forall f, lookup_file l fs = Some f -> PAGE <= fi_begin f /\ apart buffer n (fi_begin f) n) ->
  exists s', RdFileGetStream fuel path buffer n s = Ok tt s' /\
    same_on (fun x => ~ within x buffer n) (mem s) (mem s') /\ same_regs s s' /\
    match lookup_file l fs with
    | Some f => bytes_at (mem s') buffer (Z.to_nat n) = bytes_at (mem s) (fi_begin f) (Z.to_nat n)
    | None => s' = s
    end.
Proof using All. apply RdFileGetStream_run. Qed.
End Correct.

(** [DecodeValue] inverts the octal notation of tar: on the 11 digits of
    [n] it returns [n] modulo 2^32, and terminates after 11 turns; a size of
    4 GiB or more wraps around. *)
Theorem DecodeValue_octal value n s :
  PAGE <= value -> 0 <= n < 8 ^ 11 -> bytes_at (mem s) value 11 = oct_digits n ->
  DecodeValue value s = Ok (u32 n) s.
Proof. apply DecodeValue_run. Qed.
