(* ===== verification/RamdiskWitness.v ===== *)
(** Concrete instances for the RAM disk: the demo machine after one allocation,
    with an archive of two members at 1.25 GiB, both named "a". *)
From S2P Require Import Prelude Memory Machine PageSource FrameAlloc Heap Demo CString Ramdisk.

Definition name_a : list Z := [97].

(** A header: the name, the size at offset 124, then [data]. *)
Definition header (size : Z) (data : list Z) : list Z :=
  name_a ++ repeat 0 123 ++ oct_digits size ++ repeat 0 377 ++ data ++
  repeat 0 (Z.to_nat (ALIGN_UP size 512 - size)).

Definition image : list Z := header 5 [104; 101; 108; 108; 111] ++ header 2 [111; 107] ++ [0].
Definition image_addr : Z := 0x50000000.
Definition image_members : list member := [Member name_a 5; Member name_a 2].

Lemma image_length : length image = 2049%nat.
Proof. by vm_compute. Qed.

Lemma image_archive m : archive (write_bytes m image_addr image) image_addr image_members.
Proof.
  eapply (archive_ext (write_bytes ∅ image_addr image)).
  - intros x Hx. assert (Ht : total image_members + 1 = 2049) by by vm_compute. rewrite Ht in Hx.
    destruct (lookup_lt_is_Some_2 image (Z.to_nat (x - image_addr))) as [c Hc].
    { rewrite image_length. unfold within in Hx. lia. }
    replace x with (image_addr + Z.of_nat (Z.to_nat (x - image_addr))) by (unfold within in Hx; lia).
    by rewrite !(rd_write_bytes _ _ _ _ c Hc).
  - cbn [archive image_members mb_path mb_size]. split_and!; try (by vm_compute).
    all: unfold member_ok; cbn; split_and!; done || lia.
Qed.

#[local] Opaque image write_bytes oct_digits.

(** The machine: an empty file list, the archive, and 4016 bytes of free heap. *)
Lemma ramdisk_demo :
  exists s, rd_ready s [] 0x101050 4016 /\ archive (mem s) image_addr image_members /\
    cstr (mem s) (image_addr + off_path) name_a.
Proof.
  destruct demo_heap1_alloc as (s & p & _ & _ & Hh & Hp & _ & _ & Hg).
  set (m := st (write_bytes (mem s) image_addr image) 8 (addr_filehead + off_fnext) 0).
  assert (Hm : same_on (fun x => ~ within x image_addr 2049 /\ ~ within x (addr_filehead + off_fnext) 8)
                 (mem s) m).
  { intros x [H1 H2]. unfold m. rewrite rd_st_ne by exact H2. apply rd_write_bytes_ne.
    by rewrite image_length. }
  assert (Hown : forall x, ps_owned (alloc_g s) x -> within x 0x100000 48).
  { intros x. rewrite Hg. apply demo_table. }
  set (s' := with_mem s m).
  assert (Hi' : ps_inv s' /\ ps_pool s' = ps_pool s).
  { apply ps_stable; [apply Hh | done |]. eapply same_on_weaken; [exact Hm|].
    intros x Hx%Hown. unfold within, image_addr in *. cbn. foffs. lia. }
  assert (Hh' : heap_inv s' [(0x101050, 4016)]).
  { apply (heap_inv_keep s); [exact Hh | apply Hi' | done | by rewrite (proj2 Hi') |].
    eapply same_on_weaken; [exact Hm|]. intros x [Hx | (b & ->%list_elem_of_singleton & Hx)];
      unfold within, image_addr in *; cbn in *; foffs; lia. }
  assert (Ha : archive m image_addr image_members).
  { eapply archive_ext; [|apply (image_archive (mem s))]. apply same_on_st.
    intros x Hx. assert (Ht : total image_members + 1 = 2049) by by vm_compute. rewrite Ht in Hx.
    unfold within, image_addr in *. cbn. foffs. lia. }
  exists s'. split_and!; [split | exact Ha | apply Ha].
  - exact Hh'.
  - cbn [listing]. change (mem s') with m. unfold m. by rewrite ld64_st_eq.
  - by intros ? ?%not_elem_of_nil.
  - intros x Hx Ho%Hown. unfold within in *. cbn in Hx. foffs. lia.
Qed.


Lemma image_apart x :
  within x image_addr (total image_members + 1) -> rd_outside 0x101050 4016 x.
Proof.
  intros Hx. assert (Ht : total image_members + 1 = 2049) by by vm_compute. rewrite Ht in Hx.
  split; [split|].
  - unfold within, image_addr in *. cbn. lia.
  - intros b ->%list_elem_of_singleton. unfold within, image_addr in *. cbn. lia.
  - unfold within, image_addr in *. cbn. foffs. lia.
Qed.

Lemma DecodeValue_octal_witness :
  exists s, DecodeValue (image_addr + off_size) s = Ok 5 s.
Proof.
  destruct ramdisk_demo as (s & _ & (_ & _ & Hb & _) & _). exists s.
  exact (DecodeValue_octal (image_addr + off_size) 5 s ltac:(vm_compute; congruence)
    ltac:(vm_compute; split; congruence) Hb).
Defined.

(** Two members of one name: the size found is that of the second. *)
Lemma InitializeRamdisk_registers_witness :
  exists s s', InitializeRamdisk 200 image_addr s = Ok tt s' /\
    ramdiskInitialized (driver_g s') = true /\
    listing (mem s') addr_filehead (registered image_addr 0x101050 image_members []) /\
    same_on (rd_outside 0x101050 4016) (mem s) (mem s') /\
    archive (mem s) image_addr image_members /\
    forall path, PAGE <= path -> cstr (mem s') path name_a -> RdFileGetSz 200 path s' = Ok 2 s'.
Proof.
  destruct ramdisk_demo as (s & Hr & Ha & _). exists s.
  destruct (InitializeRamdisk_registers 200 image_addr image_members s 0x101050 4016)
    as (s' & R & I & Hr' & Hm & Hf); [exact Hr | exact Ha | vm_compute; congruence | by vm_compute | | | |].
  - exact image_apart.
  - vm_compute; congruence.
  - cbn. lia.
  - exists s'. split; [exact R|]. split; [exact I|]. split; [apply Hr'|]. split; [exact Hm|].
    split; [exact Ha|]. intros path Hp Hc. exact (Hf path name_a Hp Hc ltac:(cbn; lia)).
Defined.

(** Reading two bytes of the later "a", from a machine whose list holds both. *)
Lemma RdFileGetStream_copies_witness :
  exists s s', RdFileGetStream 200 (image_addr + off_path) 0x60000000 2 s = Ok tt s' /\
    bytes_at (mem s') 0x60000000 2 = bytes_at (mem s) (image_addr + 1536) 2.
Proof.
  destruct ramdisk_demo as (s0 & Hr & Ha & _).
  destruct (register_files_run 200 image_members image_addr s0 [] 0x101050 4016)
    as (s1 & _ & Hr' & Hm & _); [exact Hr | exact Ha | vm_compute; congruence | by vm_compute | | | |].
  { exact image_apart. }
  { vm_compute; congruence. }
  { cbn. lia. }
  set (s := set_ramdiskInitialized true s1).
  assert (Ha' : archive (mem s) image_addr image_members).
  { eapply archive_ext; [|exact Ha]. eapply same_on_weaken; [exact Hm | exact image_apart]. }
  destruct (RdFileGetStream_copies 200 (image_addr + off_path) name_a 0x60000000 2
    (registered image_addr 0x101050 image_members []) s) as (s' & R & _ & _ & Hb).
  - reflexivity.
  - apply Hr'.
  - vm_compute; congruence.
  - apply Ha'.
  - cbn. lia.
  - cbn. lia.
  - lia.
  - lia.
  - intros f Hf. vm_compute in Hf. injection Hf as <-. cbn. unfold apart. lia.
  - exists s, s'. split; [exact R|]. exact Hb.
Defined.
