(* ===== verification/Console.v ===== *)
(** util/serial.c and util/print.c: the serial line, the terminal and what a
    call of [printf] sends to them.

    The rest of the development logs a call of [printf] as an event; this file
    models the call itself, down to the port accesses.  The terminal is a
    third-party library: a character written to it is an event. *)
From S2P Require Import Prelude Memory Machine CString.

(** ** Operations *)

Definition COM1 : Z := 0x3F8.

Definition is_transmit_empty : M Z := v ← inb (COM1 + 5); ret (Z.land v 0x20).

(** [while (is_transmit_empty() == 0);] *)
Fixpoint wait_serial (fuel : nat) : M unit :=
  match fuel with
  | O => out_of_fuel
  | S fuel =>
      e ← is_transmit_empty;
      if e =? 0 then wait_serial fuel else ret tt
  end.

(** The format string "%c" of the recursive call. *)
Class ConsoleStatics := { addr_fmt_c : Z }.

Section Ops.
Context `{StringStatics} `{ConsoleStatics}.

(** [poll]: turns of the polling loop.  [stray]: what [va_arg] finds when every
    argument has been taken. *)
Context (poll : nat) (stray : Z).

Definition write_serial (c : Z) : M unit := wait_serial poll;; outb COM1 c.

Definition putchar (c : Z) : M unit :=
  when (c =? 10) (write_serial 13);;
  write_serial c;;
  fb ← gets (fun s => fbSetup (driver_g s));
  when fb (emit (EvTerminal (u8 c))).

Fixpoint print (fuel : nat) (str : Z) : M unit :=
  match fuel with
  | O => out_of_fuel
  | S fuel =>
      c ← load 1 str;
      if c =? 0 then ret tt
      else c ← load 1 str; putchar c;; print fuel (str + 1)
  end.

(** [lprint] with [k] characters to go. *)
Fixpoint lprint_loop (k : nat) (str i : Z) : M unit :=
  match k with
  | O => ret tt
  | S k =>
      c ← load 1 (str + i);
      if c =? 0 then ret tt
      else c ← load 1 (str + i); putchar c;; lprint_loop k str (i + 1)
  end.
Definition lprint_out (str n : Z) : M unit := lprint_loop (Z.to_nat n) str 0.

Definition va_arg (args : list Z) : Z * list Z :=
  match args with [] => (stray, []) | a :: args => (a, args) end.

(** One conversion, [d] the character after the percent sign; the arguments
    that are left. *)
Definition directive (fuel : nat) (d : Z) (args : list Z) : M (list Z) :=
  if d =? 100 then
    let '(v, args) := va_arg args in p ← itoa (s32 v); print fuel p;; ret args
  else if d =? 115 then
    let '(v, args) := va_arg args in print fuel v;; ret args
  else if d =? 120 then
    let '(v, args) := va_arg args in p ← hexToString (u64 v); print fuel p;; ret args
  else if d =? 99 then
    let '(v, args) := va_arg args in putchar (u8 v);; ret args
  else ret args.

Fixpoint printf_out (fuel : nat) (format : Z) (args : list Z) : M unit :=
  match fuel with
  | O => out_of_fuel
  | S fuel =>
      c ← load 1 format;
      if c =? 0 then ret tt
      else if c =? 37 then
        d ← load 1 (format + 1);
        args ← directive fuel d args;
        printf_out fuel (format + 2) args
      else
        c ← load 1 format;
        printf_out fuel addr_fmt_c [s8 c];;
        printf_out fuel (format + 1) args
  end.
End Ops.

(** ** What was sent *)

(** The characters sent, oldest first. *)
Definition serial_char (e : event) : option Z :=
  match e with EvOut p v => if p =? COM1 then Some v else None | _ => None end.
Definition terminal_char (e : event) : option Z :=
  match e with EvTerminal c => Some c | _ => None end.
Definition serial (t : list event) : list Z := rev (omap serial_char t).
Definition terminal (t : list event) : list Z := rev (omap terminal_char t).

(** A line feed goes over the line as carriage return and line feed. *)
Definition crlf (text : list Z) : list Z :=
  flat_map (fun c => if c =? 10 then [13; 10] else [c]) text.

(** [s'] is [s] after [text] was sent; memory may have changed in [W]. *)
Record said (W : Z -> Prop) (text : list Z) (s s' : machine) : Prop := {
  sd_serial : serial (trace s') = serial (trace s) ++ crlf text;
  sd_terminal : terminal (trace s') =
    terminal (trace s) ++ (if fbSetup (driver_g s) then text else []);
  sd_mem : same_on (fun x => ~ W x) (mem s) (mem s');
  sd_regs : s' = with_trace (with_mem s (mem s')) (trace s');
}.

(** The line always becomes free within [poll] reads of its status. *)
Definition serial_ready (poll : nat) (s : machine) : Prop :=
  forall t, exists n, (n < poll)%nat /\
    Z.testbit (ports s (COM1 + 5) (repeat (EvIn (COM1 + 5)) n ++ t)) 5 = true.

Definition nothing (_ : Z) : Prop := False.

Lemma said_nil W s : said W [] s s.
Proof. split; [by rewrite app_nil_r | by destruct (fbSetup _); rewrite app_nil_r | done | by destruct s]. Qed.

Lemma said_driver W text s s' : said W text s s' -> driver_g s' = driver_g s.
Proof. intros [_ _ _ ->]. done. Qed.

Lemma said_ports W text s s' : said W text s s' -> ports s' = ports s.
Proof. intros [_ _ _ ->]. done. Qed.

Lemma said_ready W text s s' poll : said W text s s' -> serial_ready poll s -> serial_ready poll s'.
Proof. intros Hs Hr t. rewrite (said_ports _ _ _ _ Hs). apply Hr. Qed.

Lemma crlf_app l1 l2 : crlf (l1 ++ l2) = crlf l1 ++ crlf l2.
Proof. apply flat_map_app. Qed.

Lemma said_app W l1 l2 s1 s2 s3 : said W l1 s1 s2 -> said W l2 s2 s3 -> said W (l1 ++ l2) s1 s3.
Proof.
  intros H12 H23. pose proof (said_driver _ _ _ _ H12) as Hd.
  destruct H12 as [A1 A2 A3 A4], H23 as [B1 B2 B3 B4]. split.
  - by rewrite B1, A1, crlf_app, app_assoc.
  - rewrite B2, A2, Hd, <- app_assoc. by destruct (fbSetup _).
  - by etransitivity.
  - rewrite B4, A4. done.
Qed.

Lemma said_weaken (W W' : Z -> Prop) l s s' :
  (forall x, W x -> W' x) -> said W l s s' -> said W' l s s'.
Proof.
  intros HW [A1 A2 A3 A4]. split; [done | done | | done].
  eapply same_on_weaken; [exact A3|]. intros x Hx Hw. by apply Hx, HW.
Qed.

(** A run that only changes memory says nothing. *)
Lemma said_mem (W : Z -> Prop) s s' :
  same_regs s s' -> same_on (fun x => ~ W x) (mem s) (mem s') -> said W [] s s'.
Proof.
  intros Hr Hm. rewrite Hr. split; cbn.
  - by rewrite app_nil_r.
  - by destruct (fbSetup _); rewrite app_nil_r.
  - done.
  - done.
Qed.

(** ** The routines *)

Section Specs.
Context `{StringStatics} `{ConsoleStatics}.
Context (poll : nat) (stray : Z).

Lemma omap_reads n t : omap serial_char (repeat (EvIn (COM1 + 5)) n ++ t) = omap serial_char t.
Proof using. by induction n. Qed.
Lemma omap_reads_terminal n t :
  omap terminal_char (repeat (EvIn (COM1 + 5)) n ++ t) = omap terminal_char t.
Proof using. by induction n. Qed.

Lemma repeat_snoc {A} (x : A) n l : repeat x n ++ x :: l = x :: repeat x n ++ l.
Proof using. induction n as [|n IH]; [done|]. cbn. by rewrite IH. Qed.

Lemma land_32 v : 0 <= v -> (Z.land v 0x20 =? 0) = negb (Z.testbit v 5).
Proof using.
  intros Hv. destruct (Z.testbit v 5) eqn:Hb; cbn.
  - apply Z.eqb_neq. intros Hz. assert (Hf : Z.testbit (Z.land v 32) 5 = false) by (by rewrite Hz).
    rewrite Z.land_spec, Hb in Hf. done.
  - apply Z.eqb_eq. apply Z.bits_inj'. intros i Hi. rewrite Z.land_spec, Z.bits_0.
    change 32 with (2 ^ 5). destruct (decide (i = 5)) as [->|Hn]; [by rewrite Hb|].
    rewrite Z.pow2_bits_false by lia. by rewrite andb_false_r.
Qed.

Lemma testbit_u8 v i : 0 <= i < 8 -> Z.testbit (u8 v) i = Z.testbit v i.
Proof using. intros Hi. unfold u8. by rewrite Z.mod_pow2_bits_low by lia. Qed.

(** The polling loop reads the status until the line is free. *)
Lemma wait_serial_run n fuel s :
  (n < fuel)%nat ->
  Z.testbit (ports s (COM1 + 5) (repeat (EvIn (COM1 + 5)) n ++ trace s)) 5 = true ->
  exists k, wait_serial fuel s = Ok tt (with_trace s (repeat (EvIn (COM1 + 5)) k ++ trace s)).
Proof using.
  revert n s. induction fuel as [|fuel IH]; intros n s Hn Hb; [lia|].
  cbn [wait_serial]. erewrite bind_Ok by reflexivity. cbv beta.
  rewrite land_32, testbit_u8 by (try apply u8_range; lia).
  destruct (Z.testbit (ports s (COM1 + 5) (trace s)) 5) eqn:Hnow; cbn [negb].
  - by exists 1%nat.
  - destruct n as [|n]; [cbn [repeat app] in Hb; congruence|].
    destruct (IH n (with_trace s (EvIn (COM1 + 5) :: trace s))) as (k & Hk); [lia | |].
    + cbn [trace ports with_trace]. by rewrite repeat_snoc.
    + exists (S k). etransitivity; [exact Hk|]. cbn [trace with_trace].
      by rewrite repeat_snoc.
Qed.

Lemma write_serial_run c s :
  serial_ready poll s -> 0 <= c < 256 ->
  exists t, write_serial poll c s = Ok tt (with_trace s t) /\
    serial t = serial (trace s) ++ [c] /\ terminal t = terminal (trace s).
Proof using.
  intros Hr Hc. destruct (Hr (trace s)) as (n & Hn & Hb).
  destruct (wait_serial_run n poll s Hn Hb) as (k & Hk).
  eexists. split; [|split].
  - unfold write_serial. erewrite bind_Ok by exact Hk. reflexivity.
  - unfold serial. cbn [omap list_omap serial_char trace with_trace].
    rewrite Z.eqb_refl. cbn [rev]. rewrite (omap_reads k). by rewrite u8_small.
  - unfold terminal. cbn [omap list_omap terminal_char trace with_trace]. by rewrite (omap_reads_terminal k).
Qed.

Lemma putchar_said c s :
  serial_ready poll s -> 0 <= c < 256 ->
  exists s', putchar poll c s = Ok tt s' /\ said nothing [c] s s'.
Proof using.
  intros Hr Hc. unfold putchar.
  assert (Hcr : exists t, when (c =? 10) (write_serial poll 13) s = Ok tt (with_trace s t) /\
    serial t = serial (trace s) ++ (if c =? 10 then [13] else []) /\ terminal t = terminal (trace s)).
  { destruct (c =? 10); cbn [when]; [by apply write_serial_run|].
    exists (trace s). rewrite app_nil_r. by destruct s. }
  destruct Hcr as (t1 & R1 & S1 & T1).
  erewrite bind_Ok by exact R1. cbv beta.
  destruct (write_serial_run c (with_trace s t1)) as (t2 & R2 & S2 & T2); [exact Hr | done |].
  erewrite bind_Ok by exact R2. cbv beta. erewrite bind_Ok by reflexivity. cbv beta.
  cbn [driver_g with_trace trace] in *.
  assert (Hser : serial t2 = serial (trace s) ++ crlf [c]).
  { rewrite S2, S1. unfold crlf. cbn [flat_map]. rewrite app_nil_r.
    destruct (Z.eqb_spec c 10); subst; by rewrite <- app_assoc. }
  destruct (fbSetup (driver_g s)) eqn:Hfb; cbn [when].
  - eexists. split; [reflexivity|]. split; cbn [trace with_trace mem].
    + exact Hser.
    + rewrite Hfb. unfold terminal. cbn [omap list_omap terminal_char rev].
      fold (terminal t2). rewrite T2, T1, u8_small by done. done.
    + done.
    + done.
  - eexists. split; [reflexivity|]. split; cbn [trace with_trace mem]; try done.
    by rewrite Hfb, app_nil_r, T2, T1.
Qed.

Lemma print_said fuel str l s :
  serial_ready poll s -> PAGE <= str -> cstr (mem s) str l -> (length l < fuel)%nat ->
  exists s', print poll fuel str s = Ok tt s' /\ said nothing l s s'.
Proof using.
  revert fuel str s. induction l as [|c l IH]; intros [|fuel] str s Hr Hp Hc Hf;
    try (cbn in Hf; lia); cbn [print cstr length] in *;
    erewrite bind_Ok by (apply load_ok; lia); cbv beta; rewrite ld1_rd.
  - rewrite Hc. exists s. split; [done | apply said_nil].
  - destruct Hc as (Hc & Hch & Hl). rewrite Hc. unfold is_char in Hch.
    rewrite (proj2 (Z.eqb_neq c 0)) by lia.
    erewrite bind_Ok by (apply load_ok; lia). cbv beta. rewrite ld1_rd, Hc.
    destruct (putchar_said c s Hr ltac:(lia)) as (s1 & R1 & D1).
    erewrite bind_Ok by exact R1. cbv beta.
    destruct (IH fuel (str + 1) s1) as (s2 & R2 & D2).
    + by eapply said_ready.
    + lia.
    + eapply cstr_ext; [|exact Hl]. eapply same_on_weaken; [apply D1|]. intros x _ Hx. exact Hx.
    + lia.
    + exists s2. split; [exact R2|]. by eapply (said_app nothing [c] l).
Qed.

(** The first [k] characters of the bytes at [str], up to a zero. *)
Fixpoint text_upto (m : gmap Z Z) (k : nat) (str : Z) : list Z :=
  match k with
  | O => []
  | S k => if rd m str =? 0 then [] else rd m str :: text_upto m k (str + 1)
  end.

Lemma text_upto_ext m m' k str :
  (forall x, rd m' x = rd m x) -> text_upto m' k str = text_upto m k str.
Proof using. intros Hm. revert str. induction k as [|k IH]; intros str; [done|]. cbn. by rewrite !Hm, IH. Qed.

Lemma lprint_said str n s :
  serial_ready poll s -> PAGE <= str ->
  exists s', lprint_out poll str n s = Ok tt s' /\ said nothing (text_upto (mem s) (Z.to_nat n) str) s s'.
Proof using.
  intros Hr Hp. unfold lprint_out. generalize (Z.to_nat n) as k. intros k.
  assert (Hgen : forall k i s, serial_ready poll s -> 0 <= i ->
    exists s', lprint_loop poll k str i s = Ok tt s' /\ said nothing (text_upto (mem s) k (str + i)) s s').
  2:{ destruct (Hgen k 0 s Hr ltac:(lia)) as (s' & R & D). exists s'. by rewrite Z.add_0_r in D. }
  clear s n Hr k. induction k as [|k IH]; intros i s Hr Hi; cbn [lprint_loop text_upto].
  - exists s. split; [done | apply said_nil].
  - erewrite bind_Ok by (apply load_ok; lia). cbv beta. rewrite ld1_rd.
    destruct (rd (mem s) (str + i) =? 0) eqn:Hz; [exists s; split; [done | apply said_nil]|].
    erewrite bind_Ok by (apply load_ok; lia). cbv beta. rewrite ld1_rd.
    destruct (putchar_said (rd (mem s) (str + i)) s Hr ltac:(apply rd_range)) as (s1 & R1 & D1).
    erewrite bind_Ok by exact R1. cbv beta.
    destruct (IH (i + 1) s1) as (s2 & R2 & D2); [by eapply said_ready | lia |].
    exists s2. split; [exact R2|]. rewrite Z.add_assoc in D2.
    rewrite (text_upto_ext (mem s) (mem s1)) in D2 by (intros x; apply D1; intros Hx; exact Hx).
    by eapply (said_app nothing [_]).
Qed.
End Specs.

(** ** Formats *)

(** What a format string asks for, and the argument it takes. *)
Inductive item :=
  | Lit (c : Z)                  (* a character other than the percent sign *)
  | Dec (v : Z)                  (* %d of a number that is not negative *)
  | Str (p : Z) (l : list Z)     (* %s of the string [l] at [p] *)
  | Hex (v : Z)                  (* %x *)
  | Chr (c : Z).                 (* %c *)

Definition item_fmt (i : item) : list Z :=
  match i with
  | Lit c => [c] | Dec _ => [37; 100] | Str _ _ => [37; 115] | Hex _ => [37; 120] | Chr _ => [37; 99]
  end.
Definition item_args (i : item) : list Z :=
  match i with Lit _ => [] | Dec v => [v] | Str p _ => [p] | Hex v => [v] | Chr c => [c] end.
Definition format_of (its : list item) : list Z := its ≫= item_fmt.
Definition args_of (its : list item) : list Z := its ≫= item_args.

(** The text an item stands for. *)
Definition item_text (i : item) (l : list Z) : Prop :=
  match i with
  | Lit c => l = [c]
  | Dec v => decimal v l
  | Str _ t => l = t
  | Hex v => hexadecimal v l
  | Chr c => l = [c]
  end.

Inductive text_of : list item -> list Z -> Prop :=
  | text_nil : text_of [] []
  | text_cons i its l ls : item_text i l -> text_of its ls -> text_of (i :: its) (l ++ ls).

Section Formats.
Context `{StringStatics} `{ConsoleStatics}.
Context (poll : nat) (stray : Z).

(** The static buffers of the conversions. *)
Definition buffers (x : Z) : Prop := within x addr_ret 11 \/ within x addr_hexString 128.

Definition item_ok (fuel : nat) (m : gmap Z Z) (i : item) : Prop :=
  match i with
  | Lit c => is_char c /\ c <> 37
  | Dec v => 0 <= v < 2 ^ 31
  | Str p l => PAGE <= p /\ cstr m p l /\ (length l < fuel)%nat /\
      forall x, within x p (Z.of_nat (length l) + 1) -> ~ buffers x
  | Hex v => 0 <= v < 2 ^ 64
  | Chr c => 0 <= c < 256
  end.

Record console_ok (s : machine) : Prop := {
  co_ready : serial_ready poll s;
  co_ret : PAGE <= addr_ret;
  co_hex : PAGE <= addr_hexString;
  co_fmt : PAGE <= addr_fmt_c /\ cstr (mem s) addr_fmt_c [37; 99] /\
    forall x, within x addr_fmt_c 3 -> ~ buffers x;
}.

Lemma console_said l s s' : console_ok s -> said buffers l s s' -> console_ok s'.
Proof using.
  intros [A1 A2 A3 (A4 & A5 & A6)] D. split; [by eapply said_ready | done | done |].
  split_and!; [done | | done]. eapply cstr_ext; [|exact A5].
  eapply same_on_weaken; [apply D|]. exact A6.
Qed.

Lemma item_said fuel l s s' i : said buffers l s s' -> item_ok fuel (mem s) i -> item_ok fuel (mem s') i.
Proof using.
  intros D. destruct i; cbn; try done. intros (A1 & A2 & A3 & A4). split_and!; try done.
  eapply cstr_ext; [|exact A2]. eapply same_on_weaken; [apply D | exact A4].
Qed.

(** The text of a conversion is printed from its buffer. *)
Lemma print_converted fuel p l s s1 (args : list Z) (i : item) :
  console_ok s -> same_regs s s1 -> PAGE <= p -> cstr (mem s1) p l -> (length l < fuel)%nat ->
  item_text i l -> same_on (fun x => ~ buffers x) (mem s) (mem s1) ->
  exists s' l, (print poll fuel p;; ret args) s1 = Ok args s' /\
    item_text i l /\ said buffers l s s'.
Proof using.
  intros Hok Hg Hp Hc Hf Ht Hm.
  assert (D1 : said buffers [] s s1) by (by apply said_mem).
  destruct (print_said poll fuel p l s1) as (s2 & R2 & D2); [| done | done | done |].
  { eapply said_ready; [exact D1 | apply Hok]. }
  exists s2, l. split; [erewrite bind_Ok by exact R2; done|]. split; [done|].
  apply (said_app buffers [] l s s1 s2); [done|]. eapply said_weaken; [|exact D2]. by intros x.
Qed.

(** A conversion takes its argument and sends its text. *)
Lemma directive_said fuel d i args s :
  console_ok s -> item_ok fuel (mem s) i -> item_fmt i = [37; d] -> (129 <= fuel)%nat ->
  exists s' l, directive poll stray fuel d (item_args i ++ args) s = Ok args s' /\
    item_text i l /\ said buffers l s s'.
Proof using.
  intros Hok Hi Hf Hfuel. destruct i as [c|v|p l|v|c]; cbn [item_fmt] in Hf; [done|..]; injection Hf as <-;
    cbn [item_args app]; unfold directive; cbn [Z.eqb Pos.eqb va_arg].
  - destruct (itoa_run v s (co_ret _ Hok) Hi) as (s1 & l & R1 & G1 & C1 & T1 & M1).
    cbn in Hi. rewrite s32_small by lia. erewrite bind_Ok by exact R1. cbv beta.
    apply (print_converted fuel addr_ret l s s1); [done | done | apply Hok | done | | done |].
    + destruct T1 as (_ & _ & _ & T1). lia.
    + eapply same_on_weaken; [exact M1|]. intros x Hx Hw. apply Hx. by left.
  - destruct Hi as (H1 & H2 & H3 & H4).
    apply (print_converted fuel p l s s); [done | apply same_regs_refl | done.. |]. done.
  - destruct (hexToString_run v s (co_hex _ Hok) Hi) as (p & s1 & l & R1 & G1 & P1 & C1 & T1 & M1).
    cbn in Hi. rewrite u64_small by lia. erewrite bind_Ok by exact R1. cbv beta.
    pose proof (co_hex _ Hok). apply (print_converted fuel p l s s1); [done | done | | done | | done |].
    + unfold within in P1. lia.
    + destruct T1 as (_ & _ & T1). lia.
    + eapply same_on_weaken; [exact M1|]. intros x Hx Hw. apply Hx. by right.
  - cbn in Hi. destruct (putchar_said poll c s (co_ready _ Hok)) as (s1 & R1 & D1); [done|].
    rewrite u8_small by done. erewrite bind_Ok by exact R1. exists s1, [c].
    split; [done|]. split; [done|]. eapply said_weaken; [|exact D1]. by intros x.
Qed.

Lemma item_ok_mono n fuel m i : (n <= fuel)%nat -> item_ok n m i -> item_ok fuel m i.
Proof using.
  intros Hn. destruct i; cbn; try done. intros (A1 & A2 & A3 & A4). split_and!; try done. lia.
Qed.

(** The recursive call for an ordinary character. *)
Lemma literal_said fuel c s :
  console_ok s -> is_char c -> (129 <= fuel)%nat ->
  exists s', printf_out poll stray (S (S fuel)) addr_fmt_c [s8 c] s = Ok tt s' /\
    said buffers [c] s s'.
Proof using.
  intros Hok Hc Hf. pose proof (co_fmt _ Hok) as (P & (F1 & _ & F2 & _ & F3) & _).
  unfold is_char in Hc. cbn [printf_out].
  erewrite bind_Ok by (apply load_ok; lia). cbv beta. rewrite ld1_rd, F1. cbn [Z.eqb Pos.eqb].
  erewrite bind_Ok by (apply load_ok; lia). cbv beta. rewrite ld1_rd, F2.
  assert (Hd : exists s1, directive poll stray (S fuel) 99 [s8 c] s = Ok [] s1 /\ said nothing [c] s s1).
  { destruct (putchar_said poll c s (co_ready _ Hok)) as (s1 & R1 & D1); [lia|]. exists s1.
    unfold directive. cbn [Z.eqb Pos.eqb va_arg]. replace (u8 (s8 c)) with c by word.
    by erewrite bind_Ok by exact R1. }
  destruct Hd as (s1 & R1 & D1). erewrite bind_Ok by exact R1. cbv beta.
  erewrite bind_Ok by (apply load_ok; lia). cbv beta. rewrite ld1_rd.
  assert (Hz : rd (mem s1) (addr_fmt_c + 2) = 0).
  { replace (addr_fmt_c + 2) with (addr_fmt_c + 1 + 1) by lia. rewrite <- F3.
    apply D1. by intros x. }
  rewrite Hz. cbn [Z.eqb]. exists s1. split; [done|]. eapply said_weaken; [|exact D1]. by intros x.
Qed.

Lemma printf_said n its : forall fuel format s,
  console_ok s -> PAGE <= format -> cstr (mem s) format (format_of its) ->
  (forall x, within x format (Z.of_nat (length (format_of its)) + 1) -> ~ buffers x) ->
  Forall (item_ok n (mem s)) its -> (131 <= n)%nat -> (length its + n < fuel)%nat ->
  exists s' text, printf_out poll stray fuel format (args_of its) s = Ok tt s' /\
    text_of its text /\ said buffers text s s'.
Proof using.
  induction its as [|i its IH]; intros [|fuel] format s Hok Hp Hc Hap Hits Hn Hf; try (cbn in Hf; lia);
    cbn [printf_out]; cbn [length] in Hf.
  { erewrite bind_Ok by (apply load_ok; lia). cbv beta. rewrite ld1_rd. cbn in Hc. rewrite Hc.
    exists s, []. split; [done|]. split; [constructor | apply said_nil]. }
  apply Forall_cons in Hits as [Hi Hits].
  change (format_of (i :: its)) with (item_fmt i ++ format_of its) in *.
  change (args_of (i :: its)) with (item_args i ++ args_of its).
  rewrite length_app in Hap.
  (* what is left to do after the item *)
  assert (Hrest : forall s1 l, said buffers l s s1 -> item_text i l ->
    exists s' text, printf_out poll stray fuel (format + Z.of_nat (length (item_fmt i))) (args_of its) s1 = Ok tt s' /\
      text_of (i :: its) text /\ said buffers text s s').
  { intros s1 l D1 Ht. apply cstr_app in Hc as (_ & _ & Hc).
    destruct (IH fuel (format + Z.of_nat (length (item_fmt i))) s1) as (s' & text & R & T & D).
    - by eapply console_said.
    - lia.
    - eapply cstr_ext; [|exact Hc]. eapply same_on_weaken; [apply D1|].
      intros x Hx. apply Hap. unfold within in *. lia.
    - intros x Hx. apply Hap. unfold within in *. lia.
    - eapply Forall_impl; [exact Hits|]. intros j. by apply item_said with (l := l) (s := s).
    - done.
    - lia.
    - exists s', (l ++ text). split; [done|]. split; [by constructor | by eapply said_app]. }
  erewrite bind_Ok by (apply load_ok; lia). cbv beta. rewrite ld1_rd.
  assert (Hk : (exists d, item_fmt i = [37; d]) \/ exists c, i = Lit c) by (destruct i; eauto).
  destruct Hk as [(d & Hd)|(c & ->)].
  - rewrite Hd in Hc. cbn [app cstr] in Hc. destruct Hc as (-> & _ & Hc2 & _).
    cbn [Z.eqb Pos.eqb]. erewrite bind_Ok by (apply load_ok; lia). cbv beta. rewrite ld1_rd, Hc2.
    destruct (directive_said fuel d i (args_of its) s) as (s1 & l & R1 & T1 & D1);
      [done | eapply item_ok_mono; [|exact Hi]; lia | done | lia |].
    erewrite bind_Ok by exact R1. cbv beta.
    destruct (Hrest s1 l D1 T1) as (s' & text & R & T & D). rewrite Hd in R. by exists s', text.
  - cbn [item_fmt item_args app cstr length] in *. destruct Hi as [Hi Hne].
    destruct Hc as (Hc0 & _ & _). rewrite Hc0.
    rewrite (proj2 (Z.eqb_neq c 0)), (proj2 (Z.eqb_neq c 37)) by (unfold is_char in Hi; lia).
    erewrite bind_Ok by (apply load_ok; lia). cbv beta. rewrite ld1_rd, Hc0.
    destruct fuel as [|[|fuel]]; [lia | lia |].
    destruct (literal_said fuel c s Hok Hi ltac:(lia)) as (s1 & R1 & D1).
    erewrite bind_Ok by exact R1. cbv beta. by apply (Hrest s1 [c]).
Qed.

(** C22. Formatted output: for a format of ordinary characters and the
    conversions %d (of numbers that are not negative), %s (of texts outside the static
    buffers), %x and %c with an argument each, and a serial line that becomes free
    again, [printf] terminates, sends exactly the formatted text over
    the serial line - each line feed preceded by a carriage return - and, when it
    is set up, to the terminal, and changes no memory but the conversions'
    static buffers. *)
Theorem printf_prints n its fuel format s :
  console_ok s -> PAGE <= format -> cstr (mem s) format (format_of its) ->
  (forall x, within x format (Z.of_nat (length (format_of its)) + 1) -> ~ buffers x) ->
  Forall (item_ok n (mem s)) its -> (131 <= n)%nat -> (length its + n < fuel)%nat ->
  exists s' text, printf_out poll stray fuel format (args_of its) s = Ok tt s' /\
    text_of its text /\
    serial (trace s') = serial (trace s) ++ crlf text /\
    terminal (trace s') = terminal (trace s) ++ (if fbSetup (driver_g s) then text else []) /\
    same_on (fun x => ~ buffers x) (mem s) (mem s').
Proof using.
  intros Hok Hp Hc Hap Hits Hn Hf.
  destruct (printf_said n its fuel format s) as (s' & text & R & T & [A1 A2 A3 _]); try done.
  by exists s', text.
Qed.
End Formats.

(** A machine whose serial line is always free, printing "n = %d" and a line
    feed. *)
Definition console_strings : StringStatics := {| addr_ret := 0x2000; addr_hexString := 0x2100 |}.
Definition demo_console : ConsoleStatics := {| addr_fmt_c := 0x3000 |}.
Definition demo_items : list item := [Lit 110; Lit 61; Dec 42; Lit 10].
Definition console_machine : machine :=
  Machine (write_bytes (write_bytes ∅ 0x3000 [37; 99; 0]) 0x3100 (format_of demo_items ++ [0])) []
    (fun _ _ => 0x20) (fun _ _ => 0) true 0 (AllocGlobals 0 0)
    (PagingGlobals 0 (PagingInfo [] 0 0 0 0 0 0)) (SchedGlobals 1 false 0)
    (DriverGlobals false 0 0 0 0 false 0 true).

Lemma printf_prints_witness :
  exists s' text, @printf_out console_strings demo_console 1 0 200 0x3100 [42] console_machine = Ok tt s' /\
    text_of demo_items text /\ serial (trace s') = crlf text /\ terminal (trace s') = text.
Proof.
  destruct (@printf_prints console_strings demo_console 1 0 131 demo_items 200 0x3100 console_machine)
    as (s' & text & R & T & S & D & _).
  - split.
    + intros t. exists 0%nat. split; [lia | reflexivity].
    + vm_compute; congruence.
    + vm_compute; congruence.
    + split; [vm_compute; congruence|]. split.
      * vm_compute. repeat split; congruence.
      * intros x Hx [Hb|Hb]; unfold within in *; cbn in *; lia.
  - lia.
  - vm_compute. repeat split; congruence.
  - intros x Hx [Hb|Hb]; unfold within in *; cbn in *; lia.
  - repeat constructor; cbn; unfold is_char; try lia; congruence.
  - lia.
  - cbn. lia.
  - exists s', text. split; [exact R|]. split; [exact T|]. split; [exact S | exact D].
Defined.
