(* ===== verification/Acpi.v ===== *)
(** drivers/acpi/acpi.c: the walk over the ACPI tables that finds the tables
    the PCI and interrupt drivers read. *)
From S2P Require Import Prelude Memory Machine CString.

(** ** Layouts (drivers/acpi/acpi.h) *)

(** struct RSDPDescriptor *)
Definition off_OEMID : Z := 9.
Definition off_Revision : Z := 15.
Definition off_RsdtAddress : Z := 16.
(** struct ACPISystemTableHeader *)
Definition off_Length : Z := 4.
Definition sizeof_ACPISystemTableHeader : Z := 36.

Definition sig_MCFG : list Z := [77; 67; 70; 71].
Definition sig_APIC : list Z := [65; 80; 73; 67].
Definition sig_RSDT : list Z := [82; 83; 68; 84].

(** ** Operations *)

(** Entry [i] of the root table. *)
Definition acpi_entry (first i : Z) : M unit :=
  printf "    - " [];;
  let entry := u64 (first + i * 4) in
  hdr ← load 4 entry;
  r ← strncmp_lit 5 0 hdr sig_MCFG 4;
  (if r =? 0 then modify (set_mcfgPtr hdr)
   else
     r ← strncmp_lit 5 0 hdr sig_APIC 4;
     when (r =? 0) (modify (set_madtPtr hdr)));;
  lprint hdr 4;;
  printf "\n" [].

(** The loop with [k] entries to go. *)
Fixpoint acpi_entries (k : nat) (first i : Z) : M unit :=
  match k with
  | O => ret tt
  | S k => acpi_entry first i;; acpi_entries k first (i + 1)
  end.

(** [root] is a [uint32_t], and so is [root + 36]; the division is done on
    [size_t]. *)
Definition EnumerateACPITables (root : Z) : M unit :=
  len ← load 4 (root + off_Length);
  let entries := s32 (u64 (len - sizeof_ACPISystemTableHeader) / 4) in
  let first := u32 (root + 36) in
  printf "ACPI system table entries: \n" [];;
  acpi_entries (Z.to_nat entries) first 0.

Definition InitializeACPI (rsdp : Z) : M unit :=
  when (rsdp =? 0) (panic "RSD PTR == 0. Unable to initialize ACPI.");;
  printf "ACPI Driver: Initializing ACPI.\n" [];;
  printf "    - OEM: " [];;
  lprint (rsdp + off_OEMID) 6;;
  printf "\n" [];;
  rev ← load 1 (rsdp + off_Revision);
  printf "    - ACPI Revision: %s\n\n"
    [AText (if negb (rev =? 0) then "> 1.0 (versions 2.0 through 6.1)" else "1.0")];;
  rsdtPtr ← load 4 (rsdp + off_RsdtAddress);
  when (rsdtPtr =? 0)
    (panic "System unsupported -- No ACPI support. Please make sure your hardware or virtualizer has proper support for ACPI.");;
  r ← strncmp_lit 5 0 rsdtPtr sig_RSDT 4;
  when (negb (r =? 0)) (panic "RSDT signature failed.");;
  EnumerateACPITables rsdtPtr.

Definition GetMCFG : M Z := gets (fun s => mcfgPtr (driver_g s)).
Definition GetMADT : M Z := gets (fun s => madtPtr (driver_g s)).

(** ** The tables in memory *)

Definition signature (m : gmap Z Z) (p : Z) : list Z := bytes_at m p 4.

(** The table with the signature, the last one when there are several. *)
Definition last_with (m : gmap Z Z) (sig : list Z) (hs : list Z) (old : Z) : Z :=
  foldl (fun r h => if decide (signature m h = sig) then h else r) old hs.

(** A root table at [root] that lists the tables [hs]. *)
Record rsdt_at (m : gmap Z Z) (root : Z) (hs : list Z) : Prop := {
  rt_root : PAGE <= root;
  rt_end : root + 36 + 4 * Z.of_nat (length hs) <= 2 ^ 32;
  rt_len : ld m 4 (root + off_Length) = 36 + 4 * Z.of_nat (length hs);
  rt_entry i h : hs !! i = Some h -> ld m 4 (root + 36 + 4 * Z.of_nat i) = h /\ PAGE <= h;
}.

(** [s'] is [s] but for the trace and the two pointers. *)
Definition acpi_done (m : gmap Z Z) (hs : list Z) (s s' : machine) : Prop :=
  s' = set_mcfgPtr (last_with m sig_MCFG hs (mcfgPtr (driver_g s)))
         (set_madtPtr (last_with m sig_APIC hs (madtPtr (driver_g s))) (with_trace s (trace s'))).

Lemma acpi_done_nil m s t : acpi_done m [] s (with_trace s t).
Proof. unfold acpi_done, last_with. by destruct s as [???????? ? []]. Qed.

(** ** Correctness *)

Lemma sig_test p lit s :
  PAGE <= p -> Forall is_char lit -> length lit = 4%nat ->
  exists r, strncmp_lit 5 0 p lit 4 s = Ok r s /\
    (r =? 0) = bool_decide (signature (mem s) p = lit).
Proof.
  intros Hp Hc Hl. destruct (strncmp_lit_run lit 5 0 p s Hp Hc) as (r & R & Hz); [lia|].
  rewrite Hl in *. exists r. split; [exact R|]. unfold signature.
  destruct (Z.eqb_spec r 0) as [He|He].
  - symmetry. apply bool_decide_eq_true_2. by apply Hz.
  - symmetry. apply bool_decide_eq_false_2. intros Hs. by apply He, Hz.
Qed.

Lemma acpi_entry_run first i h s :
  u64 (first + i * 4) = first + i * 4 -> PAGE <= first + i * 4 ->
  ld (mem s) 4 (first + i * 4) = h -> PAGE <= h ->
  exists s', acpi_entry first i s = Ok tt s' /\ acpi_done (mem s) [h] s s'.
Proof.
  intros Hu Ha Hh Hp. unfold acpi_entry. erewrite bind_Ok by reflexivity. cbv beta zeta. rewrite Hu.
  set (s1 := with_trace s _). erewrite bind_Ok by (apply load_ok; done). cbv beta.
  change (mem s1) with (mem s). rewrite Hh.
  destruct (sig_test h sig_MCFG s1) as (r & R & Hr); [done | repeat constructor; lia | done |].
  destruct (sig_test h sig_APIC s1) as (r' & R' & Hr'); [done | repeat constructor; lia | done |].
  change (mem s1) with (mem s) in *.
  erewrite bind_Ok by exact R. cbv beta. rewrite Hr. unfold acpi_done, last_with. cbn [foldl].
  destruct (decide (signature (mem s) h = sig_MCFG)) as [He|He].
  - rewrite bool_decide_eq_true_2 by done. eexists. split; [reflexivity|].
    rewrite He. rewrite decide_False by done. by destruct s as [???????? ? []].
  - rewrite bool_decide_eq_false_2 by done. rewrite bind_assoc.
    erewrite bind_Ok by exact R'. cbv beta. rewrite Hr'.
    destruct (decide (signature (mem s) h = sig_APIC)) as [He'|He'].
    + rewrite bool_decide_eq_true_2 by done. eexists. split; [reflexivity|]. by destruct s as [???????? ? []].
    + rewrite bool_decide_eq_false_2 by done. eexists. split; [reflexivity|]. by destruct s as [???????? ? []].
Qed.

Lemma acpi_entries_run hs : forall first i s,
  PAGE <= first + i * 4 -> 0 <= i -> first + (i + Z.of_nat (length hs)) * 4 <= 2 ^ 32 ->
  (forall j h, hs !! j = Some h -> ld (mem s) 4 (first + (i + Z.of_nat j) * 4) = h /\ PAGE <= h) ->
  exists s', acpi_entries (length hs) first i s = Ok tt s' /\ acpi_done (mem s) hs s s'.
Proof.
  induction hs as [|h hs IH]; intros first i s Ha Hi Hend Hent; cbn [acpi_entries length] in *.
  { exists s. split; [done|]. unfold acpi_done, last_with. by destruct s as [???????? ? []]. }
  destruct (Hent 0%nat h eq_refl) as [Hh Hp]. rewrite Z.add_0_r in Hh.
  destruct (acpi_entry_run first i h s) as (s1 & R1 & D1);
    [apply u64_small; lia | done | done | done |].
  assert (M1 : mem s1 = mem s) by (red in D1; by rewrite D1).
  destruct (IH first (i + 1) s1) as (s2 & R2 & D2); [lia | lia | lia | |].
  { intros j h' Hj. rewrite M1. destruct (Hent (S j) h' Hj) as [He Hph]. split; [|done].
    rewrite <- He. f_equal. lia. }
  exists s2. split; [by erewrite bind_Ok by exact R1|]. unfold acpi_done in *. rewrite M1 in D2.
  rewrite D2, D1. done.
Qed.

Lemma EnumerateACPITables_run root hs s :
  rsdt_at (mem s) root hs -> 0 <= root ->
  exists s', EnumerateACPITables root s = Ok tt s' /\ acpi_done (mem s) hs s s'.
Proof.
  intros [H1 H2 H3 H4] Hroot. unfold EnumerateACPITables.
  erewrite bind_Ok by (apply load_ok; unfold off_Length; lia). cbv beta zeta. rewrite H3.
  erewrite bind_Ok by reflexivity. cbv beta.
  replace (s32 _) with (Z.of_nat (length hs)).
  2:{ unfold sizeof_ACPISystemTableHeader. rewrite u64_small by lia.
      replace (36 + 4 * Z.of_nat (length hs) - 36) with (Z.of_nat (length hs) * 4) by lia.
      rewrite Z.div_mul by lia. symmetry. apply s32_small. lia. }
  rewrite Nat2Z.id. destruct hs as [|h hs']; [eexists; split; [reflexivity | apply acpi_done_nil]|].
  rewrite u32_small by (cbn in H2; lia).
  set (s1 := with_trace s _).
  destruct (acpi_entries_run (h :: hs') (root + 36) 0 s1) as (s' & R & D);
    [lia | lia | cbn in *; lia | | by exists s'].
  intros j h' Hj. destruct (H4 j h' Hj) as [He Hp]. split; [|done].
  cbn [mem with_trace s1]. rewrite <- He. f_equal. lia.
Qed.

(** Up to the root table. *)
Lemma InitializeACPI_cut rsdp s :
  PAGE <= rsdp ->
  let root := ld (mem s) 4 (rsdp + off_RsdtAddress) in
  exists t, InitializeACPI rsdp s =
    (when (root =? 0) (panic "System unsupported -- No ACPI support. Please make sure your hardware or virtualizer has proper support for ACPI.");;
     r ← strncmp_lit 5 0 root sig_RSDT 4;
     when (negb (r =? 0)) (panic "RSDT signature failed.");;
     EnumerateACPITables root) (with_trace s t).
Proof.
  intros Hp root. unfold InitializeACPI. rewrite (proj2 (Z.eqb_neq rsdp 0)) by lia. cbn [when].
  do 5 (erewrite bind_Ok by reflexivity; cbv beta).
  erewrite bind_Ok by (apply load_ok; unfold off_Revision; lia). cbv beta.
  erewrite bind_Ok by reflexivity. cbv beta.
  erewrite bind_Ok by (apply load_ok; unfold off_RsdtAddress; lia). cbv beta.
  eexists. reflexivity.
Qed.

Lemma InitializeACPI_run rsdp hs s :
  PAGE <= rsdp -> let root := ld (mem s) 4 (rsdp + off_RsdtAddress) in
  signature (mem s) root = sig_RSDT -> rsdt_at (mem s) root hs ->
  exists s', InitializeACPI rsdp s = Ok tt s' /\ acpi_done (mem s) hs s s'.
Proof.
  intros Hp root Hsig Hrt. destruct (InitializeACPI_cut rsdp s Hp) as (t & Hcut). rewrite Hcut. clear Hcut.
  fold root. pose proof (rt_root _ _ _ Hrt).
  rewrite (proj2 (Z.eqb_neq root 0)) by lia. cbn [when].
  erewrite bind_Ok by reflexivity. cbv beta.
  destruct (sig_test root sig_RSDT (with_trace s t)) as (r & R & Hr);
    [done | repeat constructor; lia | done |].
  erewrite bind_Ok by exact R. cbv beta. rewrite Hr, bool_decide_eq_true_2 by exact Hsig.
  cbn [negb when]. erewrite bind_Ok by reflexivity. cbv beta.
  destruct (EnumerateACPITables_run root hs (with_trace s t)) as (s' & R' & D');
    [exact Hrt | lia | by exists s'].
Qed.

(** C26. [InitializeACPI] panics without a root pointer, with a null root table
    and with a wrong root signature; otherwise it terminates with the MCFG and
    MADT pointers set to the last table of that signature, unchanged when there
    is none, and memory as it was. *)
Theorem InitializeACPI_correct rsdp s :
  (rsdp = 0 -> panicked (InitializeACPI rsdp s)) /\
  (PAGE <= rsdp ->
   let root := ld (mem s) 4 (rsdp + off_RsdtAddress) in
   (root = 0 -> panicked (InitializeACPI rsdp s)) /\
   (PAGE <= root -> signature (mem s) root <> sig_RSDT -> panicked (InitializeACPI rsdp s)) /\
   forall hs, signature (mem s) root = sig_RSDT -> rsdt_at (mem s) root hs ->
     exists s', InitializeACPI rsdp s = Ok tt s' /\ acpi_done (mem s) hs s s').
Proof.
  split; [intros ->; eexists; reflexivity|]. intros Hp root.
  destruct (InitializeACPI_cut rsdp s Hp) as (t & Hcut). fold root in Hcut. split_and!.
  - intros Hz. rewrite Hcut, Hz. eexists. reflexivity.
  - intros Hroot Hsig. rewrite Hcut, (proj2 (Z.eqb_neq root 0)) by lia. cbn [when].
    erewrite bind_Ok by reflexivity. cbv beta.
    destruct (sig_test root sig_RSDT (with_trace s t)) as (r & R & Hr);
      [done | repeat constructor; lia | done |].
    erewrite bind_Ok by exact R. cbv beta. rewrite Hr, bool_decide_eq_false_2 by exact Hsig.
    eexists. reflexivity.
  - intros hs Hsig Hrt. by apply InitializeACPI_run.
Qed.

(** A machine with a root table of two entries. *)
Definition le32 (v : Z) : list Z := [v mod 256; v / 256 mod 256; v / 65536 mod 256; v / 16777216].
Definition acpi_machine : machine :=
  with_mem blank
    (write_bytes (write_bytes (write_bytes (write_bytes ∅
      0x10010 (le32 0x11000))
      0x11000 (sig_RSDT ++ le32 44 ++ repeat 0 28 ++ le32 0x12000 ++ le32 0x13000))
      0x12000 sig_APIC)
      0x13000 sig_MCFG).

Lemma acpi_machine_rsdt : rsdt_at (mem acpi_machine) 0x11000 [0x12000; 0x13000].
Proof.
  split; [lia | cbn; lia | by vm_compute |].
  intros [|[|i]] h Hi; try done; injection Hi as <-; (split; [by vm_compute | lia]).
Qed.

Lemma InitializeACPI_correct_witness :
  exists s', InitializeACPI 0x10000 acpi_machine = Ok tt s' /\
    mcfgPtr (driver_g s') = 0x13000 /\ madtPtr (driver_g s') = 0x12000.
Proof.
  destruct (proj2 (InitializeACPI_correct 0x10000 acpi_machine) ltac:(lia)) as (_ & _ & H).
  destruct (H [0x12000; 0x13000]) as (s' & R & D).
  - by vm_compute.
  - exact acpi_machine_rsdt.
  - exists s'. split; [exact R|]. red in D. rewrite D. split; by vm_compute.
Defined.
