(* ===== verification/Apic.v ===== *)
(** drivers/apic/apic.c: the local APIC's end-of-interrupt register and the
    I/O APIC's redirection entries.

    The I/O APIC is reached through two registers: an index at its base and a
    data window at offset 16.  [ioapic_sel] and [ioapic_reg] say what the
    device holds after a history of accesses. *)
From S2P Require Import Prelude Memory Machine Bitfield CString Acpi.

(** ** struct IOAPICRedirectionEntry *)

Record IOAPICRedirectionEntry := RedirectionEntry {
  InterruptVector : Z;
  DeliveryMode : Z;
  DestinationMode : Z;
  Busy : Z;
  Polarity : Z;
  LTIStatus : Z;
  TriggerMode : Z;
  InterruptMask : Z;
  Reserved : Z;
  Destination : Z;
}.

(** The packed layout: where each member lies in the 64 bits. *)
Definition bf_InterruptVector : bitfield := BF 0 8.
Definition bf_DeliveryMode : bitfield := BF 8 3.
Definition bf_DestinationMode : bitfield := BF 11 1.
Definition bf_Busy : bitfield := BF 12 1.
Definition bf_Polarity : bitfield := BF 13 1.
Definition bf_LTIStatus : bitfield := BF 14 1.
Definition bf_TriggerMode : bitfield := BF 15 1.
Definition bf_InterruptMask : bitfield := BF 16 1.
Definition bf_Reserved : bitfield := BF 17 39.
Definition bf_Destination : bitfield := BF 56 8.

(** [( * (uint64_t * )&value)] and back. *)
Definition entry_raw (e : IOAPICRedirectionEntry) : Z :=
  let v := setf 0 bf_InterruptVector (InterruptVector e) in
  let v := setf v bf_DeliveryMode (DeliveryMode e) in
  let v := setf v bf_DestinationMode (DestinationMode e) in
  let v := setf v bf_Busy (Busy e) in
  let v := setf v bf_Polarity (Polarity e) in
  let v := setf v bf_LTIStatus (LTIStatus e) in
  let v := setf v bf_TriggerMode (TriggerMode e) in
  let v := setf v bf_InterruptMask (InterruptMask e) in
  let v := setf v bf_Reserved (Reserved e) in
  setf v bf_Destination (Destination e).
Definition raw_entry (v : Z) : IOAPICRedirectionEntry :=
  RedirectionEntry (getf v bf_InterruptVector) (getf v bf_DeliveryMode) (getf v bf_DestinationMode)
    (getf v bf_Busy) (getf v bf_Polarity) (getf v bf_LTIStatus) (getf v bf_TriggerMode)
    (getf v bf_InterruptMask) (getf v bf_Reserved) (getf v bf_Destination).

(** ** Operations *)

Definition IOAPICVer_MaxRedir : Z := 0x01.
Definition IOAPICRedirEntriesBase : Z := 0x10.
Definition KSTATUS_SUCCESS : Z := 1.
Definition KSTATUS_FAIL : Z := 0.

Definition IOAPICRead (ioapicBase reg : Z) : M Z :=
  mmio_write32 ioapicBase (Z.land reg 0xff);;
  mmio_read32 (ioapicBase + 16).

Definition IOAPICWrite (ioapicBase reg value : Z) : M unit :=
  mmio_write32 ioapicBase (Z.land reg 0xff);;
  mmio_write32 (ioapicBase + 16) value.

Definition IOAPICReadRedirectionEntry (ioapicBase offset : Z) : M IOAPICRedirectionEntry :=
  if negb (offset mod 2 =? 0) then ret (RedirectionEntry 0 0 0 0 0 0 0 0 0 0)
  else
    spl0 ← IOAPICRead ioapicBase (u32 (IOAPICRedirEntriesBase + offset));
    spl1 ← IOAPICRead ioapicBase (u32 (IOAPICRedirEntriesBase + u32 (offset + 1)));
    let fullValue := Z.lor (u64 (Z.shiftl spl1 32)) spl0 in
    ret (raw_entry fullValue).

Definition IOAPICWriteRedirectionEntry (ioapicBase offset : Z) (value : IOAPICRedirectionEntry) : M Z :=
  if negb (offset mod 2 =? 0) then ret KSTATUS_FAIL
  else
    let raw := entry_raw value in
    let spl0 := u32 raw in
    let spl1 := u32 (Z.shiftr raw 32) in
    IOAPICWrite ioapicBase (u32 (IOAPICRedirEntriesBase + offset)) spl0;;
    IOAPICWrite ioapicBase (u32 (IOAPICRedirEntriesBase + u32 (offset + 1))) spl1;;
    ret KSTATUS_SUCCESS.

Definition IOAPICRegisterIRQ (vector pin : Z) : M unit :=
  let entry := RedirectionEntry vector 0 0 0 0 0 0 0 0 0 in
  io ← gets (fun s => ioAPIC (driver_g s));
  _s ← IOAPICWriteRedirectionEntry io (u32 (pin * 2)) entry;
  ret tt.

Definition LAPIC_EOI : M unit :=
  la ← gets (fun s => localAPIC (driver_g s));
  mmio_write32 (la + 0x0B0) 0.

(** struct MADT and its interrupt-controller structures *)
Definition off_LAPICBase : Z := 36.
Definition off_ICStructBase : Z := 44.
Definition sizeof_MADT : Z := 46.
Definition off_Type : Z := 0.
Definition off_ICLength : Z := 1.
Definition off_IOAPICAddress : Z := 4.
Definition off_GlobalSystemInterruptBase : Z := 8.

(** The walk over the structures; the result is the last I/O APIC's structure. *)
Fixpoint madt_loop (fuel : nat) (length_ current ioapic : Z) : M Z :=
  match fuel with
  | O => out_of_fuel
  | S fuel =>
      if 0 <? length_ then
        ty ← load 1 (current + off_Type);
        if ty =? 1 then
          printf "[DEBUG] Found I/O APIC\n" [];;
          addr ← load 4 (current + off_IOAPICAddress);
          modify (set_ioAPIC addr);;
          addr ← load 4 (current + off_IOAPICAddress);
          printf "[DEBUG] I/O APIC Base: 0x%x\n" [AVal addr];;
          gsi ← load 4 (current + off_GlobalSystemInterruptBase);
          printf "[DEBUG] System interrupt base: 0x%x\n" [AVal gsi];;
          len ← load 1 (current + off_ICLength);
          madt_loop fuel (u32 (length_ - len)) (u64 (current + len)) current
        else
          printf "[DEBUG] MADT entry: Type: 0x%x\n" [AVal ty];;
          len ← load 1 (current + off_ICLength);
          madt_loop fuel (u32 (length_ - len)) (u64 (current + len)) ioapic
      else ret ioapic
  end.

Definition InitializeAPIC (fuel : nat) : M unit :=
  madt ← GetMADT;
  base ← load 4 (madt + off_LAPICBase);
  modify (set_localAPIC base);;
  len ← load 4 (madt + off_Length);
  ioapic ← madt_loop fuel (u32 (len - sizeof_MADT + 2)) (madt + off_ICStructBase) 0;
  if ioapic =? 0 then printf "[DEBUG] I/O APIC not available\n" []
  else
    addr ← load 4 (ioapic + off_IOAPICAddress);
    entries ← IOAPICRead addr IOAPICVer_MaxRedir;
    let pin_count := Z.land (Z.shiftr entries 16) 0xff + 1 in
    printf "[DEBUG] I/O APIC pin count: %d\n" [AVal pin_count].

(** ** The device *)

(** The index register after a history (newest event first). *)
Fixpoint ioapic_sel (base : Z) (t : list event) : Z :=
  match t with
  | [] => 0
  | EvMmioWrite a v :: t => if a =? base then Z.land v 0xff else ioapic_sel base t
  | _ :: t => ioapic_sel base t
  end.

(** The value last written to register [r] through the window. *)
Fixpoint ioapic_reg (base : Z) (t : list event) (r : Z) : option Z :=
  match t with
  | [] => None
  | EvMmioWrite a v :: t =>
      if (a =? base + 16) && (ioapic_sel base t =? r) then Some v else ioapic_reg base t r
  | _ :: t => ioapic_reg base t r
  end.

(** The redirection entry the device holds in the register pair from [r]. *)
Definition ioapic_entry (base : Z) (t : list event) (r : Z) : option IOAPICRedirectionEntry :=
  match ioapic_reg base t r, ioapic_reg base t (r + 1) with
  | Some lo, Some hi => Some (raw_entry (Z.lor (Z.shiftl hi 32) lo))
  | _, _ => None
  end.

Definition entry_ok (e : IOAPICRedirectionEntry) : Prop :=
  0 <= InterruptVector e < 2 ^ 8 /\ 0 <= DeliveryMode e < 2 ^ 3 /\ 0 <= DestinationMode e < 2 ^ 1 /\
  0 <= Busy e < 2 ^ 1 /\ 0 <= Polarity e < 2 ^ 1 /\ 0 <= LTIStatus e < 2 ^ 1 /\
  0 <= TriggerMode e < 2 ^ 1 /\ 0 <= InterruptMask e < 2 ^ 1 /\ 0 <= Reserved e < 2 ^ 39 /\
  0 <= Destination e < 2 ^ 8.

Ltac fields := unfold bf_InterruptVector, bf_DeliveryMode, bf_DestinationMode, bf_Busy, bf_Polarity,
  bf_LTIStatus, bf_TriggerMode, bf_InterruptMask, bf_Reserved, bf_Destination in *.
Ltac bf_apart := unfold bf_apart, apart; fields; cbn; lia.
Ltac read_field := repeat rewrite getf_setf_ne by (first [split; cbn; lia | bf_apart]);
  rewrite getf_setf_eq by (split; cbn; lia); apply Z.mod_small; assumption.

Lemma raw_entry_raw e : entry_ok e -> raw_entry (entry_raw e) = e.
Proof.
  destruct e. intros (H1 & H2 & H3 & H4 & H5 & H6 & H7 & H8 & H9 & H10). cbn in *.
  unfold raw_entry, entry_raw. cbv zeta. cbn [InterruptVector DeliveryMode DestinationMode Busy
    Polarity LTIStatus TriggerMode InterruptMask Reserved Destination].
  f_equal; fields; read_field.
Qed.

Lemma entry_raw_range e : 0 <= entry_raw e < 2 ^ 64.
Proof.
  unfold entry_raw. cbv zeta.
  repeat (apply setf_range; [split; cbn; lia | cbn; lia |]). lia.
Qed.

Lemma testbit_u32 v i : 0 <= i -> Z.testbit (u32 v) i = Z.testbit v i && (i <? 32).
Proof.
  intros Hi. unfold u32. rewrite <- Z.land_ones by lia.
  by rewrite Z.land_spec, testbit_ones_nonneg by lia.
Qed.

Lemma testbit_u64 v i : 0 <= i -> Z.testbit (u64 v) i = Z.testbit v i && (i <? 64).
Proof.
  intros Hi. unfold u64. rewrite <- Z.land_ones by lia.
  by rewrite Z.land_spec, testbit_ones_nonneg by lia.
Qed.

Lemma testbit_high v n i : 0 <= v < 2 ^ n -> n <= i -> 0 <= n -> Z.testbit v i = false.
Proof.
  intros Hv Hi Hn. apply Z.testbit_false; [lia|]. rewrite Z.div_small; [done|].
  split; [lia|]. eapply Z.lt_le_trans; [apply Hv | apply Z.pow_le_mono_r; lia].
Qed.

(** The two halves of a word, put together again. *)
Lemma halves_join raw :
  0 <= raw < 2 ^ 64 -> Z.lor (Z.shiftl (u32 (Z.shiftr raw 32)) 32) (u32 raw) = raw.
Proof.
  intros Hr. apply Z.bits_inj'. intros i Hi. rewrite Z.lor_spec, Z.shiftl_spec, (testbit_u32 raw) by lia.
  destruct (Z.ltb_spec i 32) as [Hl|Hl].
  - rewrite Z.testbit_neg_r by lia. by rewrite andb_true_r.
  - rewrite andb_false_r, orb_false_r, testbit_u32, Z.shiftr_spec by lia.
    replace (i - 32 + 32) with i by lia. destruct (Z.ltb_spec (i - 32) 32); [by rewrite andb_true_r|].
    by rewrite (testbit_high raw 64 i) by lia.
Qed.

(** ** Writing and reading entries *)

Lemma IOAPICWrite_run base reg value s :
  PAGE <= base ->
  IOAPICWrite base reg value s =
    Ok tt (with_trace s (EvMmioWrite (base + 16) (u32 value) ::
                         EvMmioWrite base (u32 (Z.land reg 0xff)) :: trace s)).
Proof.
  intros Hb. unfold IOAPICWrite, mmio_write32, bind, null_page.
  do 2 (rewrite (proj2 (Z.ltb_ge _ _)) by lia). done.
Qed.

Lemma IOAPICRead_run base reg s :
  PAGE <= base ->
  let t := EvMmioWrite base (u32 (Z.land reg 0xff)) :: trace s in
  IOAPICRead base reg s =
    Ok (u32 (mmio s (base + 16) t)) (with_trace s (EvMmioRead (base + 16) :: t)).
Proof.
  intros Hb t. unfold IOAPICRead, mmio_write32, mmio_read32, bind, null_page.
  do 2 (rewrite (proj2 (Z.ltb_ge _ _)) by lia). done.
Qed.

Definition entry_register (offset : Z) : Z := IOAPICRedirEntriesBase + offset.

(** The trace of a written entry. *)
Definition entry_written (base offset raw : Z) (t : list event) : list event :=
  EvMmioWrite (base + 16) (u32 (Z.shiftr raw 32)) :: EvMmioWrite base (entry_register offset + 1) ::
  EvMmioWrite (base + 16) (u32 raw) :: EvMmioWrite base (entry_register offset) :: t.

Lemma land_ff x : 0 <= x < 256 -> u32 (Z.land x 0xff) = x.
Proof.
  intros Hx. change 0xff with (Z.ones 8). rewrite Z.land_ones by lia.
  change (2 ^ 8) with 256. rewrite Z.mod_small by done. apply u32_small. lia.
Qed.

Lemma u32_idem x : u32 (u32 x) = u32 x.
Proof. unfold u32. by rewrite Z.mod_mod. Qed.

Lemma IOAPICWriteRedirectionEntry_run base offset e s :
  PAGE <= base -> 0 <= offset < 0xef -> offset mod 2 = 0 ->
  IOAPICWriteRedirectionEntry base offset e s =
    Ok KSTATUS_SUCCESS (with_trace s (entry_written base offset (entry_raw e) (trace s))).
Proof.
  intros Hb Ho Hev. unfold IOAPICWriteRedirectionEntry. rewrite Hev. cbn [negb Z.eqb].
  cbv zeta. unfold IOAPICRedirEntriesBase.
  rewrite (u32_small (16 + offset)), (u32_small (offset + 1)), (u32_small (16 + (offset + 1))) by lia.
  erewrite bind_Ok by (by apply IOAPICWrite_run). cbv beta.
  erewrite bind_Ok by (by apply IOAPICWrite_run). unfold ret. cbn [trace with_trace].
  rewrite !land_ff, !u32_idem by lia. unfold entry_written, entry_register, IOAPICRedirEntriesBase.
  by rewrite <- Z.add_assoc.
Qed.

Lemma entry_written_regs base offset raw t :
  0 <= offset < 0xef ->
  ioapic_reg base (entry_written base offset raw t) (entry_register offset) = Some (u32 raw) /\
  ioapic_reg base (entry_written base offset raw t) (entry_register offset + 1) =
    Some (u32 (Z.shiftr raw 32)) /\
  forall r, r <> entry_register offset -> r <> entry_register offset + 1 ->
    ioapic_reg base (entry_written base offset raw t) r = ioapic_reg base t r.
Proof.
  intros Ho. unfold entry_written. cbn [ioapic_reg ioapic_sel].
  assert (Hl : forall x, 0 <= x < 256 -> Z.land x 0xff = x).
  { intros x Hx. rewrite <- (u32_small (Z.land x 255)); [by apply land_ff|].
    change 255 with (Z.ones 8). rewrite Z.land_ones by lia. lia. }
  unfold entry_register, IOAPICRedirEntriesBase in *.
  rewrite !Z.eqb_refl, !(proj2 (Z.eqb_neq base (base + 16))), !(proj2 (Z.eqb_neq (base + 16) base)) by lia.
  cbn [andb]. rewrite !Hl, !Z.eqb_refl by lia. split_and!.
  - by rewrite (proj2 (Z.eqb_neq (16 + offset + 1) _)) by lia.
  - done.
  - intros r H1 H2. rewrite (proj2 (Z.eqb_neq (16 + offset + 1) r)), (proj2 (Z.eqb_neq (16 + offset) r)) by lia.
    done.
Qed.

Lemma entry_written_entry base offset e t :
  0 <= offset < 0xef -> entry_ok e ->
  ioapic_entry base (entry_written base offset (entry_raw e) t) (entry_register offset) = Some e.
Proof.
  intros Ho He. destruct (entry_written_regs base offset (entry_raw e) t Ho) as (H1 & H2 & _).
  unfold ioapic_entry. rewrite H1, H2, halves_join by apply entry_raw_range.
  by rewrite raw_entry_raw.
Qed.

Lemma IOAPICRegisterIRQ_run vector pin s :
  let base := ioAPIC (driver_g s) in
  PAGE <= base -> 0 <= pin < 119 ->
  IOAPICRegisterIRQ vector pin s =
    Ok tt (with_trace s (entry_written base (pin * 2)
      (entry_raw (RedirectionEntry vector 0 0 0 0 0 0 0 0 0)) (trace s))).
Proof.
  intros base Hb Hp. unfold IOAPICRegisterIRQ. cbv zeta.
  erewrite bind_Ok by reflexivity. cbv beta. fold base. rewrite u32_small by lia.
  by erewrite bind_Ok by (apply IOAPICWriteRedirectionEntry_run; [done | lia | lia]).
Qed.

(** C25. Routing an interrupt: [IOAPICRegisterIRQ] programs the redirection entry
    of the pin - and no other register of the device - to deliver the vector,
    fixed, active high, edge triggered and unmasked, to the first processor;
    memory and the kernel's variables stay. *)
Theorem IOAPICRegisterIRQ_routes vector pin s :
  let base := ioAPIC (driver_g s) in
  PAGE <= base -> 0 <= vector < 256 -> 0 <= pin < 119 ->
  exists s', IOAPICRegisterIRQ vector pin s = Ok tt s' /\
    ioapic_entry base (trace s') (0x10 + 2 * pin) = Some (RedirectionEntry vector 0 0 0 0 0 0 0 0 0) /\
    (forall r, r <> 0x10 + 2 * pin -> r <> 0x11 + 2 * pin ->
      ioapic_reg base (trace s') r = ioapic_reg base (trace s) r) /\
    s' = with_trace s (trace s').
Proof.
  intros base Hb Hv Hp. eexists. split; [by apply IOAPICRegisterIRQ_run|].
  fold base. cbn [trace with_trace].
  replace (0x10 + 2 * pin) with (entry_register (pin * 2))
    by (unfold entry_register, IOAPICRedirEntriesBase; lia).
  split; [|split; [|done]].
  - apply entry_written_entry; [lia|]. unfold entry_ok. cbn. lia.
  - intros r H1 H2. apply entry_written_regs; [lia | done |].
    unfold entry_register, IOAPICRedirEntriesBase in *. lia.
Qed.

(** The device answers with what it holds; bits 12 and 14 of a register (delivery
    status and remote IRR) are its own. *)
Definition device_answers (base : Z) (s : machine) : Prop :=
  forall t v, ioapic_reg base t (ioapic_sel base t) = Some v ->
    forall i, i <> 12 -> i <> 14 -> Z.testbit (mmio s (base + 16) t) i = Z.testbit v i.

Lemma getf_bits v v' f :
  bf_ok f -> (forall i, in_field f i -> Z.testbit v i = Z.testbit v' i) -> getf v f = getf v' f.
Proof.
  intros Hf Hb. apply Z.bits_inj'. intros i Hi. rewrite !testbit_getf by done.
  destruct (Z.ltb_spec i (bf_width f)); [|by rewrite !andb_false_r].
  f_equal. apply Hb. unfold in_field. lia.
Qed.

(** The joined halves agree with the entry on the fields the device keeps. *)
Lemma joined_field e x y f :
  0 <= x < 2 ^ 32 -> 0 <= y < 2 ^ 32 ->
  (forall i, 0 <= i < 32 -> i <> 12 -> i <> 14 -> Z.testbit x i = Z.testbit (u32 (entry_raw e)) i) ->
  (forall i, 0 <= i < 32 -> i <> 12 -> i <> 14 ->
     Z.testbit y i = Z.testbit (u32 (Z.shiftr (entry_raw e) 32)) i) ->
  bf_ok f -> (forall i, in_field f i -> 0 <= i < 64 /\ i <> 12 /\ i <> 14 /\ i <> 44 /\ i <> 46) ->
  getf (Z.lor (Z.shiftl y 32) x) f = getf (entry_raw e) f.
Proof.
  intros Hx Hy Bx By Hf Hi. apply getf_bits; [done|]. intros i Hfi.
  destruct (Hi i Hfi) as (H1 & H2 & H3 & H4 & H5).
  rewrite Z.lor_spec, Z.shiftl_spec by lia. destruct (Z.ltb_spec i 32) as [Hl|Hl].
  - rewrite Z.testbit_neg_r by lia. rewrite Bx, testbit_u32 by lia.
    by rewrite (proj2 (Z.ltb_lt i 32)), andb_true_r.
  - rewrite (testbit_high x 32 i), orb_false_r, By, testbit_u32, Z.shiftr_spec by lia.
    rewrite (proj2 (Z.ltb_lt (i - 32) 32)), andb_true_r by lia. f_equal. lia.
Qed.

Lemma IOAPICRead_held base reg v s :
  PAGE <= base -> device_answers base s -> 0 <= reg < 256 ->
  ioapic_reg base (trace s) reg = Some v ->
  exists x s', IOAPICRead base reg s = Ok x s' /\ 0 <= x < 2 ^ 32 /\
    (forall i, 0 <= i < 32 -> i <> 12 -> i <> 14 -> Z.testbit x i = Z.testbit v i) /\
    device_answers base s' /\ forall r, ioapic_reg base (trace s') r = ioapic_reg base (trace s) r.
Proof.
  intros Hb Hdev Hreg Hv. eexists. eexists. split; [by apply IOAPICRead_run|]. rewrite land_ff by done.
  assert (Hkeep : forall r, ioapic_reg base (EvMmioWrite base reg :: trace s) r = ioapic_reg base (trace s) r).
  { intros r. cbn [ioapic_reg]. by rewrite (proj2 (Z.eqb_neq base (base + 16))) by lia. }
  split_and!; [apply u32_range | apply u32_range | | exact Hdev | exact Hkeep].
  intros i Hi H12 H14. rewrite testbit_u32 by lia. rewrite (proj2 (Z.ltb_lt i 32)), andb_true_r by lia.
  apply Hdev; [|done|done]. rewrite Hkeep. cbn [ioapic_sel]. rewrite Z.eqb_refl.
  rewrite <- (u32_small (Z.land reg 255)); [by rewrite land_ff|].
  change 255 with (Z.ones 8). rewrite Z.land_ones by lia. lia.
Qed.

(** Round trip through the device: an entry written with
    [IOAPICWriteRedirectionEntry] at an even offset is read back by
    [IOAPICReadRedirectionEntry] in every field but the device's own; an odd
    offset is refused by both, without an access. *)
Theorem redirection_entry_roundtrip base offset e s :
  PAGE <= base -> device_answers base s -> entry_ok e -> 0 <= offset < 0xef ->
  (offset mod 2 = 0 ->
   exists s1 s2 e', IOAPICWriteRedirectionEntry base offset e s = Ok KSTATUS_SUCCESS s1 /\
     IOAPICReadRedirectionEntry base offset s1 = Ok e' s2 /\
     InterruptVector e' = InterruptVector e /\ DeliveryMode e' = DeliveryMode e /\
     DestinationMode e' = DestinationMode e /\ Polarity e' = Polarity e /\
     TriggerMode e' = TriggerMode e /\ InterruptMask e' = InterruptMask e /\
     Destination e' = Destination e) /\
  (offset mod 2 = 1 ->
   IOAPICWriteRedirectionEntry base offset e s = Ok KSTATUS_FAIL s /\
   IOAPICReadRedirectionEntry base offset s = Ok (RedirectionEntry 0 0 0 0 0 0 0 0 0 0) s).
Proof.
  intros Hb Hdev He Ho. split.
  2:{ intros Hodd. unfold IOAPICWriteRedirectionEntry, IOAPICReadRedirectionEntry. by rewrite Hodd. }
  intros Hev. set (s1 := with_trace s (entry_written base offset (entry_raw e) (trace s))).
  destruct (entry_written_regs base offset (entry_raw e) (trace s) Ho) as (R1 & R2 & _).
  unfold entry_register, IOAPICRedirEntriesBase in R1, R2.
  destruct (IOAPICRead_held base (16 + offset) _ s1 Hb Hdev ltac:(lia) R1) as (x & s2 & E2 & X2 & B2 & D2 & K2).
  destruct (IOAPICRead_held base (16 + offset + 1) (u32 (Z.shiftr (entry_raw e) 32)) s2 Hb D2 ltac:(lia))
    as (y & s3 & E3 & Y3 & B3 & _); [by rewrite K2|].
  exists s1, s3, (raw_entry (Z.lor (Z.shiftl y 32) x)).
  split; [by apply IOAPICWriteRedirectionEntry_run|]. split.
  { unfold IOAPICReadRedirectionEntry. rewrite Hev. cbn [negb Z.eqb]. unfold IOAPICRedirEntriesBase.
    rewrite (u32_small (16 + offset)), (u32_small (offset + 1)), (u32_small (16 + (offset + 1))) by lia.
    erewrite bind_Ok by exact E2. cbv beta. rewrite Z.add_assoc. erewrite bind_Ok by exact E3. cbv beta zeta.
    rewrite u64_small; [done|]. rewrite Z.shiftl_mul_pow2 by lia. lia. }
  pose proof (fun f => joined_field e x y f X2 Y3 B2 B3) as Hj.
  destruct (raw_entry_raw e He) as []. unfold raw_entry at 1 3 5 7 9 11 13.
  cbn [InterruptVector DeliveryMode DestinationMode Polarity TriggerMode InterruptMask Destination].
  fields. split_and!; apply Hj; unfold in_field; cbn; try (split; cbn; lia); lia.
Qed.

(** ** The MADT *)

(** An interrupt-controller structure; the last two members are an I/O APIC's
    address and interrupt base. *)
Record ic := Ic { ic_type : Z; ic_len : Z; ic_addr : Z; ic_gsi : Z }.

Fixpoint ics_at (m : gmap Z Z) (a : Z) (l : list ic) : Prop :=
  match l with
  | [] => True
  | c :: l =>
      ld m 1 (a + off_Type) = ic_type c /\ ld m 1 (a + off_ICLength) = ic_len c /\ 2 <= ic_len c /\
      (ic_type c = 1 -> ld m 4 (a + off_IOAPICAddress) = ic_addr c /\
        ld m 4 (a + off_GlobalSystemInterruptBase) = ic_gsi c) /\
      ics_at m (a + ic_len c) l
  end.

Fixpoint ics_len (l : list ic) : Z := match l with [] => 0 | c :: l => ic_len c + ics_len l end.

(** The last I/O APIC: its address, and where its structure is. *)
Definition last_ioapic (l : list ic) (old : Z) : Z :=
  foldl (fun r c => if ic_type c =? 1 then ic_addr c else r) old l.
Fixpoint last_structure (a : Z) (l : list ic) (old : Z) : Z :=
  match l with
  | [] => old
  | c :: l => last_structure (a + ic_len c) l (if ic_type c =? 1 then a else old)
  end.
Definition no_ioapic (l : list ic) : Prop := Forall (fun c => ic_type c <> 1) l.

Lemma ics_len_nonneg m a l : ics_at m a l -> 0 <= ics_len l.
Proof.
  revert a. induction l as [|c l IH]; intros a Hl; cbn [ics_len ics_at] in *; [lia|].
  destruct Hl as (_ & _ & H & _ & Hl). apply IH in Hl. lia.
Qed.

(** Only the trace and the drivers' variables change. *)
Definition driver_run (s s' : machine) : Prop :=
  s' = set_localAPIC (localAPIC (driver_g s')) (set_ioAPIC (ioAPIC (driver_g s')) (with_trace s (trace s'))).

Lemma driver_run_refl s : driver_run s s.
Proof. by destruct s as [???????? ? []]. Qed.
Lemma driver_run_trace s t : driver_run s (with_trace s t).
Proof. by destruct s as [???????? ? []]. Qed.
Lemma driver_run_trans s1 s2 s3 : driver_run s1 s2 -> driver_run s2 s3 -> driver_run s1 s3.
Proof. unfold driver_run. intros H1 H2. rewrite H2, H1. done. Qed.
Lemma driver_run_mem s s' : driver_run s s' -> mem s' = mem s.
Proof. unfold driver_run. by intros ->. Qed.

(** One turn of the walk. *)
Lemma madt_step fuel rest a io c s :
  PAGE <= a -> ld (mem s) 1 (a + off_Type) = ic_type c -> ld (mem s) 1 (a + off_ICLength) = ic_len c ->
  (ic_type c = 1 -> ld (mem s) 4 (a + off_IOAPICAddress) = ic_addr c /\
    ld (mem s) 4 (a + off_GlobalSystemInterruptBase) = ic_gsi c) ->
  0 < rest ->
  exists s', madt_loop (S fuel) rest a io s =
      madt_loop fuel (u32 (rest - ic_len c)) (u64 (a + ic_len c)) (if ic_type c =? 1 then a else io) s' /\
    driver_run s s' /\ localAPIC (driver_g s') = localAPIC (driver_g s) /\
    ioAPIC (driver_g s') = (if ic_type c =? 1 then ic_addr c else ioAPIC (driver_g s)).
Proof.
  intros Ha Ht Hlen Hio Hr. cbn [madt_loop]. rewrite (proj2 (Z.ltb_lt 0 rest)) by lia.
  unfold off_Type, off_ICLength, off_IOAPICAddress, off_GlobalSystemInterruptBase in *.
  erewrite bind_Ok by (apply load_ok; lia). cbv beta. rewrite Ht.
  destruct (Z.eqb_spec (ic_type c) 1) as [He|He].
  - destruct (Hio He) as [H1 H2]. erewrite bind_Ok by reflexivity. cbv beta.
    erewrite bind_Ok by (apply load_ok; lia). cbv beta. cbn [mem with_trace]. rewrite H1.
    erewrite bind_Ok by reflexivity. cbv beta. erewrite bind_Ok by (apply load_ok; lia). cbv beta.
    cbn [mem with_trace with_driver set_ioAPIC]. erewrite bind_Ok by reflexivity. cbv beta.
    erewrite bind_Ok by (apply load_ok; lia). cbv beta. erewrite bind_Ok by reflexivity. cbv beta.
    erewrite bind_Ok by (apply load_ok; lia). cbv beta.
    cbn [mem with_trace with_driver set_ioAPIC]. rewrite Hlen. eexists. split; [reflexivity|]. done.
  - erewrite bind_Ok by reflexivity. cbv beta. erewrite bind_Ok by (apply load_ok; lia). cbv beta.
    cbn [mem with_trace]. rewrite Hlen. eexists. split; [reflexivity|]. by destruct s as [???????? ? []].
Qed.

(** The walk over well-formed structures, whatever follows them. *)
Lemma madt_walk l : forall fuel a rest io s,
  PAGE <= a -> ics_at (mem s) a l -> 0 <= rest -> ics_len l + rest < 2 ^ 32 ->
  a + ics_len l + rest < 2 ^ 64 ->
  exists s', madt_loop (length l + fuel) (ics_len l + rest) a io s =
      madt_loop fuel rest (a + ics_len l) (last_structure a l io) s' /\
    driver_run s s' /\ localAPIC (driver_g s') = localAPIC (driver_g s) /\
    ioAPIC (driver_g s') = last_ioapic l (ioAPIC (driver_g s)).
Proof.
  induction l as [|c l IH]; intros fuel a rest io s Ha Hl Hr Hb Hw.
  { exists s. cbn [ics_len last_structure length Nat.add]. rewrite Z.add_0_l, Z.add_0_r.
    split_and!; [done | apply driver_run_refl | done | done]. }
  cbn [ics_at ics_len length Nat.add last_structure] in *. destruct Hl as (Ht & Hlen & Hge & Hio & Hl).
  pose proof (ics_len_nonneg _ _ _ Hl) as Hn.
  destruct (madt_step (length l + fuel) (ic_len c + ics_len l + rest) a io c s)
    as (s1 & R1 & D1 & L1 & I1); [done | done | done | done | lia |].
  rewrite u32_small, u64_small in R1 by lia.
  destruct (IH fuel (a + ic_len c) rest (if ic_type c =? 1 then a else io) s1) as (s2 & R2 & D2 & L2 & I2);
    [lia | by rewrite (driver_run_mem _ _ D1) | done | lia | lia |].
  exists s2. split_and!.
  - rewrite R1. replace (ic_len c + ics_len l + rest - ic_len c) with (ics_len l + rest) by lia.
    rewrite R2. f_equal. lia.
  - by eapply driver_run_trans.
  - congruence.
  - rewrite I2, I1. unfold last_ioapic. cbn [foldl]. done.
Qed.

Lemma last_structure_none a l : no_ioapic l -> forall old, last_structure a l old = old.
Proof.
  unfold no_ioapic. revert a. induction l as [|c l IH]; intros a Hl old; [done|].
  apply Forall_cons in Hl as [Hc Hl]. cbn [last_structure]. rewrite (proj2 (Z.eqb_neq _ 1)) by done. by apply IH.
Qed.

Lemma last_structure_some m l : forall a old r,
  PAGE <= a -> ics_at m a l -> ~ no_ioapic l ->
  PAGE <= last_structure a l old /\
  ld m 4 (last_structure a l old + off_IOAPICAddress) = last_ioapic l r /\
  exists c, c ∈ l /\ ic_type c = 1 /\ ic_addr c = last_ioapic l r.
Proof.
  unfold no_ioapic. induction l as [|c l IH]; intros a old r Ha Hl Hno; [by destruct Hno; constructor|].
  cbn [ics_at last_structure] in *. destruct Hl as (_ & _ & Hge & Hio & Hl).
  unfold last_ioapic. cbn [foldl]. fold (last_ioapic l (if ic_type c =? 1 then ic_addr c else r)).
  destruct (decide (Forall (fun c => ic_type c <> 1) l)) as [Hn|Hn].
  - rewrite last_structure_none by exact Hn.
    assert (He : ic_type c = 1) by (destruct (decide (ic_type c = 1)); [done|]; destruct Hno; by constructor).
    destruct (Hio He) as [H1 _]. rewrite He. cbn [Z.eqb Pos.eqb].
    assert (Hlast : last_ioapic l (ic_addr c) = ic_addr c).
    { clear - Hn. unfold last_ioapic. induction Hn as [|d l Hd Hl IH]; [done|]. cbn [foldl].
      by rewrite (proj2 (Z.eqb_neq _ 1)) by done. }
    rewrite Hlast. split_and!; [done | done |]. exists c. split_and!; [left | done | done].
  - destruct (IH (a + ic_len c) (if ic_type c =? 1 then a else old) (if ic_type c =? 1 then ic_addr c else r))
      as (H1 & H2 & d & Hd & Hd1 & Hd2); [lia | done | done |].
    split_and!; [done | done |]. exists d. split_and!; [by right | done | done].
Qed.

(** A MADT at [madt] whose length field covers the structures [l] and [rest]
    further bytes. *)
Record madt_at (m : gmap Z Z) (madt : Z) (l : list ic) (rest : Z) : Prop := {
  md_page : PAGE <= madt;
  md_len : ld m 4 (madt + off_Length) = off_ICStructBase + ics_len l + rest;
  md_ics : ics_at m (madt + off_ICStructBase) l;
  md_rest : 0 <= rest;
  md_end : madt + off_ICStructBase + ics_len l + rest < 2 ^ 64;
}.

(** The part of [InitializeAPIC] before the walk. *)
Lemma InitializeAPIC_walk fuel l rest s :
  madt_at (mem s) (madtPtr (driver_g s)) l rest ->
  let madt := madtPtr (driver_g s) in
  let base := madt + off_ICStructBase in
  exists s', InitializeAPIC (length l + fuel) s =
    (ioapic ← madt_loop fuel rest (base + ics_len l) (last_structure base l 0);
     if ioapic =? 0 then printf "[DEBUG] I/O APIC not available\n" []
     else
       addr ← load 4 (ioapic + off_IOAPICAddress);
       entries ← IOAPICRead addr IOAPICVer_MaxRedir;
       let pin_count := Z.land (Z.shiftr entries 16) 0xff + 1 in
       printf "[DEBUG] I/O APIC pin count: %d\n" [AVal pin_count]) s' /\
    driver_run s s' /\ localAPIC (driver_g s') = ld (mem s) 4 (madt + off_LAPICBase) /\
    ioAPIC (driver_g s') = last_ioapic l (ioAPIC (driver_g s)).
Proof.
  intros [H1 H2 H3 H4 H5] madt base. fold madt in H1, H2, H3, H5. fold base in H3, H5.
  pose proof (ics_len_nonneg _ _ _ H3) as Hn. pose proof (ld_range (mem s) 4 (madt + off_Length)) as Hlr.
  change (2 ^ (8 * Z.of_nat 4)) with (2 ^ 32) in Hlr.
  unfold InitializeAPIC. erewrite bind_Ok by reflexivity. cbv beta. fold madt.
  erewrite bind_Ok by (apply load_ok; unfold off_LAPICBase; lia). cbv beta.
  erewrite bind_Ok by reflexivity. cbv beta. set (s1 := set_localAPIC _ s).
  erewrite bind_Ok by (apply load_ok; unfold off_Length; lia). cbv beta.
  change (mem s1) with (mem s). rewrite H2.
  replace (off_ICStructBase + ics_len l + rest - sizeof_MADT + 2) with (ics_len l + rest)
    by (unfold off_ICStructBase, sizeof_MADT; lia).
  rewrite u32_small by (unfold off_ICStructBase in *; lia).
  destruct (madt_walk l fuel base rest 0 s1) as (s2 & R2 & D2 & L2 & I2);
    [unfold base, off_ICStructBase; lia | exact H3 | done | unfold off_ICStructBase in *; lia | lia |].
  exists s2. split_and!.
  - fold base. unfold bind at 1. rewrite R2. reflexivity.
  - exact D2.
  - by rewrite L2.
  - by rewrite I2.
Qed.

Lemma InitializeAPIC_run fuel l s :
  madt_at (mem s) (madtPtr (driver_g s)) l 0 -> (length l < fuel)%nat ->
  Forall (fun c => ic_type c = 1 -> PAGE <= ic_addr c) l ->
  exists s', InitializeAPIC fuel s = Ok tt s' /\ driver_run s s' /\
    localAPIC (driver_g s') = ld (mem s) 4 (madtPtr (driver_g s) + off_LAPICBase) /\
    ioAPIC (driver_g s') = last_ioapic l (ioAPIC (driver_g s)) /\
    (no_ioapic l -> head (trace s') = Some (EvPrintf "[DEBUG] I/O APIC not available\n" [])).
Proof.
  intros Hm Hf Hp. destruct (InitializeAPIC_walk (S (fuel - length l - 1)) l 0 s Hm) as (s1 & R & D & L & I).
  replace (length l + S (fuel - length l - 1))%nat with fuel in R by lia.
  set (base := madtPtr (driver_g s) + off_ICStructBase) in *.
  cbn [madt_loop] in R. rewrite Z.ltb_irrefl in R. erewrite bind_Ok in R by reflexivity. cbv beta in R.
  destruct (decide (no_ioapic l)) as [Hno|Hio].
  - rewrite last_structure_none in R by done. cbn [Z.eqb] in R. eexists. split; [exact R|].
    split; [eapply driver_run_trans; [exact D | apply driver_run_trace]|]. done.
  - destruct (last_structure_some (mem s) l base 0 (ioAPIC (driver_g s))) as (H1 & H2 & c & Hc & Hc1 & Hc2).
    { unfold base, off_ICStructBase. pose proof (md_page _ _ _ _ Hm). lia. }
    { apply Hm. } { done. }
    rewrite (proj2 (Z.eqb_neq _ 0)) in R by lia.
    erewrite bind_Ok in R by (apply load_ok; unfold off_IOAPICAddress; lia). cbv beta in R.
    rewrite (driver_run_mem _ _ D), H2 in R.
    erewrite bind_Ok in R.
    2:{ apply IOAPICRead_run. rewrite <- Hc2. rewrite Forall_forall in Hp. by apply Hp. }
    cbv beta zeta in R. eexists. split; [exact R|]. split; [eapply driver_run_trans; [exact D | eapply driver_run_trans; apply driver_run_trace]|]. done.
Qed.

(** Finding the interrupt controllers: on a well-formed MADT [InitializeAPIC]
    terminates with the local APIC's address from the table and the I/O APIC's
    from the last structure of that type - unchanged, with a message, when there
    is none - and leaves memory alone. *)
Theorem InitializeAPIC_finds fuel l s :
  madt_at (mem s) (madtPtr (driver_g s)) l 0 -> (length l < fuel)%nat ->
  Forall (fun c => ic_type c = 1 -> PAGE <= ic_addr c) l ->
  exists s', InitializeAPIC fuel s = Ok tt s' /\ mem s' = mem s /\
    localAPIC (driver_g s') = ld (mem s) 4 (madtPtr (driver_g s) + off_LAPICBase) /\
    ioAPIC (driver_g s') = last_ioapic l (ioAPIC (driver_g s)) /\
    (no_ioapic l -> head (trace s') = Some (EvPrintf "[DEBUG] I/O APIC not available\n" [])).
Proof.
  intros Hm Hf Hp. destruct (InitializeAPIC_run fuel l s Hm Hf Hp) as (s' & R & D & L & I & E).
  exists s'. rewrite (driver_run_mem _ _ D). done.
Qed.

(** A structure of length zero stops the walk from ending: whatever fuel it
    is given, [InitializeAPIC] does not return. *)
Theorem InitializeAPIC_zero_length_hangs l rest s :
  madt_at (mem s) (madtPtr (driver_g s)) l rest -> 0 < rest ->
  ld (mem s) 1 (madtPtr (driver_g s) + off_ICStructBase + ics_len l + off_ICLength) = 0 ->
  forall fuel, InitializeAPIC (length l + fuel) s = NoFuel.
Proof.
  intros Hm Hrest Hz fuel. destruct (InitializeAPIC_walk fuel l rest s Hm) as (s1 & R & D & _).
  rewrite R. set (a := madtPtr (driver_g s) + off_ICStructBase + ics_len l) in *.
  assert (Ha : PAGE <= a /\ a < 2 ^ 64).
  { pose proof (ics_len_nonneg _ _ _ (md_ics _ _ _ _ Hm)). pose proof (md_page _ _ _ _ Hm).
    pose proof (md_end _ _ _ _ Hm). unfold a, off_ICStructBase in *. lia. }
  assert (Hr32 : rest < 2 ^ 32).
  { pose proof (ics_len_nonneg _ _ _ (md_ics _ _ _ _ Hm)). pose proof (md_len _ _ _ _ Hm).
    pose proof (ld_range (mem s) 4 (madtPtr (driver_g s) + off_Length)) as Hlr.
    change (2 ^ (8 * Z.of_nat 4)) with (2 ^ 32) in Hlr. unfold off_ICStructBase in *. lia. }
  assert (Hloop : forall fuel io s1, mem s1 = mem s -> madt_loop fuel rest a io s1 = NoFuel).
  { clear fuel R D s1. induction fuel as [|fuel IH]; intros io s1 Hm1; [done|].
    set (c := Ic (ld (mem s) 1 (a + off_Type)) 0 (ld (mem s) 4 (a + off_IOAPICAddress))
                (ld (mem s) 4 (a + off_GlobalSystemInterruptBase))).
    destruct (madt_step fuel rest a io c s1) as (s2 & R2 & D2 & _);
      rewrite ?Hm1; cbn [c ic_type ic_len ic_addr ic_gsi]; [lia | done | done | done | done |].
    rewrite R2. cbn [c ic_len]. rewrite Z.sub_0_r, Z.add_0_r, u32_small, u64_small by lia.
    apply IH. by rewrite (driver_run_mem _ _ D2). }
  unfold bind. rewrite Hloop; [done|]. by rewrite (driver_run_mem _ _ D).
Qed.

(** ** Concrete instances *)

(** A machine whose I/O APIC is at 0xfec00000 and answers what was written. *)
Definition io_base : Z := 0xfec00000.
Definition apic_machine (m : gmap Z Z) (madt : Z) : machine :=
  set_madtPtr madt (set_ioAPIC io_base
    (Machine m [] (fun _ _ => 0) (fun _ t => default 0 (ioapic_reg io_base t (ioapic_sel io_base t)))
       true 0 (AllocGlobals 0 0) (PagingGlobals 0 (PagingInfo [] 0 0 0 0 0 0)) (SchedGlobals 1 false 0)
       (DriverGlobals false 0 0 0 0 false 0 false))).

Lemma IOAPICRegisterIRQ_routes_witness :
  exists s', IOAPICRegisterIRQ 0x28 8 (apic_machine ∅ 0) = Ok tt s' /\
    ioapic_entry io_base (trace s') 0x20 = Some (RedirectionEntry 0x28 0 0 0 0 0 0 0 0 0).
Proof.
  destruct (IOAPICRegisterIRQ_routes 0x28 8 (apic_machine ∅ 0)) as (s' & R & E & _);
    [vm_compute; congruence | lia | lia |].
  exists s'. split; [exact R | exact E].
Defined.

Lemma redirection_entry_roundtrip_witness :
  exists s1 s2 e', IOAPICWriteRedirectionEntry io_base 4 (RedirectionEntry 33 0 0 0 0 0 0 1 0 2)
      (apic_machine ∅ 0) = Ok KSTATUS_SUCCESS s1 /\
    IOAPICReadRedirectionEntry io_base 4 s1 = Ok e' s2 /\ InterruptVector e' = 33 /\
    InterruptMask e' = 1 /\ Destination e' = 2.
Proof.
  destruct (redirection_entry_roundtrip io_base 4 (RedirectionEntry 33 0 0 0 0 0 0 1 0 2) (apic_machine ∅ 0))
    as [H _].
  - vm_compute; congruence.
  - intros t v Hv i _ _. change (mmio (apic_machine ∅ 0) (io_base + 16) t)
      with (default 0 (ioapic_reg io_base t (ioapic_sel io_base t))). by rewrite Hv.
  - unfold entry_ok. cbn. lia.
  - lia.
  - destruct (H eq_refl) as (s1 & s2 & e' & W & R & V & _ & _ & _ & _ & M & D).
    exists s1, s2, e'. split; [exact W|]. split; [exact R|]. split; [exact V|]. split; [exact M | exact D].
Defined.

(** A MADT with a processor structure and an I/O APIC, and one whose second
    structure has length 0. *)
Definition madt_bytes (len : Z) (tail : list Z) : list Z :=
  sig_APIC ++ le32 len ++ repeat 0 28 ++ le32 0xfee00000 ++ le32 0 ++
  [0; 8; 0; 0; 1; 0; 0; 0] ++ tail.
Definition madt_machine (len : Z) (tail : list Z) : machine :=
  apic_machine (write_bytes ∅ 0x12000 (madt_bytes len tail)) 0x12000.
Definition cpu_ic : ic := Ic 0 8 0 0.

Lemma InitializeAPIC_finds_witness :
  exists s', InitializeAPIC 3 (madt_machine 64 ([1; 12; 0; 0] ++ le32 io_base ++ le32 0)) = Ok tt s' /\
    localAPIC (driver_g s') = 0xfee00000 /\ ioAPIC (driver_g s') = io_base.
Proof.
  destruct (InitializeAPIC_finds 3 [cpu_ic; Ic 1 12 io_base 0]
    (madt_machine 64 ([1; 12; 0; 0] ++ le32 io_base ++ le32 0))) as (s' & R & _ & L & I & _).
  - split.
    + vm_compute; congruence.
    + by vm_compute.
    + cbn [ics_at]. split_and!; try (by vm_compute); try (vm_compute; congruence).
    + lia.
    + by vm_compute.
  - cbn. lia.
  - repeat constructor; vm_compute; congruence.
  - exists s'. split; [exact R|]. rewrite L, I. split; by vm_compute.
Defined.

Lemma InitializeAPIC_zero_length_hangs_witness :
  InitializeAPIC 1000 (madt_machine 60 [2; 0; 0; 0; 0; 0; 0; 0]) = NoFuel.
Proof.
  apply (InitializeAPIC_zero_length_hangs [cpu_ic] 8 (madt_machine 60 [2; 0; 0; 0; 0; 0; 0; 0])) with (fuel := 999%nat).
  - split.
    + vm_compute; congruence.
    + by vm_compute.
    + cbn [ics_at]. split_and!; try (by vm_compute); try (vm_compute; congruence).
    + lia.
    + by vm_compute.
  - lia.
  - by vm_compute.
Defined.
