(* ===== verification/Devices.v ===== *)
(** drivers/rtc/rtc.c, drivers/pit.c and drivers/keyboard.c: the clocks and the
    keyboard. *)
From S2P Require Import Prelude Memory Machine Bitfield.

(** ** The real-time clock *)

Definition InitializeRTC : M unit :=
  cli;;
  outb 0x70 0x8B;;
  current ← inb 0x71;
  outb 0x70 0x8B;;
  outb 0x71 (Z.lor current 0x40);;
  let rate := 15 in
  outb 0x70 0x8A;;
  current2 ← inb 0x71;
  outb 0x70 0x8A;;
  outb 0x71 (Z.lor (Z.land current2 0xF0) rate);;
  sti.

(** The clock's index register (bit 7 is the NMI mask) and the value last
    written to register [r], after a history of port accesses. *)
Fixpoint cmos_sel (t : list event) : Z :=
  match t with
  | [] => 0
  | EvOut p v :: t => if p =? 0x70 then Z.land v 0x7F else cmos_sel t
  | _ :: t => cmos_sel t
  end.
Fixpoint cmos_reg (t : list event) (r : Z) : option Z :=
  match t with
  | [] => None
  | EvOut p v :: t => if (p =? 0x71) && (cmos_sel t =? r) then Some v else cmos_reg t r
  | _ :: t => cmos_reg t r
  end.

(** The periodic-interrupt enable bit of register B and the rate of register A. *)
Definition bf_PIE : bitfield := BF 6 1.
Definition bf_RS : bitfield := BF 0 4.

Definition all_byte (P : Z -> bool) : bool := forallb P (seqZ 0 256).

Lemma all_byte_spec P v : all_byte P = true -> 0 <= v < 256 -> P v = true.
Proof.
  unfold all_byte. rewrite forallb_forall. intros H Hv. apply H.
  apply list_elem_of_In, elem_of_seqZ. lia.
Qed.

(** The accesses of [InitializeRTC]; the two values it reads. *)
Definition rtc_trace (b a : Z) (t : list event) : list event :=
  [EvOut 0x71 (u8 (Z.lor (Z.land a 0xF0) 15)); EvOut 0x70 0x8A; EvIn 0x71; EvOut 0x70 0x8A;
   EvOut 0x71 (u8 (Z.lor b 0x40)); EvOut 0x70 0x8B; EvIn 0x71; EvOut 0x70 0x8B] ++ t.

Lemma InitializeRTC_run s :
  exists b a, InitializeRTC s = Ok tt (with_IF (with_trace s (rtc_trace b a (trace s))) true) /\
    0 <= b < 256 /\ 0 <= a < 256.
Proof.
  set (t1 := EvOut 0x70 0x8B :: trace s).
  exists (u8 (ports s 0x71 t1)). set (b := u8 _).
  exists (u8 (ports s 0x71 (EvOut 0x70 0x8A :: EvOut 0x71 (u8 (Z.lor b 0x40)) :: EvOut 0x70 0x8B ::
    EvIn 0x71 :: t1))).
  split; [reflexivity | split; apply u8_range].
Qed.

(** [InitializeRTC] programs the clock for periodic interrupts at the slowest
    rate: register B gets its periodic-interrupt bit and keeps its other bits as
    read, register A gets rate 15 and keeps its high half; no other register is
    written, and interrupts are on afterwards. *)
Theorem InitializeRTC_programs s :
  exists s' a b, InitializeRTC s = Ok tt s' /\ IF s' = true /\ mem s' = mem s /\
    driver_g s' = driver_g s /\ 0 <= a < 256 /\ 0 <= b < 256 /\
    cmos_reg (trace s') 0x0B = Some (setf b bf_PIE 1) /\
    cmos_reg (trace s') 0x0A = Some (setf a bf_RS 15) /\
    (forall r, r <> 0x0A -> r <> 0x0B -> cmos_reg (trace s') r = cmos_reg (trace s) r) /\
    (forall p v, EvOut p v ∈ trace s' -> EvOut p v ∈ trace s \/ p = 0x70 \/ p = 0x71).
Proof.
  destruct (InitializeRTC_run s) as (b & a & R & Hb & Ha).
  eexists. exists a, b. split; [exact R|]. unfold rtc_trace.
  cbn [IF mem driver_g with_IF with_trace trace]. split_and!; try done; try lia.
  - cbn. f_equal. apply Z.eqb_eq.
    apply (all_byte_spec (fun b => u8 (Z.lor b 0x40) =? setf b bf_PIE 1)); [by vm_compute | done].
  - cbn. f_equal. apply Z.eqb_eq.
    apply (all_byte_spec (fun a => u8 (Z.lor (Z.land a 0xF0) 15) =? setf a bf_RS 15)); [by vm_compute | done].
  - intros r Hr1 Hr2. cbn [app cmos_reg cmos_sel]. cbn [Z.eqb Pos.eqb andb].
    change (Z.land 138 127) with 10. change (Z.land 139 127) with 11.
    by rewrite (proj2 (Z.eqb_neq 10 r)), (proj2 (Z.eqb_neq 11 r)) by lia.
  - intros p v Hin. cbn [app] in Hin.
    repeat (apply elem_of_cons in Hin as [[= -> ->]|Hin]; [by auto|]).
    repeat (apply elem_of_cons in Hin as [Hin|Hin]; [by (discriminate || (injection Hin as -> ->; auto))|]).
    by left.
Qed.

(** ** The interval timer *)

(** [(uint8_t)11931] *)
Definition DIVISOR : Z := u8 11931.

Definition InitializePIT : M unit :=
  cli;;
  outb 0x48 (Z.lor (Z.lor (Z.lor 0x00 0x06) 0x30) 0x00);;
  io_wait;;
  outb 0x40 DIVISOR;;
  io_wait;;
  outb 0x40 (Z.shiftr DIVISOR 8);;
  io_wait;;
  sti.

(** [int] overflow is left to the compiler, which wraps around here. *)
Definition PITDriver : M unit :=
  modify (fun s => set_tensMsSinceBoot (s32 (tensMsSinceBoot (driver_g s) + 1)) s).

(** ** system/cpuid.c

    The [cpuid] instruction is a parameter: the registers eax, ebx, ecx and edx for
    a leaf.  Nothing calls the routine yet. *)

Record CPUIDRegisters := { eax : Z; ebx : Z; ecx : Z; edx : Z }.

Definition getCpuidData (cpuid : Z -> Z * Z * Z * Z) : CPUIDRegisters :=
  let '(a, b, c, d) := cpuid 0x80000001 in {| eax := a; ebx := b; ecx := c; edx := d |}.

(** The bytes written to a port, oldest first. *)
Definition port_writes (p : Z) (t : list event) : list Z :=
  rev (omap (fun e => match e with EvOut q v => if q =? p then Some v else None | _ => None end) t).

(** [InitializePIT] sends no command to the timer (port 0x43), and the
    reload value it writes is 155, not 11931: the cast applies before the shift. *)
Theorem InitializePIT_divisor s :
  exists s', InitializePIT s = Ok tt s' /\ IF s' = true /\
    port_writes 0x43 (trace s') = port_writes 0x43 (trace s) /\
    port_writes 0x40 (trace s') = port_writes 0x40 (trace s) ++ [155; 0].
Proof.
  eexists. split; [reflexivity|]. unfold port_writes. cbn [trace with_IF with_trace IF].
  split_and!; [done | done |]. cbn. by rewrite <- app_assoc.
Qed.

(** ** The keyboard *)

Definition kbdus : list Z :=
  [0; 27; 49; 50; 51; 52; 53; 54; 55; 56; 57; 48; 45; 61; 8; 9;
   113; 119; 101; 114; 116; 121; 117; 105; 111; 112; 91; 93; 10; 0;
   97; 115; 100; 102; 103; 104; 106; 107; 108; 59; 39; 96; 0;
   92; 122; 120; 99; 118; 98; 110; 109; 44; 46; 47; 0; 42; 0; 32; 0; 0;
   0; 0; 0; 0; 0; 0; 0; 0; 0; 0; 0; 0; 0; 0; 45; 0; 0; 0; 43] ++ repeat 0 49.

Definition shiftKbdus : list Z :=
  [0; 27; 33; 64; 35; 36; 37; 94; 38; 42; 40; 41; 95; 43; 8; 9;
   81; 87; 69; 82; 84; 89; 85; 73; 79; 80; 123; 125; 10; 0;
   65; 83; 68; 70; 71; 72; 74; 75; 76; 58; 34; 126; 0;
   124; 90; 88; 67; 86; 66; 78; 77; 60; 62; 63; 0; 42; 0; 32; 0; 0;
   0; 0; 0; 0; 0; 0; 0; 0; 0; 0; 0; 0; 0; 0; 45; 0; 0; 0; 43] ++ repeat 0 49.

Section Keyboard.
(** What lies behind the two tables of 128 entries. *)
Context (beyond : bool -> Z -> Z).

Definition key_char (shift : bool) (scancode : Z) : Z :=
  let t := if shift then shiftKbdus else kbdus in
  if scancode <? 128 then default 0 (t !! Z.to_nat scancode) else beyond shift scancode.

Definition KeyboardDriver (scancode : Z) : M unit :=
  shift ← gets (fun s => shiftpressed (driver_g s));
  when (scancode <? 0x81) (printf "%c" [AVal (key_char shift scancode)]);;
  when (scancode =? 0x2A) (modify (set_shiftpressed true));;
  when (scancode =? 0xAA) (modify (set_shiftpressed false)).

(** What [KeyboardDriver] prints, oldest first. *)
Definition typed_char (e : event) : option Z :=
  match e with
  | EvPrintf fmt [AVal v] => if String.eqb fmt "%c" then Some v else None
  | _ => None
  end.
Definition typed (t : list event) : list Z := rev (omap typed_char t).

(** The abstract keyboard: the next shift state and the characters. *)
Definition shift_after (shift : bool) (code : Z) : bool :=
  if code =? 0x2A then true else if code =? 0xAA then false else shift.
Definition chars_of (shift : bool) (code : Z) : list Z :=
  if code <? 0x81 then [key_char shift code] else [].
Fixpoint press (shift : bool) (codes : list Z) : bool * list Z :=
  match codes with
  | [] => (shift, [])
  | c :: codes =>
      let '(shift', text) := press (shift_after shift c) codes in (shift', chars_of shift c ++ text)
  end.

Fixpoint keyboard (codes : list Z) : M unit :=
  match codes with [] => ret tt | c :: codes => KeyboardDriver c;; keyboard codes end.

(** One scan code: at most one character is printed. *)
Definition key_events (shift : bool) (code : Z) : list event :=
  (fun c => EvPrintf "%c" [AVal c]) <$> chars_of shift code.

Lemma KeyboardDriver_run code s :
  let shift := shiftpressed (driver_g s) in
  KeyboardDriver code s = Ok tt (set_shiftpressed (shift_after shift code) (printed s (key_events shift code))).
Proof using.
  destruct s as [m t po mm i c a p sc d]. destruct d as [d1 d2 d3 d4 d5 b d7 d8].
  unfold KeyboardDriver, key_events, chars_of, shift_after. cbn [shiftpressed driver_g].
  erewrite bind_Ok by reflexivity. cbv beta. cbn [shiftpressed driver_g].
  destruct (code <? 0x81); cbn [when]; (erewrite bind_Ok by reflexivity); cbv beta;
    (destruct (Z.eqb_spec code 0x2A) as [->|H2A]; cbn [when];
     [|destruct (Z.eqb_spec code 0xAA); cbn [when]]); reflexivity.
Qed.

Lemma typed_key_events shift code t : typed (rev (key_events shift code) ++ t) = typed t ++ chars_of shift code.
Proof using.
  unfold typed, key_events, chars_of. destruct (code <? 0x81); cbn; [done | by rewrite app_nil_r].
Qed.

Lemma keyboard_run codes s :
  exists s', keyboard codes s = Ok tt s' /\
    (shiftpressed (driver_g s'), typed (trace s')) =
      (let '(shift, text) := press (shiftpressed (driver_g s)) codes in
       (shift, typed (trace s) ++ text)) /\
    mem s' = mem s.
Proof using.
  revert s. induction codes as [|c codes IH]; intros s; cbn [keyboard press].
  - exists s. by rewrite app_nil_r.
  - pose proof (KeyboardDriver_run c s) as R1. cbv zeta in R1. set (s1 := set_shiftpressed _ _) in R1.
    destruct (IH s1) as (s2 & R2 & E2 & M2). exists s2.
    split; [by erewrite bind_Ok by exact R1|].
    change (shiftpressed (driver_g s1)) with (shift_after (shiftpressed (driver_g s)) c) in E2.
    change (trace s1) with (rev (key_events (shiftpressed (driver_g s)) c) ++ trace s) in E2.
    rewrite typed_key_events in E2.
    destruct (press (shift_after (shiftpressed (driver_g s)) c) codes) as [b text].
    rewrite E2, app_assoc. split; [done | exact M2].
Qed.

Lemma press_app shift l1 l2 :
  press shift (l1 ++ l2) =
    let '(b1, t1) := press shift l1 in let '(b2, t2) := press b1 l2 in (b2, t1 ++ t2).
Proof using.
  revert shift. induction l1 as [|c l1 IH]; intros shift; cbn [press app]; [by destruct (press shift l2)|].
  rewrite IH. destruct (press (shift_after shift c) l1) as [b1 t1]. destruct (press b1 l2) as [b2 t2].
  by rewrite app_assoc.
Qed.

(** The keyboard itself: scan code set 1 of the US layout, whatever the driver's tables
    say.  A row is the make code of its first key and the characters of its keys, from
    left to right, without shift and with it. *)
Definition char_codes (t : string) : list Z := (fun c => Z.of_nat (Ascii.nat_of_ascii c)) <$> String.list_ascii_of_string t.
Definition quotation : list Z := [34].
Definition us_rows : list (Z * list Z * list Z) :=
  [(0x02, char_codes "1234567890-=", char_codes "!@#$%^&*()_+");
   (0x10, char_codes "qwertyuiop[]", char_codes "QWERTYUIOP{}");
   (0x1E, char_codes "asdfghjkl;'`", char_codes "ASDFGHJKL:" ++ quotation ++ char_codes "~");
   (0x2B, char_codes "\zxcvbnm,./", char_codes "|ZXCVBNM<>?");
   (0x39, char_codes " ", []);
   (0x0F, [9], []);       (* tab *)
   (0x1C, [10], [])].     (* enter *)

(** The key with character [c], pressed and released, with shift held if it takes it. *)
Definition key_index (row : list Z) (c : Z) : option Z :=
  (fun k => Z.of_nat k.1) <$> list_find (fun x => x = c) row.
Definition row_strokes (c : Z) (row : Z * list Z * list Z) : list Z :=
  let '(first, plain, shifted) := row in
  match key_index plain c, key_index shifted c with
  | Some k, _ => [first + k; first + k + 0x80]
  | None, Some k => [0x2A; first + k; first + k + 0x80; 0xAA]
  | None, None => []
  end.
Definition keystrokes (c : Z) : list Z := us_rows ≫= row_strokes c.

(** The printable characters, tab and line feed. *)
Definition printable (c : Z) : bool := ((32 <=? c) && (c <=? 126)) || (c =? 9) || (c =? 10).

Lemma keystrokes_press c :
  0 <= c < 256 -> printable c = true ->
  exists text, press false (keystrokes c) = (false, text) /\ filter (fun x => x <> 0) text = [c].
Proof using.
  intros Hc Hp. exists (press false (keystrokes c)).2.
  assert (Hall : all_byte (fun c => implb (printable c)
    (bool_decide ((press false (keystrokes c)).1 = false /\
       filter (fun x => x <> 0) (press false (keystrokes c)).2 = [c]))) = true) by by vm_compute.
  pose proof (all_byte_spec _ c Hall Hc) as H. cbv beta in H. rewrite Hp in H. cbn [implb] in H.
  apply bool_decide_eq_true_1 in H as [H1 H2]. split; [|done].
  by destruct (press false (keystrokes c)); cbn in *; subst.
Qed.

Lemma text_press text :
  Forall (fun c => 0 <= c < 256 /\ printable c = true) text ->
  exists out, press false (text ≫= keystrokes) = (false, out) /\ filter (fun x => x <> 0) out = text.
Proof using.
  induction 1 as [|c text [Hc Hp] Ht (out & Ho & Hf)]; [by exists []|].
  destruct (keystrokes_press c Hc Hp) as (t & Hk & Hkf).
  exists (t ++ out). rewrite bind_cons, press_app, Hk, Ho, filter_app, Hkf, Hf. done.
Qed.

Lemma keystrokes_bytes text :
  Forall (fun c => 0 <= c < 256 /\ printable c = true) text ->
  Forall (fun c => 0 <= c < 256) (text ≫= keystrokes).
Proof using.
  clear beyond. assert (Hall : all_byte (fun c => forallb (fun k => (0 <=? k) && (k <? 256)) (keystrokes c)) = true) by by vm_compute.
  induction 1 as [|c text [Hc Hp] Ht IH]; [constructor|]. rewrite bind_cons. apply Forall_app. split; [|exact IH].
  pose proof (all_byte_spec _ c Hall Hc) as H. cbv beta in H. rewrite forallb_forall in H.
  apply Forall_forall. intros k Hk%list_elem_of_In%H. lia.
Qed.

(** Every text can be typed: for printable characters, pressing and releasing
    their keys - with shift held where needed - makes [KeyboardDriver] print
    exactly the text, apart from the null characters it prints for the shift
    key, and leaves shift released. *)
Theorem keyboard_types_text text s :
  Forall (fun c => 0 <= c < 256 /\ printable c = true) text ->
  shiftpressed (driver_g s) = false ->
  exists s' out, keyboard (text ≫= keystrokes) s = Ok tt s' /\
    shiftpressed (driver_g s') = false /\ mem s' = mem s /\
    typed (trace s') = typed (trace s) ++ out /\ filter (fun x => x <> 0) out = text.
Proof using.
  intros Ht Hs.
  destruct (text_press text Ht) as (out & Ho & Hf). destruct (keyboard_run (text ≫= keystrokes) s) as (s' & R & E & M).
  rewrite Hs, Ho in E. injection E as E1 E2. by exists s', out.
Qed.
End Keyboard.

Lemma keyboard_types_text_witness :
  exists s' out, keyboard (fun _ _ => 0) ([72; 105; 33] ≫= keystrokes) blank = Ok tt s' /\
    typed (trace s') = out /\ filter (fun x => x <> 0) out = [72; 105; 33].
Proof.
  destruct (keyboard_types_text (fun _ _ => 0) [72; 105; 33] blank) as (s' & out & R & _ & _ & T & F).
  - repeat constructor; lia.
  - reflexivity.
  - exists s', out. split; [exact R|]. split; [exact T | exact F].
Defined.
