(* ===== verification/Interrupts.v ===== *)
(** interrupts/idt.c and the stubs of interrupts/interrupt.asm, syscall.c: the
    interrupt descriptor table, the handlers behind its gates, and the start of
    interrupt handling. *)
From S2P Require Import Prelude Memory Machine Bitfield PageSource Heap PageWalk Paging.
From S2P Require Import CString Scheduler SchedulerSpec RoundRobin Acpi Apic Devices.

(** ** Handlers *)

Inductive handler :=
  | H_DivZero | H_Breakpoint | H_Overflow | H_BoundRageExceeded | H_InvalidOpcode
  | H_DeviceNotAvailable | H_DF | H_GPFault | H_InvalidTSS | H_PageFault
  | H_Keyboard | H_TimerStub | H_SyscallStub.

#[export] Instance handler_eq_dec : EqDecision handler.
Proof. solve_decision. Defined.

(** Where the linker puts the table, its pointer and the handlers. *)
Class IdtStatics := {
  addr_idt : Z;
  addr_idtr : Z;
  handler_addr : handler -> Z;
}.

Class IdtStaticsOk `{IdtStatics} := {
  idt_range : PAGE <= addr_idt /\ addr_idt + 4096 <= 2 ^ 64;
  idtr_range : PAGE <= addr_idtr;
  handler_range h : 0 <= handler_addr h < 2 ^ 64;
  idt_idtr_apart : apart addr_idt 4096 addr_idtr 10;
}.

Section Handlers.
Context `{Statics} (beyond : bool -> Z -> Z).

Definition DivZeroHandler : M unit := CommonExceptionHandler "Division by zero".
Definition BreakpointHandler : M unit := printf "Breakpoint reached!\n" [].
Definition OverflowHandler : M unit := CommonExceptionHandler "Overflow exception".
Definition BoundRageExceededHandler : M unit := CommonExceptionHandler "Bound range exceeded".
Definition InvalidOpcodeHandler : M unit := CommonExceptionHandler "Invalid opcode".
Definition DeviceNotAvailableHandler : M unit := CommonExceptionHandler "Device not available".
Definition DFHandler : M unit := CommonExceptionHandler "Double fault".
Definition GPFaultHandler : M unit := CommonExceptionHandler "General protection fault".
Definition InvalidTSSHandler : M unit := CommonExceptionHandler "Invalid TSS".
Definition PageFaultHandler : M unit := CommonExceptionHandler "Page fault".

Definition KeyboardHandler : M unit :=
  LoadKernelPML4;;
  sc ← inb 0x60;
  KeyboardDriver beyond sc;;
  LAPIC_EOI.

Definition SyscallHandler : M unit := printf "Hello from a syscall!\n" [].

Definition DisablePIC : M unit := outb 0xa1 0xff;; outb 0x21 0xff.
End Handlers.

(** ** The descriptor table *)

Definition IDT_GATE_INTERRUPT : Z := 0x8E.
Definition sizeof_InterruptDescriptor : Z := 16.
Definition IRQ (n : Z) : Z := 32 + n.

Definition INTERRUPT_DIV_BY_ZERO : Z := 1.
Definition INTERRUPT_BREAKPOINT : Z := 3.
Definition INTERRUPT_OVERFLOW : Z := 4.
Definition INTERRUPT_BOUND_RAGE_EXCEEDED : Z := 5.
Definition INTERRUPT_INVALID_OPCODE : Z := 6.
Definition INTERRUPT_DEVICE_NOT_AVAILABLE : Z := 7.
Definition INTERRUPT_DOUBLE_FAULT : Z := 8.
Definition INTERRUPT_INVALID_TSS : Z := 10.
Definition INTERRUPT_GP_FAULT : Z := 13.
Definition INTERRUPT_PAGE_FAULT : Z := 14.
Definition IRQ_KEYBOARD : Z := 1.
Definition IRQ_RTC : Z := 8.

Definition PIC1 : Z := 0x20.
Definition PIC2 : Z := 0xA0.
Definition PIC1_DATA : Z := PIC1 + 1.
Definition PIC2_DATA : Z := PIC2 + 1.
Definition PIC1_COMMAND : Z := PIC1.
Definition PIC2_COMMAND : Z := PIC2.
Definition ICW1_ICW4 : Z := 0x01.
Definition ICW1_INIT : Z := 0x10.
Definition ICW4_8086 : Z := 0x01.

Definition AddIDTEntry (idt offset index GATE_TYPE : Z) : M unit :=
  let e := idt + sizeof_InterruptDescriptor * index in
  store 2 e (u16 (Z.land offset 0x000000000000ffff));;
  store 2 (e + 6) (u16 (Z.shiftr (Z.land offset 0x00000000ffff0000) 16));;
  store 4 (e + 8) (u32 (Z.shiftr (Z.land offset 0xffffffff00000000) 32));;
  store 1 (e + 5) GATE_TYPE;;
  store 1 (e + 4) 0;;
  store 2 (e + 2) 0x08;;
  store 4 (e + 12) 0.

Definition RemapPIC (offset1 offset2 : Z) : M unit :=
  a1 ← inb PIC1_DATA;
  a2 ← inb PIC2_DATA;
  outb PIC1_COMMAND (Z.lor ICW1_INIT ICW1_ICW4);; io_wait;;
  outb PIC2_COMMAND (Z.lor ICW1_INIT ICW1_ICW4);; io_wait;;
  outb PIC1_DATA offset1;; io_wait;;
  outb PIC2_DATA offset2;; io_wait;;
  outb PIC1_DATA 4;; io_wait;;
  outb PIC2_DATA 2;; io_wait;;
  outb PIC1_DATA ICW4_8086;; io_wait;;
  outb PIC2_DATA ICW4_8086;; io_wait;;
  outb PIC1_DATA a1;;
  outb PIC2_DATA a2.

(** The calls of [AddIDTEntry], in order: the handler and its vector. *)
Definition idt_table : list (handler * Z) :=
  [(H_DivZero, INTERRUPT_DIV_BY_ZERO); (H_Overflow, INTERRUPT_OVERFLOW);
   (H_BoundRageExceeded, INTERRUPT_BOUND_RAGE_EXCEEDED); (H_InvalidOpcode, INTERRUPT_INVALID_OPCODE);
   (H_DeviceNotAvailable, INTERRUPT_DEVICE_NOT_AVAILABLE); (H_DF, INTERRUPT_DOUBLE_FAULT);
   (H_InvalidTSS, INTERRUPT_INVALID_TSS); (H_GPFault, INTERRUPT_GP_FAULT); (H_PageFault, INTERRUPT_PAGE_FAULT);
   (H_Keyboard, IRQ IRQ_KEYBOARD); (H_Breakpoint, INTERRUPT_BREAKPOINT);
   (H_SyscallStub, 0x80); (H_TimerStub, IRQ IRQ_RTC)].

Section Initialize.
Context `{IdtStatics}.

Fixpoint install (l : list (handler * Z)) : M unit :=
  match l with
  | [] => ret tt
  | (h, v) :: l => AddIDTEntry addr_idt (handler_addr h) v IDT_GATE_INTERRUPT;; install l
  end.

(** The tables; [sizeof(struct InterruptDescriptor * )] is the size of a
    pointer. *)
Definition fill_tables : M unit :=
  memset addr_idt 0 (8 * 256);;
  store 2 addr_idtr 0x0fff;;
  store 8 (addr_idtr + 2) addr_idt;;
  install idt_table.

Definition InitializeIDT (fuel : nat) : M unit :=
  fill_tables;;
  emit (EvLidt addr_idtr);;
  RemapPIC 0x20 0x28;;
  DisablePIC;;
  InitializeAPIC fuel;;
  IOAPICRegisterIRQ 0x28 8;;
  InitializeRTC;;
  IOAPICRegisterIRQ 0x21 1;;
  sti.
End Initialize.

(** ** What the processor reads *)

Record gate := Gate { gate_offset : Z; gate_selector : Z; gate_ist : Z; gate_attr : Z }.

Definition gate_at (m : gmap Z Z) (idt v : Z) : gate :=
  let e := idt + 16 * v in
  Gate (ld m 2 e + 2 ^ 16 * ld m 2 (e + 6) + 2 ^ 32 * ld m 4 (e + 8))
       (ld m 2 (e + 2)) (ld m 1 (e + 4)) (ld m 1 (e + 5)).

(** Bit 7 of the attributes: the gate is present. *)
Definition gate_present (g : gate) : bool := Z.testbit (gate_attr g) 7.
