(* ===== verification/Stubs.v ===== *)
(** interrupts/interrupt.asm: the assembly stubs of the clock and of the system call,
    from the moment the processor takes the interrupt to the one [IRETQ] leaves it in.

    The general registers and the interrupt frame are records; the pushes and pops of
    the stubs are stores and loads below the stack pointer.  Both stubs call
    [LoadKernelPML4] before they save anything; by the System V calling convention a
    call may change the nine registers the caller must save, and [scratch] is what it
    leaves in them. *)
From S2P Require Import Prelude Memory Machine Bitfield PageSource Heap PageWalk Paging.
From S2P Require Import CString Scheduler SchedulerSpec RoundRobin Acpi Apic Devices Interrupts.

(** ** The processor *)

Record regs := Regs {
  RAX : Z; RBX : Z; RCX : Z; RDX : Z; RSI : Z; RDI : Z; RBP : Z;
  R8 : Z; R9 : Z; R10 : Z; R11 : Z; R12 : Z; R13 : Z; R14 : Z; R15 : Z;
}.

(** What the processor pushes for an interrupt and [IRETQ] pops. *)
Record frame := Frame { RIP : Z; CS : Z; FLAGS : Z; RSP : Z; SS : Z }.
Record cpu := Cpu { gprs : regs; iret : frame }.

(** What a call leaves in the registers it need not preserve. *)
Record scratch := Scratch {
  x_rax : Z; x_rcx : Z; x_rdx : Z; x_rsi : Z; x_rdi : Z;
  x_r8 : Z; x_r9 : Z; x_r10 : Z; x_r11 : Z;
}.
Definition after_call (x : scratch) (r : regs) : regs :=
  Regs (x_rax x) (RBX r) (x_rcx x) (x_rdx x) (x_rsi x) (x_rdi x) (RBP r)
       (x_r8 x) (x_r9 x) (x_r10 x) (x_r11 x) (R12 r) (R13 r) (R14 r) (R15 r).

(** The order of [struct Registers] in memory. *)
Definition cpu_words (c : cpu) : list Z :=
  let r := gprs c in let f := iret c in
  [R15 r; R14 r; R13 r; R12 r; R11 r; R10 r; R9 r; R8 r; RBP r; RDI r; RSI r; RDX r; RCX r; RBX r; RAX r;
   RIP f; CS f; FLAGS f; RSP f; SS f].
Definition scratch_words (x : scratch) : list Z :=
  [x_rax x; x_rcx x; x_rdx x; x_rsi x; x_rdi x; x_r8 x; x_r9 x; x_r10 x; x_r11 x].
Definition word64 (v : Z) : Prop := 0 <= v < 2 ^ 64.
Definition cpu_ok (c : cpu) : Prop := Forall word64 (cpu_words c).
Definition scratch_ok (x : scratch) : Prop := Forall word64 (scratch_words x).

#[export] Instance word64_dec v : Decision (word64 v).
Proof. unfold word64. apply _. Defined.
#[export] Instance cpu_ok_dec c : Decision (cpu_ok c).
Proof. unfold cpu_ok. apply _. Defined.
#[export] Instance scratch_ok_dec x : Decision (scratch_ok x).
Proof. unfold scratch_ok. apply _. Defined.

(** ** Push, pop, and the interrupt frame *)

Fixpoint pushes (rsp : Z) (vs : list Z) : M unit :=
  match vs with
  | [] => ret tt
  | v :: vs => store 8 (rsp - 8) v;; pushes (rsp - 8) vs
  end.

(** The processor enters a gate of type 0xE: it pushes the frame at the (aligned)
    stack pointer and clears the interrupt flag; [IRETQ] pops the frame and takes the
    interrupt flag from bit 9 of FLAGS. *)
Definition interrupt_enter (rsp : Z) (f : frame) : M unit :=
  pushes rsp [SS f; RSP f; FLAGS f; CS f; RIP f];; cli.
Definition iretq (rsp : Z) : M frame :=
  rip ← load 8 rsp;
  cs ← load 8 (rsp + 8);
  flags ← load 8 (rsp + 16);
  sp ← load 8 (rsp + 24);
  ss ← load 8 (rsp + 32);
  modify (fun s => with_IF s (Z.testbit flags 9));;
  ret (Frame rip cs flags sp ss).

(** ** The stubs

    [stack] is the stack pointer after the pushes, the argument of the handler.  The
    return address of the call of [LoadKernelPML4] lies where RAX is pushed next. *)
Section Stubs.
Context `{Statics}.

(** The pops of [TimerStub] and its [IRETQ]. *)
Definition timer_return (stack : Z) : M cpu :=
  r15 ← load 8 stack;
  r14 ← load 8 (stack + 8);
  r13 ← load 8 (stack + 16);
  r12 ← load 8 (stack + 24);
  r11 ← load 8 (stack + 32);
  r10 ← load 8 (stack + 40);
  r9 ← load 8 (stack + 48);
  r8 ← load 8 (stack + 56);
  rbp ← load 8 (stack + 64);
  rdi ← load 8 (stack + 72);
  rsi ← load 8 (stack + 80);
  rdx ← load 8 (stack + 88);
  rcx ← load 8 (stack + 96);
  rbx ← load 8 (stack + 104);
  rax ← load 8 (stack + 112);
  f ← iretq (stack + 120);
  ret (Cpu (Regs rax rbx rcx rdx rsi rdi rbp r8 r9 r10 r11 r12 r13 r14 r15) f).

Definition TimerStub (fuel : nat) (stack : Z) (x : scratch) (c : cpu) : M cpu :=
  interrupt_enter (stack + 160) (iret c);;
  LoadKernelPML4;;
  let r := after_call x (gprs c) in
  pushes (stack + 120) [RAX r; RBX r; RCX r; RDX r; RSI r; RDI r; RBP r;
                        R8 r; R9 r; R10 r; R11 r; R12 r; R13 r; R14 r; R15 r];;
  TaskSwitch fuel stack;;
  LAPIC_EOI;;
  _TaskSwitch_Stage2;;
  timer_return stack.

(** The system call saves seven registers; the others are what its calls leave. *)
Definition syscall_return (stack : Z) (r : regs) : M cpu :=
  rbp ← load 8 stack;
  rdi ← load 8 (stack + 8);
  rsi ← load 8 (stack + 16);
  rdx ← load 8 (stack + 24);
  rcx ← load 8 (stack + 32);
  rbx ← load 8 (stack + 40);
  rax ← load 8 (stack + 48);
  f ← iretq (stack + 56);
  ret (Cpu (Regs rax rbx rcx rdx rsi rdi rbp (R8 r) (R9 r) (R10 r) (R11 r) (R12 r) (R13 r) (R14 r) (R15 r)) f).

Definition SyscallStub (stack : Z) (x1 x2 x3 : scratch) (c : cpu) : M cpu :=
  interrupt_enter (stack + 96) (iret c);;
  LoadKernelPML4;;
  let r := after_call x1 (gprs c) in
  pushes (stack + 56) [RAX r; RBX r; RCX r; RDX r; RSI r; RDI r; RBP r];;
  SyscallHandler;;
  let r := after_call x2 r in
  LAPIC_EOI;;
  let r := after_call x3 r in
  syscall_return stack r.
End Stubs.

(** The context a timer interrupt saves: the interrupted one, but for what
    [LoadKernelPML4] leaves in the caller-saved registers. *)
Definition entered (x : scratch) (c : cpu) : cpu := Cpu (after_call x (gprs c)) (iret c).

(** What a system call returns to: R8 to R11 are left by the last call. *)
Definition syscalled (x1 x3 : scratch) (c : cpu) : cpu :=
  let r := after_call x1 (gprs c) in
  Cpu (Regs (RAX r) (RBX r) (RCX r) (RDX r) (RSI r) (RDI r) (RBP r)
            (x_r8 x3) (x_r9 x3) (x_r10 x3) (x_r11 x3) (R12 r) (R13 r) (R14 r) (R15 r)) (iret c).

(** Neither touches the instruction pointer, the flags, the stack pointer, or the
    registers a call preserves. *)
Record same_flow (c c' : cpu) : Prop := {
  sf_iret : iret c' = iret c;
  sf_rbx : RBX (gprs c') = RBX (gprs c);
  sf_rbp : RBP (gprs c') = RBP (gprs c);
  sf_r12 : R12 (gprs c') = R12 (gprs c);
  sf_r13 : R13 (gprs c') = R13 (gprs c);
  sf_r14 : R14 (gprs c') = R14 (gprs c);
  sf_r15 : R15 (gprs c') = R15 (gprs c);
}.
Lemma entered_flow x c : same_flow c (entered x c).
Proof. done. Qed.
Lemma syscalled_flow x1 x3 c : same_flow c (syscalled x1 x3 c).
Proof. done. Qed.

Lemma entered_ok x c : scratch_ok x -> cpu_ok c -> cpu_ok (entered x c).
Proof.
  unfold scratch_ok, cpu_ok. destruct x, c as [[] []]. cbn. intros Hx Hc.
  repeat (apply Forall_cons in Hx as [? Hx]). repeat (apply Forall_cons in Hc as [? Hc]).
  by repeat apply Forall_cons_2.
Qed.

Lemma syscalled_ok x1 x3 c : scratch_ok x1 -> scratch_ok x3 -> cpu_ok c -> cpu_ok (syscalled x1 x3 c).
Proof.
  unfold scratch_ok, cpu_ok. destruct x1, x3, c as [[] []]. cbn. intros Hx Hx3 Hc.
  repeat (apply Forall_cons in Hx as [? Hx]). repeat (apply Forall_cons in Hx3 as [? Hx3]).
  repeat (apply Forall_cons in Hc as [? Hc]). by repeat apply Forall_cons_2.
Qed.

(** ** Words in memory *)

Definition words_at (m : gmap Z Z) (a : Z) (ws : list Z) : Prop :=
  forall i w, ws !! i = Some w -> ld64 m (a + 8 * Z.of_nat i) = w.
Definition cpu_at (m : gmap Z Z) (a : Z) : cpu :=
  let w o := ld64 m (a + o) in
  Cpu (Regs (w 112) (w 104) (w 96) (w 88) (w 80) (w 72) (w 64) (w 56) (w 48) (w 40) (w 32) (w 24) (w 16) (w 8) (w 0))
      (Frame (w 120) (w 128) (w 136) (w 144) (w 152)).

Fixpoint le_bytes (n : nat) (v : Z) : list Z :=
  match n with O => [] | S n => u8 v :: le_bytes n (v / 256) end.
(** The bytes of [struct Registers]. *)
Definition context_bytes (c : cpu) : list Z := cpu_words c ≫= le_bytes 8.

Lemma bytes_at_ld m a n : bytes_at m a n = le_bytes n (ld m n a).
Proof.
  revert a. induction n as [|n IH]; intros a; [done|]. cbn [bytes_at ld le_bytes]. rewrite IH.
  pose proof (rd_range m a). f_equal; [word | f_equal; lia].
Qed.

Lemma bytes_at_split m a n k : bytes_at m a (n + k) = bytes_at m a n ++ bytes_at m (a + Z.of_nat n) k.
Proof.
  revert a. induction n as [|n IH]; intros a; cbn [Nat.add bytes_at app].
  - f_equal. lia.
  - rewrite IH. do 3 f_equal. lia.
Qed.

Lemma words_at_bytes m a ws : words_at m a ws -> bytes_at m a (8 * length ws) = ws ≫= le_bytes 8.
Proof.
  revert a. induction ws as [|w ws IH]; intros a Hw; [done|].
  replace (8 * length (w :: ws))%nat with (8 + 8 * length ws)%nat by (cbn [length]; lia).
  assert (E : ld m 8 a = w) by (rewrite <- (Hw 0%nat w eq_refl); f_equal; lia).
  rewrite bytes_at_split, bytes_at_ld, E, IH; [done|].
  intros i v Hi. rewrite <- (Hw (S i) v Hi). f_equal. lia.
Qed.

Lemma cpu_words_at m a : words_at m a (cpu_words (cpu_at m a)).
Proof. intros i w Hi. do 20 (destruct i as [|i]; [by injection Hi as <-|]). done. Qed.

Lemma cpu_at_words m a c : words_at m a (cpu_words c) -> cpu_at m a = c.
Proof.
  intros Hw. destruct c as [[] []]. unfold cpu_at. f_equal; f_equal;
    first [exact (Hw 0%nat _ eq_refl) | exact (Hw 1%nat _ eq_refl) | exact (Hw 2%nat _ eq_refl)
          | exact (Hw 3%nat _ eq_refl) | exact (Hw 4%nat _ eq_refl) | exact (Hw 5%nat _ eq_refl)
          | exact (Hw 6%nat _ eq_refl) | exact (Hw 7%nat _ eq_refl) | exact (Hw 8%nat _ eq_refl)
          | exact (Hw 9%nat _ eq_refl) | exact (Hw 10%nat _ eq_refl) | exact (Hw 11%nat _ eq_refl)
          | exact (Hw 12%nat _ eq_refl) | exact (Hw 13%nat _ eq_refl) | exact (Hw 14%nat _ eq_refl)
          | exact (Hw 15%nat _ eq_refl) | exact (Hw 16%nat _ eq_refl) | exact (Hw 17%nat _ eq_refl)
          | exact (Hw 18%nat _ eq_refl) | exact (Hw 19%nat _ eq_refl)].
Qed.

(** The bytes at an address are the context of the processor read there, and determine it. *)
Lemma context_at m a : context_bytes (cpu_at m a) = bytes_at m a 160.
Proof. symmetry. exact (words_at_bytes m a _ (cpu_words_at m a)). Qed.

Lemma le_bytes_num n v : 0 <= v < 2 ^ (8 * Z.of_nat n) -> num (le_bytes n v) = v.
Proof.
  revert v. induction n as [|n IH]; intros v Hv; [cbn in *; lia|]. cbn [le_bytes num].
  replace (8 * Z.of_nat (S n)) with (8 + 8 * Z.of_nat n) in Hv by lia. rewrite Z.pow_add_r in Hv by lia.
  rewrite IH; [unfold u8; change (2 ^ 8) with 256; lia|]. change (2 ^ 8) with 256 in Hv.
  split; [apply Z.div_pos; lia | apply Z.div_lt_upper_bound; lia].
Qed.

Lemma words_bytes_inj ws vs :
  Forall word64 ws -> Forall word64 vs -> ws ≫= le_bytes 8 = vs ≫= le_bytes 8 -> length ws = length vs -> ws = vs.
Proof.
  intros Hws. revert vs. induction Hws as [|w ws Hw Hws IH]; intros vs Hvs He Hl; [by destruct vs|].
  destruct vs as [|v vs]; [done|]. apply Forall_cons in Hvs as [Hv Hvs].
  change (le_bytes 8 w ++ (ws ≫= le_bytes 8) = le_bytes 8 v ++ (vs ≫= le_bytes 8)) in He.
  apply app_inj_1 in He as [E He]; [|done]. f_equal.
  - rewrite <- (le_bytes_num 8 w), <- (le_bytes_num 8 v) by done. by rewrite E.
  - apply IH; [done | done | by injection Hl].
Qed.

Lemma cpu_words_inj c c' : cpu_words c = cpu_words c' -> c = c'.
Proof. destruct c as [[] []], c' as [[] []]. cbn. by intros [= -> -> -> -> -> -> -> -> -> -> -> -> -> -> -> -> -> -> -> ->]. Qed.

Lemma cpu_at_ok m a : cpu_ok (cpu_at m a).
Proof.
  unfold cpu_ok, cpu_at, word64. repeat apply Forall_cons_2; try apply Forall_nil_2; apply (ld_range m 8).
Qed.

Lemma context_inj c c' : cpu_ok c -> cpu_ok c' -> context_bytes c = context_bytes c' -> c = c'.
Proof. intros Hc Hc' He. apply cpu_words_inj. by apply words_bytes_inj. Qed.

Lemma context_cpu_at m a c : cpu_ok c -> bytes_at m a 160 = context_bytes c -> c = cpu_at m a.
Proof. intros Hc Hb. apply context_inj; [done | apply cpu_at_ok | by rewrite context_at]. Qed.

Lemma context_length c : length (context_bytes c) = 160%nat.
Proof. done. Qed.

(** ** Pushing *)

Fixpoint pushed (m : gmap Z Z) (rsp : Z) (vs : list Z) : gmap Z Z :=
  match vs with [] => m | v :: vs => pushed (st m 8 (rsp - 8) v) (rsp - 8) vs end.

Lemma pushes_run vs : forall rsp s,
  PAGE + 8 * Z.of_nat (length vs) <= rsp -> pushes rsp vs s = Ok tt (with_mem s (pushed (mem s) rsp vs)).
Proof.
  induction vs as [|v vs IH]; intros rsp s Hp; cbn [pushes pushed length] in *; [by destruct s|].
  erewrite bind_Ok by (apply store_ok; lia). by rewrite IH by lia.
Qed.

Lemma pushed_same vs : forall m rsp,
  same_on (fun x => ~ within x (rsp - 8 * Z.of_nat (length vs)) (8 * Z.of_nat (length vs))) m (pushed m rsp vs).
Proof.
  induction vs as [|v vs IH]; intros m rsp; cbn [pushed length]; [done|].
  etransitivity; [apply same_on_st | eapply same_on_weaken; [apply IH|]]; intros x Hx; [|unfold within in *; lia].
  intros Hw. apply Hx. unfold within in *. lia.
Qed.

Lemma pushed_words vs : forall m rsp, Forall word64 vs ->
  words_at (pushed m rsp vs) (rsp - 8 * Z.of_nat (length vs)) (rev vs).
Proof.
  induction vs as [|v vs IH]; intros m rsp Hv; cbn [pushed rev length]; [done|].
  apply Forall_cons in Hv as [Hv Hvs]. pose proof (IH (st m 8 (rsp - 8) v) (rsp - 8) Hvs) as W.
  pose proof (pushed_same vs (st m 8 (rsp - 8) v) (rsp - 8)) as M. set (n := length vs) in *.
  replace (rsp - 8 - 8 * Z.of_nat n) with (rsp - 8 * Z.of_nat (S n)) in * by lia.
  intros i w Hi. apply lookup_app_Some in Hi as [Hi|[Hge Hi]]; [by apply W|].
  rewrite length_rev in *. fold n in Hge, Hi. destruct (i - n)%nat as [|k] eqn:Hk; [|done]. injection Hi as <-.
  assert (i = n) as -> by lia. replace (rsp - 8 * Z.of_nat (S n) + 8 * Z.of_nat n) with (rsp - 8) by lia.
  rewrite (same_on_ld _ _ _ _ _ M) by (unfold within; lia). rewrite ld64_st_eq. unfold u64, word64 in *.
  by rewrite Z.mod_small.
Qed.

Lemma words_at_app m a l1 l2 :
  words_at m a l1 -> words_at m (a + 8 * Z.of_nat (length l1)) l2 -> words_at m a (l1 ++ l2).
Proof.
  intros H1 H2 i w [Hi|[Hge Hi]]%lookup_app_Some; [by apply H1|]. rewrite <- (H2 _ _ Hi). f_equal. lia.
Qed.
Lemma words_at_keep m m' a ws :
  same_on (fun x => within x a (8 * Z.of_nat (length ws))) m m' -> words_at m a ws -> words_at m' a ws.
Proof.
  intros Hm Hw i w Hi. rewrite <- (Hw i w Hi). apply (same_on_ld _ _ _ _ _ Hm). intros x.
  pose proof (lookup_lt_Some _ _ _ Hi). unfold within. lia.
Qed.

(** ** Into the stub and out of it *)

Lemma LAPIC_EOI_run s :
  PAGE <= localAPIC (driver_g s) ->
  LAPIC_EOI s = Ok tt (with_trace s (EvMmioWrite (localAPIC (driver_g s) + 0xB0) 0 :: trace s)).
Proof.
  intros Hl. unfold LAPIC_EOI. erewrite bind_Ok by reflexivity. cbv beta.
  unfold mmio_write32, null_page. case_Z; [lia | done].
Qed.

Definition frame_words (f : frame) : list Z := [RIP f; CS f; FLAGS f; RSP f; SS f].

(** Memory with the frame and then [vs] pushed so that they end at [stack]. *)
Definition framed (m : gmap Z Z) (stack : Z) (vs : list Z) (f : frame) : gmap Z Z :=
  let n := 8 * Z.of_nat (length vs) in
  pushed (pushed m (stack + n + 40) (rev (frame_words f))) (stack + n) vs.

Lemma framed_same m stack vs f :
  same_on (fun x => ~ within x stack (8 * Z.of_nat (length vs) + 40)) m (framed m stack vs f).
Proof.
  unfold framed. set (n := 8 * _).
  etransitivity; (eapply same_on_weaken; [apply pushed_same|]); intros x Hx; cbn [length rev frame_words app];
    fold n; unfold within in *; lia.
Qed.

Lemma framed_words m stack vs f :
  Forall word64 (frame_words f) -> Forall word64 vs -> words_at (framed m stack vs f) stack (rev vs ++ frame_words f).
Proof.
  intros Hf Hv. unfold framed. set (n := 8 * _). set (m1 := pushed m _ _).
  assert (W1 : words_at m1 (stack + n) (frame_words f)).
  { pose proof (pushed_words (rev (frame_words f)) m (stack + n + 40) ltac:(by apply Forall_rev)) as W.
    rewrite rev_involutive in W. by replace (stack + n + 40 - _) with (stack + n) in W by (cbn; lia). }
  pose proof (pushed_words vs m1 (stack + n) Hv) as W2. pose proof (pushed_same vs m1 (stack + n)) as M2.
  fold n in W2, M2. replace (stack + n - n) with stack in * by lia. apply words_at_app; [done|].
  rewrite length_rev. fold n. eapply words_at_keep; [|exact W1]. eapply same_on_weaken; [exact M2|].
  intros x. unfold within. cbn. lia.
Qed.

Lemma interrupt_enter_run rsp f s :
  PAGE + 40 <= rsp ->
  interrupt_enter rsp f s = Ok tt (with_IF (with_mem s (pushed (mem s) rsp (rev (frame_words f)))) false).
Proof.
  intros Hr. unfold interrupt_enter. by erewrite bind_Ok by (apply pushes_run; cbn; lia).
Qed.

Definition frame_at (m : gmap Z Z) (a : Z) : frame :=
  Frame (ld64 m a) (ld64 m (a + 8)) (ld64 m (a + 16)) (ld64 m (a + 24)) (ld64 m (a + 32)).

Lemma iretq_run a s :
  PAGE <= a -> iretq a s = Ok (frame_at (mem s) a) (with_IF s (Z.testbit (FLAGS (frame_at (mem s) a)) 9)).
Proof. intros Ha. unfold iretq. by repeat (erewrite bind_Ok by (apply load_ok; lia); cbv beta). Qed.

Lemma timer_return_run stack s :
  PAGE <= stack ->
  let c := cpu_at (mem s) stack in
  timer_return stack s = Ok c (with_IF s (Z.testbit (FLAGS (iret c)) 9)).
Proof.
  intros Hs c. unfold timer_return. repeat (erewrite bind_Ok by (apply load_ok; lia); cbv beta).
  erewrite bind_Ok by (apply iretq_run; lia). cbv beta.
  assert (Ef : frame_at (mem s) (stack + 120) = iret c).
  { unfold c, cpu_at, frame_at. cbn [iret]. f_equal; f_equal; lia. }
  unfold ret. rewrite Ef. f_equal. unfold c, cpu_at. rewrite Z.add_0_r. reflexivity.
Qed.

Lemma syscall_return_run stack r s :
  PAGE <= stack ->
  let w o := ld64 (mem s) (stack + o) in
  let f := Frame (w 56) (w 64) (w 72) (w 80) (w 88) in
  syscall_return stack r s =
    Ok (Cpu (Regs (w 48) (w 40) (w 32) (w 24) (w 16) (w 8) (w 0) (R8 r) (R9 r) (R10 r) (R11 r) (R12 r) (R13 r) (R14 r) (R15 r)) f)
       (with_IF s (Z.testbit (FLAGS f) 9)).
Proof.
  intros Hs w f. unfold syscall_return. repeat (erewrite bind_Ok by (apply load_ok; lia); cbv beta).
  erewrite bind_Ok by (apply iretq_run; lia). cbv beta.
  assert (Ef : frame_at (mem s) (stack + 56) = f) by (unfold f, w, frame_at; f_equal; f_equal; lia).
  unfold ret. rewrite Ef. unfold w. rewrite Z.add_0_r. reflexivity.
Qed.

Section Enter.
Context `{Statics}.

(** The machine in which the timer's handler starts. *)
Definition timer_entered (stack : Z) (x : scratch) (c : cpu) (s : machine) : machine :=
  let k := pml4 (paging_g s) in
  Machine (framed (mem s) stack (rev (take 15 (cpu_words (entered x c)))) (iret c)) (EvLoadCR3 k :: trace s)
    (ports s) (mmio s) false k (alloc_g s) (paging_g s) (sched_g s) (driver_g s).

Lemma timer_entered_mem stack x c s :
  PAGE <= stack -> scratch_ok x -> cpu_ok c ->
  same_on (fun a => ~ within a stack 160) (mem s) (mem (timer_entered stack x c s)) /\
  bytes_at (mem (timer_entered stack x c s)) stack 160 = context_bytes (entered x c).
Proof using.
  intros Hs Hx Hc. pose proof (entered_ok x c Hx Hc) as He. cbn [mem timer_entered]. split.
  - exact (framed_same (mem s) stack (rev (take 15 (cpu_words (entered x c)))) (iret c)).
  - pose proof (framed_words (mem s) stack (rev (take 15 (cpu_words (entered x c)))) (iret c)) as W.
    rewrite rev_involutive in W. apply (words_at_bytes _ _ (cpu_words (entered x c))).
    apply W; [exact (Forall_drop _ 15 _ He) | apply Forall_rev; by apply Forall_take].
Qed.

Lemma TimerStub_enter fuel stack x c s :
  PAGE <= stack ->
  TimerStub fuel stack x c s =
    (TaskSwitch fuel stack;; LAPIC_EOI;; _TaskSwitch_Stage2;; timer_return stack) (timer_entered stack x c s).
Proof using.
  intros Hs. unfold TimerStub. erewrite bind_Ok by (apply interrupt_enter_run; lia). cbv beta.
  erewrite bind_Ok by reflexivity. cbv beta.
  erewrite bind_Ok by (apply pushes_run; cbn [length]; lia). cbv beta.
  unfold timer_entered, framed. rewrite length_rev. change (8 * Z.of_nat _) with 120.
  by replace (stack + 120 + 40) with (stack + 160) by lia.
Qed.

(** The machine in which the system call's handler starts. *)
Definition syscall_pushes (x1 : scratch) (c : cpu) : list Z := rev (drop 8 (take 15 (cpu_words (entered x1 c)))).
Definition syscall_mem (stack : Z) (x1 : scratch) (c : cpu) (m : gmap Z Z) : gmap Z Z :=
  framed m stack (syscall_pushes x1 c) (iret c).
Definition syscall_entered (stack : Z) (x1 : scratch) (c : cpu) (s : machine) : machine :=
  let k := pml4 (paging_g s) in
  Machine (syscall_mem stack x1 c (mem s)) (EvLoadCR3 k :: trace s)
    (ports s) (mmio s) false k (alloc_g s) (paging_g s) (sched_g s) (driver_g s).

Lemma SyscallStub_enter stack x1 x2 x3 c s :
  PAGE <= stack ->
  SyscallStub stack x1 x2 x3 c s =
    (SyscallHandler;; LAPIC_EOI;; syscall_return stack (after_call x3 (after_call x2 (after_call x1 (gprs c)))))
      (syscall_entered stack x1 c s).
Proof using.
  intros Hs. unfold SyscallStub. erewrite bind_Ok by (apply interrupt_enter_run; lia). cbv beta.
  erewrite bind_Ok by reflexivity. cbv beta.
  erewrite bind_Ok by (apply pushes_run; cbn [length]; lia). cbv beta.
  unfold syscall_entered, syscall_mem, framed. change (8 * Z.of_nat _) with 56.
  by replace (stack + 56 + 40) with (stack + 96) by lia.
Qed.

Lemma words12 m a b0 b1 b2 b3 b4 b5 b6 b7 b8 b9 b10 b11 :
  words_at m a [b0; b1; b2; b3; b4; b5; b6; b7; b8; b9; b10; b11] ->
  ld64 m (a + 0) = b0 /\ ld64 m (a + 8) = b1 /\ ld64 m (a + 16) = b2 /\ ld64 m (a + 24) = b3 /\
  ld64 m (a + 32) = b4 /\ ld64 m (a + 40) = b5 /\ ld64 m (a + 48) = b6 /\ ld64 m (a + 56) = b7 /\
  ld64 m (a + 64) = b8 /\ ld64 m (a + 72) = b9 /\ ld64 m (a + 80) = b10 /\ ld64 m (a + 88) = b11.
Proof using.
  intros W. split_and!; [exact (W 0%nat _ eq_refl) | exact (W 1%nat _ eq_refl) | exact (W 2%nat _ eq_refl)
    | exact (W 3%nat _ eq_refl) | exact (W 4%nat _ eq_refl) | exact (W 5%nat _ eq_refl) | exact (W 6%nat _ eq_refl)
    | exact (W 7%nat _ eq_refl) | exact (W 8%nat _ eq_refl) | exact (W 9%nat _ eq_refl) | exact (W 10%nat _ eq_refl)
    | exact (W 11%nat _ eq_refl)].
Qed.

(** The handler prints a line and the interrupt is acknowledged; the stub then
    returns. *)
Lemma SyscallStub_run stack x1 x2 x3 c s :
  PAGE <= stack -> scratch_ok x1 -> cpu_ok c -> PAGE <= localAPIC (driver_g s) ->
  let k := pml4 (paging_g s) in
  SyscallStub stack x1 x2 x3 c s = Ok (syscalled x1 x3 c)
    (Machine (syscall_mem stack x1 c (mem s))
      (EvMmioWrite (localAPIC (driver_g s) + 0xB0) 0 :: EvPrintf "Hello from a syscall!\n" [] :: EvLoadCR3 k :: trace s)
      (ports s) (mmio s) (Z.testbit (FLAGS (iret c)) 9) k (alloc_g s) (paging_g s) (sched_g s) (driver_g s)) /\
  same_on (fun a => ~ within a stack 96) (mem s) (syscall_mem stack x1 c (mem s)).
Proof using.
  intros Hs Hx Hc Hl k. pose proof (framed_same (mem s) stack (syscall_pushes x1 c) (iret c)) as M. split; [|exact M].
  pose proof (entered_ok x1 c Hx Hc) as He.
  pose proof (framed_words (mem s) stack (syscall_pushes x1 c) (iret c)) as W. unfold syscall_pushes at 2 3 in W. rewrite rev_involutive in W.
  specialize (W (Forall_drop _ 15 _ He)).
  specialize (W ltac:(apply Forall_rev; by apply Forall_drop, Forall_take)).
  rewrite SyscallStub_enter by done. erewrite bind_Ok by reflexivity. cbv beta.
  erewrite bind_Ok by (by apply LAPIC_EOI_run). cbv beta.
  rewrite syscall_return_run by done. cbn [mem with_trace syscall_entered].
  change (framed _ _ _ _) with (syscall_mem stack x1 c (mem s)) in W.
  destruct (words12 _ _ _ _ _ _ _ _ _ _ _ _ _ _ W) as (-> & -> & -> & -> & -> & -> & -> & -> & -> & -> & -> & ->).
  destruct c as [[] []]. reflexivity.
Qed.
End Enter.
