(* ===== verification/InterruptSpec.v ===== *)
(** The interrupt table the processor reads after [InitializeIDT], and what reaches
    it through the I/O APIC. *)
From S2P Require Import Prelude Memory Machine Bitfield PageSource Heap PageWalk Paging.
From S2P Require Import FrameAlloc Demo CString Scheduler SchedulerSpec RoundRobin SchedWitness.
From S2P Require Import Acpi Apic Devices Interrupts.

(** ** Adding gates *)

Definition in_gate (idt v x : Z) : Prop := within x (idt + 16 * v) 16.

Lemma offset_parts o : 0 <= o < 2 ^ 64 ->
  u16 (Z.land o 0xffff) + 2 ^ 16 * u16 (Z.shiftr (Z.land o 0xffff0000) 16) +
  2 ^ 32 * u32 (Z.shiftr (Z.land o 0xffffffff00000000) 32) = o.
Proof.
  intros Ho.
  assert (H1 : Z.land o 0xffff = o mod 2 ^ 16) by (change 0xffff with (Z.ones 16); by apply Z.land_ones).
  assert (H2 : Z.shiftr (Z.land o 0xffff0000) 16 = o / 2 ^ 16 mod 2 ^ 16).
  { rewrite Z.shiftr_land. change (Z.shiftr 0xffff0000 16) with (Z.ones 16).
    rewrite Z.land_ones by lia. by rewrite Z.shiftr_div_pow2 by lia. }
  assert (H3 : Z.shiftr (Z.land o 0xffffffff00000000) 32 = o / 2 ^ 32 mod 2 ^ 32).
  { rewrite Z.shiftr_land. change (Z.shiftr 0xffffffff00000000 32) with (Z.ones 32).
    rewrite Z.land_ones by lia. by rewrite Z.shiftr_div_pow2 by lia. }
  rewrite H1, H2, H3. unfold u16, u32.
  change (2 ^ 64) with 18446744073709551616 in Ho. change (2 ^ 32) with 4294967296.
  change (2 ^ 16) with 65536. lia.
Qed.

Ltac read_back := repeat rewrite ld_st_ne by (unfold apart; lia); rewrite ld_st_eq.

Lemma u16_mod x : u16 x mod 2 ^ (8 * Z.of_nat 2) = u16 x.
Proof. unfold u16. by rewrite Z.mod_mod. Qed.

Lemma AddIDTEntry_run idt offset v attr s :
  PAGE <= idt -> 0 <= v -> 0 <= offset < 2 ^ 64 -> 0 <= attr < 256 ->
  exists m, AddIDTEntry idt offset v attr s = Ok tt (with_mem s m) /\
    gate_at m idt v = Gate offset 0x08 0 attr /\
    same_on (fun x => ~ in_gate idt v x) (mem s) m.
Proof.
  intros Hi Hv Ho Ha. unfold AddIDTEntry, sizeof_InterruptDescriptor. cbv zeta.
  set (e := idt + 16 * v). assert (He : PAGE <= e) by (unfold e; lia).
  do 6 (erewrite bind_Ok by (apply store_ok; lia); cbv beta). rewrite store_ok by lia.
  eexists. split; [reflexivity|]. cbn [mem with_mem]. split.
  - unfold gate_at. fold e.
    set (m := st (st _ _ _ _) _ _ _).
    assert (G1 : ld m 2 e = u16 (Z.land offset 0xffff)) by (unfold m; read_back; apply u16_mod).
    assert (G2 : ld m 2 (e + 6) = u16 (Z.shiftr (Z.land offset 0xffff0000) 16))
      by (unfold m; read_back; apply u16_mod).
    assert (G3 : ld m 4 (e + 8) = u32 (Z.shiftr (Z.land offset 0xffffffff00000000) 32))
      by (unfold m; read_back; apply u32_idem).
    assert (G4 : ld m 2 (e + 2) = 0x08) by (unfold m; read_back; done).
    assert (G5 : ld m 1 (e + 4) = 0) by (unfold m; read_back; done).
    assert (G6 : ld m 1 (e + 5) = attr) by (unfold m; read_back; by apply Z.mod_small).
    rewrite G1, G2, G3, G4, G5, G6. by rewrite offset_parts.
  - intros x Hx. unfold in_gate, within in Hx. fold e in Hx.
    rewrite !rd_st_ne; [done | ..]; unfold within; lia.
Qed.

(** The vectors of the table. *)
Lemma idt_vectors v : v ∈ idt_table.*2 -> 0 <= v <= 128.
Proof.
  intros Hv. assert (Hall : Forall (fun v => 0 <= v <= 128) idt_table.*2)
    by (apply (bool_decide_unpack _); by vm_compute).
  rewrite Forall_forall in Hall. by apply Hall.
Qed.

Section Install.
Context `{IdtStaticsOk}.

Lemma gate_same m m' idt v :
  same_on (in_gate idt v) m m' -> gate_at m' idt v = gate_at m idt v.
Proof using.
  intros Hm. unfold gate_at. cbv zeta.
  rewrite !(same_on_ld _ _ _ _ _ Hm); [done | ..]; intros x Hx; unfold in_gate, within in *; lia.
Qed.

Lemma install_run l : forall s,
  NoDup l.*2 -> Forall (fun v => 0 <= v < 256) l.*2 ->
  exists m, install l s = Ok tt (with_mem s m) /\
    (forall h v, (h, v) ∈ l ->
      gate_at m addr_idt v = Gate (handler_addr h) 0x08 0 IDT_GATE_INTERRUPT) /\
    same_on (fun x => forall v, v ∈ l.*2 -> ~ in_gate addr_idt v x) (mem s) m.
Proof using All.
  induction l as [|[h v] l IH]; intros s Hnd Hv; cbn [install].
  { exists (mem s). split; [by destruct s|]. split; [by intros ? ? ?%not_elem_of_nil | done]. }
  cbn [fmap list_fmap snd] in *. apply NoDup_cons in Hnd as [Hni Hnd].
  apply Forall_cons in Hv as [Hv0 Hv].
  destruct (AddIDTEntry_run addr_idt (handler_addr h) v IDT_GATE_INTERRUPT s)
    as (m1 & R1 & G1 & M1); [apply idt_range | lia | apply handler_range | unfold IDT_GATE_INTERRUPT; lia |].
  erewrite bind_Ok by exact R1. cbv beta.
  destruct (IH (with_mem s m1) Hnd Hv) as (m2 & R2 & G2 & M2).
  exists m2. split; [exact R2|]. cbn [mem with_mem] in M2. split.
  - intros h' v' [[= -> ->]|Hin]%elem_of_cons; [|by apply G2].
    rewrite <- G1. apply gate_same. eapply same_on_weaken; [exact M2|].
    intros x Hx w Hw Hxw. assert (w <> v) by (intros ->; done).
    unfold in_gate, within in *. lia.
  - intros x Hx. rewrite M2, M1; [done | |].
    + apply Hx. left.
    + intros w Hw. apply Hx. by right.
Qed.

(** Port accesses and prints. *)
Definition port_event (e : event) : Prop :=
  match e with EvOut _ _ | EvIn _ | EvPrintf _ _ => True | _ => False end.

(** Nothing happens to the interrupt controllers during a run of them. *)
Lemma ioapic_ports base r p t :
  Forall port_event p ->
  ioapic_reg base (p ++ t) r = ioapic_reg base t r.
Proof using. induction 1 as [|e p He Hp IH]; [done|]. cbn [app ioapic_reg]. by destruct e. Qed.

(** Runs of port accesses. *)
Definition traced (c : M unit) : Prop := forall s, exists t, c s = Ok tt (with_trace s t).
Lemma traced_outb p v : traced (outb p v).
Proof using. intros s. by eexists. Qed.
Lemma traced_bind (c k : M unit) : traced c -> traced k -> traced (c;; k).
Proof using.
  intros Hc Hk s. destruct (Hc s) as [t R]. destruct (Hk (with_trace s t)) as [t' R'].
  exists t'. erewrite bind_Ok by exact R. exact R'.
Qed.
Lemma traced_inb p (k : Z -> M unit) : (forall a, traced (k a)) -> traced (bind (inb p) k).
Proof using.
  intros Hk s. destruct (Hk (u8 (ports s p (trace s))) (with_trace s (EvIn p :: trace s))) as [t R].
  exists t. exact R.
Qed.

Lemma RemapPIC_run o1 o2 s :
  exists t, RemapPIC o1 o2 s = Ok tt (with_trace s t).
Proof using.
  revert s. change (traced (RemapPIC o1 o2)). unfold RemapPIC, io_wait.
  repeat first [apply traced_inb; intros ? | apply traced_bind | apply traced_outb].
Qed.

Lemma ics_ext m m' a l n :
  same_on (fun x => within x a n) m m' -> ics_len l + 12 <= n -> ics_at m a l -> ics_at m' a l.
Proof using.
  revert a n. induction l as [|c l IH]; intros a n Hm Hn Hl; [done|]. cbn [ics_at ics_len] in *.
  destruct Hl as (H1 & H2 & H3 & H4 & Hl). pose proof (ics_len_nonneg _ _ _ Hl).
  assert (Hld : forall k o, 0 <= o -> o + Z.of_nat k <= 12 -> ld m' k (a + o) = ld m k (a + o)).
  { intros k o Ho Hk. apply (same_on_ld _ _ _ _ _ Hm). unfold within. lia. }
  unfold off_Type, off_ICLength, off_IOAPICAddress, off_GlobalSystemInterruptBase in *.
  rewrite !Hld by lia. split_and!; try done.
  apply (IH _ (n - ic_len c)); [| lia | done].
  eapply same_on_weaken; [exact Hm|]. unfold within. lia.
Qed.

Lemma madt_ext m m' madt l :
  same_on (fun x => within x madt (off_ICStructBase + ics_len l + 12)) m m' ->
  madt_at m madt l 0 -> madt_at m' madt l 0 /\
  ld m' 4 (madt + off_LAPICBase) = ld m 4 (madt + off_LAPICBase).
Proof using.
  intros Hm [H1 H2 H3 H4 H5]. pose proof (ics_len_nonneg _ _ _ H3).
  unfold off_ICStructBase, off_LAPICBase, off_Length in *. split; [split|]; unfold off_ICStructBase, off_Length; try done.
  - rewrite <- H2. apply (same_on_ld _ _ _ _ _ Hm). unfold within. lia.
  - eapply (ics_ext m m' _ l (ics_len l + 12)); [|lia | done]. eapply same_on_weaken; [exact Hm|].
    unfold within. lia.
  - apply (same_on_ld _ _ _ _ _ Hm). unfold within. lia.
Qed.

(** The memory part: the table is cleared - its first half - and filled. *)
Lemma tables_run s :
  exists m, fill_tables s = Ok tt (with_mem s m) /\
    (forall h v, (h, v) ∈ idt_table ->
      gate_at m addr_idt v = Gate (handler_addr h) 0x08 0 IDT_GATE_INTERRUPT) /\
    (forall v, 0 <= v < 128 -> v ∉ idt_table.*2 -> gate_at m addr_idt v = Gate 0 0 0 0) /\
    (forall v, 129 <= v < 256 -> gate_at m addr_idt v = gate_at (mem s) addr_idt v) /\
    ld m 2 addr_idtr = 4095 /\ ld m 8 (addr_idtr + 2) = addr_idt /\
    same_on (fun x => ~ within x addr_idt 4096 /\ ~ within x addr_idtr 10) (mem s) m.
Proof using All.
  destruct idt_range as [Hi1 Hi2]. pose proof idtr_range as Hr. pose proof idt_idtr_apart as Hap.
  unfold fill_tables. erewrite bind_Ok by (apply memset_run; lia). cbv beta.
  set (s1 := with_mem s _).
  erewrite bind_Ok by (apply store_ok; lia). cbv beta.
  erewrite bind_Ok by (apply store_ok; lia). cbv beta. cbn [mem with_mem].
  set (m2 := st (st _ _ _ _) _ _ _). set (s2 := with_mem _ m2).
  destruct (install_run idt_table s2) as (m & R & G & M).
  { apply (bool_decide_unpack _). by vm_compute. }
  { apply (bool_decide_unpack _). by vm_compute. }
  exists m. split; [exact R|]. split; [exact G|]. cbn [mem with_mem s2] in M.
  pose proof idt_vectors as Hv.
  assert (Hidtr : forall x, within x addr_idtr 10 -> rd m x = rd m2 x).
  { intros x Hx. apply M. intros v Hvi Hxv. specialize (Hv v Hvi).
    unfold in_gate, within, apart in *. lia. }
  assert (Hm2 : forall x, within x addr_idt 4096 -> rd m2 x = if decide (within x addr_idt 2048) then 0 else rd (mem s) x).
  { intros x Hx. unfold m2. rewrite !rd_st_ne by (unfold within, apart in *; lia).
    unfold s1. cbn [mem with_mem]. rewrite rd_fill.
    change (Z.of_nat (Z.to_nat (8 * 256))) with 2048. by change (u8 0) with 0. }
  split_and!.
  - intros v Hv0 Hni.
    assert (Hz : forall k o, 0 <= o -> o + Z.of_nat k <= 16 -> ld m k (addr_idt + 16 * v + o) = 0).
    { intros k o Ho Hk. apply (ld_zeroed _ (addr_idt + 16 * v) 16); [|lia|lia].
      intros x Hx. rewrite M.
      - by rewrite Hm2, decide_True by (unfold within in *; lia).
      - intros w Hw Hxw. assert (w <> v) by (intros ->; done). unfold in_gate, within in *. lia. }
    unfold gate_at. rewrite !Hz by lia.
    pose proof (Hz 2%nat 0 ltac:(lia) ltac:(lia)) as Hz0. rewrite Z.add_0_r in Hz0. by rewrite Hz0.
  - intros v Hv0. apply gate_same. intros x Hx. rewrite M.
    + rewrite Hm2, decide_False by (unfold in_gate, within in *; lia). done.
    + intros w Hw Hxw. specialize (Hv w Hw). unfold in_gate, within in *. lia.
  - rewrite (ld_ext m2) by (intros i Hi; apply Hidtr; unfold within in *; lia).
    unfold m2. rewrite ld_st_ne by (unfold apart; lia). by rewrite ld_st_eq.
  - rewrite (ld_ext m2) by (intros i Hi; apply Hidtr; unfold within in *; lia).
    unfold m2. rewrite ld64_st_eq. apply u64_small. lia.
  - intros x [Hx1 Hx2]. rewrite M.
    + unfold m2. rewrite !rd_st_ne by (unfold within in *; lia).
      unfold s1. cbn [mem with_mem]. rewrite rd_fill, decide_False; [done|]. unfold within in *. lia.
    + intros v Hvi Hxv. specialize (Hv v Hvi). unfold in_gate, within in *. lia.
Qed.
End Install.

Section Correct.
Context `{IdtStaticsOk}.

(** The bytes of the MADT the walk reads. *)
Definition madt_bytes_of (madt : Z) (l : list ic) (x : Z) : Prop :=
  within x madt (off_ICStructBase + ics_len l + 12).

(** What else has changed: memory, the trace, the interrupt flag and the
    addresses of the controllers. *)
Definition started (s : machine) (l : list ic) (s' : machine) : Prop :=
  s' = set_localAPIC (ld (mem s) 4 (madtPtr (driver_g s) + off_LAPICBase))
         (set_ioAPIC (last_ioapic l (ioAPIC (driver_g s)))
           (with_IF (with_trace (with_mem s (mem s')) (trace s')) true)).

Lemma InitializeIDT_run fuel l s :
  let madt := madtPtr (driver_g s) in
  madt_at (mem s) madt l 0 -> (length l < fuel)%nat ->
  Forall (fun c => ic_type c = 1 -> PAGE <= ic_addr c) l -> ~ no_ioapic l ->
  (forall x, madt_bytes_of madt l x -> ~ within x addr_idt 4096 /\ ~ within x addr_idtr 10) ->
  exists s', InitializeIDT fuel s = Ok tt s' /\
    started s l s' /\
    (forall h v, (h, v) ∈ idt_table ->
      gate_at (mem s') addr_idt v = Gate (handler_addr h) 0x08 0 IDT_GATE_INTERRUPT) /\
    (forall v, 0 <= v < 128 -> v ∉ idt_table.*2 -> gate_present (gate_at (mem s') addr_idt v) = false) /\
    (forall v, 129 <= v < 256 -> gate_at (mem s') addr_idt v = gate_at (mem s) addr_idt v) /\
    same_on (fun x => ~ within x addr_idt 4096 /\ ~ within x addr_idtr 10) (mem s) (mem s') /\
    let io := last_ioapic l (ioAPIC (driver_g s)) in
    ioapic_entry io (trace s') 0x20 = Some (RedirectionEntry 0x28 0 0 0 0 0 0 0 0 0) /\
    ioapic_entry io (trace s') 0x12 = Some (RedirectionEntry 0x21 0 0 0 0 0 0 0 0 0) /\
    (H_TimerStub, 0x28) ∈ idt_table /\ (H_Keyboard, 0x21) ∈ idt_table.
Proof using All.
  intros madt Hm Hf Hio Hno Hap.
  destruct (tables_run s) as (m & R1 & G & Z1 & Z2 & _ & _ & M). set (s1 := with_mem s m) in *.
  destruct (madt_ext (mem s) m madt l) as [Hm1 HL].
  { eapply same_on_weaken; [exact M|]. exact Hap. } { done. }
  unfold InitializeIDT. erewrite bind_Ok by exact R1. cbv beta.
  erewrite bind_Ok by reflexivity. cbv beta.
  destruct (RemapPIC_run 0x20 0x28 (with_trace s1 (EvLidt addr_idtr :: trace s1))) as (t2 & R2).
  erewrite bind_Ok by exact R2. cbv beta. erewrite bind_Ok by reflexivity. cbv beta.
  set (s3 := with_trace _ _).
  destruct (InitializeAPIC_run fuel l s3 Hm1 Hf Hio) as (s4 & R4 & D4 & L4 & I4 & _).
  erewrite bind_Ok by exact R4. cbv beta. change (ioAPIC (driver_g s3)) with (ioAPIC (driver_g s)) in I4.
  assert (Hbase : PAGE <= ioAPIC (driver_g s4)).
  { rewrite I4. destruct (last_structure_some m l (madt + off_ICStructBase) 0 (ioAPIC (driver_g s)))
      as (_ & _ & c & Hc & Hc1 & <-); [pose proof (md_page _ _ _ _ Hm); unfold off_ICStructBase; lia
        | apply Hm1 | done |]. rewrite Forall_forall in Hio. by apply Hio. }
  erewrite bind_Ok by (apply IOAPICRegisterIRQ_run; [done | lia]). cbv beta.
  set (s5 := with_trace s4 _).
  destruct (InitializeRTC_run s5) as (b & a & R5 & _). erewrite bind_Ok by exact R5. cbv beta.
  set (s6 := with_IF _ true). change (ioAPIC (driver_g s4)) with (ioAPIC (driver_g s6)) in Hbase.
  erewrite bind_Ok by (apply IOAPICRegisterIRQ_run; [done | lia]). cbv beta.
  eexists. split; [reflexivity|]. cbn [IF mem with_IF with_trace driver_g trace].
  assert (Hmem : mem s4 = m) by (by rewrite (driver_run_mem _ _ D4)).
  change (mem s6) with (mem s4). rewrite Hmem.
  change (driver_g s6) with (driver_g s4) in *. set (io := ioAPIC (driver_g s4)) in *.
  split.
  { assert (HL4 : localAPIC (driver_g s4) = ld (mem s) 4 (madt + off_LAPICBase)) by (by rewrite L4).
    unfold started. fold madt. rewrite <- HL4, <- I4. red in D4. unfold s6, s5. rewrite D4. reflexivity. }
  split; [exact G|]. split.
  { intros v Hv Hni. by rewrite (Z1 v Hv Hni). }
  split; [exact Z2|]. split; [exact M|]. cbv zeta. rewrite <- I4. fold io.
  split; [|split; [|split; apply (bool_decide_unpack _); by vm_compute]].
  - unfold ioapic_entry.
    destruct (entry_written_regs io (1 * 2) (entry_raw (RedirectionEntry 0x21 0 0 0 0 0 0 0 0 0)) (trace s6))
      as (_ & _ & K); [lia|]. rewrite !K by (cbv; congruence).
    unfold s6, rtc_trace. cbn [trace with_IF with_trace]. rewrite !ioapic_ports by (repeat constructor).
    apply (entry_written_entry io (8 * 2)); [lia | unfold entry_ok; cbn; lia].
  - apply (entry_written_entry io (1 * 2)); [lia | unfold entry_ok; cbn; lia].
Qed.

(** C15. Starting interrupts: given a well-formed MADT with an I/O APIC, outside
    the tables, [InitializeIDT] terminates with interrupts on; the processor then
    finds each handler behind its vector's gate, no gate present at the other
    vectors below 128, and vectors from 129 on as they were; and the I/O APIC
    delivers the clock (pin 8) and the keyboard (pin 1) to the vectors whose
    gates lead to [TimerStub] and [KeyboardHandler]. *)
Theorem InitializeIDT_installs fuel l s :
  let madt := madtPtr (driver_g s) in
  madt_at (mem s) madt l 0 -> (length l < fuel)%nat ->
  Forall (fun c => ic_type c = 1 -> PAGE <= ic_addr c) l -> ~ no_ioapic l ->
  (forall x, madt_bytes_of madt l x -> ~ within x addr_idt 4096 /\ ~ within x addr_idtr 10) ->
  exists s', InitializeIDT fuel s = Ok tt s' /\ IF s' = true /\
    (forall h v, (h, v) ∈ idt_table ->
      gate_at (mem s') addr_idt v = Gate (handler_addr h) 0x08 0 IDT_GATE_INTERRUPT) /\
    (forall v, 0 <= v < 128 -> v ∉ idt_table.*2 -> gate_present (gate_at (mem s') addr_idt v) = false) /\
    (forall v, 129 <= v < 256 -> gate_at (mem s') addr_idt v = gate_at (mem s) addr_idt v) /\
    same_on (fun x => ~ within x addr_idt 4096 /\ ~ within x addr_idtr 10) (mem s) (mem s') /\
    localAPIC (driver_g s') = ld (mem s) 4 (madt + off_LAPICBase) /\
    let io := ioAPIC (driver_g s') in
    io = last_ioapic l (ioAPIC (driver_g s)) /\
    ioapic_entry io (trace s') 0x20 = Some (RedirectionEntry 0x28 0 0 0 0 0 0 0 0 0) /\
    ioapic_entry io (trace s') 0x12 = Some (RedirectionEntry 0x21 0 0 0 0 0 0 0 0 0) /\
    (H_TimerStub, 0x28) ∈ idt_table /\ (H_Keyboard, 0x21) ∈ idt_table.
Proof using All.
  intros madt Hm Hf Hio Hno Hap.
  destruct (InitializeIDT_run fuel l s Hm Hf Hio Hno Hap) as (s' & R & S & G & N & O & M & T).
  exists s'. split; [exact R|]. red in S.
  assert (IF s' = true /\ localAPIC (driver_g s') = ld (mem s) 4 (madt + off_LAPICBase) /\
    ioAPIC (driver_g s') = last_ioapic l (ioAPIC (driver_g s))) as (-> & -> & ->) by (by rewrite S).
  by split_and!.
Qed.
End Correct.

(** ** Concrete instances *)

Definition demo_handler (h : handler) : Z :=
  match h with H_TimerStub => 0x123456789abc | H_Keyboard => 0xffffffff80004000 | _ => 0xffffffff80003000 end.
#[export] Instance demo_idt : IdtStatics := {
  addr_idt := 0x10000; addr_idtr := 0x11000; handler_addr := demo_handler;
}.
#[export] Instance demo_idt_ok : IdtStaticsOk.
Proof.
  split.
  - split; vm_compute; congruence.
  - vm_compute; congruence.
  - intros h. split; destruct h; vm_compute; congruence.
  - unfold apart. cbn. lia.
Qed.

Definition int_machine : machine := madt_machine 64 ([1; 12; 0; 0] ++ le32 io_base ++ le32 0).

Lemma InitializeIDT_installs_witness :
  exists s', InitializeIDT 3 int_machine = Ok tt s' /\ IF s' = true /\
    gate_at (mem s') 0x10000 0x28 = Gate 0x123456789abc 0x08 0 0x8E /\
    ioapic_entry io_base (trace s') 0x20 = Some (RedirectionEntry 0x28 0 0 0 0 0 0 0 0 0).
Proof.
  destruct (InitializeIDT_installs 3 [cpu_ic; Ic 1 12 io_base 0] int_machine)
    as (s' & R & I & G & _ & _ & _ & _ & Io & E & _ & T & _).
  - split.
    + vm_compute; congruence.
    + by vm_compute.
    + cbn [ics_at]. split_and!; try (by vm_compute); try (vm_compute; congruence).
    + lia.
    + by vm_compute.
  - cbn. lia.
  - repeat constructor; vm_compute; congruence.
  - intros Hn. inversion_clear Hn as [|? ? _ Hn']. inversion_clear Hn' as [|? ? Hc _]. by apply Hc.
  - intros x Hx. unfold madt_bytes_of, within in *. change (madtPtr (driver_g int_machine)) with 0x12000 in Hx. cbn. lia.
  - exists s'. split; [exact R|]. split; [exact I|]. split; [exact (G _ _ T)|].
    rewrite Io in E. exact E.
Defined.
