(* ===== verification/Handlers.v ===== *)
(** The interrupt handlers at work: the timer interrupt steps the scheduler, the
    keyboard interrupt prints what is typed, and each is acknowledged once. *)
From S2P Require Import Prelude Memory Machine Bitfield PageSource Heap PageWalk Paging.
From S2P Require Import FrameAlloc Demo CString Scheduler SchedulerSpec RoundRobin SchedWitness.
From S2P Require Import Acpi Apic Devices Interrupts Stubs InterruptSpec.

(** ** What the scheduler leaves alone *)

(** Port accesses and prints that have nothing to do with the keyboard. *)
Definition offstage (e : event) : Prop :=
  match e with
  | EvOut _ _ => True
  | EvIn p => p <> 0x60
  | EvPrintf fmt _ => fmt <> "%c"%string
  | _ => False
  end.

(** A stretch of work on memory and the process list, with some of them on the way. *)
Record interlude (s s' : machine) : Prop := {
  il_driver : driver_g s' = driver_g s;
  il_alloc : alloc_g s' = alloc_g s;
  il_paging : paging_g s' = paging_g s;
  il_CR3 : CR3 s' = CR3 s;
  il_ports : ports s' = ports s;
  il_trace : exists p, Forall offstage p /\ trace s' = p ++ trace s;
}.
Definition lulls {A} (c : M A) : Prop := forall s a s', c s = Ok a s' -> interlude s s'.

#[export] Instance interlude_refl : Reflexive interlude.
Proof. intros s. split; try done. by exists []. Qed.
#[export] Instance interlude_trans : Transitive interlude.
Proof.
  intros s1 s2 s3 [D1 A1 P1 C1 O1 (p1 & F1 & T1)] [D2 A2 P2 C2 O2 (p2 & F2 & T2)]. split; try congruence.
  exists (p2 ++ p1). split; [by apply Forall_app | by rewrite T2, T1, app_assoc].
Qed.

Lemma lulls_bind {A B} (c : M A) (k : A -> M B) : lulls c -> (forall a, lulls (k a)) -> lulls (bind c k).
Proof.
  intros Hc Hk s a s'. unfold bind. destruct (c s) as [x s1| | |] eqn:Hs; try done.
  intros Hr. transitivity s1; [by apply Hc in Hs | by apply Hk in Hr].
Qed.
Lemma lulls_ret {A} (a : A) : lulls (ret a).
Proof. by intros s x s' [= -> ->]. Qed.
Lemma lulls_gets {A} (g : machine -> A) : lulls (gets g).
Proof. by intros s x s' [= <- ->]. Qed.
Lemma lulls_load n a : lulls (load n a).
Proof. intros s x s'. unfold load. destruct (null_page a); [done|]. by intros [= <- ->]. Qed.
Lemma lulls_store n a v : lulls (store n a v).
Proof.
  intros s x s'. unfold store. destruct (null_page a); [done|]. intros [= <- <-]. split; try done. by exists [].
Qed.
Lemma lulls_emit e : offstage e -> lulls (emit e).
Proof. intros He s x s' [= <- <-]. split; try done. exists [e]. split; [by repeat constructor | done]. Qed.
Lemma lulls_inb p : p <> 0x60 -> lulls (inb p).
Proof. intros Hp s x s' [= _ <-]. split; try done. exists [EvIn p]. split; [by repeat constructor | done]. Qed.
Lemma lulls_IF b : lulls (modify (fun s => with_IF s b)).
Proof. intros s x s' [= <- <-]. split; try done. by exists []. Qed.
Lemma lulls_sched g : lulls (modify (fun s => with_sched s (g s))).
Proof. intros s x s' [= <- <-]. split; try done. by exists []. Qed.
Lemma lulls_fuel {A} : lulls (out_of_fuel (A := A)).
Proof. done. Qed.
Lemma lulls_if {A} (b : bool) (c d : M A) : lulls c -> lulls d -> lulls (if b then c else d).
Proof. by destruct b. Qed.

Create HintDb lulls.
#[export] Hint Resolve lulls_ret lulls_gets lulls_load lulls_store lulls_emit lulls_inb lulls_IF
  lulls_sched lulls_fuel lulls_if : lulls.
#[export] Hint Extern 1 (offstage _) => first [exact I | discriminate] : lulls.
#[export] Hint Extern 1 (_ <> _) => discriminate : lulls.
#[export] Hint Unfold when printf outb cli sti get_current set_current RTC_Check : lulls.
Ltac solve_lulls := autounfold with lulls; repeat first
  [ apply lulls_bind; [|intros] | apply lulls_if | solve [eauto with lulls] ].

Section Timer.
Context `{StaticsOk}.

Lemma memcpy_lulls d a n : lulls (memcpy d a n).
Proof using.
  unfold memcpy. generalize (Z.to_nat n) as k. intros k. revert d a.
  induction k as [|k IH]; intros d a; cbn [memcpy_loop]; solve_lulls.
Qed.

Lemma TerminateTask_loop_lulls fuel p pid : lulls (TerminateTask_loop fuel p pid).
Proof using.
  revert p. induction fuel as [|fuel IH]; intros p; cbn [TerminateTask_loop]; solve_lulls.
Qed.

Lemma TaskSwitch_lulls fuel stack : lulls (TaskSwitch fuel stack).
Proof using.
  unfold TaskSwitch, switch_enter, switch_reap, switch_next, TerminateTask. solve_lulls.
  all: auto using memcpy_lulls, TerminateTask_loop_lulls.
Qed.
End Timer.

(** ** The timer interrupt *)

Section Tick.
Context `{StaticsOk}.

(** The address space the processor is in after the timer interrupt: that of the
    running process, or the kernel's. *)
Definition space_after (kernel : Z) (st : sched) : Z :=
  match st.1.2 with
  | Some a => match find_proc a st.1.1 with
              | Some p => if (pr_cr3 p =? 0) || (pr_quanta p =? 0) then kernel else pr_cr3 p
              | None => kernel
              end
  | None => kernel
  end.

Lemma sched_state_ext stack s s' st :
  sched_state stack s st -> mem s' = mem s -> sched_g s' = sched_g s -> sched_state stack s' st.
Proof using All.
  intros [Hi Hc] Hm Hg. split; [|by rewrite Hm].
  destruct Hi. split; rewrite ?Hm, ?Hg; done.
Qed.

Lemma Stage2_run stack s st :
  sched_state stack s st ->
  exists s', _TaskSwitch_Stage2 s = Ok tt s' /\ CR3 s' = space_after (CR3 s) st /\
    mem s' = mem s /\ sched_g s' = sched_g s /\ driver_g s' = driver_g s /\ paging_g s' = paging_g s /\
    ports s' = ports s /\ alloc_g s' = alloc_g s /\ (trace s' = trace s \/ trace s' = EvLoadCR3 (CR3 s') :: trace s).
Proof using All.
  destruct st as [[ps cur] ctx]. intros [Hinv _]. cbn [fst snd] in *.
  pose proof (si_cur _ _ _ _ Hinv) as Hc. unfold _TaskSwitch_Stage2, space_after. cbn [fst snd].
  erewrite bind_Ok by reflexivity. cbv beta. destruct cur as [a|].
  - destruct Hc as [-> Ha]. destruct (si_range _ _ _ _ _ Hinv Ha) as (Hpg & Hn1 & Hn0).
    destruct (si_find _ _ _ _ _ Hinv Ha) as (p & -> & _ & Hpa & (_ & _ & Hq & Hcr & _) & _).
    rewrite (proj2 (Z.eqb_neq a 0)), (proj2 (Z.eqb_neq a addr_prochead)) by done. cbn [orb].
    erewrite bind_Ok by (apply load_ok; offs; lia). cbv beta. rewrite <- Hpa, Hcr.
    destruct (pr_cr3 p =? 0); cbn [orb]; [by exists s; auto 10|].
    erewrite bind_Ok by (apply load_ok; offs; lia). cbv beta. cbn [ld]. rewrite Hq, Z.mul_0_r, Z.add_0_r.
    destruct (pr_quanta p =? 0); [by exists s; auto 10|]. eexists. split; [reflexivity|].
    cbn. auto 10.
  - assert ((current (sched_g s) =? 0) || (current (sched_g s) =? addr_prochead) = true) as ->
      by (destruct Hc as [-> | ->]; [done | rewrite Z.eqb_refl; by rewrite orb_true_r]).
    exists s. auto 10.
Qed.

(** A place for [n] bytes on a stack, outside the list of processes at [addrs]. *)
Definition stack_ok (addrs : list Z) (stack n : Z) : Prop :=
  PAGE <= stack /\ forall a, a ∈ addr_prochead :: addrs -> apart a sizeof_ProcessFrame stack n.

Lemma stack_ok_sub l l' stack n : (forall a, a ∈ l' -> a ∈ l) -> stack_ok l stack n -> stack_ok l' stack n.
Proof using.
  intros Hs [Hp Ha]. split; [done|].
  intros a [->|Hin]%elem_of_cons; apply Ha; [left | right; by apply Hs].
Qed.

Lemma sched_inv_stack stk stack s ps cur :
  sched_inv stk s ps cur -> stack_ok (pr_addr <$> ps) stack sizeof_Registers -> sched_inv stack s ps cur.
Proof using.
  intros [I1 I2 I3 I4 I5 I6 I7] [Hp Ha]. split; try done.
  - intros p Hp'. destruct (I5 p Hp') as (? & ? & _). split_and!; [done | done |].
    apply Ha. right. by apply list_elem_of_fmap_2.
  - split; [done|]. specialize (Ha addr_prochead ltac:(left)). unfold apart in *. lia.
Qed.

Lemma stack_ok_inv stk s ps cur : sched_inv stk s ps cur -> stack_ok (pr_addr <$> ps) stk sizeof_Registers.
Proof using.
  intros I. destruct (si_stack _ _ _ _ I) as [Hp Ha]. split; [done|].
  intros a [->|(p & -> & Hp')%list_elem_of_fmap]%elem_of_cons; [unfold apart in *; lia|].
  by apply (si_place _ _ _ _ I).
Qed.

(** A write to a stack leaves the list alone. *)
Lemma stack_kept stk stack n s s' ps cur :
  sched_inv stk s ps cur -> stack_ok (pr_addr <$> ps) stack n -> sched_g s' = sched_g s ->
  same_on (fun a => ~ within a stack n) (mem s) (mem s') -> sched_inv stk s' ps cur.
Proof using All.
  intros I [_ Ha] Hg M. eapply sched_stable; [exact I | | | rewrite Hg; apply (si_cur _ _ _ _ I)].
  - intros p Hp. eapply same_on_weaken; [exact M|]. intros x Hx Hw.
    specialize (Ha (pr_addr p) ltac:(right; by apply list_elem_of_fmap_2)). unfold apart, within in *. lia.
  - apply (same_on_ld _ _ _ _ _ M). intros x Hx Hw. specialize (Ha addr_prochead ltac:(left)).
    offs. unfold apart, within in *. lia.
Qed.

(** The registers and the frame pushed, the context is on the stack. *)
Lemma entered_state stk stack x c s ps cur :
  sched_inv stk s ps cur -> stack_ok (pr_addr <$> ps) stack sizeof_Registers -> scratch_ok x -> cpu_ok c ->
  let s1 := timer_entered stack x c s in
  sched_state stack s1 (ps, cur, context_bytes (entered x c)) /\
  sched_only stack (pr_addr <$> ps) (mem s) (mem s1).
Proof using All.
  intros I Hst Hx Hc s1. destruct Hst as [Hp Ha]. pose proof (sched_inv_stack _ _ _ _ _ I (conj Hp Ha)) as I1.
  destruct (timer_entered_mem stack x c s Hp Hx Hc) as [M Hb]. fold s1 in M, Hb.
  split; [split; [|exact Hb]|]; cbn [fst snd].
  - by eapply stack_kept.
  - eapply same_on_weaken; [exact M|]. intros a Hw Hx'. apply Hw. by left.
Qed.

(** The whole of it. *)
Lemma TimerStub_run fuel stk stack x c s ps cur :
  sched_inv stk s ps cur -> stack_ok (pr_addr <$> ps) stack sizeof_Registers -> scratch_ok x -> cpu_ok c ->
  (length ps <= fuel)%nat -> PAGE <= localAPIC (driver_g s) ->
  let st := tick (ps, cur, context_bytes (entered x c)) in
  exists s' p c', TimerStub fuel stack x c s = Ok c' s' /\
    (context_bytes c' = st.2 /\ cpu_ok c' /\ IF s' = Z.testbit (FLAGS (iret c')) 9) /\
    sched_state stack s' st /\ CR3 s' = space_after (pml4 (paging_g s)) st /\
    driver_g s' = driver_g s /\ paging_g s' = paging_g s /\ ports s' = ports s /\ alloc_g s' = alloc_g s /\
    Forall offstage p /\
    sched_only stack (pr_addr <$> ps) (mem s) (mem s') /\
    let t := EvMmioWrite (localAPIC (driver_g s) + 0xB0) 0 :: p ++ EvLoadCR3 (pml4 (paging_g s)) :: trace s in
    (trace s' = t \/ trace s' = EvLoadCR3 (CR3 s') :: t).
Proof using All.
  intros I Hst Hx Hc Hf Hl st. rewrite TimerStub_enter by apply Hst.
  destruct (entered_state stk stack x c s ps cur I Hst Hx Hc) as [Hst1 M1]. set (s1 := timer_entered stack x c s) in *.
  destruct (TaskSwitch_run fuel stack s1 _ Hst1 Hf) as (s2 & R2 & Hst2 & M2). fold st in Hst2. cbn [fst] in M2.
  erewrite bind_Ok by exact R2. cbv beta.
  destruct (TaskSwitch_lulls _ _ _ _ _ R2) as [Kd Ka Kp Kc Ko (p & Hp & Kt)].
  change (driver_g s1) with (driver_g s) in Kd. change (trace s1) with (EvLoadCR3 (pml4 (paging_g s)) :: trace s) in Kt.
  erewrite bind_Ok by (apply LAPIC_EOI_run; rewrite Kd; exact Hl). cbv beta. rewrite Kd, Kt. set (s3 := with_trace _ _).
  assert (Hst3 : sched_state stack s3 st) by (by eapply sched_state_ext).
  destruct (Stage2_run stack s3 st Hst3) as (s4 & R4 & C4 & M4 & G4 & D4 & P4 & O4 & A4 & T4).
  erewrite bind_Ok by exact R4. cbv beta. rewrite timer_return_run by apply Hst.
  set (c' := cpu_at (mem s4) stack). assert (Hst4 : sched_state stack s4 st) by (by eapply sched_state_ext).
  eexists _, p, c'. split; [reflexivity|]. split; [split_and!; [|apply cpu_at_ok | done]|].
  { unfold c'. rewrite context_at. apply Hst4. }
  split; [by eapply sched_state_ext|].
  split; [change (CR3 s4 = space_after (pml4 (paging_g s)) st); rewrite C4; change (CR3 s3) with (CR3 s2); by rewrite Kc|].
  split; [exact (eq_trans D4 Kd)|]. split; [exact (eq_trans P4 Kp)|]. split; [exact (eq_trans O4 Ko)|].
  split; [exact (eq_trans A4 Ka)|]. split; [exact Hp|].
  split; [|exact T4]. etransitivity; [exact M1|]. change (sched_only stack (pr_addr <$> ps) (mem s1) (mem s4)).
  rewrite M4. exact M2.
Qed.

End Tick.

(** ** The keyboard interrupt *)

Section Typing.
Context (beyond : bool -> Z -> Z).

(** One interrupt after the other. *)
Fixpoint keyboard_interrupts (n : nat) : M unit :=
  match n with O => ret tt | S n => KeyboardHandler beyond;; keyboard_interrupts n end.

(** How often the keyboard's port was read, and interrupts acknowledged at [la]. *)
Definition scans (t : list event) : nat :=
  length (List.filter (fun e => match e with EvIn p => p =? 0x60 | _ => false end) t).
Definition acks (la : Z) (t : list event) : nat :=
  length (List.filter (fun e => match e with EvMmioWrite a _ => a =? la + 0xB0 | _ => false end) t).

(** From now on the keyboard controller answers with these scan codes, one for
    each read. *)
Definition keyboard_sends (codes : list Z) (s : machine) : Prop :=
  forall p, ports s 0x60 (p ++ trace s) = default 0 (codes !! scans p).

(** What one interrupt leaves in the trace, newest first. *)
Definition key_trace (s : machine) (code : Z) : list event :=
  EvMmioWrite (localAPIC (driver_g s) + 0xB0) 0 ::
  rev (key_events beyond (shiftpressed (driver_g s)) code) ++ [EvIn 0x60; EvLoadCR3 (pml4 (paging_g s))].
Definition key_handled (s : machine) (code : Z) : machine :=
  set_shiftpressed (shift_after (shiftpressed (driver_g s)) code)
    (with_CR3 (with_trace s (key_trace s code ++ trace s)) (pml4 (paging_g s))).

Lemma KeyboardHandler_run code s :
  ports s 0x60 (EvLoadCR3 (pml4 (paging_g s)) :: trace s) = code -> 0 <= code < 256 -> PAGE <= localAPIC (driver_g s) ->
  KeyboardHandler beyond s = Ok tt (key_handled s code).
Proof using.
  intros Hk Hc Hl. unfold KeyboardHandler. erewrite bind_Ok by reflexivity. cbv beta.
  set (s1 := with_trace (with_CR3 s _) _). unfold inb at 1. unfold bind at 1.
  change (ports s1 0x60 (trace s1)) with (ports s 0x60 (EvLoadCR3 (pml4 (paging_g s)) :: trace s)).
  rewrite Hk. replace (u8 code) with code by word.
  erewrite bind_Ok by apply KeyboardDriver_run. cbv beta.
  rewrite LAPIC_EOI_run by exact Hl. f_equal. unfold key_handled, key_trace. rewrite <- !app_comm_cons, <- app_assoc.
  reflexivity.
Qed.

Lemma scans_app t1 t2 : scans (t1 ++ t2) = (scans t1 + scans t2)%nat.
Proof using. unfold scans. by rewrite List.filter_app, length_app. Qed.
Lemma acks_app la t1 t2 : acks la (t1 ++ t2) = (acks la t1 + acks la t2)%nat.
Proof using. unfold acks. by rewrite List.filter_app, length_app. Qed.

Lemma key_trace_counts s code :
  scans (key_trace s code) = 1%nat /\ acks (localAPIC (driver_g s)) (key_trace s code) = 1%nat.
Proof using.
  unfold key_trace, key_events, chars_of, scans, acks. destruct (code <? 0x81); cbn; by rewrite Z.eqb_refl.
Qed.

Lemma key_trace_typed s code t :
  typed (key_trace s code ++ t) = typed t ++ chars_of beyond (shiftpressed (driver_g s)) code.
Proof using.
  transitivity (typed (rev (key_events beyond (shiftpressed (driver_g s)) code) ++ [EvIn 0x60; EvLoadCR3 (pml4 (paging_g s))] ++ t)).
  - unfold key_trace. by rewrite <- app_comm_cons, <- app_assoc.
  - by rewrite typed_key_events.
Qed.

Lemma keyboard_interrupts_run codes : forall s,
  keyboard_sends codes s -> Forall (fun c => 0 <= c < 256) codes -> PAGE <= localAPIC (driver_g s) ->
  exists s' p, keyboard_interrupts (length codes) s = Ok tt s' /\ trace s' = p ++ trace s /\
    scans p = length codes /\ acks (localAPIC (driver_g s)) p = length codes /\
    (shiftpressed (driver_g s'), typed (trace s')) =
      (let '(shift, text) := press beyond (shiftpressed (driver_g s)) codes in (shift, typed (trace s) ++ text)) /\
    mem s' = mem s /\ sched_g s' = sched_g s /\ paging_g s' = paging_g s /\
    (codes <> [] -> CR3 s' = pml4 (paging_g s)).
Proof using.
  induction codes as [|c codes IH]; intros s Hk Hc Hl; cbn [length keyboard_interrupts press].
  - exists s, []. rewrite app_nil_r. by split_and!.
  - apply Forall_cons in Hc as [Hc Hcs]. set (s1 := key_handled s c).
    destruct (key_trace_counts s c) as [N1 N2].
    destruct (IH s1) as (s2 & p & R & T & Sc & Ac & E & M & G & P & C); [| done | done |].
    { intros p. change (trace s1) with (key_trace s c ++ trace s). rewrite app_assoc.
      change (ports s1) with (ports s). rewrite Hk, scans_app, N1, Nat.add_1_r. done. }
    exists s2, (p ++ key_trace s c). split_and!; try done.
    + by erewrite bind_Ok by (apply (KeyboardHandler_run c); [exact (Hk [EvLoadCR3 _]) | done | done]).
    + rewrite T. by rewrite <- app_assoc.
    + rewrite scans_app, N1, Sc. lia.
    + change (localAPIC (driver_g s1)) with (localAPIC (driver_g s)) in Ac. rewrite acks_app, N2, Ac. lia.
    + change (shiftpressed (driver_g s1)) with (shift_after (shiftpressed (driver_g s)) c) in E.
      change (trace s1) with (key_trace s c ++ trace s) in E. rewrite key_trace_typed in E. rewrite E.
      destruct (press beyond _ codes) as [b text]. by rewrite app_assoc.
    + intros _. destruct codes as [|c' codes]; [|by rewrite C].
      cbn [length keyboard_interrupts] in R. by injection R as <-.
Qed.

(** C39. Typing: when the keyboard controller sends the scan codes of a printable
    text - shift held where needed -, one keyboard interrupt for each of them makes
    [KeyboardHandler] print exactly the text, apart from the null characters of the
    shift key; every code is read once, every interrupt is acknowledged once at the
    local APIC, shift is left released, the kernel's address space loaded, and
    memory and the process list as they were. *)
Theorem KeyboardHandler_types text s :
  let codes := text ≫= keystrokes in
  Forall (fun c => 0 <= c < 256 /\ printable c = true) text ->
  keyboard_sends codes s -> shiftpressed (driver_g s) = false -> PAGE <= localAPIC (driver_g s) ->
  exists s' p out, keyboard_interrupts (length codes) s = Ok tt s' /\
    trace s' = p ++ trace s /\ scans p = length codes /\ acks (localAPIC (driver_g s)) p = length codes /\
    typed (trace s') = typed (trace s) ++ out /\ filter (fun x => x <> 0) out = text /\
    shiftpressed (driver_g s') = false /\ mem s' = mem s /\ sched_g s' = sched_g s /\
    (codes <> [] -> CR3 s' = pml4 (paging_g s)).
Proof using.
  intros codes Ht Hk Hs Hl. destruct (text_press beyond text Ht) as (out & Ho & Hf).
  destruct (keyboard_interrupts_run codes s Hk (keystrokes_bytes text Ht) Hl)
    as (s' & p & R & T & Sc & Ac & E & M & G & _ & C).
  unfold codes in E. rewrite Hs, Ho in E. injection E as E1 E2. exists s', p, out. by split_and!.
Qed.
End Typing.

(** A controller that sends "Hi!". *)
Definition hi_codes : list Z := [72; 105; 33] ≫= keystrokes.
Definition hi_machine : machine :=
  Machine ∅ [] (fun _ t => default 0 (hi_codes !! scans t)) (fun _ _ => 0) true 0
    (alloc_g blank) (paging_g blank) (sched_g blank) (driver_g (set_localAPIC 0xfee00000 blank)).

Lemma KeyboardHandler_types_witness :
  exists s' out, keyboard_interrupts (fun _ _ => 0) (length hi_codes) hi_machine = Ok tt s' /\
    typed (trace s') = out /\ filter (fun x => x <> 0) out = [72; 105; 33].
Proof.
  destruct (KeyboardHandler_types (fun _ _ => 0) [72; 105; 33] hi_machine)
    as (s' & p & out & R & _ & _ & _ & T & F & _).
  - repeat constructor; lia.
  - intros p. cbn [trace hi_machine]. by rewrite app_nil_r.
  - reflexivity.
  - vm_compute; congruence.
  - exists s', out. split; [exact R|]. split; [exact T | exact F].
Defined.

(** The first process of [SchedWitness] is interrupted at 0x1000. *)
Definition demo_cpu (rip : Z) : cpu :=
  Cpu (Regs 1 2 3 4 5 6 7 8 9 10 11 12 13 14 15) (Frame rip 0x08 0x202 0x3000a0 0x10).
Definition demo_scratch : scratch := Scratch 21 22 23 24 25 26 27 28 29.

