(* ===== verification/Service.v ===== *)
(** Any sequence of timer interrupts, keyboard interrupts and system calls: each is
    served and acknowledged once, the scheduler sees the timer's and only those, and
    the text depends on the scan codes alone, however they are interleaved. *)
From S2P Require Import Prelude Memory Machine Bitfield PageSource Heap PageWalk Paging.
From S2P Require Import FrameAlloc Demo CString Scheduler SchedulerSpec RoundRobin SchedWitness.
From S2P Require Import Acpi Apic Devices Interrupts Stubs InterruptSpec Handlers.

(** ** What happens to the processor *)

(** An interrupt of the clock or a system call finds the processor at [c], with its
    stack pointer (rounded down) at the end of what is pushed on [stack]; what calls
    leave in the caller-saved registers comes with it.  The handler of the keyboard is
    compiled as an interrupt handler, which restores every register; its frame is not
    modelled. *)
Inductive interrupt :=
  | Timer (stack : Z) (x : scratch) (c : cpu)
  | Key
  | Syscall (stack : Z) (x1 x2 x3 : scratch) (c : cpu).

(** The contexts the timer interrupts save. *)
Definition timers (l : list interrupt) : list (list Z) :=
  omap (fun i => match i with Timer _ x c => Some (context_bytes (entered x c)) | _ => None end) l.
Definition keys (l : list interrupt) : nat :=
  length (omap (fun i => match i with Key => Some tt | _ => None end) l).

Lemma timers_app l1 l2 : timers (l1 ++ l2) = timers l1 ++ timers l2.
Proof. apply omap_app. Qed.
Lemma keys_app l1 l2 : keys (l1 ++ l2) = (keys l1 + keys l2)%nat.
Proof. unfold keys. by rewrite omap_app, length_app. Qed.

Lemma run_ticks_app st cs ds : run_ticks st (cs ++ ds) = run_ticks (run_ticks st cs) ds.
Proof. apply foldl_app. Qed.

(** ** Offstage events leave no mark *)

Lemma offstage_scans p : Forall offstage p -> scans p = 0%nat.
Proof.
  induction 1 as [|e p He Hp IH]; [done|]. unfold scans in *. cbn [List.filter].
  destruct e; try done. by rewrite (proj2 (Z.eqb_neq _ _) He).
Qed.
Lemma offstage_acks la p : Forall offstage p -> acks la p = 0%nat.
Proof. induction 1 as [|e p He Hp IH]; [done|]. unfold acks in *. cbn [List.filter]. by destruct e. Qed.
Lemma offstage_typed p t : Forall offstage p -> typed (p ++ t) = typed t.
Proof.
  intros Hp. unfold typed. rewrite omap_app. replace (omap typed_char p) with (@nil Z); [done|].
  induction Hp as [|e p He Hp IH]; [done|]. cbn. rewrite <- IH.
  destruct e as [fmt [|[] [|]]| | | | | | | | |]; try done. cbn.
  by rewrite (proj2 (String.eqb_neq fmt "%c") He).
Qed.

(** What a timer interrupt leaves, but for the last load of CR3. *)
Lemma timer_events la kernel p :
  Forall offstage p -> let q := EvMmioWrite (la + 0xB0) 0 :: p ++ [EvLoadCR3 kernel] in
  acks la q = 1%nat /\ scans q = 0%nat /\ forall t, typed (q ++ t) = typed t.
Proof.
  intros Hp q. unfold q. change (EvMmioWrite (la + 0xB0) 0 :: ?u) with ([EvMmioWrite (la + 0xB0) 0] ++ u).
  rewrite acks_app, acks_app, !scans_app,
    (offstage_acks la p Hp), (offstage_scans p Hp). split_and!.
  - unfold acks. cbn. by rewrite Z.eqb_refl.
  - done.
  - intros t. rewrite <- !app_assoc. change (typed ([?e] ++ ?u)) with (typed u). by rewrite offstage_typed.
Qed.

(** ** Stacks *)

Section Stacks.
Context `{StaticsOk}.

(** What is pushed lies outside the list of processes at [addrs]. *)
Definition interrupt_ok (addrs : list Z) (i : interrupt) : Prop :=
  match i with
  | Timer stack x c => stack_ok addrs stack sizeof_Registers /\ scratch_ok x /\ cpu_ok c
  | Key => True
  | Syscall stack x1 x2 x3 c => stack_ok addrs stack 96 /\ scratch_ok x1 /\ scratch_ok x3 /\ cpu_ok c
  end.

Lemma interrupt_ok_sub l l' i : (forall a, a ∈ l' -> a ∈ l) -> interrupt_ok l i -> interrupt_ok l' i.
Proof using. intros Hs. destruct i; [|done|]; intros [Hst Hc]; (split; [by eapply stack_ok_sub | done]). Qed.
End Stacks.

(** ** Service *)

Section Service.
Context `{StaticsOk} (beyond : bool -> Z -> Z) (fuel : nat).

(** Each returns to the processor it leaves, the keyboard's to the interrupted one. *)
Definition serve (i : interrupt) : M (option cpu) :=
  match i with
  | Timer stack x c => c' ← TimerStub fuel stack x c; ret (Some c')
  | Key => KeyboardHandler beyond;; ret None
  | Syscall stack x1 x2 x3 c => c' ← SyscallStub stack x1 x2 x3 c; ret (Some c')
  end.
Fixpoint serve_all (l : list interrupt) : M (list (option cpu)) :=
  match l with
  | [] => ret []
  | i :: l => o ← serve i; outs ← serve_all l; ret (o :: outs)
  end.

Lemma serve_all_snoc l i s outs s1 :
  serve_all l s = Ok outs s1 -> serve_all (l ++ [i]) s = (o ← serve i; ret (outs ++ [o])) s1.
Proof using.
  revert s outs. induction l as [|j l IH]; intros s outs; cbn [serve_all app].
  - intros [= <- ->]. unfold bind. by destruct (serve i s1).
  - unfold bind at 1. destruct (serve j s) as [o s2| | |] eqn:Hj; try done. unfold bind at 1.
    destruct (serve_all l s2) as [outs' s3| | |] eqn:Hl; try done. intros [= <- ->].
    unfold bind at 1. rewrite Hj. unfold bind at 1. rewrite (IH s2 outs' Hl).
    unfold bind. by destruct (serve i s1).
Qed.

(** The bytes that serving [i] may write. *)
Definition service_byte (addrs : list Z) (i : interrupt) (x : Z) : Prop :=
  match i with
  | Timer stack _ _ => sched_byte stack addrs x
  | Key => False
  | Syscall stack _ _ _ _ => within x stack 96
  end.

(** The address space the processor is left in: the kernel's, but for the timer's. *)
Definition left_in (kernel : Z) (st : sched) (i : interrupt) : Z :=
  match i with Timer _ _ _ => space_after kernel st | _ => kernel end.

(** The context [i] returns to when the scheduler is then at [st], and those of a
    sequence of interrupts. *)
Definition returned (st : sched) (i : interrupt) : option (list Z) :=
  match i with
  | Timer _ _ _ => Some st.2
  | Key => None
  | Syscall _ x1 _ x3 c => Some (context_bytes (syscalled x1 x3 c))
  end.
Fixpoint returns (st : list proc * option Z) (l : list interrupt) : list (option (list Z)) :=
  match l with
  | [] => []
  | i :: l => let st' := run_ticks (st, []) (timers [i]) in returned st' i :: returns st'.1 l
  end.

Definition contexts (outs : list (option cpu)) : list (option (list Z)) := option_map context_bytes <$> outs.

Lemma returns_snoc l i : forall st,
  returns st (l ++ [i]) =
    returns st l ++ [returned (run_ticks ((run_ticks (st, []) (timers l)).1, []) (timers [i])) i].
Proof using.
  induction l as [|j l IH]; intros st; [done|]. cbn [app returns]. rewrite IH.
  change (timers (j :: l)) with (timers ([j] ++ l)). rewrite timers_app, run_ticks_app.
  destruct (run_ticks (st, []) (timers [j])) as [[ps cur] c]. by rewrite (run_ticks_ctx ps cur c []).
Qed.

(** The code the keyboard sends next. *)
Definition next_codes (i : interrupt) (code : Z) : list Z := match i with Key => [code] | _ => [] end.

(** One interrupt. *)
Lemma serve_run stk i s ps cur code :
  sched_inv stk s ps cur -> (length ps <= fuel)%nat -> interrupt_ok (pr_addr <$> ps) i ->
  PAGE <= localAPIC (driver_g s) ->
  ports s 0x60 (EvLoadCR3 (pml4 (paging_g s)) :: trace s) = code -> 0 <= code < 256 ->
  exists s' p o, serve i s = Ok o s' /\ trace s' = p ++ trace s /\
    acks (localAPIC (driver_g s)) p = 1%nat /\ scans p = keys [i] /\
    (shiftpressed (driver_g s'), typed (trace s')) =
      (let '(shift, text) := press beyond (shiftpressed (driver_g s)) (next_codes i code) in
       (shift, typed (trace s) ++ text)) /\
    (let st := run_ticks (ps, cur, []) (timers [i]) in sched_inv stk s' st.1.1 st.1.2 /\
     match i with Timer stack _ _ => bytes_at (mem s') stack 160 = st.2 | _ => True end /\
     CR3 s' = left_in (pml4 (paging_g s)) st i /\
     option_map context_bytes o = returned st i /\ from_option cpu_ok True o /\
     IF s' = from_option (fun c => Z.testbit (FLAGS (iret c)) 9) (IF s) o) /\
    alloc_g s' = alloc_g s /\ localAPIC (driver_g s') = localAPIC (driver_g s) /\ paging_g s' = paging_g s /\ ports s' = ports s /\
    same_on (fun x => ~ service_byte (pr_addr <$> ps) i x) (mem s) (mem s').
Proof using All.
  intros I Hf Hok Hl Hk Hc. destruct i as [stack x c| |stack x1 x2 x3 c]; cbn [serve].
  - destruct Hok as (Hst & Hx & Hcp).
    destruct (TimerStub_run fuel stk stack x c s ps cur I Hst Hx Hcp Hf Hl)
      as (s2 & p & c' & R2 & (B2 & K & F2) & [I2 C2] & K2 & D2 & P2 & O2 & A2 & Hp & M2 & T2).
    set (eoi := EvMmioWrite _ 0) in T2.
    assert (T : exists q, trace s2 = q ++ trace s /\
      acks (localAPIC (driver_g s)) q = 1%nat /\ scans q = 0%nat /\ forall t, typed (q ++ t) = typed t).
    { destruct (timer_events (localAPIC (driver_g s)) (pml4 (paging_g s)) p Hp) as (A & B & C). destruct T2 as [-> | ->].
      - eexists. split; [|split_and!; [exact A | exact B | exact C]]. cbn. by rewrite <- app_assoc.
      - exists (EvLoadCR3 (CR3 s2) :: eoi :: p ++ [EvLoadCR3 (pml4 (paging_g s))]).
        split; [cbn; by rewrite <- app_assoc|]. split_and!; [exact A | exact B | exact C]. }
    destruct T as (q & T & A & B & C). exists s2, q, (Some c').
    split; [by erewrite bind_Ok by exact R2|]. split_and!; try done.
    + rewrite T, C, D2. cbn. by rewrite app_nil_r.
    + eapply (sched_inv_stack stack); [exact I2|]. eapply (stack_ok_sub (pr_addr <$> ps)); [|by eapply stack_ok_inv].
      intros a Ha. exact (elem_of_sublist _ _ _ Ha (tick_addrs (ps, cur, context_bytes (entered x c)))).
    + cbn [returned option_map]. by rewrite B2.
    + by rewrite D2.
  - exists (key_handled beyond s code), (key_trace beyond s code), None.
    destruct (key_trace_counts beyond s code) as [N1 N2].
    split; [by erewrite bind_Ok by (by apply KeyboardHandler_run)|]. split_and!; try done; [|by destruct I].
    change (trace (key_handled beyond s code)) with (key_trace beyond s code ++ trace s). rewrite key_trace_typed.
    cbn. by rewrite app_nil_r.
  - destruct Hok as (Hst & Hx & Hx3 & Hcp).
    destruct (SyscallStub_run stack x1 x2 x3 c s (proj1 Hst) Hx Hcp Hl) as [R2 M2].
    eexists _, [_; _; _], (Some _). split; [by erewrite bind_Ok by exact R2|]. split; [reflexivity|].
    split_and!; try done; [cbn; by rewrite Z.eqb_refl | cbn; by rewrite app_nil_r | by eapply stack_kept |].
    by apply syscalled_ok.
Qed.

(** ** All of them *)

Lemma keys_Key l : keys (l ++ [Key]) = S (keys l).
Proof using. rewrite keys_app. unfold keys at 2. cbn. lia. Qed.

Lemma press_next shift codes l i :
  (keys (l ++ [i]) <= length codes)%nat ->
  press beyond shift (take (keys (l ++ [i])) codes) =
    let '(b1, t1) := press beyond shift (take (keys l) codes) in
    let '(b2, t2) := press beyond b1 (next_codes i (default 0 (codes !! keys l))) in (b2, t1 ++ t2).
Proof using.
  intros Hn. destruct i; cbn [next_codes press].
  1,3: rewrite keys_app; unfold keys at 2; cbn; rewrite Nat.add_0_r;
    destruct (press _ _ _); by rewrite app_nil_r.
  rewrite keys_Key in *. destruct (lookup_lt_is_Some_2 codes (keys l)) as [c Hc]; [lia|].
  rewrite (take_S_r _ _ _ Hc), press_app, Hc. cbn [default]. done.
Qed.

Lemma serve_all_run stk l : forall s ps cur codes,
  sched_inv stk s ps cur -> (length ps <= fuel)%nat -> Forall (interrupt_ok (pr_addr <$> ps)) l ->
  PAGE <= localAPIC (driver_g s) ->
  keyboard_sends codes s -> Forall (fun c => 0 <= c < 256) codes -> (keys l <= length codes)%nat ->
  exists s' p outs, serve_all l s = Ok outs s' /\ trace s' = p ++ trace s /\
    acks (localAPIC (driver_g s)) p = length l /\ scans p = keys l /\
    (shiftpressed (driver_g s'), typed (trace s')) =
      (let '(shift, text) := press beyond (shiftpressed (driver_g s)) (take (keys l) codes) in
       (shift, typed (trace s) ++ text)) /\
    (let st := run_ticks (ps, cur, []) (timers l) in sched_inv stk s' st.1.1 st.1.2 /\
     match last l with Some (Timer stack _ _) => bytes_at (mem s') stack 160 = st.2 | _ => True end /\
     CR3 s' = from_option (left_in (pml4 (paging_g s)) st) (CR3 s) (last l) /\
     contexts outs = returns (ps, cur) l /\ Forall (from_option cpu_ok True) outs) /\
    alloc_g s' = alloc_g s /\ localAPIC (driver_g s') = localAPIC (driver_g s) /\ paging_g s' = paging_g s /\ ports s' = ports s /\
    same_on (fun x => forall i, i ∈ l -> ~ service_byte (pr_addr <$> ps) i x) (mem s) (mem s').
Proof using All.
  induction l as [|i l IH] using rev_ind; intros s ps cur codes I Hf Hok Hl Hk Hc Hn.
  { exists s, [], []. change (take (keys []) codes) with (@nil Z). cbn [press]. rewrite app_nil_r. by split_and!. }
  apply Forall_app in Hok as [Hokl Hoki]. apply Forall_inv in Hoki. rewrite keys_app in Hn.
  destruct (IH s ps cur codes) as (s1 & p & outs & R1 & T1 & A1 & S1 & E1 & (I1 & _ & _ & V1 & Q1) & B1 & L1 & G1 & O1 & M1);
    [done | done | done | done | done | done | lia |].
  set (st := run_ticks (ps, cur, []) (timers l)) in *. pose proof (run_ticks_addrs (timers l) (ps, cur, [])) as Hsub.
  fold st in Hsub. cbn [fst] in Hsub.
  set (code := default 0 (codes !! keys l)).
  destruct (serve_run stk i s1 st.1.1 st.1.2 code)
    as (s2 & q & o & R2 & T2 & A2 & S2 & E2 & (I2 & C2 & K2 & V2 & Q2 & _) & B2 & L2 & G2 & O2 & M2);
    [done | | | by rewrite L1 | | |].
  - apply sublist_length in Hsub. rewrite !length_fmap in Hsub. lia.
  - eapply interrupt_ok_sub; [|exact Hoki]. intros a Ha. by eapply elem_of_sublist.
  - rewrite O1, T1, app_comm_cons, Hk. unfold code. do 2 f_equal. cbn [app]. exact S1.
  - unfold code. destruct (codes !! keys l) as [c|] eqn:Hcl; cbn; [by eapply Forall_lookup_1 in Hc | lia].
  - exists s2, (q ++ p), (outs ++ [o]). split; [rewrite (serve_all_snoc _ _ _ _ _ R1); by erewrite bind_Ok by exact R2|].
    assert (Hst : run_ticks (ps, cur, []) (timers (l ++ [i])) = run_ticks st (timers [i]))
      by (by rewrite timers_app, run_ticks_app).
    assert (Hst1 : (run_ticks st (timers [i])).1 = (run_ticks (st.1, []) (timers [i])).1).
    { destruct st as [[ps1 cur1] c1]. apply (run_ticks_ctx ps1 cur1). }
    assert (Hst2 : forall stack x c, i = Timer stack x c -> run_ticks st (timers [i]) = run_ticks (st.1, []) (timers [i]))
      by (by intros stack x c ->).
    split_and!.
    + by rewrite T2, T1, app_assoc.
    + rewrite acks_app, A1, length_app. rewrite L1 in A2. rewrite A2. cbn. lia.
    + rewrite scans_app, S1, S2, keys_app. lia.
    + rewrite E2, press_next by (rewrite keys_app; lia). fold code.
      destruct (press beyond (shiftpressed (driver_g s)) (take (keys l) codes)) as [b1 t1]. injection E1 as -> ->.
      destruct (press beyond b1 (next_codes i code)) as [b2 t2]. by rewrite app_assoc.
    + cbn zeta. rewrite Hst, Hst1, last_snoc. cbn [from_option]. rewrite <- G1.
      split; [destruct st as [[ps1 cur1] c1]; exact I2|].
      split; [|split; [|split]].
      * destruct i as [stack x c| |]; [|done..]. rewrite (Hst2 stack x c eq_refl).
        destruct st as [[ps1 cur1] c1]. exact C2.
      * destruct i as [stack x c| |]; [|exact K2..]. rewrite (Hst2 stack x c eq_refl).
        destruct st as [[ps1 cur1] c1]. exact K2.
      * unfold contexts in *. rewrite fmap_app, V1, returns_snoc. cbn [fmap list_fmap]. fold st. rewrite V2. by destruct st as [[ps1 cur1] c1].
      * apply Forall_app. split; [done|]. by apply Forall_singleton.
    + by rewrite B2.
    + by rewrite L2.
    + by rewrite G2.
    + by rewrite O2.
    + etransitivity.
      * eapply same_on_weaken; [exact M1|]. intros x Hx j Hj. apply Hx, elem_of_app. by left.
      * eapply same_on_weaken; [exact M2|]. intros x Hx Hw. apply (Hx i); [apply elem_of_app; right; left|].
        destruct i as [stack y c| |]; [|done|exact Hw]. destruct Hw as [Hw|(a & Ha & Hw)]; [by left | right].
        exists a. split; [|done]. apply elem_of_cons in Ha as [->|Ha]; [left | right].
        by eapply elem_of_sublist.
Qed.

(** C6. The kernel at work: on a well-formed process list, any sequence of timer
    interrupts and system calls - each with a stack outside the list - and keyboard
    interrupts is served to its end.  Every interrupt is
    acknowledged once and every scan code read once; the scheduler has made exactly
    the ticks of the timer interrupts and the text is exactly that of the scan codes,
    however the interrupts were interleaved; every timer interrupt returns, by
    [IRETQ], to the context the scheduler says, and every system call to its caller;
    the last interrupt, when it is the timer's, leaves the processor in the address
    space the scheduler says, and any other one in the kernel's; and nothing but the
    stacks, the frames and the head of the list is written. *)
Theorem interrupts_served stk l s ps cur codes :
  sched_inv stk s ps cur -> (length ps <= fuel)%nat -> Forall (interrupt_ok (pr_addr <$> ps)) l ->
  PAGE <= localAPIC (driver_g s) ->
  keyboard_sends codes s -> Forall (fun c => 0 <= c < 256) codes -> length codes = keys l ->
  exists s' p outs, serve_all l s = Ok outs s' /\ trace s' = p ++ trace s /\
    acks (localAPIC (driver_g s)) p = length l /\ scans p = length codes /\
    (let '(shift, text) := press beyond (shiftpressed (driver_g s)) codes in
     shiftpressed (driver_g s') = shift /\ typed (trace s') = typed (trace s) ++ text) /\
    (let st := run_ticks (ps, cur, []) (timers l) in sched_inv stk s' st.1.1 st.1.2 /\
     match last l with Some (Timer stack _ _) => bytes_at (mem s') stack 160 = st.2 | _ => True end /\
     CR3 s' = from_option (left_in (pml4 (paging_g s)) st) (CR3 s) (last l) /\
     contexts outs = returns (ps, cur) l) /\
    same_on (fun x => forall i, i ∈ l -> ~ service_byte (pr_addr <$> ps) i x) (mem s) (mem s').
Proof using All.
  intros I Hf Hok Hl Hk Hc Hn.
  destruct (serve_all_run stk l s ps cur codes) as (s' & p & outs & R & T & A & S & E & C & _ & _ & _ & _ & M); try done; [lia|].
  destruct C as (C1 & C2 & C3 & C4 & _). exists s', p, outs. split_and!; try done; [by rewrite Hn|].
  rewrite <- Hn, firstn_all in E. destruct (press _ _ _) as [b text]. by injection E.
Qed.
End Service.

(** The two processes of [SchedWitness] at work while an "i" is typed. *)
Definition service_demo : machine :=
  let s := set_localAPIC 0xfee00000 (demo_sched 9) in
  Machine (mem s) [] (fun _ t => default 0 (keystrokes 105 !! scans t)) (fun _ _ => 0) true 0
    (alloc_g s) (paging_g s) (sched_g s) (driver_g s).
Definition demo_timer (rip : Z) : interrupt := Timer demo_stack demo_scratch (demo_cpu rip).
Definition demo_syscall : interrupt := Syscall (demo_stack + 64) demo_scratch demo_scratch demo_scratch (demo_cpu 0x2000).

Lemma demo_timer_ok rip : word64 rip -> interrupt_ok (pr_addr <$> [procA 9; procB]) (demo_timer rip).
Proof.
  intros Hr. split; [by eapply stack_ok_inv, demo_sched_inv|].
  split; [apply (bool_decide_unpack _); by vm_compute|].
  unfold cpu_ok, demo_cpu. repeat apply Forall_cons_2; first [exact Hr | apply Forall_nil_2 | cbn; unfold word64; lia].
Qed.
Lemma demo_syscall_ok : interrupt_ok (pr_addr <$> [procA 9; procB]) demo_syscall.
Proof.
  split; [split; [unfold demo_stack; lia|]|].
  - intros a Ha. destruct (stack_ok_inv _ _ _ _ demo_sched_inv) as [_ Hap]. specialize (Hap a Ha).
    unfold apart, sizeof_Registers in *. lia.
  - split_and!; apply (bool_decide_unpack _); by vm_compute.
Qed.

Lemma interrupts_served_witness :
  exists s' outs, serve_all (fun _ _ => 0) 2 [Key; demo_timer 0x1000; demo_syscall; Key] service_demo = Ok outs s' /\
    typed (trace s') = [105] /\
    contexts outs =
      [None; Some (context_bytes (entered demo_scratch (demo_cpu 0x1000)));
       Some (context_bytes (syscalled demo_scratch demo_scratch (demo_cpu 0x2000))); None].
Proof.
  destruct (interrupts_served (fun _ _ => 0) 2 demo_stack [Key; demo_timer 0x1000; demo_syscall; Key] service_demo
    [procA 9; procB] (Some 0x200000) (keystrokes 105)) as (s' & p & outs & R & _ & _ & _ & [_ T] & (_ & _ & _ & V) & _).
  - destruct demo_sched_inv. by split.
  - cbn. lia.
  - repeat apply Forall_cons_2; [done | apply demo_timer_ok; unfold word64; lia | exact demo_syscall_ok | done | apply Forall_nil_2].
  - vm_compute; congruence.
  - intros q. cbn [trace service_demo]. by rewrite app_nil_r.
  - apply (bool_decide_unpack _). by vm_compute.
  - by vm_compute.
  - exists s', outs. split; [exact R|]. split; [exact T|]. rewrite V. by vm_compute.
Defined.
