(* ===== verification/Turns.v ===== *)
(** Turns: what the running programs see of the scheduler through any sequence of
    interrupts.  Processes run in turn for ten clock interrupts each, and a process
    that lost the processor gets its registers back. *)
From S2P Require Import Prelude Memory Machine Bitfield PageSource Heap PageWalk Paging.
From S2P Require Import FrameAlloc Demo CString Scheduler SchedulerSpec RoundRobin SchedWitness.
From S2P Require Import Acpi Apic Devices Interrupts Stubs InterruptSpec Handlers Service.

(** Every number of timer interrupts is reached by a prefix. *)
Lemma timers_prefix l : forall n, (n <= length (timers l))%nat ->
  exists l1 l2, l = l1 ++ l2 /\ timers l1 = take n (timers l).
Proof.
  induction l as [|i l IH]; intros n Hn.
  - exists [], []. cbn in *. by assert (n = 0%nat) as -> by lia.
  - destruct n as [|n]; [by exists [], (i :: l)|].
    assert (E : timers (i :: l) = timers [i] ++ timers l) by (by rewrite <- (timers_app [i] l)).
    rewrite E in *. destruct i as [stack x c| |].
    + destruct (IH n) as (l1 & l2 & -> & T); [cbn in Hn; lia|]. exists (Timer stack x c :: l1), l2. split; [done|].
      change (timers (Timer stack x c :: l1)) with (context_bytes (entered x c) :: timers l1). by rewrite T.
    + destruct (IH (S n)) as (l1 & l2 & -> & T); [done|]. by exists (Key :: l1), l2.
    + destruct (IH (S n)) as (l1 & l2 & -> & T); [done|]. by exists (Syscall stack x1 x2 x3 c :: l1), l2.
Qed.

Lemma one_some {A} (a b : A) : [Some a] = [Some b] -> a = b.
Proof. congruence. Qed.

Section Turns.
Context `{StaticsOk} (beyond : bool -> Z -> Z) (fuel : nat).

(** The process that has the processor after [l] was served. *)
Definition current_after (l : list interrupt) (s : machine) : option Z :=
  match serve_all beyond fuel l s with
  | Ok _ s' => Some (current (sched_g s'))
  | _ => None
  end.

(** What serving [l] takes: a well-formed list, stacks outside it, the local APIC, and
    a keyboard that sends [codes]. *)
Record service_ready (stk : Z) (l : list interrupt) (s : machine) (ps : list proc) (cur : option Z)
    (codes : list Z) : Prop := {
  sv_inv : sched_inv stk s ps cur;
  sv_fuel : (length ps <= fuel)%nat;
  sv_ok : Forall (interrupt_ok (pr_addr <$> ps)) l;
  sv_lapic : PAGE <= localAPIC (driver_g s);
  sv_keys : keyboard_sends codes s;
  sv_codes : Forall (fun c => 0 <= c < 256) codes;
  sv_enough : (keys l <= length codes)%nat;
}.

Lemma service_ready_prefix stk l1 l2 s ps cur codes :
  service_ready stk (l1 ++ l2) s ps cur codes -> service_ready stk l1 s ps cur codes.
Proof using beyond fuel.
  intros [I Hf Hok Hl Hk Hc Hn]. apply Forall_app in Hok as [Hok _]. rewrite keys_app in Hn. split; try done. lia.
Qed.

Lemma service_ready_run stk l s ps cur codes :
  service_ready stk l s ps cur codes ->
  exists s' outs, serve_all beyond fuel l s = Ok outs s' /\
    let st := run_ticks (ps, cur, []) (timers l) in
    sched_inv stk s' st.1.1 st.1.2 /\ contexts outs = returns (ps, cur) l /\ Forall (from_option cpu_ok True) outs /\
    match last l with Some (Timer stack _ _) => bytes_at (mem s') stack 160 = st.2 | _ => True end.
Proof using All.
  intros [I Hf Hok Hl Hk Hc Hn].
  destruct (serve_all_run beyond fuel stk l s ps cur codes I Hf Hok Hl Hk Hc Hn)
    as (s' & p & outs & R & _ & _ & _ & _ & (I' & B & _ & V & Q) & _).
  by exists s', outs.
Qed.

Lemma current_after_running stk l s ps cur codes a :
  service_ready stk l s ps cur codes -> a ∈ pr_addr <$> ps ->
  current_after l s = Some a <-> running (run_ticks (ps, cur, []) (timers l)) = Some a.
Proof using All.
  intros Hr Ha. destruct (service_ready_run _ _ _ _ _ _ Hr) as (s' & outs & R & I & _).
  destruct (si_range _ _ _ _ _ (sv_inv _ _ _ _ _ _ Hr) Ha) as (_ & Hn1 & Hn0).
  unfold current_after, running. rewrite R. pose proof (si_cur _ _ _ _ I) as Hc.
  destruct (run_ticks _ _).1.2 as [b|]; split; intros E; injection E as E || done.
  - destruct Hc as [Hc _]. congruence.
  - destruct Hc as [Hc _]. congruence.
  - destruct Hc as [Hc|Hc]; congruence.
Qed.

(** C17. Time slices: when the process at index [i] of the list has just been given the
    processor, then in any sequence of interrupts the processor goes round: after
    [10 n + k] interrupts of the clock, with keyboard interrupts and system calls in
    between, the current process is the one at index [i + n] modulo the length of the
    list, its frame has [9 - k] ticks left, and the list has the same processes. *)
Theorem round_robin stk l s ps i a n k codes :
  service_ready stk l s ps (Some a) codes -> (pr_addr <$> ps) !! i = Some a -> in_slice ps a 9 ->
  length (timers l) = (10 * n + k)%nat -> (k < 10)%nat ->
  exists outs s' b ps', serve_all beyond fuel l s = Ok outs s' /\
    (pr_addr <$> ps) !! ((i + n) `mod` length ps)%nat = Some b /\
    current (sched_g s') = b /\ rd (mem s') (b + off_quanta) = 9 - Z.of_nat k /\
    sched_inv stk s' ps' (Some b) /\ pr_addr <$> ps' = pr_addr <$> ps.
Proof using All.
  intros Hr Hi Hs Hlen Hk. destruct (service_ready_run _ _ _ _ _ _ Hr) as (s' & outs & R & I & _).
  destruct (ticks_round_robin n ps i a [] (timers l) k) as (ps' & b & c & T & Hb & Ha & Hq);
    [apply (sv_inv _ _ _ _ _ _ Hr) | done..|].
  rewrite T in I. cbn [fst snd] in I. destruct (si_cur _ _ _ _ I) as [Hc Hin].
  exists outs, s', b, ps'. split_and!; try done. by rewrite (si_quanta _ _ _ _ _ I Hin).
Qed.

(** C18. Preemption is invisible to the process, but for the registers that
    [LoadKernelPML4] leaves changed before the stub saves them: if a valid process is
    interrupted by the clock at the processor [c] and loses the processor, then -
    whatever interrupts follow, for however long, processes terminating included -
    the interrupt that next gives it the processor returns to [c]: the same
    instruction, flags and stack pointer, and the registers [entered] keeps. *)
Theorem preempted_context_restored stk stack x c l stack' x' c' s ps b codes :
  let first := Timer stack x c in let next := Timer stack' x' c' in
  service_ready stk (first :: l ++ [next]) s ps (Some b) codes -> invalid_of b ps = false ->
  (forall l1 l2, l = l1 ++ l2 -> current_after (first :: l1) s <> Some b) ->
  current_after (first :: l ++ [next]) s = Some b ->
  exists outs s', serve_all beyond fuel (first :: l ++ [next]) s = Ok (outs ++ [Some (entered x c)]) s' /\
    same_flow c (entered x c) /\ bytes_at (mem s') stack' 160 = context_bytes (entered x c).
Proof using All.
  intros first next Hr Hv Hout Hback. pose proof (si_cur _ _ _ _ (sv_inv _ _ _ _ _ _ Hr)) as [_ Hb].
  assert (Ht : forall l', run_ticks (ps, Some b, []) (timers (first :: l')) =
    run_ticks (tick (ps, Some b, context_bytes (entered x c))) (timers l')).
  { intros l'. change (first :: l') with ([first] ++ l'). by rewrite timers_app, run_ticks_app. }
  assert (Hlast : (run_ticks (ps, Some b, []) (timers (first :: l ++ [next]))).2 = context_bytes (entered x c)).
  { rewrite Ht, timers_app. apply ticks_restore; [done | done | |].
    - intros n Hn Hrun. destruct (timers_prefix l n Hn) as (l1 & l2 & El & T). apply (Hout l1 l2 El).
      subst l. rewrite <- app_assoc, app_comm_cons in Hr. apply service_ready_prefix in Hr.
      apply (current_after_running _ _ _ _ _ _ _ Hr Hb). rewrite Ht, T. exact Hrun.
    - apply (current_after_running _ _ _ _ _ _ _ Hr Hb) in Hback. rewrite Ht, timers_app in Hback. exact Hback. }
  destruct (service_ready_run _ _ _ _ _ _ Hr) as (s' & outs & R & _ & V & Q & B).
  rewrite app_comm_cons, last_snoc in B. rewrite <- app_comm_cons, Hlast in B.
  assert (E : exists outs1 o, outs = outs1 ++ [Some o] /\ context_bytes o = context_bytes (entered x c)).
  { rewrite app_comm_cons in V. rewrite returns_snoc in V. cbn [returned] in V.
    apply fmap_app_inv in V as (outs1 & o & _ & Vo & ->). destruct o as [|[o|] [|]]; try done.
    exists outs1, o. split; [done|]. apply one_some in Vo. rewrite <- Hlast, app_comm_cons, timers_app, run_ticks_app.
    etransitivity; [symmetry; exact Vo|]. by destruct (run_ticks (ps, Some b, []) _) as [[ps1 cur1] c1]. }
  destruct E as (outs1 & o & -> & Eo). apply Forall_app in Q as [_ Q]. apply Forall_inv in Q. cbn in Q.
  assert (Hc : cpu_ok (entered x c)).
  { pose proof (Forall_inv (sv_ok _ _ _ _ _ _ Hr)) as (_ & Hx & Hc). by apply entered_ok. }
  apply context_inj in Eo as ->; [|done..]. by exists outs1, s'.
Qed.
End Turns.

(** The two processes of [SchedWitness], with 25 interrupts of the clock and a system
    call: the processor has been passed on twice, and the first runs again. *)
Definition turns_demo (q : Z) : machine := set_localAPIC 0xfee00000 (demo_sched q).

Lemma demo_ready q l :
  sched_inv demo_stack (demo_sched q) [procA q; procB] (Some 0x200000) ->
  Forall (interrupt_ok (pr_addr <$> [procA 9; procB])) l -> keys l = 0%nat ->
  service_ready 2 demo_stack l (turns_demo q) [procA q; procB] (Some 0x200000) [].
Proof.
  intros I Hok Hk. split.
  - destruct I. by split.
  - cbn. lia.
  - exact Hok.
  - change (localAPIC (driver_g (turns_demo q))) with 0xfee00000. lia.
  - intros p. reflexivity.
  - constructor.
  - by rewrite Hk.
Qed.

Lemma round_robin_witness :
  exists outs s', serve_all (fun _ _ => 0) 2 (demo_syscall :: replicate 25 (demo_timer 0x1000)) (turns_demo 9) = Ok outs s' /\
    current (sched_g s') = 0x200000 /\ rd (mem s') (0x200000 + off_quanta) = 4.
Proof.
  destruct (round_robin (fun _ _ => 0) 2 demo_stack (demo_syscall :: replicate 25 (demo_timer 0x1000)) (turns_demo 9)
    [procA 9; procB] 0 0x200000 2 5 []) as (outs & s' & b & ps' & R & Hb & Hc & Hq & _).
  - apply demo_ready; [exact demo_sched_inv | | reflexivity].
    apply Forall_cons_2; [exact demo_syscall_ok|]. apply Forall_replicate, demo_timer_ok. unfold word64. lia.
  - reflexivity.
  - exact demo_slice.
  - reflexivity.
  - lia.
  - injection Hb as <-. exists outs, s'. split; [exact R|]. split; [exact Hc | exact Hq].
Defined.

(** The first process is interrupted at 0x1000 with its slice used up; ten interrupts
    of the other one later it resumes there. *)
Lemma preempted_context_restored_witness :
  exists outs s', serve_all (fun _ _ => 0) 2
      (demo_timer 0x1000 :: replicate 9 (demo_timer 0x2000) ++ [demo_timer 0x3000]) (turns_demo 0) =
    Ok (outs ++ [Some (entered demo_scratch (demo_cpu 0x1000))]) s'.
Proof.
  destruct (preempted_context_restored (fun _ _ => 0) 2 demo_stack demo_stack demo_scratch (demo_cpu 0x1000)
    (replicate 9 (demo_timer 0x2000)) demo_stack demo_scratch (demo_cpu 0x3000) (turns_demo 0)
    [procA 0; procB] 0x200000 []) as (outs & s' & R & _).
  - apply demo_ready; [exact demo_sched_inv0 | | reflexivity].
    apply Forall_cons_2; [apply demo_timer_ok; unfold word64; lia|]. apply Forall_app. split.
    + apply Forall_replicate, demo_timer_ok. unfold word64. lia.
    + apply Forall_singleton, demo_timer_ok. unfold word64. lia.
  - reflexivity.
  - intros l1 l2 E. assert (El : l1 = take (length l1) (replicate 9 (demo_timer 0x2000))).
    { rewrite E. symmetry. apply take_app_length. }
    rewrite El. generalize (length l1). intros n.
    do 9 (destruct n as [|n]; [vm_compute; congruence|]). rewrite take_ge by (cbn; lia). vm_compute; congruence.
  - vm_compute. reflexivity.
  - exists outs, s'. exact R.
Defined.
