(* ===== verification/Tasks.v ===== *)
(** From [IntAddTask] to the first instruction: a task added to an idle kernel
    gets the processor at the next timer interrupt, at its entry point and in the
    address space that was built for it. *)
From S2P Require Import Prelude Memory Machine PageSource FrameAlloc Heap Demo Bitfield.
From S2P Require Import PageWalk Paging PagingSpec AddressSpace CString Scheduler SchedulerSpec RoundRobin.
From S2P Require Import Spawn SchedWitness SpawnWitness Acpi Apic Devices Interrupts Stubs InterruptSpec Handlers Service.

(** ** The scheduler *)

Section Tick.
Context (new : proc) (ps : list proc) (ctx : list Z).
Hypothesis Hnew : pr_addr new ∉ pr_addr <$> ps.

Lemma find_head : find_proc (pr_addr new) (new :: ps) = Some new.
Proof using. cbn. by rewrite decide_True. Qed.

(** A whole slice at the front of the list, nothing running. *)
Lemma tick_starts :
  pr_invalid new = false -> pr_quanta new = 10 ->
  tick (new :: ps, None, ctx) = (with_quanta 9 new :: ps, Some (pr_addr new), pr_regs new).
Proof using Hnew.
  intros Hv Hq. unfold tick, reap, invalid_of, charge, run_proc, quanta_of, regs_of.
  rewrite find_head. cbn [fmap option_fmap option_map default]. rewrite Hv, Hq. cbn.
  rewrite decide_True by done. do 3 f_equal. rewrite <- (list_fmap_id ps) at 2. apply list_fmap_ext.
  intros i q Hq'. apply decide_False. intros Heq. apply Hnew. rewrite <- Heq.
  by eapply list_elem_of_fmap_2, list_elem_of_lookup_2.
Qed.

(** One that counts as terminated is dropped, and the next one gets its turn. *)
Lemma tick_drops :
  pr_invalid new = true ->
  tick (new :: ps, None, ctx) =
    match ps with [] => ([], None, ctx) | p :: _ => charge ps (pr_addr p) end.
Proof using Hnew.
  intros Hv. unfold tick, reap, invalid_of. rewrite find_head.
  cbn [fmap option_fmap option_map default]. rewrite Hv.
  assert (remove_proc (pr_addr new) (new :: ps) = ps) as ->; [|by destruct ps].
  unfold remove_proc. rewrite filter_cons_False by (intros Hx; by apply Hx).
  apply filter_all. intros q Hq Heq. apply Hnew. rewrite <- Heq. by apply list_elem_of_fmap_2.
Qed.
End Tick.

(** ** The task's memory *)

Section Task.
Context `{StaticsOk} `{PSO : PageSourceOk}.
Context (fuel : nat) (stack taskName start end_ : Z) (kernel : bool) (s : machine) (ps : list proc).
Context (cur : option Z) (l : list block) (b : block) (l' : list block) (name : list Z).
Hypothesis Hready : spawn_ready fuel stack taskName start end_ kernel s ps cur l b l' name.
#[local] Notation frame := (b.1 + sizeof_HeapNode).

(** The frames lie off the allocator's pages. *)
Lemma frames_off_pool a x :
  a ∈ addr_prochead :: frame :: (pr_addr <$> ps) -> within x a sizeof_ProcessFrame -> ~ pool_byte s x.
Proof using All.
  destruct (frame_place _ _ _ _ _ _ _ _ _ _ _ _ _ Hready) as (Hb & _ & Hb2 & _).
  pose proof (sr_heap _ _ _ _ _ _ _ _ _ _ _ _ _ Hready) as Hh. destruct prochead_range as [Hpk _].
  intros [->|[->|(p & -> & Hp)%list_elem_of_fmap]%elem_of_cons]%elem_of_cons Hx [Ho | (q & Hq & Hxq)].
  - by apply (sr_head _ _ _ _ _ _ _ _ _ _ _ _ _ Hready x).
  - pose proof (hi_low _ _ Hh q Hq). unfold page_bytes, within, KERNEL_BASE in *. lia.
  - apply (hi_clear _ _ Hh b x Hb); [|done]. unfold within, sizeof_HeapNode in *. offs. lia.
  - pose proof (hi_pool _ _ Hh b q Hb Hq). unfold page_bytes, apart, within, sizeof_HeapNode in *. offs. lia.
  - destruct (sr_live _ _ _ _ _ _ _ _ _ _ _ _ _ Hready p Hp) as [_ _ Hc _]. apply (Hc x); [|done].
    cbn [fst snd]. unfold within, sizeof_HeapNode in *. offs. lia.
  - destruct (sr_live _ _ _ _ _ _ _ _ _ _ _ _ _ Hready p Hp) as [_ _ _ Hc]. specialize (Hc q Hq).
    cbn [fst snd] in Hc. unfold page_bytes, apart, within, sizeof_HeapNode in *. offs. lia.
Qed.

(** So a timer interrupt leaves the tables of the new task alone. *)
Lemma task_tables_kept root s1 s2 stack2 new :
  pr_addr new = frame -> tables_inv root s1 -> (forall x, paging_byte root s1 x -> pool_byte s x) ->
  alloc_g s2 = alloc_g s1 -> (forall x, within x stack2 sizeof_Registers -> ~ pool_byte s x) ->
  sched_only stack2 (pr_addr <$> new :: ps) (mem s1) (mem s2) ->
  tables_inv root s2 /\ forall v, translate (mem s2) root v = translate (mem s1) root v.
Proof using All.
  intros Ha I1 B1 A2 Hst M2.
  assert (Hm : same_on (paging_byte root s1) (mem s1) (mem s2)).
  { eapply same_on_weaken; [exact M2|]. intros x Hx%B1 [Hw|(a & Hin & Hw)]; [by apply (Hst x)|].
    apply (frames_off_pool a x); [|done..]. by rewrite <- Ha. }
  destruct (ps_stable s1 s2 (ti_src _ _ I1) A2) as [I2 P2].
  { eapply same_on_weaken; [exact Hm|]. intros x Hx. by left. }
  destruct (tables_stable root s1 s2 I1 A2 I2) as (? & _ & ? & _); [exists []; by rewrite P2 | | done].
  eapply same_on_weaken; [exact Hm|]. intros x Hx. by do 2 right.
Qed.
End Task.

(** ** The first turn *)

(** The processor an interrupt returns to. *)
Record returns_to (c : cpu) (rip rsp : Z) : Prop := {
  rt_rip : RIP (iret c) = rip;
  rt_cs : CS (iret c) = 0x08;
  rt_flags : FLAGS (iret c) = 0x202;
  rt_rsp : RSP (iret c) = rsp;
  rt_ss : SS (iret c) = 0x10;
}.

(** A frame that is filled in, copied to the stack. *)
Lemma frame_returns m c frame pid start name sp :
  fresh_frame m frame pid start name ->
  ld64 m (frame + off_registers + reg_rsp) = sp -> ld64 m (frame + off_registers + reg_flags) = 0x202 ->
  cpu_ok c -> context_bytes c = bytes_at m (frame + off_registers) 160 ->
  returns_to c (u64 start) sp.
Proof.
  intros [_ _ _ Fc Fr Fs] Hsp Hfl Hok Hb. symmetry in Hb. apply context_cpu_at in Hb as ->; [|done].
  by split.
Qed.

Section First.
Context `{StaticsOk} `{PSO : PageSourceOk} (beyond : bool -> Z -> Z).

(** All of it. *)
Lemma new_task_start fuel stack taskName s ps l b l' name start end_ kernel stack2 x c :
  spawn_ready fuel stack taskName start end_ kernel s ps None l b l' name ->
  (length ps < fuel)%nat -> PAGE <= localAPIC (driver_g s) ->
  interrupt_ok (b.1 + sizeof_HeapNode :: (pr_addr <$> ps)) (Timer stack2 x c) ->
  (forall a, within a stack2 sizeof_Registers -> ~ pool_byte s a) ->
  exists s1 s2 new c2, IntAddTask fuel taskName start end_ kernel s = Ok tt s1 /\
    serve beyond fuel (Timer stack2 x c) s1 = Ok (Some c2) s2 /\ pr_addr new = b.1 + sizeof_HeapNode /\
    bytes_at (mem s2) stack2 160 = context_bytes c2 /\
    if rd (mem s) (pr_addr new + off_invalid) =? 0 then
      sched_inv stack2 s2 (with_quanta 9 new :: ps) (Some (pr_addr new)) /\ IF s2 = true /\
      (exists sp, sp ∈ ps_pool s /\ returns_to c2 (u64 start) sp) /\
      tables_inv (CR3 s2) s2 /\
      forall v, translate (mem s2) (CR3 s2) v = space_map (GlobalPagingInfo (paging_g s)) kernel start end_ v
    else sched_state stack2 s2
           match ps with [] => ([], None, context_bytes (entered x c)) | p :: _ => charge ps (pr_addr p) end.
Proof using All.
  intros Hready Hf Hl Hok Hst.
  destruct (IntAddTask_run _ _ _ _ _ _ _ _ _ _ _ _ _ Hready) as (s1 & new & root & sp & R1 & _ & I1 & _ & Ha & _ & _ &
    Hq & Hcr & FF & Hsp & Hspp & Hfl & T1 & X1 & Hv & B1 & Hregs & D1).
  destruct Hok as (Hstk & Hx & Hc).
  destruct (TimerStub_run fuel stack stack2 x c s1 (new :: ps) None I1) as
    (s2 & p & c2 & R2 & (E2 & K2 & F2) & Hst2 & C2 & _ & _ & _ & A2 & _ & M2 & _);
    [cbn; by rewrite Ha | done | done | cbn; lia | by rewrite D1 |].
  exists s1, s2, new, c2. split; [exact R1|]. split; [cbn [serve]; by erewrite bind_Ok by exact R2|].
  split; [exact Ha|]. split; [by rewrite E2; apply Hst2|].
  assert (Hnd : pr_addr new ∉ pr_addr <$> ps).
  { pose proof (si_addrs _ _ _ _ I1) as Hnd. cbn in Hnd. by apply NoDup_cons in Hnd as [? _]. }
  destruct (rd (mem s) (pr_addr new + off_invalid) =? 0); cbn [negb] in Hv.
  - rewrite (tick_starts new ps _ Hnd Hv Hq) in Hst2, C2, E2. destruct Hst2 as [I2 Hc2]. cbn [fst snd] in *.
    assert (Hroot : PAGE <= root) by (eapply (ti_page root s1 [] root T1); [apply (tpath_vpath 0 0); lia | done]).
    assert (CR3 s2 = root) as ->.
    { rewrite C2. unfold space_after. cbn [fst snd find_proc with_quanta pr_addr]. rewrite decide_True by done.
      cbn [with_quanta pr_cr3 pr_quanta]. rewrite Hcr, (proj2 (Z.eqb_neq root 0)) by lia. done. }
    destruct (task_tables_kept _ _ _ _ _ _ _ _ _ _ _ _ _ Hready root s1 s2 stack2 new Ha T1 B1 A2 Hst M2) as [T2 X2].
    assert (Hret : returns_to c2 (u64 start) sp) by (eapply frame_returns; [exact FF | exact Hsp | exact Hfl | done |]; by rewrite E2).
    split; [exact I2|]. split; [by rewrite F2, (rt_flags _ _ _ Hret)|].
    split; [by exists sp | split; [exact T2 | intros v; by rewrite X2]].
  - by rewrite (tick_drops new ps _ Hnd Hv) in Hst2.
Qed.

(** C5. From [IntAddTask] to the first instruction: with nothing running, the timer
    interrupt after [IntAddTask] starts the new task, provided the byte that its
    frame takes for [invalid] was zero in the heap block: the interrupt returns to
    its entry point, in kernel mode, with interrupts enabled and the fresh page as
    stack, in the address space built for it - of which the interrupt has changed
    nothing - with nine ticks left.  When the byte was not zero, the task is dropped
    and never runs. *)
Theorem new_task_runs fuel stack taskName s ps l b l' name start end_ kernel stack2 x c :
  spawn_ready fuel stack taskName start end_ kernel s ps None l b l' name ->
  (length ps < fuel)%nat -> PAGE <= localAPIC (driver_g s) ->
  interrupt_ok (b.1 + sizeof_HeapNode :: (pr_addr <$> ps)) (Timer stack2 x c) ->
  (forall a, within a stack2 sizeof_Registers -> ~ pool_byte s a) ->
  exists s1 s2 new c2, IntAddTask fuel taskName start end_ kernel s = Ok tt s1 /\
    serve beyond fuel (Timer stack2 x c) s1 = Ok (Some c2) s2 /\ pr_addr new = b.1 + sizeof_HeapNode /\
    bytes_at (mem s2) stack2 160 = context_bytes c2 /\
    if rd (mem s) (pr_addr new + off_invalid) =? 0 then
      sched_inv stack2 s2 (with_quanta 9 new :: ps) (Some (pr_addr new)) /\ IF s2 = true /\
      (exists sp, sp ∈ ps_pool s /\ returns_to c2 (u64 start) sp) /\
      tables_inv (CR3 s2) s2 /\
      forall v, translate (mem s2) (CR3 s2) v = space_map (GlobalPagingInfo (paging_g s)) kernel start end_ v
    else sched_state stack2 s2
           match ps with [] => ([], None, context_bytes (entered x c)) | p :: _ => charge ps (pr_addr p) end.
Proof using All. apply new_task_start. Qed.
End First.

(** The program of [SpawnWitness] starts at 0x40000000. *)
Lemma new_task_runs_witness :
  exists s s1 s2 c2, IntAddTask 600 name_addr 0x40000000 0x40001800 false s = Ok tt s1 /\
    serve (fun _ _ => 0) 600 (Timer 0x20000000000 demo_scratch (demo_cpu 0x1000)) s1 = Ok (Some c2) s2 /\
    (exists sp, returns_to c2 0x40000000 sp) /\
    translate (mem s2) (CR3 s2) 0x40001234 = Some (Xlat 0x40001234 true false).
Proof.
  destruct spawn_demo as (s & b & Hready & Hb & _ & Hi & Hl & Hz & Hp).
  destruct (new_task_runs (fun _ _ => 0) 600 spawn_stack name_addr s [] [b] b [] init_name 0x40000000 0x40001800 false
    0x20000000000 demo_scratch (demo_cpu 0x1000) Hready) as (s1 & s2 & new & c2 & R1 & R2 & Ha & _ & Hend).
  - cbn; lia.
  - rewrite Hl. lia.
  - split; [|split; apply (bool_decide_unpack _); by vm_compute]. split; [lia|].
    intros a [->|Hx%list_elem_of_singleton]%elem_of_cons.
    + right. unfold sizeof_Registers. cbn. lia.
    + left. rewrite Hx. unfold sizeof_HeapNode. offs. lia.
  - intros x Hx Hpx%Hp. unfold within in Hx. change (2 ^ 41) with 2199023255552 in Hpx. lia.
  - rewrite Ha, Hz in Hend. destruct Hend as (_ & _ & (sp & _ & Hret) & _ & Htr).
    exists s, s1, s2, c2. split; [exact R1|]. split; [exact R2|]. split; [by exists sp|].
    rewrite Htr, Hi. vm_compute. reflexivity.
Defined.
