(* ===== verification/Pcie.v ===== *)
(** drivers/pci/pcie.c: the enumeration of the PCI express devices through the
    configuration space that the MCFG table maps into memory.

    Configuration space is read like memory: its loads have no side effect. *)
From S2P Require Import Prelude Memory Machine Acpi.

(** ** Layouts (drivers/pci/pcie.h) *)

(** struct PCIDeviceStruct and struct PCIHdrType0 *)
Definition off_VendorID : Z := 0.
Definition off_SubClass : Z := 10.
Definition off_ClassCode : Z := 11.
Definition off_HdrType : Z := 14.
Definition off_BAR0 : Z := 16.
(** struct PCIConfigEntry *)
Definition off_base : Z := 0.
Definition off_startPCIBus : Z := 10.
Definition off_endPCIBus : Z := 11.
Definition sizeof_PCIConfigEntry : Z := 16.

(** ** Names *)

Definition IdentifyVendor (VendorCode : Z) : string :=
  match VendorCode with
  | 0x8086 => "Intel Corporation"
  | 0x1022 => "Advanced Micro Devices, Inc. [AMD]"
  | 0x1414 => "Microsoft Corporation"
  | 0x1234 => "Generic/Emulator"
  | 0x144D => "Samsung Electronics Co Ltd"
  | _ => "Unknown"
  end.

Definition ClassCodeType (ClassCode : Z) : string :=
  match ClassCode with
  | 0 => "Unclassified"
  | 1 => "Mass Storage Controller"
  | 2 => "Network Controller"
  | 3 => "Display Controller"
  | 4 => "Multimedia Controller"
  | 5 => "Memory Controller"
  | 6 => "Bridge"
  | 7 => "Communication Controller"
  | 8 => "Generic System Peripheral"
  | 9 => "Input Device Controller"
  | 10 => "Docking Station"
  | 11 => "Processor"
  | 12 => "Serial Bus Controller"
  | 13 => "Wireless Controller"
  | 14 => "Intelligent Controller"
  | 15 => "Satellite Communications Controller"
  | 16 => "Encryption Controller"
  | 17 => "Signal Processing Controller"
  | 18 => "Processing Accelerators"
  | 19 => "Non-Essential Instrumentation"
  | _ => "???"
  end.

(** The tables of names; [None] is a null pointer. *)
Definition subclassMassStorageController : list (option string) :=
   [Some "SCSI Storage controller"; Some "IDE interface"; Some "Floppy disk controller";
    Some "IPI bus controller"; Some "RAID bus controller"; Some "ATA controller";
    Some "SATA controller"; Some "Serial Attached SCSI controller";
    Some "Non-Volatile memory controller"; Some "Universal Flash Storage controller"].
Definition subclassNetworkController : list (option string) :=
   [Some "Ethernet controller"; Some "Token ring network controller";
    Some "FDDI network controller"; Some "ATM network controller"; Some "ISDN controller";
    Some "WorldFip controller"; Some "PICMG controller"; Some "Infiniband controller";
    Some "Fabric controller"].
Definition subclassDisplayController : list (option string) :=
   [Some "VGA compatible controller"; Some "XGA compatible controller"; Some "3D controller"].
Definition subclassMultimediaController : list (option string) :=
   [Some "Multimedia video controller"; Some "Multimedia audio controller";
    Some "Computer telephony device"; Some "Audio device"].
Definition subclassMemoryController : list (option string) :=
   [Some "RAM memory"; Some "FLASH memory"; Some "CXL"].
Definition subclassBridge : list (option string) :=
   [Some "Host bridge"; Some "ISA bridge"; Some "EISA bridge"; Some "MicroChannel bridge";
    Some "PCI bridge"; Some "PCMCIA bridge"; Some "NuBus bridge"; Some "CardBus bridge";
    Some "RACEway bridge"; Some "Semi-transparent PCI-to-PCI bridge";
    Some "InfiniBand to PCI host bridge"].
Definition subclassCommunicationController : list (option string) :=
   [Some "Serial controller"; Some "Parallel controller"; Some "Multiport serial controller";
    Some "Modem"; Some "GPIB controller"; Some "Smart Card controller"].
Definition subclassGenericSystemPeripheral : list (option string) :=
   [Some "PIC"; Some "DMA controller"; Some "Timer"; Some "RTC"; Some "PCI Hot-plug controller";
    Some "SD Host controller"; Some "IOMMU"] ++ replicate 92 None ++ [Some "Timing card"].
Definition subclassInputDeviceController : list (option string) :=
   [Some "Keyboard controller"; Some "Digitizer pen"; Some "Mouse controller";
    Some "Scanner controller"; Some "Gameport controller"].
Definition subclassProcessor : list (option string) :=
   [Some "386"; Some "486";
    Some "Pentium"] ++ replicate 7 None ++ [Some "Alpha"] ++ replicate 7 None ++
   [Some "Power PC"] ++ replicate 7 None ++ [Some "MIPS"] ++ replicate 7 None ++ [Some "Co-processor"].
Definition subclassSerialBusController : list (option string) :=
   [Some "FireWire (IEEE 1394)"; Some "ACCESS Bus"; Some "SSA"; Some "USB controller";
    Some "Fibre Channel"; Some "SMBus"; Some "InfiniBand"; Some "IPMI Interface";
    Some "SERCOS interface"; Some "CANBUS"].
Definition subclassWirelessController : list (option string) :=
   [Some "IRDA Controller"; Some "Consumer IR controller"; Some "RF controller"; Some "Bluetooth";
    Some "Broadband"; Some "802.1a controller"; Some "802.1b controller"].
Definition subclassSatelliteCommunicationsController : list (option string) :=
   [Some "Satellite TV controller"; Some "Satellite audio communication controller";
    Some "Satellite voice communication controller"; Some "Satellite data communication controller"].
Definition subclassEncryptionController : list (option string) :=
   [Some "Network and computing encryption device"; Some "Entertainment encryption device"].
Definition subclassSignalProcessingController : list (option string) :=
   [Some "DPIO module"; Some "Performance counters"; Some "Communication synchronizer";
    Some "Signal processing management"].
Definition subclassProcessingAccelerators : list (option string) :=
   [Some "Processing accelerators"; Some "SNIA Smart Data Accelerator Interface (SDXI) controller"].

(** [for (int i = lo; i < hi; i++) body(i);] *)
Fixpoint upto (k : nat) (i : Z) (body : Z -> M unit) : M unit :=
  match k with
  | O => ret tt
  | S k => body i;; upto k (i + 1) body
  end.
Definition for_up (lo hi : Z) (body : Z -> M unit) : M unit := upto (Z.to_nat (hi - lo)) lo body.

Section Ops.
(** [stray c i]: the pointer-sized word that lies where entry [i] of the table of
    class [c] would be, for an index past the end of the table. *)
Context (stray : Z -> Z -> Z).

Definition entry (table : list (option string)) (ClassCode i : Z) : arg :=
  match table !! Z.to_nat i with
  | Some (Some text) => AText text
  | Some None => AVal 0
  | None => AVal (stray ClassCode i)
  end.

Definition SubclassType (ClassCode SubclassCode : Z) : arg :=
  if SubclassCode =? 0x80 then AText "N/A"
  else
    match ClassCode with
    | 1 => entry subclassMassStorageController ClassCode SubclassCode
    | 2 => entry subclassNetworkController ClassCode SubclassCode
    | 3 => entry subclassDisplayController ClassCode SubclassCode
    | 4 => entry subclassMultimediaController ClassCode SubclassCode
    | 5 => entry subclassMemoryController ClassCode SubclassCode
    | 6 => entry subclassBridge ClassCode SubclassCode
    | 7 => entry subclassCommunicationController ClassCode SubclassCode
    | 8 => entry subclassGenericSystemPeripheral ClassCode SubclassCode
    | 9 => entry subclassInputDeviceController ClassCode SubclassCode
    | 10 => AText "Generic Docking Station"
    | 11 => entry subclassProcessor ClassCode SubclassCode
    | 12 => entry subclassSerialBusController ClassCode SubclassCode
    | 13 => entry subclassWirelessController ClassCode SubclassCode
    | 14 => AText "I20"
    | 15 => entry subclassSatelliteCommunicationsController ClassCode SubclassCode
    | 16 => entry subclassEncryptionController ClassCode SubclassCode
    | 17 => entry subclassSignalProcessingController ClassCode SubclassCode
    | 18 => entry subclassProcessingAccelerators ClassCode SubclassCode
    | _ => AText "???"
    end.

(** [printf] with a text that may be a computed pointer: [%s] reads its first
    character, so a null pointer faults. *)
Definition print_text (fmt : string) (a : arg) : M unit :=
  printf fmt [a];;
  match a with
  | AText _ => ret tt
  | AVal p => _c ← load 1 p; ret tt
  end.

(** The lines both [PCIEEnumerateFunction] and [PCIEEnumerateDevice] print. *)
Definition print_identity (device : Z) : M unit :=
  printf "Device:\n" [];;
  vendor ← load 2 (device + off_VendorID);
  printf "    - Vendor: %s\n" [AText (IdentifyVendor vendor)];;
  class ← load 1 (device + off_ClassCode);
  printf "    - Device type: %s\n" [AText (ClassCodeType class)];;
  class ← load 1 (device + off_ClassCode);
  sub ← load 1 (device + off_SubClass);
  print_text "    - Device subtype: %s\n" (SubclassType class sub).

Definition PCIEEnumerateFunction (base functionid : Z) : M unit :=
  let off := s32 (Z.shiftl functionid 12) in
  let device := u64 (base + off) in
  vendor ← load 2 (device + off_VendorID);
  if vendor =? 0xFFFF then ret tt else print_identity device.

Definition print_bar (device n : Z) (fmt : string) : M unit :=
  bar ← load 4 (device + off_BAR0 + 4 * n);
  printf fmt [AVal bar].

Definition PCIEEnumerateDevice (base deviceid : Z) : M unit :=
  let off := s32 (Z.shiftl deviceid 15) in
  let device := u64 (base + off) in
  vendor ← load 2 (device + off_VendorID);
  if vendor =? 0xFFFF then ret tt
  else
    hdr ← load 1 (device + off_HdrType);
    if Z.land hdr (Z.shiftl 1 7) =? 0 then
      print_identity device;;
      hdr ← load 1 (device + off_HdrType);
      when (hdr =? 0)
        (print_bar device 0 "    - BAR 0: 0x%x\n";;
         print_bar device 1 "    - BAR 1: 0x%x\n";;
         print_bar device 2 "    - BAR 2: 0x%x\n";;
         print_bar device 3 "    - BAR 3: 0x%x\n";;
         print_bar device 4 "    - BAR 4: 0x%x\n";;
         print_bar device 5 "    - BAR 5: 0x%x\n")
    else for_up 0 8 (fun i => PCIEEnumerateFunction device i).

Definition PCIEEnumerateBus (base busid : Z) : M unit :=
  let off := s32 (Z.shiftl busid 20) in
  let device := u64 (base + off) in
  vendor ← load 2 (device + off_VendorID);
  if vendor =? 0xFFFF then ret tt
  else for_up 0 32 (fun i => PCIEEnumerateDevice device i).

(** The bounds of the inner loop are read again before every round; nothing in
    the loop writes memory, so reading them once is the same. *)
Definition scan_entry (entry : Z) : M unit :=
  start ← load 1 (entry + off_startPCIBus);
  stop ← load 1 (entry + off_endPCIBus);
  for_up start stop (fun i =>
    base ← load 8 (entry + off_base);
    PCIEEnumerateBus base i).

(** [Length] is a [uint32_t]; the subtraction and division are on [size_t]. *)
Definition InitializePCIE : M unit :=
  printf "PCI driver initializing...\n" [];;
  printf "------------------------------\n" [];;
  mcfg ← GetMCFG;
  if mcfg =? 0 then
    KernelSoftError "System ACPI tables do not contain MCFG -- unable to initialize PCI-e."
  else
    len ← load 4 (mcfg + off_Length);
    let entryCount := s32 (u64 (len - (sizeof_ACPISystemTableHeader + 8)) / sizeof_PCIConfigEntry) in
    for_up 0 entryCount (fun i => scan_entry (u64 (mcfg + (44 + 16 * i))));;
    printf "------------------------------\n" [].
End Ops.

(** ** Bits *)

Lemma multi_bit h : 0 <= h < 256 -> (Z.land h (Z.shiftl 1 7) =? 0) = negb (Z.testbit h 7).
Proof.
  intros Hh. change (Z.shiftl 1 7) with (2 ^ 7). rewrite Z.land_comm.
  destruct (Z.testbit h 7) eqn:E; cbn [negb].
  - apply Z.eqb_neq. intros H0. apply (f_equal (fun z => Z.testbit z 7)) in H0.
    rewrite Z.land_spec, E in H0. done.
  - apply Z.eqb_eq, Z.bits_inj'. intros i Hi. rewrite Z.land_spec, Z.bits_0, Z.pow2_bits_eqb by lia.
    destruct (Z.eqb_spec 7 i) as [<-|]; [by rewrite E | done].
Qed.

(** ** The functions that answer *)

Section Spec.
Context (stray : Z -> Z -> Z) (m : gmap Z Z).

(** The address of the configuration space of a function, in the layout of the
    PCI express specification: bus, device and function number in bits 20, 15
    and 12 on. *)
Definition ecam (base b d f : Z) : Z :=
  base + Z.lor (Z.shiftl b 20) (Z.lor (Z.shiftl d 15) (Z.shiftl f 12)).

Definition present (a : Z) : bool := negb (ld m 2 a =? 0xFFFF).
Definition multifunction (a : Z) : bool := Z.testbit (ld m 1 (a + off_HdrType)) 7.

(** Function [f] of device [d] on bus [b] exists, by the PCI specification: it answers a
    read of its vendor with something else than 0xFFFF, and a function other than 0
    belongs to a device whose function 0 says that there are several. *)
Definition exists_function (base : Z) (bdf : Z * Z * Z) : bool :=
  let '(b, d, f) := bdf in
  present (ecam base b d f) &&
  ((f =? 0) || (present (ecam base b d 0) && multifunction (ecam base b d 0))).

(** The driver takes a bus without a device 0 for an empty one. *)
Definition bus_seen (base : Z) (bdf : Z * Z * Z) : bool := present (ecam base bdf.1.1 0 0).

(** What the early returns of the enumeration come to. *)
Definition visible (base : Z) (bdf : Z * Z * Z) : bool :=
  let '(b, d, f) := bdf in
  present (ecam base b 0 0) && present (ecam base b d 0) &&
  (if multifunction (ecam base b d 0) then present (ecam base b d f) else f =? 0).

Definition all_functions (lo hi : Z) : list (Z * Z * Z) :=
  seqZ lo (hi - lo) ≫= fun b => seqZ 0 32 ≫= fun d => seqZ 0 8 ≫= fun f => [(b, d, f)].
Definition functions (base lo hi : Z) : list (Z * Z * Z) :=
  filter (fun x => exists_function base x && bus_seen base x = true) (all_functions lo hi).

Lemma visible_exists base x : visible base x = exists_function base x && bus_seen base x.
Proof using.
  destruct x as [[b d] f]. unfold visible, exists_function, bus_seen. cbn [fst].
  destruct (present (ecam base b 0 0)); [|by rewrite andb_false_r]. cbn [andb]. rewrite andb_true_r.
  destruct (Z.eqb_spec f 0) as [->|Hf]; cbn [orb].
  - destruct (present (ecam base b d 0)) eqn:E; cbn [andb]; [|done]. by destruct (multifunction _).
  - destruct (present (ecam base b d 0)); cbn [andb]; [|by rewrite andb_false_r].
    destruct (multifunction _); [by rewrite andb_true_r | by rewrite andb_false_r].
Qed.

Lemma filter_ext_in {A} (p q : A -> bool) (l : list A) :
  (forall x, x ∈ l -> p x = q x) -> filter (fun x => p x = true) l = filter (fun x => q x = true) l.
Proof using.
  induction l as [|x l IH]; intros Hpq; [done|]. rewrite !filter_cons, (Hpq x) by left.
  rewrite IH by (intros y Hy; apply Hpq; by right). done.
Qed.

(** Where every bus that has a function has a device 0, all functions are seen. *)
Lemma functions_all base lo hi :
  (forall b d f, lo <= b < hi -> exists_function base (b, d, f) = true -> present (ecam base b 0 0) = true) ->
  functions base lo hi = filter (fun x => exists_function base x = true) (all_functions lo hi).
Proof using.
  clear stray. intros Hb. unfold functions. apply filter_ext_in. intros [[b d] f] Hin. unfold bus_seen. cbn [fst].
  destruct (exists_function base (b, d, f)) eqn:Hx; [|done]. apply (Hb b d f); [|done].
  unfold all_functions in Hin. apply list_elem_of_bind in Hin as (b' & Hin & Hb').
  apply list_elem_of_bind in Hin as (d' & Hin & _). apply list_elem_of_bind in Hin as (f' & Hin & _).
  apply list_elem_of_singleton in Hin. injection Hin as -> -> ->. apply elem_of_seqZ in Hb'. lia.
Qed.

Definition subtype (a : Z) : arg :=
  SubclassType stray (ld m 1 (a + off_ClassCode)) (ld m 1 (a + off_SubClass)).
Definition identity (a : Z) : list event :=
  [EvPrintf "Device:\n" [];
   EvPrintf "    - Vendor: %s\n" [AText (IdentifyVendor (ld m 2 a))];
   EvPrintf "    - Device type: %s\n" [AText (ClassCodeType (ld m 1 (a + off_ClassCode)))];
   EvPrintf "    - Device subtype: %s\n" [subtype a]].
Definition bar (a n : Z) (fmt : string) : event := EvPrintf fmt [AVal (ld m 4 (a + off_BAR0 + 4 * n))].
Definition bars (a : Z) : list event :=
  [bar a 0 "    - BAR 0: 0x%x\n"; bar a 1 "    - BAR 1: 0x%x\n"; bar a 2 "    - BAR 2: 0x%x\n";
   bar a 3 "    - BAR 3: 0x%x\n"; bar a 4 "    - BAR 4: 0x%x\n"; bar a 5 "    - BAR 5: 0x%x\n"].

(** What the driver says of a function: its base addresses when it is the only
    one of a device with header type 0. *)
Definition report (base : Z) (bdf : Z * Z * Z) : list event :=
  let '(b, d, f) := bdf in
  let a := ecam base b d f in
  identity a ++
  if negb (multifunction (ecam base b d 0)) && (ld m 1 (a + off_HdrType) =? 0) then bars a else [].

(** The text of its subclass can be printed. *)
Definition nameable (a : Z) : Prop :=
  match subtype a with AText _ => True | AVal p => PAGE <= p end.

(** ** The routines print *)

(** [c] only reads memory and prints [l]. *)
Definition outputs (c : M unit) (l : list event) : Prop :=
  forall s, mem s = m -> c s = Ok tt (with_trace s (rev l ++ trace s)).

Lemma outputs_ret : outputs (ret tt) [].
Proof using. intros s _. by destruct s. Qed.
Lemma outputs_printf fmt args : outputs (printf fmt args) [EvPrintf fmt args].
Proof using. by intros s _. Qed.
Lemma outputs_bind c d l1 l2 : outputs c l1 -> outputs d l2 -> outputs (c;; d) (l1 ++ l2).
Proof using.
  intros Hc Hd s Hs. erewrite bind_Ok by (by apply Hc). rewrite Hd by done.
  cbn [trace with_trace]. rewrite rev_app_distr, app_assoc. by destruct s.
Qed.
Lemma outputs_cons fmt args d l : outputs d l -> outputs (printf fmt args;; d) (EvPrintf fmt args :: l).
Proof using. apply (outputs_bind (printf fmt args) d [_]), outputs_printf. Qed.
Lemma outputs_load n a k l : PAGE <= a -> outputs (k (ld m n a)) l -> outputs (bind (load n a) k) l.
Proof using. intros Ha Hk s Hs. erewrite bind_Ok by (by apply load_ok). rewrite Hs. by apply Hk. Qed.

Lemma outputs_upto k body f : forall i,
  (forall j, i <= j < i + Z.of_nat k -> outputs (body j) (f j)) ->
  outputs (upto k i body) (seqZ i (Z.of_nat k) ≫= f).
Proof using All.
  induction k as [|k IH]; intros i Hb; [apply outputs_ret|].
  cbn [upto]. rewrite seqZ_cons by lia. rewrite bind_cons. apply outputs_bind; [apply Hb; lia|].
  replace (Z.pred (Z.of_nat (S k))) with (Z.of_nat k) by lia. rewrite <- Z.add_1_r.
  apply IH. intros j Hj. apply Hb. lia.
Qed.
Lemma outputs_for lo hi body f :
  (forall j, lo <= j < hi -> outputs (body j) (f j)) ->
  outputs (for_up lo hi body) (seqZ lo (hi - lo) ≫= f).
Proof using All.
  intros Hb. unfold for_up. destruct (decide (lo <= hi)) as [Hl|Hl].
  - replace (seqZ lo (hi - lo)) with (seqZ lo (Z.of_nat (Z.to_nat (hi - lo)))) by (f_equal; lia).
    apply outputs_upto. intros j Hj. apply Hb. lia.
  - rewrite seqZ_nil by lia. replace (Z.to_nat (hi - lo)) with 0%nat by lia. apply outputs_ret.
Qed.

Lemma print_identity_outputs a :
  PAGE <= a -> nameable a -> outputs (print_identity stray a) (identity a).
Proof using All.
  intros Ha Hn. unfold print_identity, identity, off_VendorID, off_ClassCode, off_SubClass in *.
  apply outputs_cons, outputs_load; [lia|]. rewrite Z.add_0_r.
  apply outputs_cons, outputs_load; [lia|]. apply outputs_cons, outputs_load; [lia|].
  apply outputs_load; [lia|]. apply outputs_cons. unfold nameable, subtype, off_ClassCode, off_SubClass in Hn.
  destruct (SubclassType _ _ _); [|apply outputs_ret]. apply outputs_load; [done | apply outputs_ret].
Qed.

Lemma bars_outputs a : PAGE <= a ->
  outputs (print_bar a 0 "    - BAR 0: 0x%x\n";; print_bar a 1 "    - BAR 1: 0x%x\n";;
           print_bar a 2 "    - BAR 2: 0x%x\n";; print_bar a 3 "    - BAR 3: 0x%x\n";;
           print_bar a 4 "    - BAR 4: 0x%x\n";; print_bar a 5 "    - BAR 5: 0x%x\n") (bars a).
Proof using All.
  intros Ha.
  assert (Hb : forall n fmt, 0 <= n -> outputs (print_bar a n fmt) [bar a n fmt]).
  { intros n fmt Hn. apply outputs_load; [unfold off_BAR0; lia | apply outputs_printf]. }
  unfold bars. do 5 (match goal with |- outputs _ (?x :: ?l) => apply (outputs_bind _ _ [x] l); [apply Hb; lia|] end).
  apply Hb. lia.
Qed.

(** ** Addresses *)

Lemma ecam_sum base b d f : 0 <= d < 32 -> 0 <= f < 8 ->
  ecam base b d f = base + (1048576 * b + 32768 * d + 4096 * f).
Proof using All.
  intros Hd Hf. unfold ecam. rewrite (Z.shiftl_mul_pow2 f) by lia.
  rewrite (lor_add d) by lia. change (2 ^ 15) with 32768. change (2 ^ 12) with 4096.
  rewrite lor_add by lia. change (2 ^ 20) with 1048576. lia.
Qed.

(** A bus lies in mapped addresses and does not wrap around. *)
Definition mapped (base : Z) : Prop := PAGE <= base /\ base + 2 ^ 28 <= 2 ^ 64.
Definition all_nameable (base lo hi : Z) : Prop :=
  Forall (fun '(b, d, f) => nameable (ecam base b d f)) (functions base lo hi).

Section Bus.
Context (base b : Z) (Hbase : mapped base) (Hb : 0 <= b < 256).

Lemma function_address d f : 0 <= d < 32 -> 0 <= f < 8 ->
  u64 (ecam base b d 0 + s32 (Z.shiftl f 12)) = ecam base b d f /\ PAGE <= ecam base b d f.
Proof using All.
  destruct Hbase. intros Hd Hf. rewrite !ecam_sum, Z.shiftl_mul_pow2 by lia. change (2 ^ 12) with 4096.
  change (2 ^ 28) with 268435456 in *. change (2 ^ 64) with 18446744073709551616 in *.
  rewrite s32_small, u64_small by lia. lia.
Qed.
Lemma device_address d : 0 <= d < 32 ->
  u64 (ecam base b 0 0 + s32 (Z.shiftl d 15)) = ecam base b d 0 /\ PAGE <= ecam base b d 0.
Proof using All.
  destruct Hbase. intros Hd. rewrite !ecam_sum, Z.shiftl_mul_pow2 by lia. change (2 ^ 15) with 32768.
  change (2 ^ 28) with 268435456 in *. change (2 ^ 64) with 18446744073709551616 in *.
  rewrite s32_small, u64_small by lia. lia.
Qed.
Lemma bus_address :
  u64 (base + s32 (Z.shiftl b 20)) = ecam base b 0 0 /\ PAGE <= ecam base b 0 0.
Proof using All.
  destruct Hbase. rewrite !ecam_sum, Z.shiftl_mul_pow2 by lia. change (2 ^ 20) with 1048576.
  change (2 ^ 28) with 268435456 in *. change (2 ^ 64) with 18446744073709551616 in *.
  rewrite s32_small, u64_small by lia. lia.
Qed.

(** ** The loops *)

(** What the scan of a device prints when the bus answers. *)
Definition answer (d f : Z) : list event :=
  if present (ecam base b d 0) &&
     (if multifunction (ecam base b d 0) then present (ecam base b d f) else f =? 0)
  then report base (b, d, f) else [].

Lemma device_outputs d :
  0 <= d < 32 -> (forall f, 0 <= f < 8 -> answer d f <> [] -> nameable (ecam base b d f)) ->
  outputs (PCIEEnumerateDevice stray (ecam base b 0 0) d) (seqZ 0 8 ≫= answer d).
Proof using All.
  intros Hd Hn. destruct (device_address d Hd) as [Ea Ha]. unfold PCIEEnumerateDevice. cbv zeta. rewrite Ea.
  apply outputs_load; [unfold off_VendorID; lia|]. unfold off_VendorID. rewrite Z.add_0_r.
  unfold answer in *. fold (present (ecam base b d 0)) in *. change (ld m 2 (ecam base b d 0) =? 65535) with
    (ld m 2 (ecam base b d 0) =? 0xFFFF). destruct (present (ecam base b d 0)) eqn:Hp; cbn [andb] in *.
  2:{ unfold present in Hp. apply negb_false_iff in Hp. rewrite Hp. apply outputs_ret. }
  unfold present in Hp. apply negb_true_iff in Hp. rewrite Hp.
  apply outputs_load; [unfold off_HdrType; lia|].
  rewrite multi_bit by (apply (ld_range m 1)). fold (multifunction (ecam base b d 0)) in *.
  destruct (multifunction (ecam base b d 0)) eqn:Hm; cbn [negb].
  - change (seqZ 0 8) with (seqZ 0 (8 - 0)). apply outputs_for. intros f Hf.
    destruct (function_address d f Hd Hf) as [Ef Hfp]. unfold PCIEEnumerateFunction. cbv zeta. rewrite Ef.
    apply outputs_load; [unfold off_VendorID; lia|]. unfold off_VendorID. rewrite Z.add_0_r.
    specialize (Hn f Hf). unfold present in *. destruct (ld m 2 (ecam base b d f) =? 0xFFFF); cbn [negb] in *;
      [apply outputs_ret|].
    unfold report. rewrite Hm. cbn [negb andb]. rewrite app_nil_r.
    apply print_identity_outputs; [done | by apply Hn].
  - change (seqZ 0 8) with [0; 1; 2; 3; 4; 5; 6; 7]. cbn [mbind list_bind Z.eqb app]. rewrite app_nil_r.
    unfold report. rewrite Hm. cbn [negb andb]. apply outputs_bind.
    + apply print_identity_outputs; [done|]. apply (Hn 0); [lia | done].
    + apply outputs_load; [unfold off_HdrType; lia|].
      destruct (ld m 1 (ecam base b d 0 + off_HdrType) =? 0); [by apply bars_outputs | apply outputs_ret].
Qed.

Lemma bus_outputs :
  (forall d f, 0 <= d < 32 -> 0 <= f < 8 -> visible base (b, d, f) = true -> nameable (ecam base b d f)) ->
  outputs (PCIEEnumerateBus stray base b)
    (seqZ 0 32 ≫= fun d => seqZ 0 8 ≫= fun f => if visible base (b, d, f) then report base (b, d, f) else []).
Proof using All.
  intros Hn. destruct bus_address as [Ea Ha]. unfold PCIEEnumerateBus. cbv zeta. rewrite Ea.
  apply outputs_load; [unfold off_VendorID; lia|]. unfold off_VendorID. rewrite Z.add_0_r.
  unfold visible in *.
  destruct (present (ecam base b 0 0)) eqn:Hp; unfold present in Hp; cbn [andb].
  - apply negb_true_iff in Hp. rewrite Hp. change (seqZ 0 32) with (seqZ 0 (32 - 0)).
    apply outputs_for. intros d Hd. apply device_outputs; [done|].
    intros f Hf Ha'. apply (Hn d f Hd Hf). unfold answer in Ha'. by destruct (_ && _).
  - apply negb_false_iff in Hp. rewrite Hp. by apply outputs_ret.
Qed.
End Bus.

Lemma bind_filter {A B} (p : A -> bool) (f : A -> list B) l :
  filter (fun x => p x = true) l ≫= f = l ≫= fun x => if p x then f x else [].
Proof using All.
  induction l as [|x l IH]; [done|]. rewrite filter_cons, bind_cons.
  destruct (p x) eqn:E; [rewrite decide_True, bind_cons by done | rewrite decide_False by done];
    by rewrite IH.
Qed.

Lemma bind_bind {A B C} (l : list A) (f : A -> list B) (g : B -> list C) :
  (l ≫= f) ≫= g = l ≫= fun x => f x ≫= g.
Proof using All.
  induction l as [|x l IH]; [done|]. by rewrite !bind_cons, bind_app, IH.
Qed.

Lemma bind_ext {A B} (l : list A) (f g : A -> list B) :
  (forall x, f x = g x) -> l ≫= f = l ≫= g.
Proof using All. intros Hf. induction l as [|x l IH]; [done|]. by rewrite !bind_cons, Hf, IH. Qed.

(** The nested loops with their early returns visit the functions that answer, in
    the order of their addresses. *)
Lemma functions_report base lo hi :
  functions base lo hi ≫= report base =
  seqZ lo (hi - lo) ≫= fun b => seqZ 0 32 ≫= fun d => seqZ 0 8 ≫= fun f =>
    if visible base (b, d, f) then report base (b, d, f) else [].
Proof using All.
  unfold functions. rewrite bind_filter. unfold all_functions. rewrite bind_bind.
  apply bind_ext. intros b. rewrite bind_bind. apply bind_ext. intros d. rewrite bind_bind.
  apply bind_ext. intros f. rewrite bind_cons, visible_exists. by rewrite app_nil_r.
Qed.

Lemma elem_functions base lo hi b d f :
  lo <= b < hi -> 0 <= d < 32 -> 0 <= f < 8 -> visible base (b, d, f) = true ->
  (b, d, f) ∈ functions base lo hi.
Proof using All.
  intros Hb Hd Hf Hv. apply list_elem_of_filter. rewrite visible_exists in Hv. split; [done|]. unfold all_functions.
  apply list_elem_of_bind. exists b. split; [|apply elem_of_seqZ; lia].
  apply list_elem_of_bind. exists d. split; [|apply elem_of_seqZ; lia].
  apply list_elem_of_bind. exists f. split; [by left | apply elem_of_seqZ; lia].
Qed.

(** ** The table *)

(** struct PCIConfigEntry: the memory and the bus numbers. *)
Record config_entry := ConfigEntry { ce_base : Z; ce_start : Z; ce_end : Z }.

Record entry_at (a : Z) (e : config_entry) : Prop := {
  ea_base : ld m 8 (a + off_base) = ce_base e;
  ea_start : ld m 1 (a + off_startPCIBus) = ce_start e;
  ea_end : ld m 1 (a + off_endPCIBus) = ce_end e;
  ea_mapped : mapped (ce_base e);
  ea_names : all_nameable (ce_base e) (ce_start e) (ce_end e);
}.

(** The buses from [ce_start] up to, but not including, [ce_end]. *)
Definition entry_report (e : config_entry) : list event :=
  functions (ce_base e) (ce_start e) (ce_end e) ≫= report (ce_base e).

(** A report is printed text. *)
Lemma entry_report_prints e :
  Forall (fun ev => match ev with EvPrintf _ _ => True | _ => False end) (entry_report e).
Proof using.
  unfold entry_report. induction (functions _ _ _) as [|[[b d] f] l IH]; [constructor|].
  rewrite bind_cons. apply Forall_app. split; [|exact IH]. unfold report.
  apply Forall_app. split; [repeat constructor|]. destruct (_ && _); repeat constructor.
Qed.

Lemma scan_entry_outputs a e : PAGE <= a -> entry_at a e -> outputs (scan_entry stray a) (entry_report e).
Proof using All.
  intros Ha [E1 E2 E3 E4 E5]. unfold scan_entry, off_base, off_startPCIBus, off_endPCIBus in *.
  apply outputs_load; [lia|]. apply outputs_load; [lia|]. rewrite E2, E3.
  pose proof (ld_range m 1 (a + 10)) as R1. rewrite E2 in R1. change (2 ^ (8 * Z.of_nat 1)) with 256 in R1.
  pose proof (ld_range m 1 (a + 11)) as R2. rewrite E3 in R2. change (2 ^ (8 * Z.of_nat 1)) with 256 in R2.
  unfold entry_report. rewrite functions_report. apply outputs_for. intros b Hb.
  apply outputs_load; [lia|]. rewrite E1. apply bus_outputs; [done | lia |].
  intros d f Hd Hf Hv. unfold all_nameable in E5. rewrite Forall_forall in E5.
  apply (E5 (b, d, f)). by apply elem_functions.
Qed.

(** An MCFG table at [mcfg] with the entries [es], and fewer bytes than one more
    entry behind them. *)
Record mcfg_at (mcfg : Z) (es : list config_entry) : Prop := {
  mc_page : PAGE <= mcfg;
  mc_end : mcfg + 44 + 16 * Z.of_nat (length es) <= 2 ^ 64;
  mc_len : exists r, 0 <= r < 16 /\ ld m 4 (mcfg + off_Length) = 44 + 16 * Z.of_nat (length es) + r;
  mc_entry i e : es !! i = Some e -> entry_at (mcfg + (44 + 16 * Z.of_nat i)) e;
}.

Lemma entries_report es : forall k f,
  (forall i e, es !! i = Some e -> f (k + Z.of_nat i) = entry_report e) ->
  seqZ k (Z.of_nat (length es)) ≫= f = es ≫= entry_report.
Proof using All.
  induction es as [|e es IH]; intros k f Hf; [done|]. cbn [length]. rewrite seqZ_cons, !bind_cons by lia. f_equal.
  - rewrite <- (Hf 0%nat e eq_refl). f_equal. lia.
  - replace (Z.pred (Z.of_nat (S (length es)))) with (Z.of_nat (length es)) by lia. apply IH.
    intros i e' Hi. rewrite <- (Hf (S i) e' Hi). f_equal. lia.
Qed.

Definition rule : event := EvPrintf "------------------------------\n" [].

Lemma InitializePCIE_outputs mcfg es s :
  mem s = m -> mcfgPtr (driver_g s) = mcfg -> mcfg_at mcfg es ->
  InitializePCIE stray s =
    Ok tt (with_trace s (rev (EvPrintf "PCI driver initializing...\n" [] :: rule ::
                              (es ≫= entry_report) ++ [rule]) ++ trace s)).
Proof using All.
  intros Hs Hp [H1 H2 (r & Hr & H3) H4]. change (2 ^ 64) with 18446744073709551616 in H2.
  unfold InitializePCIE. do 3 (erewrite bind_Ok by reflexivity; cbv beta).
  cbn [with_trace driver_g]. rewrite Hp, (proj2 (Z.eqb_neq mcfg 0)) by lia.
  set (s1 := with_trace _ _).
  assert (Ho : outputs (len ← load 4 (mcfg + off_Length);
    let entryCount := s32 (u64 (len - (sizeof_ACPISystemTableHeader + 8)) / sizeof_PCIConfigEntry) in
    for_up 0 entryCount (fun i => scan_entry stray (u64 (mcfg + (44 + 16 * i))));;
    printf "------------------------------\n" []) ((es ≫= entry_report) ++ [rule])).
  { apply outputs_load; [unfold off_Length; lia|]. rewrite H3. cbv zeta.
    unfold sizeof_ACPISystemTableHeader, sizeof_PCIConfigEntry.
    pose proof (ld_range m 4 (mcfg + off_Length)) as Hl. rewrite H3 in Hl.
    change (2 ^ (8 * Z.of_nat 4)) with 4294967296 in Hl.
    replace (s32 _) with (Z.of_nat (length es)).
    2:{ rewrite u64_small by lia.
        replace (44 + 16 * Z.of_nat (length es) + r - (36 + 8)) with (r + Z.of_nat (length es) * 16) by lia.
        rewrite Z.div_add, (Z.div_small r) by lia. rewrite s32_small by lia. lia. }
    apply outputs_bind; [|apply outputs_printf].
    set (f := fun i => match es !! Z.to_nat i with Some e => entry_report e | None => [] end).
    rewrite <- (entries_report es 0 f).
    2:{ intros i e Hi. unfold f. by rewrite Z.add_0_l, Nat2Z.id, Hi. }
    rewrite <- (Z.sub_0_r (Z.of_nat (length es))) at 2. apply outputs_for. intros i Hi.
    rewrite u64_small by lia. unfold f.
    destruct (es !! Z.to_nat i) as [e|] eqn:He; [|apply lookup_ge_None in He; lia].
    apply scan_entry_outputs; [lia|]. apply H4 in He. by rewrite Z2Nat.id in He by lia. }
  etransitivity; [apply (Ho s1 Hs)|]. unfold s1. cbn [trace with_trace rev].
  rewrite <- !app_assoc. by destruct s.
Qed.
End Spec.

(** ** Correctness *)

Definition soft_error (error : string) : list event :=
  [EvPrintf "!!!!!!!!!!!!!!!!!!!!!!!!!!!!!!!!!!!!!!!!!!!!!!\n" [];
   EvPrintf "Soft error occured in kernel: %s\n" [AText error];
   EvPrintf "!!!!!!!!!!!!!!!!!!!!!!!!!!!!!!!!!!!!!!!!!!!!!!\n\n\n" []].

(** C19. Without an MCFG table [InitializePCIE] reports a soft error and returns.
    With one - where the subclass of every function found has a name that can be
    printed - it returns having only printed: for each entry of the table, in order, a
    report of every PCI function that exists on those of the entry's buses that have a
    device 0, the last bus left out, read from the function's own configuration space,
    in the order of the functions' addresses.  On an entry where every bus with a
    function has a device 0, these are all the functions of those buses. *)
Theorem InitializePCIE_enumerates stray s :
  let mcfg := mcfgPtr (driver_g s) in
  (mcfg = 0 ->
   InitializePCIE stray s =
     Ok tt (with_trace s (rev (EvPrintf "PCI driver initializing...\n" [] :: rule ::
       soft_error "System ACPI tables do not contain MCFG -- unable to initialize PCI-e.") ++ trace s))) /\
  forall es, mcfg_at stray (mem s) mcfg es ->
    InitializePCIE stray s =
      Ok tt (with_trace s (rev (EvPrintf "PCI driver initializing...\n" [] :: rule ::
                                (es ≫= entry_report stray (mem s)) ++ [rule]) ++ trace s)) /\
    forall e, e ∈ es ->
      (forall b d f, ce_start e <= b < ce_end e -> exists_function (mem s) (ce_base e) (b, d, f) = true ->
         present (mem s) (ecam (ce_base e) b 0 0) = true) ->
      entry_report stray (mem s) e =
        filter (fun x => exists_function (mem s) (ce_base e) x = true) (all_functions (ce_start e) (ce_end e))
          ≫= report stray (mem s) (ce_base e).
Proof.
  intros mcfg. split.
  - intros H0. unfold InitializePCIE.
    do 3 (erewrite bind_Ok by reflexivity; cbv beta). cbn [with_trace driver_g].
    fold mcfg. rewrite H0. cbn [Z.eqb]. unfold KernelSoftError. reflexivity.
  - intros es Hes. split; [by apply (InitializePCIE_outputs stray (mem s) mcfg)|].
    intros e _ Hb. unfold entry_report. by rewrite functions_all.
Qed.

(** A processor, or a system peripheral, whose subclass has no name in the
    tables (a null pointer) makes the enumeration dereference address 0. *)
Theorem PCIEEnumerateFunction_null_text stray base f s :
  let a := u64 (base + s32 (Z.shiftl f 12)) in
  PAGE <= a -> present (mem s) a = true -> subtype stray (mem s) a = AVal 0 ->
  exists s', PCIEEnumerateFunction stray base f s = Fault 0 s'.
Proof.
  intros a Ha Hp Hn. unfold PCIEEnumerateFunction. fold a. cbv zeta.
  unfold subtype, present, off_VendorID, off_ClassCode, off_SubClass in *.
  erewrite bind_Ok by (apply load_ok; unfold off_VendorID; lia). cbv beta.
  unfold off_VendorID. rewrite Z.add_0_r. apply negb_true_iff in Hp. rewrite Hp.
  unfold print_identity, off_VendorID, off_ClassCode, off_SubClass.
  repeat (first [erewrite bind_Ok by reflexivity | erewrite bind_Ok by (apply load_ok; lia)]; cbv beta).
  cbn [mem with_trace]. rewrite Hn. eexists. reflexivity.
Qed.

(** ** A machine with two functions *)

(** Bus 0 has a processor host bridge as device 0 and, as device 3, a disk and a
    network controller; bus 1 exists but is the last. *)
Definition config (b d f vendor class sub hdr : Z) (m : gmap Z Z) : gmap Z Z :=
  let a := ecam 0x10000000 b d f in
  st (st (st (st m 2 a vendor) 1 (a + off_ClassCode) class) 1 (a + off_SubClass) sub) 1 (a + off_HdrType) hdr.
Definition absent (b : Z) (ds fs : list Z) (m : gmap Z Z) : gmap Z Z :=
  foldr (fun d m => foldr (fun f m => st m 2 (ecam 0x10000000 b d f) 0xFFFF) m fs) m ds.
Definition pcie_mem : gmap Z Z :=
  let m := write_bytes ∅ 0x13000 (sig_MCFG ++ le32 60 ++ repeat 0 36 ++ le32 0x10000000 ++ [0; 0; 0; 0] ++ [0; 0; 0; 1]) in
  config 0 0 0 0x8086 6 0 0 (config 0 3 0 0x8086 1 6 0x80 (config 0 3 5 0x1234 2 0 0x80
    (absent 0 [3] [1; 2; 3; 4; 6; 7] (absent 0 (seqZ 1 2 ++ seqZ 4 28) [0] m)))).
Definition pcie_machine : machine := set_mcfgPtr 0x13000 (with_mem blank pcie_mem).
Definition pcie_entry : config_entry := ConfigEntry 0x10000000 0 1.

Lemma InitializePCIE_enumerates_witness :
  exists s', InitializePCIE (fun _ _ => 0) pcie_machine = Ok tt s' /\
    functions (mem pcie_machine) 0x10000000 0 1 = [(0, 0, 0); (0, 3, 0); (0, 3, 5)].
Proof.
  eexists. split.
  - apply (proj2 (InitializePCIE_enumerates (fun _ _ => 0) pcie_machine) [pcie_entry]). split.
    + vm_compute; congruence.
    + vm_compute; congruence.
    + exists 0. split; [lia | by vm_compute].
    + intros [|i] e Hi; [injection Hi as <- | done]. split.
      * by vm_compute.
      * by vm_compute.
      * by vm_compute.
      * split; vm_compute; congruence.
      * unfold all_nameable.
        replace (functions _ _ _ _) with [(0, 0, 0); (0, 3, 0); (0, 3, 5)] by (by vm_compute).
        do 3 (apply Forall_cons; split; [vm_compute; exact I|]). apply Forall_nil. exact I.
  - by vm_compute.
Defined.

Lemma PCIEEnumerateFunction_null_text_witness :
  exists s', PCIEEnumerateFunction (fun _ _ => 0) 0x10000000 0
    (with_mem blank (config 0 0 0 0x8086 11 3 0 ∅)) = Fault 0 s'.
Proof.
  apply (PCIEEnumerateFunction_null_text (fun _ _ => 0) 0x10000000 0
    (with_mem blank (config 0 0 0 0x8086 11 3 0 ∅))).
  - vm_compute; congruence.
  - by vm_compute.
  - by vm_compute.
Defined.
