(* ===== verification/Gdt.v ===== *)
(** gdt/gdt.c and gdt/loadgdt.asm: the global descriptor table the kernel runs on,
    and how the processor reads it. *)
From S2P Require Import Prelude Memory Machine.

(** ** The table *)

Record SegmentDescriptor := {
  limit : Z;
  base_low : Z;
  base_middle : Z;
  access : Z;
  granularity : Z;
  base_high : Z;
}.

Definition flat (lim acc gran : Z) : SegmentDescriptor :=
  {| base_low := 0; base_middle := 0; base_high := 0; limit := lim; access := acc; granularity := gran |}.

(** The null segment, kernel code and data, user code and data. *)
Definition globalDescriptorTable : list SegmentDescriptor :=
  [flat 0 0 0; flat 0xFF 0x9A 0xA0; flat 0xFF 0x92 0xC0; flat 0 0xFA 0xA0; flat 0 0xF2 0xC0].

Definition sizeof_SegmentDescriptor : Z := 8.
Definition sizeof_GlobalDescriptorTable : Z := 40.

(** The packed struct in memory. *)
Fixpoint le (n : nat) (v : Z) : list Z :=
  match n with O => [] | S n => v mod 256 :: le n (v / 256) end.
Definition descriptor_bytes (d : SegmentDescriptor) : list Z :=
  le 2 (limit d) ++ le 2 (base_low d) ++ le 1 (base_middle d) ++ le 1 (access d) ++
  le 1 (granularity d) ++ le 1 (base_high d).

(** Where the linker puts the table and [gdtPtr]. *)
Class GdtStatics := {
  addr_globalDescriptorTable : Z;
  addr_gdtPtr : Z;
}.

(** The initialised data of gdt.c in the kernel image. *)
Record gdt_image `{GdtStatics} (m : gmap Z Z) : Prop := {
  gi_table : bytes_at m addr_globalDescriptorTable (Z.to_nat sizeof_GlobalDescriptorTable) =
             globalDescriptorTable ≫= descriptor_bytes;
  gi_size : ld m 2 addr_gdtPtr = sizeof_GlobalDescriptorTable - 1;
  gi_addr : ld m 8 (addr_gdtPtr + 2) = addr_globalDescriptorTable;
}.

(** ** Loading it *)

(** The selectors left in DS, ES, FS, GS and SS, and in CS. *)
Record selectors := Selectors { sel_data : Z; sel_code : Z }.

Definition loadgdt (ptr : Z) : M selectors :=
  cli;;
  emit (EvLgdt ptr);;
  let data := 0x10 in
  let code := 0x08 in
  ret (Selectors data code).

Definition InitializeGDT `{GdtStatics} : M selectors := loadgdt addr_gdtPtr.

(** ** What the processor reads *)

Record segment := Segment {
  seg_base : Z;
  seg_limit : Z;
  seg_present : bool;
  seg_dpl : Z;
  seg_code : bool;       (* executable, rather than data *)
  seg_rw : bool;         (* readable code, writable data *)
  seg_long : bool;       (* 64-bit code *)
  seg_db : bool;         (* 32-bit operands; reserved with 64-bit code *)
  seg_pages : bool;      (* the limit counts pages *)
}.

(** The descriptor that the table register [gdtr] (limit and base) gives the
    selector; [None] when the selector is null, past the limit, or names a system
    segment. *)
Definition segment_of (m : gmap Z Z) (gdtr sel : Z) : option segment :=
  let size := ld m 2 gdtr in
  let table := ld m 8 (gdtr + 2) in
  if (sel / 8 =? 0) || (size <? sel / 8 * 8 + 7) then None
  else
    let d := ld m 8 (table + sel / 8 * 8) in
    let field lo w := Z.land (Z.shiftr d lo) (Z.ones w) in
    let bit i := Z.testbit d i in
    if negb (bit 44) then None
    else Some (Segment (field 16 24 + Z.shiftl (field 56 8) 24) (field 0 16 + Z.shiftl (field 48 4) 16)
      (bit 47) (field 45 2) (bit 43) (bit 41) (bit 53) (bit 54) (bit 55)).

Lemma gdt_segments `{GdtStatics} m :
  gdt_image m ->
  let seg := segment_of m addr_gdtPtr in
  seg 0x08 = Some (Segment 0 0xFF true 0 true true true false true) /\
  seg 0x10 = Some (Segment 0 0xFF true 0 false true false true true) /\
  seg 0x18 = Some (Segment 0 0 true 3 true true true false true) /\
  seg 0x20 = Some (Segment 0 0 true 3 false true false true true) /\
  seg 0x28 = None.
Proof.
  intros [H1 H2 H3]. cbv zeta.
  assert (Hd : forall k, (k + 8 <= 40)%nat -> ld m 8 (addr_globalDescriptorTable + Z.of_nat k) =
    num (take 8 (drop k (globalDescriptorTable ≫= descriptor_bytes)))).
  { intros k Hk. rewrite ld_num, (bytes_at_sub _ _ 40) by done. by rewrite <- H1. }
  unfold segment_of. rewrite H2, H3.
  pose proof (Hd 8%nat ltac:(lia)) as D1. pose proof (Hd 16%nat ltac:(lia)) as D2.
  pose proof (Hd 24%nat ltac:(lia)) as D3. pose proof (Hd 32%nat ltac:(lia)) as D4.
  change (0x08 / 8 * 8) with (Z.of_nat 8). change (0x10 / 8 * 8) with (Z.of_nat 16).
  change (0x18 / 8 * 8) with (Z.of_nat 24). change (0x20 / 8 * 8) with (Z.of_nat 32).
  rewrite D1, D2, D3, D4. split_and!; by vm_compute.
Qed.

(** C40. After [InitializeGDT] interrupts are off, the descriptor register is loaded
    with a table in which the selector left in the data registers is a present,
    writable ring 0 data segment, and the code selector - the one of the interrupt
    gates and of new processes - a present, readable ring 0 64-bit code segment;
    the two user segments are their ring 3 counterparts, and all bases are 0. *)
Theorem InitializeGDT_flat `{GdtStatics} s :
  gdt_image (mem s) ->
  exists sel s', InitializeGDT s = Ok sel s' /\ IF s' = false /\ mem s' = mem s /\
    trace s' = EvLgdt addr_gdtPtr :: trace s /\
    let seg := segment_of (mem s') addr_gdtPtr in
    seg (sel_code sel) = Some (Segment 0 0xFF true 0 true true true false true) /\
    seg (sel_data sel) = Some (Segment 0 0xFF true 0 false true false true true) /\
    seg 0x18 = Some (Segment 0 0 true 3 true true true false true) /\
    seg 0x20 = Some (Segment 0 0 true 3 false true false true true) /\
    seg 0x28 = None.
Proof.
  intros Hi. eexists _, _. split; [reflexivity|]. split; [done|]. split; [done|]. split; [done|].
  exact (gdt_segments (mem s) Hi).
Qed.

(** ** A concrete instance *)

#[export] Instance demo_gdt : GdtStatics := {
  addr_globalDescriptorTable := 0xffffffff80005000; addr_gdtPtr := 0xffffffff80005040;
}.
Definition gdt_machine : machine :=
  with_mem blank (st (st (write_bytes ∅ addr_globalDescriptorTable (globalDescriptorTable ≫= descriptor_bytes))
    2 addr_gdtPtr 39) 8 (addr_gdtPtr + 2) addr_globalDescriptorTable).

Lemma InitializeGDT_flat_witness :
  exists sel s', InitializeGDT gdt_machine = Ok sel s' /\
    segment_of (mem s') addr_gdtPtr (sel_code sel) = Some (Segment 0 0xFF true 0 true true true false true).
Proof.
  destruct (InitializeGDT_flat gdt_machine) as (sel & s' & R & _ & _ & _ & C & _).
  - split; by vm_compute.
  - exists sel, s'. split; [exact R | exact C].
Defined.
