(* ===== verification/Spinlock.v ===== *)
(** multitasking/spinlock.c: the lock byte, its two routines, and any number of
    threads that run them. *)
From stdpp Require Import functions.
From S2P Require Import Prelude Memory Machine.

(** ** The routines *)

(** The atomic operations on a byte. *)
Definition atomic_exchange (lock v : Z) : M Z := old ← load 1 lock; store 1 lock v;; ret old.
Definition atomic_store (lock v : Z) : M unit := store 1 lock v.

(** [hlt] waits for an interrupt; run alone, nothing else happens meanwhile. *)
Fixpoint spinlock_acquire (fuel : nat) (lock : Z) : M unit :=
  match fuel with
  | O => out_of_fuel
  | S fuel =>
      old ← atomic_exchange lock 1;
      if negb (old =? 0) then spinlock_acquire fuel lock else ret tt
  end.
Definition spinlock_release (lock : Z) : M unit := atomic_store lock 0.

(** ** Threads

    Each thread alternates acquiring and releasing.  A step is one atomic access to
    the lock byte, a halt being left at any time. *)

Inductive pc :=
  | Outside      (* before spinlock_acquire, or after spinlock_release *)
  | Testing      (* about to do atomic_exchange *)
  | Halted       (* in hlt *)
  | Holding.     (* spinlock_acquire has returned *)
#[export] Instance pc_eq_dec : EqDecision pc.
Proof. solve_decision. Defined.

Record system := System { lock_byte : Z; pcs : nat -> pc }.
Definition at_pc (i : nat) (p : pc) (st : system) : system := System (lock_byte st) (<[i := p]> (pcs st)).
Definition with_lock (v : Z) (st : system) : system := System v (pcs st).

(** What a thread does next when it is scheduled. *)
Definition advance (i : nat) (st : system) : system :=
  match pcs st i with
  | Outside => at_pc i Testing st
  | Testing => at_pc i (if negb (lock_byte st =? 0) then Halted else Holding) (with_lock 1 st)
  | Halted => at_pc i Testing st
  | Holding => at_pc i Outside (with_lock 0 st)
  end.

Definition initial : system := System 0 (fun _ => Outside).

Inductive step : system -> system -> Prop :=
  | step_thread i st : step st (advance i st).
Inductive reachable : system -> Prop :=
  | reach_initial : reachable initial
  | reach_step st st' : reachable st -> step st st' -> reachable st'.

(** A schedule: which thread runs next. *)
Definition run (sched : list nat) (st : system) : system := foldl (fun st i => advance i st) st sched.

Lemma run_app l1 l2 st : run (l1 ++ l2) st = run l2 (run l1 st).
Proof. apply foldl_app. Qed.

Lemma run_reachable l st : reachable st -> reachable (run l st).
Proof.
  revert st. induction l as [|i l IH]; intros st Hr; [done|]. apply IH. eapply reach_step; [done | constructor].
Qed.

Lemma pcs_at i p st j : pcs (at_pc i p st) j = if decide (j = i) then p else pcs st j.
Proof.
  cbn. destruct (decide (j = i)) as [->|Hne]; [apply fn_lookup_insert | by apply fn_lookup_insert_ne].
Qed.

(** ** The invariant *)

Record lock_inv (st : system) : Prop := {
  li_bit : lock_byte st = 0 \/ lock_byte st = 1;
  li_held : lock_byte st = 1 <-> exists i, pcs st i = Holding;
  li_unique i j : pcs st i = Holding -> pcs st j = Holding -> i = j;
}.

Lemma lock_inv_initial : lock_inv initial.
Proof. split; [by left | split; [done | by intros [i [=]]] | by intros i j [=]]. Qed.

Lemma lock_inv_move i p st :
  lock_inv st -> pcs st i <> Holding -> p <> Holding -> lock_inv (at_pc i p st).
Proof.
  intros [Hb Hh Hu] Hi Hp. split; [done | |].
  - split.
    + intros (j & Hj)%Hh. exists j. rewrite pcs_at. destruct (decide (j = i)) as [->|]; done.
    + intros (j & Hj). apply Hh. exists j. rewrite pcs_at in Hj. by destruct (decide (j = i)).
  - intros j k. rewrite !pcs_at. destruct (decide (j = i)), (decide (k = i)); try done. apply Hu.
Qed.

Lemma lock_inv_step st st' : lock_inv st -> step st st' -> lock_inv st'.
Proof.
  intros Hinv Hs. destruct Hs as [i st0]. unfold advance. destruct (pcs st0 i) eqn:Hi.
  - apply lock_inv_move; [done | by rewrite Hi | done].
  - destruct (Z.eqb_spec (lock_byte st0) 0) as [H0|H1]; cbn [negb].
    + assert (Hno : forall j, pcs st0 j <> Holding).
      { intros j Hj. assert (lock_byte st0 = 1) by (apply (li_held _ Hinv); by exists j). lia. }
      split; cbn [lock_byte at_pc with_lock].
      * by right.
      * split; [|done]. intros _. exists i. rewrite pcs_at. by destruct (decide (i = i)).
      * intros j k. rewrite !pcs_at. cbn [pcs with_lock].
        destruct (decide (j = i)), (decide (k = i)); subst; try done;
          intros Hj Hk; exfalso; [by apply (Hno k) | by apply (Hno j) | by apply (Hno j)].
    + assert (lock_byte st0 = 1) as Hl by (destruct (li_bit _ Hinv); [done | done]).
      assert (with_lock 1 st0 = st0) as -> by (destruct st0; cbn in *; by subst).
      apply lock_inv_move; [done | by rewrite Hi | done].
  - apply lock_inv_move; [done | by rewrite Hi | done].
  - assert (Hno : forall j, pcs (at_pc i Outside (with_lock 0 st0)) j <> Holding).
    { intros j. rewrite pcs_at. cbn [pcs with_lock]. destruct (decide (j = i)) as [->|Hne]; [done|].
      intros Hj. by apply Hne, (li_unique _ Hinv). }
    split; [by left | |].
    + split; [done|]. intros (j & Hj). by apply Hno in Hj.
    + intros j k Hj. by apply Hno in Hj.
Qed.

Lemma reachable_inv st : reachable st -> lock_inv st.
Proof. induction 1 as [|st st' _ IH Hs]; [apply lock_inv_initial | by eapply lock_inv_step]. Qed.

(** ** The routines do the threads' steps *)

(** C31. Mutual exclusion: in every interleaving of any number of threads that
    acquire and release the lock, at most one is between the two, and the lock
    byte is 1 exactly when there is one. *)
Theorem spinlock_mutual_exclusion st :
  reachable st ->
  (forall i j, pcs st i = Holding -> pcs st j = Holding -> i = j) /\
  (lock_byte st = 1 <-> exists i, pcs st i = Holding).
Proof. intros Hr%reachable_inv. split; [apply Hr | apply Hr]. Qed.

(** C32. No deadlock: whatever has happened, a thread outside or waiting for the
    lock can still get it within three steps. *)
Theorem spinlock_obtainable st i :
  reachable st -> exists sched, (length sched <= 3)%nat /\ pcs (run sched st) i = Holding.
Proof.
  intros Hr. pose proof (reachable_inv _ Hr) as Hinv.
  assert (Hfree : forall st, lock_byte st = 0 -> pcs st i <> Holding ->
    exists sched, (length sched <= 2)%nat /\ pcs (run sched st) i = Holding).
  { clear. intros st H0 Hi. assert (Ht : forall st, lock_byte st = 0 -> pcs st i = Testing ->
      pcs (advance i st) i = Holding).
    { intros st' H0' Ht. unfold advance. rewrite Ht, H0'. cbn [Z.eqb negb]. rewrite pcs_at. by rewrite decide_True. }
    destruct (pcs st i) eqn:E; [| | |done].
    1,3: exists [i; i]; split; [done|]; cbn [run foldl]; apply Ht; unfold advance; rewrite E;
      [done | rewrite pcs_at; by rewrite decide_True].
    exists [i]. split; [cbn; lia|]. by apply Ht. }
  destruct (decide (pcs st i = Holding)) as [Hi|Hi]; [by exists []; cbn; split; [lia|]|].
  destruct (li_bit _ Hinv) as [H0|H1].
  - destruct (Hfree st H0 Hi) as (l & Hl & Hp). exists l. split; [lia | done].
  - apply (li_held _ Hinv) in H1 as (j & Hj).
    assert (Hji : i <> j) by (by intros ->).
    destruct (Hfree (advance j st)) as (l & Hl & Hp).
    + unfold advance. by rewrite Hj.
    + unfold advance. rewrite Hj, pcs_at, decide_False by done. exact Hi.
    + exists (j :: l). split; [cbn; lia | exact Hp].
Qed.

(** The routines: on a free lock [spinlock_acquire] returns at once with the
    byte set to 1 and nothing else changed, and [spinlock_release] frees it again;
    on a taken lock, with nobody to release it, [spinlock_acquire] never returns. *)
Theorem spinlock_routines lock s :
  PAGE <= lock ->
  (rd (mem s) lock = 0 ->
   forall fuel, spinlock_acquire (S fuel) lock s = Ok tt (with_mem s (wr (mem s) lock 1))) /\
  (rd (mem s) lock <> 0 -> forall fuel, spinlock_acquire fuel lock s = NoFuel) /\
  spinlock_release lock s = Ok tt (with_mem s (wr (mem s) lock 0)).
Proof.
  intros Hl.
  assert (Hx : forall s, atomic_exchange lock 1 s = Ok (rd (mem s) lock) (with_mem s (wr (mem s) lock 1))).
  { intros s'. unfold atomic_exchange. erewrite bind_Ok by (by apply load_ok). cbv beta.
    erewrite bind_Ok by (by apply store_ok). cbv beta. cbn [ld st]. unfold ret. f_equal. lia. }
  split_and!.
  - intros H0 fuel. cbn [spinlock_acquire]. erewrite bind_Ok by apply Hx. cbv beta. by rewrite H0.
  - intros Hne fuel. revert s Hne. induction fuel as [|fuel IH]; intros s Hne; [done|].
    cbn [spinlock_acquire]. erewrite bind_Ok by apply Hx. cbv beta.
    rewrite (proj2 (Z.eqb_neq _ 0)) by done. cbn [negb]. apply IH. cbn [mem with_mem]. by rewrite rd_wr_eq.
  - unfold spinlock_release, atomic_store. by rewrite store_ok.
Qed.

Lemma spinlock_mutual_exclusion_witness :
  lock_byte (run [0; 1; 0; 1; 1]%nat initial) = 1 /\
  (forall i j, pcs (run [0; 1; 0; 1; 1]%nat initial) i = Holding ->
               pcs (run [0; 1; 0; 1; 1]%nat initial) j = Holding -> i = j).
Proof.
  split; [reflexivity|].
  apply (spinlock_mutual_exclusion (run [0; 1; 0; 1; 1]%nat initial)), run_reachable, reach_initial.
Defined.

Lemma spinlock_obtainable_witness :
  exists sched, (length sched <= 3)%nat /\ pcs (run sched (run [0; 1; 0; 1]%nat initial)) 1%nat = Holding.
Proof.
  apply (spinlock_obtainable (run [0; 1; 0; 1]%nat initial) 1%nat), run_reachable, reach_initial.
Defined.

Lemma spinlock_routines_witness :
  spinlock_acquire 1 0x2000 blank = Ok tt (with_mem blank (wr ∅ 0x2000 1)).
Proof. apply (spinlock_routines 0x2000 blank); [lia | reflexivity]. Defined.
