(* ===== verification/Boot.v ===== *)
(** bootstrap/bootloader.c and bootstrap/kmain.c: what the boot loader hands over,
    the order in which the kernel starts its parts, and the walk over the program
    headers of the first executable. *)
From S2P Require Import Prelude Memory Machine PageSource FrameAlloc Heap Bitfield PageWalk Paging.
From S2P Require Import CString Ramdisk Acpi Apic Devices Interrupts Pcie Gdt.

(** ** Layouts *)

(** limine.h: every request, the responses, a frame buffer and a file. *)
Definition off_response : Z := 40.
Definition off_count : Z := 8.       (* framebuffer_count, entry_count *)
Definition off_array : Z := 16.      (* framebuffers, entries, modules *)
Definition off_field1 : Z := 8.      (* rsdp address, hhdm offset, kernel_file, EFI address *)
Definition off_physical_base : Z := 8.
Definition off_virtual_base : Z := 16.
Definition off_fb_address : Z := 0.
Definition off_fb_width : Z := 8.
Definition off_fb_height : Z := 16.
Definition off_fb_pitch : Z := 24.
Definition off_fb_bpp : Z := 32.
Definition off_file_address : Z := 8.
Definition off_file_size : Z := 16.
Definition off_mm_base : Z := 0.
Definition off_mm_length : Z := 8.
Definition off_mm_type : Z := 16.

(** elf/elf.h: struct ElfHeader64 and struct ElfPheader64 *)
Definition e_machine : Z := 18.
Definition e_entry : Z := 24.
Definition e_phoff : Z := 32.
Definition e_phnum : Z := 56.
Definition p_type : Z := 0.
Definition p_filesz : Z := 32.
Definition p_memsz : Z := 40.
Definition p_align : Z := 48.
Definition sizeof_ElfPheader64 : Z := 56.
Definition ELF_MAGIC0 : Z := 0x7F.
Definition ELF_MAGIC1 : Z := 69.
Definition ELF_MAGIC2 : Z := 76.
Definition ELF_MAGIC3 : Z := 70.
Definition EM_X86_64 : Z := 0x3E.

(** Where the linker puts the requests, the image bounds and the file name. *)
Class BootStatics := {
  framebuffer_request : Z;
  mm_request : Z;
  rsdp_request : Z;
  hhdm_request : Z;
  ka_request : Z;
  kf_request : Z;
  module_request : Z;
  efi_request : Z;
  kernelStart : Z;
  kernelEnd : Z;
  elfTargetFileName : Z;
}.

(** ** The boot loader's answers *)

(** A response that is a counted array. *)
Record response3 := Response3 { rs_revision : Z; rs_count : Z; rs_array : Z }.
Definition no_response : response3 := Response3 0 0 0.

Record Bootloader := {
  fb : response3;
  mmap : response3;
  rsdp : Z;
  ka_phys_base : Z;
  ka_virt_base : Z;
  hhdm_base : Z;
  kernelSize : Z;
  mod_ : Z;
  efiSystemTable : Z;
}.

Section Ops.
Context `{BootStatics}.

Definition response (request : Z) : M Z := load 8 (request + off_response).

(** [*request.response] when there is one. *)
Definition copy_response (request : Z) : M response3 :=
  p ← response request;
  if negb (p =? 0) then
    p ← response request;
    revision ← load 8 p;
    count ← load 8 (p + off_count);
    array ← load 8 (p + off_array);
    ret (Response3 revision count array)
  else ret no_response.

(** [if (x) field = x;] on a field that is zero before. *)
Definition if_set (x : M Z) : M Z := v ← x; if negb (v =? 0) then x else ret 0.

Definition InitializeBootloader : M Bootloader :=
  fb_ ← copy_response framebuffer_request;
  mmap_ ← copy_response mm_request;
  p ← response rsdp_request;
  rsdp_ ← (if negb (p =? 0) then p ← response rsdp_request; load 8 (p + off_field1) else ret 0);
  p ← response ka_request;
  ka ← (if negb (p =? 0) then
          p ← response ka_request;
          phys ← load 8 (p + off_physical_base);
          p ← response ka_request;
          virt ← load 8 (p + off_virtual_base);
          ret (phys, virt)
        else ret (0, 0));
  hhdm ← if_set (p ← response hhdm_request; load 8 (p + off_field1));
  size ← if_set (p ← response kf_request; f ← load 8 (p + off_field1); load 8 (f + off_file_size));
  modules ← if_set (response module_request);
  p ← response efi_request;
  efi ← (if negb (p =? 0) then p ← response efi_request; load 8 (p + off_field1) else ret 0);
  ret {| fb := fb_; mmap := mmap_; rsdp := rsdp_; ka_phys_base := ka.1; ka_virt_base := ka.2;
         hhdm_base := hhdm; kernelSize := size; mod_ := modules; efiSystemTable := efi |}.

(** The memory map as the allocator and the page tables walk it. *)
Fixpoint read_mmap (k : nat) (entries : Z) : M (list limine_memmap_entry) :=
  match k with
  | O => ret []
  | S k =>
      e ← load 8 entries;
      base ← load 8 (e + off_mm_base);
      length ← load 8 (e + off_mm_length);
      type ← load 8 (e + off_mm_type);
      rest ← read_mmap k (entries + 8);
      ret (MemmapEntry base length type :: rest)
  end.
End Ops.

(** ** The executable *)

Section Elf.
Context `{Statics} `{PageSource}.

(** [a || b || c || d] on the four bytes of the signature, negated. *)
Definition magic_ok (hdr : Z) : M bool :=
  b ← load 1 hdr;
  if negb (b =? ELF_MAGIC0) then ret false
  else
    b ← load 1 (hdr + 1);
    if negb (b =? ELF_MAGIC1) then ret false
    else
      b ← load 1 (hdr + 2);
      if negb (b =? ELF_MAGIC2) then ret false
      else b ← load 1 (hdr + 3); ret (b =? ELF_MAGIC3).

Definition load_segment (fuel : nat) (phdr : Z) : M unit :=
  printf "Found program header:\n" [];;
  type ← load 4 (phdr + p_type);
  printf "    - Type: 0x%x\n" [AVal type];;
  filesz ← load 8 (phdr + p_filesz);
  printf "    - File size: %d\n" [AVal filesz];;
  memsz ← load 8 (phdr + p_memsz);
  printf "    - Memory size: %d\n" [AVal memsz];;
  filesz ← load 8 (phdr + p_filesz);
  memsz ← load 8 (phdr + p_memsz);
  when (negb (filesz =? memsz)) (printf "Warning: Unimplemented case (p_filesz != p_memsz).\n" []);;
  type ← load 4 (phdr + p_type);
  when (type =? 0x1)
    (_align ← load 8 (phdr + p_align);
     memsz ← load 8 (phdr + p_memsz);
     vmem_seg ← aligned_alloc fuel 0x1000 memsz;
     printf "0x%x" [AVal vmem_seg]).

(** The loop over the program headers; [e_phnum] has 16 bits. *)
Fixpoint load_segments (rounds fuel : nat) (hdr firstPhdr i : Z) : M unit :=
  match rounds with
  | O => out_of_fuel
  | S rounds =>
      n ← load 2 (hdr + e_phnum);
      if i <? n then
        load_segment fuel (u64 (firstPhdr + sizeof_ElfPheader64 * i));;
        load_segments rounds fuel hdr firstPhdr (i + 1)
      else ret tt
  end.

Definition elf_rounds : nat := Z.to_nat 0x10001.

Definition load_elf (fuel : nat) (hdr : Z) : M unit :=
  ok ← magic_ok hdr;
  if negb ok then printf "Error: Elf signature verification failed!\n" []
  else
    machine ← load 2 (hdr + e_machine);
    if negb (machine =? EM_X86_64) then printf "Error: Elf machine type is not x86_64!\n" []
    else
      printf "    - Verified machine type as x86_64\n" [];;
      entry ← load 8 (hdr + e_entry);
      printf "    - ELF requested virtual entry point 0x%x\n" [AVal entry];;
      printf "    - Enumerating program headers...\n" [];;
      phoff ← load 8 (hdr + e_phoff);
      let firstPhdr := u64 (hdr + phoff) in
      load_segments elf_rounds fuel hdr firstPhdr 0.
End Elf.

(** ** The kernel's entry point *)

Section Kmain.
Context `{BootStatics} `{Statics} `{IdtStatics} `{GdtStatics}.
(** The terminal library; the words behind the name tables of the PCI driver; the
    date of the build. *)
Context (flanterm_fb_simple_init : Z -> Z -> Z -> Z -> M unit) (stray : Z -> Z -> Z) (date : string).

Definition InitializeTerminal (framebuffer_ptr width height pitch : Z) : M unit :=
  flanterm_fb_simple_init framebuffer_ptr width height pitch;;
  modify (set_fbSetup true).

(** [bootloader.fb.framebuffers[0]->field] *)
Definition first_framebuffer (b : Bootloader) (n : nat) (field : Z) : M Z :=
  f ← load 8 (rs_array (fb b)); load n (f + field).

Definition start_parts (fuel : nat) : M Bootloader :=
  InitializeGDT;;
  bootloader ← InitializeBootloader;
  address ← first_framebuffer bootloader 8 off_fb_address;
  width ← first_framebuffer bootloader 8 off_fb_width;
  height ← first_framebuffer bootloader 8 off_fb_height;
  pitch ← first_framebuffer bootloader 8 off_fb_pitch;
  InitializeTerminal address (s32 width) (s32 height) (s32 pitch);;
  InitializeACPI (rsdp bootloader);;
  framebuffer_base ← first_framebuffer bootloader 8 off_fb_address;
  width ← first_framebuffer bootloader 8 off_fb_width;
  height ← first_framebuffer bootloader 8 off_fb_height;
  bpp ← first_framebuffer bootloader 2 off_fb_bpp;
  let framebuffer_size := u64 (u64 (u64 (width * height) * bpp) + 0x1000) in
  map ← read_mmap (Z.to_nat (rs_count (mmap bootloader))) (rs_array (mmap bootloader));
  InitializeAllocator map;;
  InitializePaging fuel (PagingInfo map (hhdm_base bootloader) (kernelEnd - kernelStart)
    (ka_phys_base bootloader) (ka_virt_base bootloader) framebuffer_base framebuffer_size);;
  InitializeIDT fuel;;
  printf "System/14 kernel, compiled on %s\n" [AText date];;
  InitializePIT;;
  InitializePCIE stray;;
  ret bootloader.

Definition start_ramdisk (fuel : nat) (bootloader : Bootloader) : M unit :=
  when (negb (mod_ bootloader =? 0))
    (modules ← load 8 (mod_ bootloader + off_array);
     file ← load 8 modules;
     address ← load 8 (file + off_file_address);
     InitializeRamdisk fuel address).

Definition load_first_program (fuel : nat) : M unit :=
  sz ← RdFileGetSz fuel elfTargetFileName;
  printf "Found a.out!\nFile size = %d bytes\nLoading file into buffer...\n" [AVal sz];;
  when (negb (sz =? 0))
    (buffer ← malloc fuel sz;
     if negb (buffer =? 0) then
       RdFileGetStream fuel elfTargetFileName buffer sz;;
       printf "    - ELF executable loaded at 0x%x\n" [AVal buffer];;
       load_elf fuel buffer
     else printf "Unable to allocate space to copy ELF to, refusing to load!\n" []).

(** [while (1) hlt;] with interrupts as they are. *)
Definition _kmain (fuel : nat) : M unit :=
  bootloader ← start_parts fuel;
  start_ramdisk fuel bootloader;;
  load_first_program fuel;;
  halt.
End Kmain.
