(* ===== verification/Structs.v ===== *)
(** The structures the kernel declares, member by member, and the layout the
    compiler gives them.  The other files reach members of structures in memory at
    offsets and bit positions written as constants; [layouts_agree] computes every
    one of them from the declarations, and [assignment_keeps_members] is what C
    promises about assigning to a member. *)
From S2P Require Import Prelude Memory Machine PageSource FrameAlloc Heap Bitfield PageWalk Paging.
From S2P Require Import CString Scheduler Ramdisk Acpi Apic Devices Interrupts Pcie Gdt Boot Layout.

(** ** Declarations *)

Definition uint8_t := CInt 1.
Definition char := CInt 1.
Definition bool_ := CInt 1.
Definition uint16_t := CInt 2.
Definition uint32_t := CInt 4.
Definition uint64_t := CInt 8.
Definition uintptr_t := CInt 8.

(** A member: name, type and, for a bit-field, its width. *)
Definition decl : Type := string * ctype * option Z.
Definition var (name : string) (t : ctype) : decl := (name, t, None).
Definition bitf (name : string) (t : ctype) (width : Z) : decl := (name, t, Some width).
Definition decls (l : list decl) : members :=
  foldr (fun '(f, t, b) ms => Decl f t b ms) Done l.

Definition struct (l : list decl) : ctype := CStruct false 1 (decls l).
Definition packed_struct (l : list decl) : ctype := CStruct true 1 (decls l).
Definition packed_aligned (al : Z) (l : list decl) : ctype := CStruct true al (decls l).

(** *** Memory: mm/allocator/allocator.c, mm/heapalloc/heap.c, mm/paging *)

Definition struct_Page : ctype := struct [
  var "ptr" CPtr;
  bitf "free" bool_ 1].

Definition struct_HeapNode : ctype := struct [
  var "size" uint64_t;
  var "next" CPtr].

Definition struct_PTE : ctype := packed_struct [
  bitf "Present" uint64_t 1;
  bitf "RW" uint64_t 1;
  bitf "UserSupervisor" uint64_t 1;
  bitf "PLWriteThrough" uint64_t 1;
  bitf "PLCacheDisable" uint64_t 1;
  bitf "Accessed" uint64_t 1;
  bitf "Ignored" uint64_t 1;
  bitf "PageSize" uint64_t 1;
  bitf "Ignored2" uint64_t 3;
  bitf "Ignored3" uint64_t 1;
  bitf "PhysAddr" uint64_t 40;
  bitf "Reserved" uint64_t 12].

Definition struct_PT : ctype := CStruct false 0x1000 (decls [
  var "values" (CArray struct_PTE 512)]).

(** *** Processes: interrupts/idt.h, multitasking/scheduler.h, syscall/syscall.c *)

Definition struct_Registers : ctype := packed_struct [
  var "r15" uint64_t; var "r14" uint64_t; var "r13" uint64_t; var "r12" uint64_t;
  var "r11" uint64_t; var "r10" uint64_t; var "r9" uint64_t; var "r8" uint64_t;
  var "rbp" uint64_t; var "rdi" uint64_t; var "rsi" uint64_t; var "rdx" uint64_t;
  var "rcx" uint64_t; var "rbx" uint64_t; var "rax" uint64_t;
  var "rip" uint64_t; var "cs" uint64_t; var "flags" uint64_t; var "rsp" uint64_t;
  var "ss" uint64_t].

Definition struct_SyscallRegisters : ctype := packed_struct [
  var "rbp" uint64_t; var "rdi" uint64_t; var "rsi" uint64_t; var "rdx" uint64_t;
  var "rcx" uint64_t; var "rbx" uint64_t; var "rax" uint64_t;
  var "rip" uint64_t; var "cs" uint64_t; var "flags" uint64_t; var "rsp" uint64_t;
  var "ss" uint64_t].

Definition struct_ProcessFrame : ctype := struct [
  var "pid" uint8_t;
  var "processName" (CArray char 32);
  var "registers" struct_Registers;
  var "quanta" uint8_t;
  var "cr3" CPtr;
  var "invalid" bool_;
  var "next" CPtr].

(** *** Descriptor tables: interrupts/idt.h, gdt/gdt.h *)

Definition struct_InterruptDescriptor : ctype := packed_aligned 16 [
  var "offset_1" uint16_t;
  var "selector" uint16_t;
  var "ist" uint8_t;
  var "types_attributes" uint8_t;
  var "offset_2" uint16_t;
  var "offset_3" uint32_t;
  var "null" uint32_t].

Definition struct_InterruptDescriptorTablePtr : ctype := packed_aligned 16 [
  var "limit" uint16_t;
  var "ptr" uint64_t].

Definition struct_SegmentDescriptor : ctype := packed_struct [
  var "limit" uint16_t;
  var "base_low" uint16_t;
  var "base_middle" uint8_t;
  var "access" uint8_t;
  var "granularity" uint8_t;
  var "base_high" uint8_t].

Definition struct_GlobalDescriptorTable : ctype := packed_struct [
  var "null" struct_SegmentDescriptor;
  var "kernelCode" struct_SegmentDescriptor;
  var "kernelData" struct_SegmentDescriptor;
  var "userCode" struct_SegmentDescriptor;
  var "userData" struct_SegmentDescriptor].

Definition struct_GlobalDescriptorTablePtr : ctype := packed_struct [
  var "size" uint16_t;
  var "addr" uint64_t].

(** *** Files: ramdisk/tar.h, elf/elf.h *)

Definition struct_tar_header : ctype := struct [
  var "path" (CArray char 100);
  var "mode" (CArray char 8);
  var "uid" (CArray char 8);
  var "gid" (CArray char 8);
  var "size" (CArray char 12);
  var "mtime" (CArray char 12);
  var "chksum" (CArray char 8);
  var "typeflag" (CArray char 1);
  var "padding" (CArray char 355)].

Definition struct_FileNode : ctype := struct [
  var "FilePath" (CArray char 100);
  var "FileSize" uint32_t;
  var "FileBegin" CPtr;
  var "next" CPtr].

Definition Elf64_Addr := uint64_t.
Definition Elf64_Off := uint64_t.
Definition Elf64_Half := uint16_t.
Definition Elf64_Word := uint32_t.
Definition Elf64_Xword := uint64_t.

Definition struct_ElfHeader64 : ctype := struct [
  var "e_ident" (CArray uint8_t 16);
  var "e_type" Elf64_Half;
  var "e_machine" Elf64_Half;
  var "e_version" Elf64_Word;
  var "e_entry" Elf64_Addr;
  var "e_phoff" Elf64_Off;
  var "e_shoff" Elf64_Off;
  var "e_flags" Elf64_Word;
  var "e_ehsize" Elf64_Half;
  var "e_phentsize" Elf64_Half;
  var "e_phnum" Elf64_Half;
  var "e_shentsize" Elf64_Half;
  var "e_shnum" Elf64_Half;
  var "e_shstrndx" Elf64_Half].

Definition struct_ElfPheader64 : ctype := struct [
  var "p_type" Elf64_Word;
  var "p_flags" Elf64_Word;
  var "p_offset" Elf64_Off;
  var "p_vaddr" Elf64_Addr;
  var "p_paddr" Elf64_Addr;
  var "p_filesz" Elf64_Xword;
  var "p_memsz" Elf64_Xword;
  var "p_align" Elf64_Xword].

(** *** Firmware tables: drivers/acpi/acpi.h, drivers/apic, drivers/pci/pcie.h *)

Definition struct_RSDPDescriptor : ctype := packed_struct [
  var "Signature" (CArray uint8_t 8);
  var "Checksum" uint8_t;
  var "OEMID" (CArray uint8_t 6);
  var "Revision" uint8_t;
  var "RsdtAddress" uint32_t;
  var "Length" uint32_t;
  var "XSDTAddress" uint64_t;
  var "ExtendedChecksum" uint8_t;
  var "reserved" (CArray uint8_t 3)].

Definition struct_ACPISystemTableHeader : ctype := packed_struct [
  var "Signature" (CArray char 4);
  var "Length" uint32_t;
  var "Revision" uint8_t;
  var "Checksum" uint8_t;
  var "OEMID" (CArray char 6);
  var "OEMTableID" (CArray uint8_t 8);
  var "OEMRevision" uint32_t;
  var "CreatorID" uint32_t;
  var "CreatorRevision" uint32_t].

Definition struct_ICStructure : ctype := packed_struct [
  var "Type" uint8_t;
  var "Length" uint8_t].

Definition struct_ICStructureLAPIC : ctype := packed_struct [
  var "global" struct_ICStructure;
  var "ACPIProcessorUID" uint8_t;
  var "APICId" uint8_t;
  var "Flags" uint32_t].

Definition struct_ICStructureIOAPIC : ctype := packed_struct [
  var "global" struct_ICStructure;
  var "IOAPICId" uint8_t;
  var "Reserved" uint8_t;
  var "IOAPICAddress" uint32_t;
  var "GlobalSystemInterruptBase" uint32_t].

Definition struct_MADT : ctype := packed_struct [
  var "Signature" (CArray char 4);
  var "Length" uint32_t;
  var "Revision" uint8_t;
  var "Checksum" uint8_t;
  var "OEMId" (CArray char 6);
  var "OEMTableId" (CArray char 8);
  var "OEMRevision" uint32_t;
  var "CreatorID" uint32_t;
  var "CreatorRevision" uint32_t;
  var "LAPICBase" uint32_t;
  var "Flags" uint32_t;
  var "ICStructBase" struct_ICStructure].

Definition struct_IOAPICRedirectionEntry : ctype := packed_struct [
  var "InterruptVector" uint8_t;
  bitf "DeliveryMode" uint8_t 3;
  bitf "DestinationMode" uint8_t 1;
  bitf "Busy" uint8_t 1;
  bitf "Polarity" uint8_t 1;
  bitf "LTIStatus" uint8_t 1;
  bitf "TriggerMode" uint8_t 1;
  bitf "InterruptMask" uint8_t 1;
  bitf "Reserved" uint64_t 39;
  var "Destination" uint8_t].

Definition struct_PCIConfigEntry : ctype := packed_struct [
  var "base" uint64_t;
  var "groupNumber" uint16_t;
  var "startPCIBus" uint8_t;
  var "endPCIBus" uint8_t;
  var "reserved" uint32_t].

Definition struct_PCIDeviceStruct : ctype := packed_struct [
  var "VendorID" uint16_t;
  var "DeviceID" uint16_t;
  var "Command" uint16_t;
  var "Status" uint16_t;
  var "RevisionID" uint8_t;
  var "ProgIF" uint8_t;
  var "SubClass" uint8_t;
  var "ClassCode" uint8_t;
  var "CacheLineSize" uint8_t;
  var "LatencyTimer" uint8_t;
  var "HdrType" uint8_t;
  var "BIST" uint8_t].

Definition struct_PCIHdrType0 : ctype := packed_struct [
  var "DefaultHeader" struct_PCIDeviceStruct;
  var "BAR0" uint32_t; var "BAR1" uint32_t; var "BAR2" uint32_t;
  var "BAR3" uint32_t; var "BAR4" uint32_t; var "BAR5" uint32_t;
  var "CardbusCISPtr" uint32_t;
  var "SubsystemVendorId" uint16_t;
  var "SubsystemId" uint16_t;
  var "ExpansionROMAddress" uint32_t;
  var "CapabilitiesPtr" uint8_t;
  bitf "Reserved" uint32_t 24;
  var "InterruptLine" uint8_t;
  var "InterruptPIN" uint8_t;
  var "MinGrant" uint8_t;
  var "MaxLatency" uint8_t].

(** *** The boot protocol: limine.h, bootstrap/bootloader.h, mm/paging/paging.c *)

Definition struct_limine_uuid : ctype := struct [
  var "a" uint32_t;
  var "b" uint16_t;
  var "c" uint16_t;
  var "d" (CArray uint8_t 8)].

Definition struct_limine_file : ctype := struct [
  var "revision" uint64_t;
  var "address" CPtr;
  var "size" uint64_t;
  var "path" CPtr;
  var "cmdline" CPtr;
  var "media_type" uint32_t;
  var "unused" uint32_t;
  var "tftp_ip" uint32_t;
  var "tftp_port" uint32_t;
  var "partition_index" uint32_t;
  var "mbr_disk_id" uint32_t;
  var "gpt_disk_uuid" struct_limine_uuid;
  var "gpt_part_uuid" struct_limine_uuid;
  var "part_uuid" struct_limine_uuid].

Definition struct_limine_framebuffer : ctype := struct [
  var "address" CPtr;
  var "width" uint64_t;
  var "height" uint64_t;
  var "pitch" uint64_t;
  var "bpp" uint16_t;
  var "memory_model" uint8_t;
  var "red_mask_size" uint8_t;
  var "red_mask_shift" uint8_t;
  var "green_mask_size" uint8_t;
  var "green_mask_shift" uint8_t;
  var "blue_mask_size" uint8_t;
  var "blue_mask_shift" uint8_t;
  var "unused" (CArray uint8_t 7);
  var "edid_size" uint64_t;
  var "edid" CPtr;
  var "mode_count" uint64_t;
  var "modes" CPtr].

Definition struct_limine_memmap_entry : ctype := struct [
  var "base" uint64_t;
  var "length" uint64_t;
  var "type" uint64_t].

Definition struct_limine_framebuffer_response : ctype := struct [
  var "revision" uint64_t;
  var "framebuffer_count" uint64_t;
  var "framebuffers" CPtr].

Definition struct_limine_memmap_response : ctype := struct [
  var "revision" uint64_t;
  var "entry_count" uint64_t;
  var "entries" CPtr].

Definition struct_limine_module_response : ctype := struct [
  var "revision" uint64_t;
  var "module_count" uint64_t;
  var "modules" CPtr].

Definition struct_limine_kernel_address_response : ctype := struct [
  var "revision" uint64_t;
  var "physical_base" uint64_t;
  var "virtual_base" uint64_t].

Definition struct_limine_hhdm_response : ctype := struct [
  var "revision" uint64_t;
  var "offset" uint64_t].

Definition struct_limine_kernel_file_response : ctype := struct [
  var "revision" uint64_t;
  var "kernel_file" CPtr].

Definition struct_limine_rsdp_response : ctype := struct [
  var "revision" uint64_t;
  var "address" CPtr].

Definition struct_limine_efi_system_table_response : ctype := struct [
  var "revision" uint64_t;
  var "address" CPtr].

Definition struct_limine_framebuffer_request : ctype := struct [
  var "id" (CArray uint64_t 4); var "revision" uint64_t; var "response" CPtr].
Definition struct_limine_memmap_request : ctype := struct [
  var "id" (CArray uint64_t 4); var "revision" uint64_t; var "response" CPtr].
Definition struct_limine_rsdp_request : ctype := struct [
  var "id" (CArray uint64_t 4); var "revision" uint64_t; var "response" CPtr].
Definition struct_limine_hhdm_request : ctype := struct [
  var "id" (CArray uint64_t 4); var "revision" uint64_t; var "response" CPtr].
Definition struct_limine_kernel_address_request : ctype := struct [
  var "id" (CArray uint64_t 4); var "revision" uint64_t; var "response" CPtr].
Definition struct_limine_kernel_file_request : ctype := struct [
  var "id" (CArray uint64_t 4); var "revision" uint64_t; var "response" CPtr].
Definition struct_limine_efi_system_table_request : ctype := struct [
  var "id" (CArray uint64_t 4); var "revision" uint64_t; var "response" CPtr].
Definition struct_limine_module_request : ctype := struct [
  var "id" (CArray uint64_t 4); var "revision" uint64_t; var "response" CPtr;
  var "internal_module_count" uint64_t; var "internal_modules" CPtr].

Definition struct_Bootloader : ctype := struct [
  var "fb" struct_limine_framebuffer_response;
  var "mmap" struct_limine_memmap_response;
  var "rsdp" uint64_t;
  var "ka_phys_base" uint64_t;
  var "ka_virt_base" uint64_t;
  var "hhdm_base" uint64_t;
  var "kernelSize" uint64_t;
  var "mod" CPtr;
  var "efiSystemTable" CPtr].

Definition struct_GlobalPagingInfo : ctype := struct [
  var "mmap" struct_limine_memmap_response;
  var "hhdm_base" uint64_t;
  var "kernelSize" uint64_t;
  var "kernelPhysBase" uint64_t;
  var "kernelVirtBase" uint64_t;
  var "fbBase" uintptr_t;
  var "fbSize" uintptr_t].

Definition kernel_structs : list ctype := [
  struct_Page; struct_HeapNode; struct_PTE; struct_PT; struct_Registers; struct_SyscallRegisters;
  struct_ProcessFrame; struct_InterruptDescriptor; struct_InterruptDescriptorTablePtr;
  struct_SegmentDescriptor; struct_GlobalDescriptorTable; struct_GlobalDescriptorTablePtr;
  struct_tar_header; struct_FileNode; struct_ElfHeader64; struct_ElfPheader64;
  struct_RSDPDescriptor; struct_ACPISystemTableHeader; struct_ICStructure; struct_ICStructureLAPIC;
  struct_ICStructureIOAPIC; struct_MADT; struct_IOAPICRedirectionEntry; struct_PCIConfigEntry;
  struct_PCIDeviceStruct; struct_PCIHdrType0; struct_limine_uuid; struct_limine_file;
  struct_limine_framebuffer; struct_limine_memmap_entry; struct_limine_framebuffer_response;
  struct_limine_memmap_response; struct_limine_module_response; struct_limine_kernel_address_response;
  struct_limine_hhdm_response; struct_limine_kernel_file_response; struct_limine_rsdp_response;
  struct_limine_efi_system_table_response; struct_limine_framebuffer_request;
  struct_limine_memmap_request; struct_limine_rsdp_request; struct_limine_hhdm_request;
  struct_limine_kernel_address_request; struct_limine_kernel_file_request;
  struct_limine_efi_system_table_request; struct_limine_module_request; struct_Bootloader;
  struct_GlobalPagingInfo].

(** ** The constants of the development *)

(** A structure, a designator and the offset the code is modelled with. *)
Definition offset_row : Type := ctype * list string * Z.
Definition offset_agrees : offset_row -> Prop := fun '(t, p, off) => offsetof t (map Fld p) = Some off.

Definition kernel_offsets : list offset_row := [
  (struct_Page, ["ptr"], page_slot 0 0);
  (struct_HeapNode, ["size"], size_of 0);
  (struct_HeapNode, ["next"], next_of 0);
  (struct_ProcessFrame, ["pid"], off_pid);
  (struct_ProcessFrame, ["processName"], off_processName);
  (struct_ProcessFrame, ["registers"], off_registers);
  (struct_ProcessFrame, ["quanta"], off_quanta);
  (struct_ProcessFrame, ["cr3"], off_cr3);
  (struct_ProcessFrame, ["invalid"], off_invalid);
  (struct_ProcessFrame, ["next"], off_next);
  (struct_ProcessFrame, ["registers"; "rip"], off_registers + reg_rip);
  (struct_ProcessFrame, ["registers"; "rsp"], off_registers + reg_rsp);
  (struct_Registers, ["rip"], reg_rip);
  (struct_Registers, ["cs"], reg_cs);
  (struct_Registers, ["flags"], reg_flags);
  (struct_Registers, ["rsp"], reg_rsp);
  (struct_Registers, ["ss"], reg_ss);
  (struct_InterruptDescriptor, ["offset_1"], 0);
  (struct_InterruptDescriptor, ["selector"], 2);
  (struct_InterruptDescriptor, ["ist"], 4);
  (struct_InterruptDescriptor, ["types_attributes"], 5);
  (struct_InterruptDescriptor, ["offset_2"], 6);
  (struct_InterruptDescriptor, ["offset_3"], 8);
  (struct_InterruptDescriptor, ["null"], 12);
  (struct_InterruptDescriptorTablePtr, ["limit"], 0);
  (struct_InterruptDescriptorTablePtr, ["ptr"], 2);
  (struct_GlobalDescriptorTablePtr, ["size"], 0);
  (struct_GlobalDescriptorTablePtr, ["addr"], 2);
  (struct_GlobalDescriptorTable, ["kernelCode"], 0x08);
  (struct_GlobalDescriptorTable, ["kernelData"], 0x10);
  (struct_tar_header, ["path"], off_path);
  (struct_tar_header, ["size"], off_size);
  (struct_FileNode, ["FilePath"], off_FilePath);
  (struct_FileNode, ["FileSize"], off_FileSize);
  (struct_FileNode, ["FileBegin"], off_FileBegin);
  (struct_FileNode, ["next"], off_fnext);
  (struct_ElfHeader64, ["e_machine"], e_machine);
  (struct_ElfHeader64, ["e_entry"], e_entry);
  (struct_ElfHeader64, ["e_phoff"], e_phoff);
  (struct_ElfHeader64, ["e_phnum"], e_phnum);
  (struct_ElfPheader64, ["p_type"], p_type);
  (struct_ElfPheader64, ["p_filesz"], p_filesz);
  (struct_ElfPheader64, ["p_memsz"], p_memsz);
  (struct_ElfPheader64, ["p_align"], p_align);
  (struct_RSDPDescriptor, ["OEMID"], off_OEMID);
  (struct_RSDPDescriptor, ["Revision"], off_Revision);
  (struct_RSDPDescriptor, ["RsdtAddress"], off_RsdtAddress);
  (struct_ACPISystemTableHeader, ["Length"], off_Length);
  (struct_MADT, ["Length"], off_Length);
  (struct_MADT, ["LAPICBase"], off_LAPICBase);
  (struct_MADT, ["ICStructBase"], off_ICStructBase);
  (struct_ICStructure, ["Type"], off_Type);
  (struct_ICStructure, ["Length"], off_ICLength);
  (struct_ICStructureIOAPIC, ["global"; "Length"], off_ICLength);
  (struct_ICStructureIOAPIC, ["IOAPICAddress"], off_IOAPICAddress);
  (struct_ICStructureIOAPIC, ["GlobalSystemInterruptBase"], off_GlobalSystemInterruptBase);
  (struct_PCIConfigEntry, ["base"], off_base);
  (struct_PCIConfigEntry, ["startPCIBus"], off_startPCIBus);
  (struct_PCIConfigEntry, ["endPCIBus"], off_endPCIBus);
  (struct_PCIDeviceStruct, ["VendorID"], off_VendorID);
  (struct_PCIDeviceStruct, ["SubClass"], off_SubClass);
  (struct_PCIDeviceStruct, ["ClassCode"], off_ClassCode);
  (struct_PCIDeviceStruct, ["HdrType"], off_HdrType);
  (struct_PCIHdrType0, ["DefaultHeader"; "VendorID"], off_VendorID);
  (struct_PCIHdrType0, ["BAR0"], off_BAR0);
  (struct_PCIHdrType0, ["CapabilitiesPtr"], 0x34);
  (struct_PCIHdrType0, ["InterruptLine"], 0x38);   (* at 0x3C in configuration space *)
  (struct_limine_file, ["address"], off_file_address);
  (struct_limine_file, ["size"], off_file_size);
  (struct_limine_framebuffer, ["address"], off_fb_address);
  (struct_limine_framebuffer, ["width"], off_fb_width);
  (struct_limine_framebuffer, ["height"], off_fb_height);
  (struct_limine_framebuffer, ["pitch"], off_fb_pitch);
  (struct_limine_framebuffer, ["bpp"], off_fb_bpp);
  (struct_limine_memmap_entry, ["base"], off_mm_base);
  (struct_limine_memmap_entry, ["length"], off_mm_length);
  (struct_limine_memmap_entry, ["type"], off_mm_type);
  (struct_limine_framebuffer_response, ["framebuffer_count"], off_count);
  (struct_limine_framebuffer_response, ["framebuffers"], off_array);
  (struct_limine_memmap_response, ["entry_count"], off_count);
  (struct_limine_memmap_response, ["entries"], off_array);
  (struct_limine_module_response, ["modules"], off_array);
  (struct_limine_kernel_address_response, ["physical_base"], off_physical_base);
  (struct_limine_kernel_address_response, ["virtual_base"], off_virtual_base);
  (struct_limine_hhdm_response, ["offset"], off_field1);
  (struct_limine_kernel_file_response, ["kernel_file"], off_field1);
  (struct_limine_rsdp_response, ["address"], off_field1);
  (struct_limine_efi_system_table_response, ["address"], off_field1);
  (struct_limine_framebuffer_request, ["response"], off_response);
  (struct_limine_memmap_request, ["response"], off_response);
  (struct_limine_rsdp_request, ["response"], off_response);
  (struct_limine_hhdm_request, ["response"], off_response);
  (struct_limine_kernel_address_request, ["response"], off_response);
  (struct_limine_kernel_file_request, ["response"], off_response);
  (struct_limine_efi_system_table_request, ["response"], off_response);
  (struct_limine_module_request, ["response"], off_response)].

(** Sizes: those the code uses, and those its partners - the processor, the
    firmware, the tar and ELF formats - define. *)
Definition kernel_sizes : list (ctype * Z) := [
  (struct_Page, sizeof_Page);
  (struct_HeapNode, sizeof_HeapNode);
  (struct_PTE, 8);
  (struct_PT, PAGE);
  (struct_Registers, sizeof_Registers);
  (struct_ProcessFrame, sizeof_ProcessFrame);
  (struct_InterruptDescriptor, sizeof_InterruptDescriptor);
  (struct_SegmentDescriptor, sizeof_SegmentDescriptor);
  (struct_GlobalDescriptorTable, sizeof_GlobalDescriptorTable);
  (struct_GlobalDescriptorTablePtr, 10);
  (struct_tar_header, 512);
  (struct_FileNode, sizeof_FileNode);
  (struct_ElfHeader64, 64);
  (struct_ElfPheader64, sizeof_ElfPheader64);
  (struct_RSDPDescriptor, 36);
  (struct_ACPISystemTableHeader, sizeof_ACPISystemTableHeader);
  (struct_ICStructureLAPIC, 8);
  (struct_ICStructureIOAPIC, 12);
  (struct_MADT, sizeof_MADT);
  (struct_IOAPICRedirectionEntry, 8);
  (struct_PCIConfigEntry, sizeof_PCIConfigEntry);
  (struct_PCIDeviceStruct, 16);
  (struct_PCIHdrType0, 60);   (* the configuration header has 64 bytes *)
  (struct_limine_uuid, 16)].
Definition size_agrees : ctype * Z -> Prop := fun '(t, n) => sizeof t = n.

(** Bit-fields of a 64-bit word. *)
Definition kernel_bitfields : list (ctype * string * bitfield) := [
  (struct_PTE, "Present", Present);
  (struct_PTE, "RW", RW);
  (struct_PTE, "UserSupervisor", UserSupervisor);
  (struct_PTE, "PageSize", PageSize);
  (struct_PTE, "PhysAddr", PhysAddr);
  (struct_IOAPICRedirectionEntry, "InterruptVector", bf_InterruptVector);
  (struct_IOAPICRedirectionEntry, "DeliveryMode", bf_DeliveryMode);
  (struct_IOAPICRedirectionEntry, "DestinationMode", bf_DestinationMode);
  (struct_IOAPICRedirectionEntry, "Busy", bf_Busy);
  (struct_IOAPICRedirectionEntry, "Polarity", bf_Polarity);
  (struct_IOAPICRedirectionEntry, "LTIStatus", bf_LTIStatus);
  (struct_IOAPICRedirectionEntry, "TriggerMode", bf_TriggerMode);
  (struct_IOAPICRedirectionEntry, "InterruptMask", bf_InterruptMask);
  (struct_IOAPICRedirectionEntry, "Reserved", bf_Reserved);
  (struct_IOAPICRedirectionEntry, "Destination", bf_Destination)].
Definition bitfield_agrees : ctype * string * bitfield -> Prop := fun '(t, f, b) =>
  bits_of t [Fld f] = Some (bf_lo b, bf_width b).

#[local] Instance offset_agrees_dec r : Decision (offset_agrees r).
Proof. destruct r as [[t p] off]. unfold offset_agrees. apply _. Defined.
#[local] Instance size_agrees_dec r : Decision (size_agrees r).
Proof. destruct r as [t n]. unfold size_agrees. apply _. Defined.
#[local] Instance bitfield_agrees_dec r : Decision (bitfield_agrees r).
Proof. destruct r as [[t f] b]. unfold bitfield_agrees. apply _. Defined.

Lemma kernel_structs_wf t : t ∈ kernel_structs -> wf t = true.
Proof.
  intros Ht. assert (H : forallb wf kernel_structs = true) by (vm_compute; reflexivity).
  rewrite forallb_forall in H. apply H. by apply list_elem_of_In.
Qed.

(** The element [values[i]] of a page table. *)
Lemma values_position i : 0 <= i < 512 -> offsetof struct_PT [Fld "values"; Idx i] = Some (8 * i).
Proof.
  intros Hi.
  assert (E : designated struct_PT [Fld "values"; Idx i] = Some (8 * i * 8, 64, struct_PTE)).
  { unfold designated. cbn [position].
    assert (E1 : first_step struct_PT (Fld "values") = Some (0, 32768, CArray struct_PTE 512))
      by (vm_compute; reflexivity).
    rewrite E1, first_step_array by done. do 3 f_equal.
    change (bitsof struct_PTE) with 64. lia. }
  unfold offsetof. rewrite E. cbn [mbind option_bind]. by rewrite Z.mod_mul, Z.div_mul by lia.
Qed.

(** The offsets, sizes and bit positions the kernel's code is modelled with are
    those the compiler computes from the declarations, every declaration being well
    formed. The structures shared with the processor, the firmware and the file
    formats have the size their formats demand, but for the PCI header of type 0:
    four reserved bytes are missing in front of its last four members. *)
Theorem layouts_agree :
  Forall (fun t => wf t = true) kernel_structs /\
  Forall offset_agrees kernel_offsets /\
  Forall size_agrees kernel_sizes /\
  Forall bitfield_agrees kernel_bitfields /\
  bits_of struct_Page [Fld "free"] = Some (8 * 8, 1) /\
  (forall m t i, 0 <= i < 512 -> exists off,
     offsetof struct_PT [Fld "values"; Idx i] = Some off /\ ent m t i = ld64 m (t + off)).
Proof.
  split_and!.
  - apply Forall_forall. apply kernel_structs_wf.
  - apply (bool_decide_unpack _). by vm_compute.
  - apply (bool_decide_unpack _). by vm_compute.
  - apply (bool_decide_unpack _). by vm_compute.
  - by vm_compute.
  - intros m t i Hi. exists (8 * i). split; [by apply values_position | done].
Qed.

(** Members are independent: in every structure of the kernel, for two
    designators of which neither starts with the other, storing a value through the
    first succeeds and leaves what is read through the second unchanged; two members
    of a structure of 64 bits are independent as bit-fields of the word that holds
    it. *)
Theorem members_independent t p q : t ∈ kernel_structs ->
  ~ p `prefix_of` q -> ~ q `prefix_of` p ->
  (forall off n off' n' a v s, bytes_member t p off n -> bytes_member t q off' n' -> PAGE <= a ->
     exists s', store n (a + off) v s = Ok tt s' /\
       load n (a + off) s' = Ok (v mod 2 ^ (8 * Z.of_nat n)) s' /\
       load n' (a + off') s' = Ok (ld (mem s) n' (a + off')) s') /\
  (forall o w o' w' x v, bits_of t p = Some (o, w) -> bits_of t q = Some (o', w') ->
     getf (setf x (BF o w) v) (BF o w) = v mod 2 ^ w /\
     getf (setf x (BF o w) v) (BF o' w') = getf x (BF o' w')).
Proof.
  intros Ht%kernel_structs_wf Np Nq. split.
  - intros off n off' n' a v s Hp Hq Ha.
    pose proof (bytes_member_nonneg _ _ _ _ Ht Hp). pose proof (bytes_member_nonneg _ _ _ _ Ht Hq).
    eexists. rewrite store_ok, !load_ok by lia. split_and!; [done | |]; cbn [mem with_mem].
    + by rewrite ld_st_eq.
    + by rewrite (assign_other t p q).
  - intros o w o' w' x v Hp Hq.
    apply bits_of_designated in Hp as [u Hp], Hq as [u' Hq].
    pose proof (designated_nonneg _ _ _ _ _ Ht Hp). pose proof (designated_nonneg _ _ _ _ _ Ht Hq).
    split; [by apply getf_setf_eq | apply getf_setf_ne; [done..|]]. by eapply (member_apart t p q).
Qed.

Lemma members_independent_witness :
  (exists s', store 8 (0x5000 + 153) 7 blank = Ok tt s' /\
     load 8 (0x5000 + 153) s' = Ok 7 s' /\ load 8 (0x5000 + 216) s' = Ok 0 s') /\
  getf (setf 0x1003 (BF 2 1) 1) (BF 12 40) = 1.
Proof.
  split.
  - destruct (members_independent struct_ProcessFrame [Fld "registers"; Fld "rip"] [Fld "next"])
      as [H _].
    + repeat first [apply list_elem_of_here | apply list_elem_of_further].
    + intros [k Hk]. discriminate Hk.
    + intros [k Hk]. discriminate Hk.
    + destruct (H 153 8%nat 216 8%nat 0x5000 7 blank) as (s' & R & L1 & L2).
      * exists uint64_t. by vm_compute.
      * exists CPtr. by vm_compute.
      * lia.
      * exists s'. by split_and!.
  - destruct (members_independent struct_PTE [Fld "UserSupervisor"] [Fld "PhysAddr"]) as [_ H].
    + repeat first [apply list_elem_of_here | apply list_elem_of_further].
    + intros [k Hk]. discriminate Hk.
    + intros [k Hk]. discriminate Hk.
    + destruct (H 2 1 12 40 0x1003 1) as [_ ->]; by vm_compute.
Defined.
