(* ===== verification/BootSpec.v ===== *)
(** The boot path: what [InitializeBootloader] makes of the boot loader's answers,
    and the walk over an executable's program headers. *)
From S2P Require Import Prelude Memory Machine PageSource FrameAlloc Heap Demo Bitfield PageWalk Paging.
From S2P Require Import CString Ramdisk RamdiskWitness Acpi Apic Devices Interrupts InterruptSpec Pcie Gdt Boot.

(** ** The boot loader's answers *)

Class BootStaticsOk `{BootStatics} := {
  requests_page r :
    r ∈ [framebuffer_request; mm_request; rsdp_request; hhdm_request; ka_request; kf_request;
         module_request; efi_request; elfTargetFileName] -> PAGE <= r;
}.

Section Answers.
Context `{BootStaticsOk} (m : gmap Z Z).

(** The response pointer of a request; 0 when the boot loader does not know it. *)
Definition resp (request : Z) : Z := ld64 m (request + off_response).
Definition answered (request : Z) : Prop := resp request = 0 \/ PAGE <= resp request.

Definition array_of (request : Z) : response3 :=
  let p := resp request in
  if p =? 0 then no_response else Response3 (ld64 m p) (ld64 m (p + off_count)) (ld64 m (p + off_array)).
Definition field_of (request off : Z) : Z :=
  if resp request =? 0 then 0 else ld64 m (resp request + off).

Definition answers : Bootloader :=
  {| fb := array_of framebuffer_request;
     mmap := array_of mm_request;
     rsdp := field_of rsdp_request off_field1;
     ka_phys_base := field_of ka_request off_physical_base;
     ka_virt_base := field_of ka_request off_virtual_base;
     hhdm_base := field_of hhdm_request off_field1;
     kernelSize := ld64 m (field_of kf_request off_field1 + off_file_size);
     mod_ := resp module_request;
     efiSystemTable := field_of efi_request off_field1 |}.

(** How [c] ends, on every machine with this memory; [reads c v] when it computes
    [v] without changing the machine. *)
Definition ends {A} (c : M A) (o : machine -> outcome A) : Prop := forall s, mem s = m -> c s = o s.
Definition reads {A} (c : M A) (v : A) : Prop := ends c (Ok v).

Lemma reads_ret {A} (v : A) : reads (ret v) v.
Proof using. by intros s _. Qed.
Lemma reads_bind {A B} (c : M A) (k : A -> M B) v o : reads c v -> ends (k v) o -> ends (bind c k) o.
Proof using. intros Hc Hk s Hs. erewrite bind_Ok by (by apply Hc). by apply Hk. Qed.
Lemma fault_bind {A B} (c : M A) (k : A -> M B) a : ends c (Fault a) -> ends (bind c k) (Fault a).
Proof using. intros Hc s Hs. unfold bind. by rewrite Hc. Qed.
Lemma fault_load n a : a < PAGE -> ends (load n a) (Fault a).
Proof using. intros Ha s Hs. by apply load_null. Qed.
Lemma reads_load n a : PAGE <= a -> reads (load n a) (ld m n a).
Proof using. intros Ha s Hs. rewrite load_ok by done. by rewrite Hs. Qed.

Lemma reads_response r : PAGE <= r -> reads (response r) (resp r).
Proof using. intros Hr. apply reads_load. unfold off_response. lia. Qed.

Lemma reads_copy r : PAGE <= r -> answered r -> reads (copy_response r) (array_of r).
Proof using.
  intros Hr Ha. eapply reads_bind; [by apply reads_response|]. unfold array_of.
  destruct (Z.eqb_spec (resp r) 0) as [Hz|Hz]; cbn [negb]; [apply reads_ret|].
  destruct Ha as [Ha|Ha]; [done|]. unfold off_count, off_array.
  eapply reads_bind; [by apply reads_response|]. do 3 (eapply reads_bind; [apply reads_load; lia|]).
  apply reads_ret.
Qed.

Lemma ends_field {A} r off (k : Z -> M A) o :
  PAGE <= r -> answered r -> 0 <= off -> ends (k (field_of r off)) o ->
  ends (p ← response r;
        v ← (if negb (p =? 0) then p ← response r; load 8 (p + off) else ret 0); k v) o.
Proof using.
  intros Hr Ha Ho Hk. eapply reads_bind; [by apply reads_response|]. eapply reads_bind; [|exact Hk].
  unfold field_of. destruct (Z.eqb_spec (resp r) 0) as [Hz|Hz]; cbn [negb]; [apply reads_ret|].
  destruct Ha as [Ha|Ha]; [done|]. eapply reads_bind; [by apply reads_response|]. apply reads_load. lia.
Qed.

Lemma reads_if_set x v : reads x v -> reads (if_set x) v.
Proof using.
  intros Hx. eapply reads_bind; [exact Hx|]. destruct (Z.eqb_spec v 0) as [->|]; [apply reads_ret | done].
Qed.

Lemma reads_field_direct r off : PAGE <= r -> PAGE <= resp r -> 0 <= off ->
  reads (p ← response r; load 8 (p + off)) (field_of r off).
Proof using.
  intros Hr Ha Ho. unfold field_of. rewrite (proj2 (Z.eqb_neq (resp r) 0)) by lia.
  eapply reads_bind; [by apply reads_response|]. apply reads_load. lia.
Qed.

(** The kernel file's size, read through two pointers. *)
Definition read_size : M Z :=
  p ← response kf_request; f ← load 8 (p + off_field1); load 8 (f + off_file_size).

Lemma InitializeBootloader_prefix o :
  answered framebuffer_request -> answered mm_request -> answered rsdp_request -> answered ka_request ->
  (forall fb_ mm_ rsdp_ ka,
    fb_ = array_of framebuffer_request -> mm_ = array_of mm_request ->
    rsdp_ = field_of rsdp_request off_field1 ->
    ka = (field_of ka_request off_physical_base, field_of ka_request off_virtual_base) ->
    ends (hhdm ← if_set (p ← response hhdm_request; load 8 (p + off_field1));
          size ← if_set read_size;
          modules ← if_set (response module_request);
          p ← response efi_request;
          efi ← (if negb (p =? 0) then p ← response efi_request; load 8 (p + off_field1) else ret 0);
          ret {| fb := fb_; mmap := mm_; rsdp := rsdp_; ka_phys_base := ka.1; ka_virt_base := ka.2;
                 hhdm_base := hhdm; kernelSize := size; mod_ := modules; efiSystemTable := efi |}) o) ->
  ends InitializeBootloader o.
Proof using All.
  intros A1 A2 A3 A4 Hk. assert (Hreq := requests_page). unfold InitializeBootloader.
  eapply reads_bind; [apply reads_copy; [apply Hreq; set_solver | done]|].
  eapply reads_bind; [apply reads_copy; [apply Hreq; set_solver | done]|].
  apply ends_field; [apply Hreq; set_solver | done | unfold off_field1; lia |].
  eapply reads_bind; [apply reads_response, Hreq; set_solver|].
  apply (reads_bind _ _ (field_of ka_request off_physical_base, field_of ka_request off_virtual_base));
    [|by apply Hk].
  unfold field_of. destruct (Z.eqb_spec (resp ka_request) 0) as [Hz|Hz]; cbn [negb]; [apply reads_ret|].
  destruct A4 as [|A4]; [done|]. unfold off_physical_base, off_virtual_base.
  eapply reads_bind; [apply reads_response, Hreq; set_solver|].
  eapply reads_bind; [apply reads_load; lia|].
  eapply reads_bind; [apply reads_response, Hreq; set_solver|].
  eapply reads_bind; [apply reads_load; lia|]. apply reads_ret.
Qed.

Lemma InitializeBootloader_run :
  answered framebuffer_request -> answered mm_request -> answered rsdp_request ->
  answered ka_request -> answered efi_request ->
  PAGE <= resp hhdm_request -> PAGE <= resp kf_request -> PAGE <= field_of kf_request off_field1 ->
  reads InitializeBootloader answers.
Proof using All.
  intros A1 A2 A3 A4 A5 A6 A7 A8. assert (Hreq := requests_page).
  apply InitializeBootloader_prefix; [done | done | done | done |].
  intros fb_ mm_ rsdp_ ka -> -> -> ->.
  eapply reads_bind.
  { apply reads_if_set, reads_field_direct; [apply Hreq; set_solver | done | unfold off_field1; lia]. }
  eapply reads_bind.
  { apply reads_if_set. eapply reads_bind; [apply reads_response, Hreq; set_solver|].
    eapply reads_bind; [apply reads_load; unfold off_field1; lia|].
    unfold field_of in A8. rewrite (proj2 (Z.eqb_neq (resp kf_request) 0)) in A8 by lia.
    apply reads_load. unfold off_file_size. lia. }
  eapply reads_bind; [apply reads_if_set, reads_response, Hreq; set_solver|].
  apply ends_field; [apply Hreq; set_solver | done | unfold off_field1; lia |].
  cbn [fst snd]. unfold answers.
  replace (ld64 m (field_of kf_request off_field1 + off_file_size)) with
    (ld64 m (ld64 m (resp kf_request + off_field1) + off_file_size)); [apply reads_ret|].
  unfold field_of. by rewrite (proj2 (Z.eqb_neq (resp kf_request) 0)) by lia.
Qed.

(** Without an answer to the direct map request the null pointer is followed. *)
Lemma InitializeBootloader_null :
  answered framebuffer_request -> answered mm_request -> answered rsdp_request -> answered ka_request ->
  resp hhdm_request = 0 -> ends InitializeBootloader (Fault off_field1).
Proof using All.
  intros A1 A2 A3 A4 Hz. apply InitializeBootloader_prefix; [done..|]. intros. apply fault_bind, fault_bind.
  eapply reads_bind; [apply reads_response, requests_page; set_solver|].
  rewrite Hz. apply (fault_load 8 off_field1). unfold off_field1. lia.
Qed.

(** Nor is the answer for the kernel file checked. *)
Lemma InitializeBootloader_null_file :
  answered framebuffer_request -> answered mm_request -> answered rsdp_request -> answered ka_request ->
  PAGE <= resp hhdm_request -> resp kf_request = 0 -> ends InitializeBootloader (Fault off_field1).
Proof using All.
  intros A1 A2 A3 A4 Hh Hz. assert (Hreq := requests_page).
  apply InitializeBootloader_prefix; [done..|]. intros. eapply reads_bind.
  { apply reads_if_set, reads_field_direct; [apply Hreq; set_solver | done | unfold off_field1; lia]. }
  apply fault_bind, fault_bind. eapply reads_bind; [apply reads_response, Hreq; set_solver|].
  rewrite Hz. apply fault_bind, (fault_load 8 off_field1). unfold off_field1. lia.
Qed.
End Answers.

Section Bootloader.
Context `{BootStaticsOk}.

(** The boot information: when the boot loader answers the requests for the
    direct map and the kernel file, [InitializeBootloader] returns its answers - a
    zero field for every other request without one - and changes nothing; without
    an answer to the direct map request, or to that for the kernel file, it
    dereferences the null pointer. *)
Theorem InitializeBootloader_answers s :
  let m := mem s in
  answered m framebuffer_request -> answered m mm_request -> answered m rsdp_request ->
  answered m ka_request -> answered m efi_request -> answered m hhdm_request -> answered m kf_request ->
  if (resp m hhdm_request =? 0) || (resp m kf_request =? 0)
  then InitializeBootloader s = Fault off_field1 s
  else PAGE <= field_of m kf_request off_field1 -> InitializeBootloader s = Ok (answers m) s.
Proof using All.
  intros m A1 A2 A3 A4 A5 A6 A7.
  destruct (Z.eqb_spec (resp m hhdm_request) 0) as [Hh|Hh]; cbn [orb].
  { by apply (InitializeBootloader_null m). }
  destruct A6 as [|A6]; [done|]. destruct (Z.eqb_spec (resp m kf_request) 0) as [Hf|Hf].
  { by apply (InitializeBootloader_null_file m). }
  destruct A7 as [|A7]; [done|]. intros A8. by apply InitializeBootloader_run.
Qed.
End Bootloader.

Section NoScreen.
Context `{BootStaticsOk} `{Statics} `{IdtStatics} `{GdtStatics}.

(** A machine without a frame buffer does not boot: when the boot loader gives
    no frame buffer, and answers what [InitializeBootloader] needs, [_kmain]
    dereferences the null pointer, with the descriptor table loaded, interrupts
    off, memory as it was and nothing printed. *)
Theorem kmain_needs_framebuffer init stray date fuel s :
  let m := mem s in
  resp m framebuffer_request = 0 -> answered m mm_request -> answered m rsdp_request ->
  answered m ka_request -> answered m efi_request -> PAGE <= resp m hhdm_request ->
  PAGE <= resp m kf_request -> PAGE <= field_of m kf_request off_field1 ->
  exists s', _kmain init stray date fuel s = Fault 0 s' /\
    mem s' = m /\ IF s' = false /\ trace s' = EvLgdt addr_gdtPtr :: trace s.
Proof using All.
  intros m A1 A2 A3 A4 A5 A6 A7 A8.
  set (s1 := with_trace (with_IF s false) (EvLgdt addr_gdtPtr :: trace s)).
  exists s1. split; [|done]. unfold _kmain, start_parts. rewrite bind_assoc.
  erewrite bind_Ok by reflexivity. cbv beta. rewrite bind_assoc.
  erewrite bind_Ok by (apply (InitializeBootloader_run m); try done; by left). cbv beta.
  rewrite bind_assoc. unfold first_framebuffer, answers, array_of. cbn [fb]. rewrite A1.
  rewrite bind_assoc. unfold bind at 1. by rewrite load_null.
Qed.
End NoScreen.

(** ** A boot loader that answers three requests *)

#[export] Instance demo_boot : BootStatics := {
  framebuffer_request := 0x20000; mm_request := 0x20100; rsdp_request := 0x20200;
  hhdm_request := 0x20300; ka_request := 0x20400; kf_request := 0x20500;
  module_request := 0x20600; efi_request := 0x20700;
  kernelStart := 0xffffffff80000000; kernelEnd := 0xffffffff80030000; elfTargetFileName := 0x20800;
}.
#[export] Instance demo_boot_ok : BootStaticsOk.
Proof.
  split. intros r Hr. assert (Hall : Forall (fun r => PAGE <= r)
    [framebuffer_request; mm_request; rsdp_request; hhdm_request; ka_request; kf_request;
     module_request; efi_request; elfTargetFileName]) by (apply (bool_decide_unpack _); by vm_compute).
  rewrite Forall_forall in Hall. by apply Hall.
Qed.

(** The direct map at 2^47, a kernel file of 0x30000 bytes, and an RSDP. *)
Definition boot_machine : machine :=
  let m := st ∅ 8 (0x20300 + off_response) 0x21000 in
  let m := st m 8 (0x21000 + off_field1) (2 ^ 47) in
  let m := st m 8 (0x20500 + off_response) 0x22000 in
  let m := st m 8 (0x22000 + off_field1) 0x23000 in
  let m := st m 8 (0x23000 + off_file_size) 0x30000 in
  let m := st m 8 (0x20200 + off_response) 0x24000 in
  with_mem blank (st m 8 (0x24000 + off_field1) 0xe0000).

Lemma InitializeBootloader_answers_witness :
  exists b, InitializeBootloader boot_machine = Ok b boot_machine /\
    hhdm_base b = 2 ^ 47 /\ rsdp b = 0xe0000 /\ fb b = no_response.
Proof.
  assert (H : if (resp (mem boot_machine) hhdm_request =? 0) || (resp (mem boot_machine) kf_request =? 0)
    then InitializeBootloader boot_machine = Fault off_field1 boot_machine
    else PAGE <= field_of (mem boot_machine) kf_request off_field1 ->
         InitializeBootloader boot_machine = Ok (answers (mem boot_machine)) boot_machine).
  { apply (InitializeBootloader_answers boot_machine);
      first [left; vm_compute; reflexivity | right; vm_compute; congruence]. }
  assert (E : (resp (mem boot_machine) hhdm_request =? 0) || (resp (mem boot_machine) kf_request =? 0) = false)
    by (vm_compute; reflexivity).
  rewrite E in H. exists (answers (mem boot_machine)). split; [apply H; vm_compute; congruence|].
  split; [by vm_compute | split; by vm_compute].
Defined.

Lemma kmain_needs_framebuffer_witness :
  exists s', _kmain (fun _ _ _ _ => ret tt) (fun _ _ => 0) "now" 1 boot_machine = Fault 0 s'.
Proof.
  destruct (kmain_needs_framebuffer (fun _ _ _ _ => ret tt) (fun _ _ => 0) "now" 1 boot_machine)
    as (s' & R & _).
  - vm_compute; reflexivity.
  - left; vm_compute; reflexivity.
  - right; vm_compute; congruence.
  - left; vm_compute; reflexivity.
  - left; vm_compute; reflexivity.
  - vm_compute; congruence.
  - vm_compute; congruence.
  - vm_compute; congruence.
  - exists s'. exact R.
Defined.
