(* ===== verification/Requests.v ===== *)
(** bootstrap/bootloader.c: the requests in the kernel's data, and who answers
    which.

    The boot loader finds a request by the four words of its identifier, and
    stores the address of its answer in the request.  The loader is a function
    from identifiers to answers; [InitializeBootloader_asks] says which answer ends
    up in which field of the boot information. *)
From S2P Require Import Prelude Memory Machine PageSource FrameAlloc Heap Bitfield PageWalk Paging.
From S2P Require Import CString Ramdisk Acpi Apic Devices Interrupts Pcie Gdt Boot Layout Structs BootSpec.

(** ** Identifiers (limine.h) *)

Definition LIMINE_COMMON_MAGIC : list Z := [0xc7b1dd30df4c8b88; 0x0a82e883a194f07b].
Definition LIMINE_HHDM_REQUEST : list Z :=
  LIMINE_COMMON_MAGIC ++ [0x48dcf1cb8ad2b852; 0x63984e959a98244b].
Definition LIMINE_FRAMEBUFFER_REQUEST : list Z :=
  LIMINE_COMMON_MAGIC ++ [0x9d5827dcd881dd75; 0xa3148604f6fab11b].
Definition LIMINE_MEMMAP_REQUEST : list Z :=
  LIMINE_COMMON_MAGIC ++ [0x67cf3d9d378a806f; 0xe304acdfc50c3c62].
Definition LIMINE_KERNEL_FILE_REQUEST : list Z :=
  LIMINE_COMMON_MAGIC ++ [0xad97e90e83f1ed67; 0x31eb5d1c5ff23b69].
Definition LIMINE_MODULE_REQUEST : list Z :=
  LIMINE_COMMON_MAGIC ++ [0x3e7e279702be32af; 0xca1c4f3bd1280cee].
Definition LIMINE_RSDP_REQUEST : list Z :=
  LIMINE_COMMON_MAGIC ++ [0xc5e77b6b397e7b43; 0x27637845accdcf3c].
Definition LIMINE_EFI_SYSTEM_TABLE_REQUEST : list Z :=
  LIMINE_COMMON_MAGIC ++ [0x5ceba5163eaaf6d6; 0x0a6981610cf65fcc].
Definition LIMINE_KERNEL_ADDRESS_REQUEST : list Z :=
  LIMINE_COMMON_MAGIC ++ [0x71ba76863cc55f63; 0xb2644a48c516a487].

(** ** The static objects of bootloader.c

    An initialiser names the identifier and the revision; the other members are
    zero.  All members of a request are 64-bit words. *)
Definition initialiser (t : ctype) (id : list Z) (revision : Z) : list Z :=
  id ++ [revision] ++ replicate (Z.to_nat (sizeof t / 8) - 5) 0.

Definition framebuffer_request_init : list Z :=
  initialiser struct_limine_framebuffer_request LIMINE_FRAMEBUFFER_REQUEST 0.
Definition mm_request_init : list Z :=
  initialiser struct_limine_memmap_request LIMINE_MEMMAP_REQUEST 0.
Definition rsdp_request_init : list Z :=
  initialiser struct_limine_rsdp_request LIMINE_RSDP_REQUEST 0.
Definition hhdm_request_init : list Z :=
  initialiser struct_limine_hhdm_request LIMINE_HHDM_REQUEST 0.
Definition ka_request_init : list Z :=
  initialiser struct_limine_kernel_address_request LIMINE_KERNEL_ADDRESS_REQUEST 0.
Definition kf_request_init : list Z :=
  initialiser struct_limine_kernel_file_request LIMINE_KERNEL_FILE_REQUEST 0.
Definition module_request_init : list Z :=
  initialiser struct_limine_module_request LIMINE_MODULE_REQUEST 0.
Definition efi_request_init : list Z :=
  initialiser struct_limine_efi_system_table_request LIMINE_EFI_SYSTEM_TABLE_REQUEST 0.

(** The words [ws] lie at [a]. *)
Fixpoint words_at (m : gmap Z Z) (a : Z) (ws : list Z) : Prop :=
  match ws with [] => True | w :: ws => ld64 m a = w /\ words_at m (a + 8) ws end.

Section Requests.
Context `{BootStaticsOk}.

Definition request_inits : list (Z * list Z) := [
  (framebuffer_request, framebuffer_request_init);
  (mm_request, mm_request_init);
  (rsdp_request, rsdp_request_init);
  (hhdm_request, hhdm_request_init);
  (ka_request, ka_request_init);
  (kf_request, kf_request_init);
  (module_request, module_request_init);
  (efi_request, efi_request_init)].

(** The kernel's image: every request as initialised. *)
Definition request_image (m : gmap Z Z) : Prop :=
  Forall (fun '(a, ws) => words_at m a ws) request_inits.

(** The boot loader reads the identifiers in the image [m0] and stores its answers:
    a null pointer for a request it does not know. *)
Definition id_at (m : gmap Z Z) (a : Z) : list Z :=
  [ld64 m a; ld64 m (a + 8); ld64 m (a + 16); ld64 m (a + 24)].
Definition answered_by (loader : list Z -> Z) (m0 m : gmap Z Z) : Prop :=
  Forall (fun '(a, _) => resp m a = loader (id_at m0 a)) request_inits.

(** The boot information that the answers amount to. *)
Definition array_from (m : gmap Z Z) (p : Z) : response3 :=
  if p =? 0 then no_response else Response3 (ld64 m p) (ld64 m (p + off_count)) (ld64 m (p + off_array)).
Definition field_from (m : gmap Z Z) (p off : Z) : Z := if p =? 0 then 0 else ld64 m (p + off).

Definition boot_info (loader : list Z -> Z) (m : gmap Z Z) : Bootloader :=
  {| fb := array_from m (loader LIMINE_FRAMEBUFFER_REQUEST);
     mmap := array_from m (loader LIMINE_MEMMAP_REQUEST);
     rsdp := field_from m (loader LIMINE_RSDP_REQUEST) off_field1;
     ka_phys_base := field_from m (loader LIMINE_KERNEL_ADDRESS_REQUEST) off_physical_base;
     ka_virt_base := field_from m (loader LIMINE_KERNEL_ADDRESS_REQUEST) off_virtual_base;
     hhdm_base := field_from m (loader LIMINE_HHDM_REQUEST) off_field1;
     kernelSize :=
       ld64 m (field_from m (loader LIMINE_KERNEL_FILE_REQUEST) off_field1 + off_file_size);
     mod_ := loader LIMINE_MODULE_REQUEST;
     efiSystemTable := field_from m (loader LIMINE_EFI_SYSTEM_TABLE_REQUEST) off_field1 |}.

(** An initialised request has its identifier in front and no answer. *)
Lemma initialised_request m a t id : length id = 4%nat -> Nat.leb 6 (Z.to_nat (sizeof t / 8)) = true ->
  words_at m a (initialiser t id 0) -> id_at m a = id /\ resp m a = 0.
Proof.
  unfold initialiser, id_at, resp, off_response. intros Hl Hn%Nat.leb_le.
  destruct id as [|w0 [|w1 [|w2 [|w3 [|]]]]]; try done.
  destruct (Z.to_nat (sizeof t / 8)) as [|[|[|[|[|[|k]]]]]]; try lia.
  cbn [app replicate words_at Nat.sub].
  replace (a + 8 + 8) with (a + 16) by lia. replace (a + 16 + 8) with (a + 24) by lia.
  replace (a + 24 + 8 + 8) with (a + 40) by lia. intros (-> & -> & -> & -> & _ & -> & _). done.
Qed.

Definition request_ids : list (list Z) :=
  [LIMINE_FRAMEBUFFER_REQUEST; LIMINE_MEMMAP_REQUEST; LIMINE_RSDP_REQUEST; LIMINE_HHDM_REQUEST;
   LIMINE_KERNEL_ADDRESS_REQUEST; LIMINE_KERNEL_FILE_REQUEST; LIMINE_MODULE_REQUEST;
   LIMINE_EFI_SYSTEM_TABLE_REQUEST].

Lemma image_ids m : request_image m ->
  Forall2 (fun x id => id_at m x.1 = id /\ resp m x.1 = 0) request_inits request_ids.
Proof using.
  unfold request_image, request_inits. intros Hi. rewrite !Forall_cons in Hi.
  destruct Hi as (I1 & I2 & I3 & I4 & I5 & I6 & I7 & I8 & _).
  repeat (apply Forall2_cons; split); [..|by apply Forall2_nil];
    (eapply initialised_request; [| |eassumption]; by vm_compute).
Qed.

(** What the loader's answers are, request by request. *)
Lemma answers_of_loader loader m0 m : request_image m0 -> answered_by loader m0 m ->
  resp m framebuffer_request = loader LIMINE_FRAMEBUFFER_REQUEST /\
  resp m mm_request = loader LIMINE_MEMMAP_REQUEST /\
  resp m rsdp_request = loader LIMINE_RSDP_REQUEST /\
  resp m hhdm_request = loader LIMINE_HHDM_REQUEST /\
  resp m ka_request = loader LIMINE_KERNEL_ADDRESS_REQUEST /\
  resp m kf_request = loader LIMINE_KERNEL_FILE_REQUEST /\
  resp m module_request = loader LIMINE_MODULE_REQUEST /\
  resp m efi_request = loader LIMINE_EFI_SYSTEM_TABLE_REQUEST.
Proof using.
  intros Hi Ha. apply image_ids in Hi. unfold request_inits, request_ids in Hi.
  rewrite !Forall2_cons in Hi. cbn [fst] in Hi.
  destruct Hi as ([<- _] & [<- _] & [<- _] & [<- _] & [<- _] & [<- _] & [<- _] & [<- _] & _).
  unfold answered_by, request_inits in Ha. rewrite !Forall_cons in Ha. tauto.
Qed.

(** C33. The eight requests of the kernel image carry eight different identifiers and
    no answer. When the boot loader answers by identifier - at least the requests for
    the direct map and the kernel file - [InitializeBootloader] returns in every field
    the answer to the request for it, zero without one, and changes nothing; when the
    loader leaves one of those two unanswered, as the image does, it dereferences the
    null pointer. *)
Theorem InitializeBootloader_asks loader m0 s :
  request_image m0 -> answered_by loader m0 (mem s) ->
  (forall id, loader id = 0 \/ PAGE <= loader id) ->
  NoDup (map (fun '(a, _) => id_at m0 a) request_inits) /\
  Forall (fun '(a, _) => resp m0 a = 0) request_inits /\
  (loader LIMINE_HHDM_REQUEST = 0 \/ loader LIMINE_KERNEL_FILE_REQUEST = 0 ->
   InitializeBootloader s = Fault off_field1 s) /\
  (loader LIMINE_HHDM_REQUEST <> 0 -> loader LIMINE_KERNEL_FILE_REQUEST <> 0 ->
   PAGE <= field_from (mem s) (loader LIMINE_KERNEL_FILE_REQUEST) off_field1 ->
   InitializeBootloader s = Ok (boot_info loader (mem s)) s).
Proof using All.
  intros Hi Ha Hl. pose proof (image_ids m0 Hi) as Hids.
  destruct (answers_of_loader loader m0 (mem s) Hi Ha) as (R1 & R2 & R3 & R4 & R5 & R6 & R7 & R8).
  assert (Hans : forall r id, resp (mem s) r = loader id -> answered (mem s) r).
  { intros r id Hr. unfold answered. rewrite Hr. apply Hl. }
  split_and!.
  - replace (map (fun '(a, _) => id_at m0 a) request_inits) with request_ids.
    + apply (bool_decide_unpack _). by vm_compute.
    + clear -Hids. induction Hids as [|[a ws] id l k [E _] _ IH]; [done|]. cbn [map]. cbn [fst] in E. by rewrite E, IH.
  - clear -Hids. induction Hids as [|[a ws] id l k [_ E] _ IH]; by constructor.
  - intros Hz. destruct (Hl LIMINE_HHDM_REQUEST) as [Hh|Hh].
    + apply (InitializeBootloader_null (mem s)); eauto. by rewrite R4.
    + apply (InitializeBootloader_null_file (mem s)); eauto; [by rewrite R4 | rewrite R6; lia].
  - intros Hh Hf Hp. pose proof (Hl LIMINE_HHDM_REQUEST). pose proof (Hl LIMINE_KERNEL_FILE_REQUEST).
    rewrite (InitializeBootloader_run (mem s)); eauto.
    + f_equal. unfold answers, boot_info, array_of, field_of. by rewrite R1, R2, R3, R4, R5, R6, R7, R8.
    + rewrite R4. destruct (Hl LIMINE_HHDM_REQUEST); [done|done].
    + rewrite R6. destruct (Hl LIMINE_KERNEL_FILE_REQUEST); [done|done].
    + unfold field_of. by rewrite R6.
Qed.
End Requests.

(** ** A kernel image, and a loader that answers three requests *)

Fixpoint write_words (m : gmap Z Z) (a : Z) (ws : list Z) : gmap Z Z :=
  match ws with [] => m | w :: ws => write_words (st m 8 a w) (a + 8) ws end.

Definition demo_image : gmap Z Z :=
  foldl (fun m '(a, ws) => write_words m a ws) ∅ request_inits.

Definition demo_loader (id : list Z) : Z :=
  if bool_decide (id = LIMINE_HHDM_REQUEST) then 0x21000
  else if bool_decide (id = LIMINE_KERNEL_FILE_REQUEST) then 0x22000
  else if bool_decide (id = LIMINE_RSDP_REQUEST) then 0x24000 else 0.

(** The answers are stored in the image, and the responses lie behind it. *)
Definition demo_loaded : machine :=
  let m := foldl (fun m '(a, _) => st m 8 (a + off_response) (demo_loader (id_at demo_image a)))
             demo_image request_inits in
  let m := st m 8 (0x21000 + off_field1) (2 ^ 47) in
  let m := st m 8 (0x22000 + off_field1) 0x23000 in
  let m := st m 8 (0x23000 + off_file_size) 0x30000 in
  with_mem blank (st m 8 (0x24000 + off_field1) 0xe0000).

Lemma demo_request_image : request_image demo_image.
Proof.
  unfold request_image, request_inits. repeat (apply Forall_cons; split); [..|by apply Forall_nil];
    repeat (split; [by vm_compute|]); exact I.
Qed.

Lemma demo_answered : answered_by demo_loader demo_image (mem demo_loaded).
Proof.
  unfold answered_by, request_inits.
  repeat (apply Forall_cons; split); [..|by apply Forall_nil]; by vm_compute.
Qed.

Lemma demo_loader_range id : demo_loader id = 0 \/ PAGE <= demo_loader id.
Proof. unfold demo_loader. repeat case_bool_decide; lia. Qed.

Lemma InitializeBootloader_asks_witness :
  exists b, InitializeBootloader demo_loaded = Ok b demo_loaded /\
    hhdm_base b = 2 ^ 47 /\ rsdp b = 0xe0000 /\ kernelSize b = 0x30000 /\ fb b = no_response.
Proof.
  destruct (InitializeBootloader_asks demo_loader demo_image demo_loaded demo_request_image
    demo_answered demo_loader_range) as (_ & _ & _ & R).
  exists (boot_info demo_loader (mem demo_loaded)). split.
  - apply R; vm_compute; congruence.
  - split_and!; by vm_compute.
Defined.
