(* ===== verification/ElfSpec.v ===== *)
(** The walk of kmain.c over the program headers of an executable in memory. *)
From S2P Require Import Prelude Memory Machine PageSource FrameAlloc Heap Demo HeapSpec.
From S2P Require Import Acpi Gdt Boot.

(** ** Executables in memory *)

Record phdr := Phdr { ph_type : Z; ph_filesz : Z; ph_memsz : Z }.
Definition loadable (ph : phdr) : Prop := ph_type ph = 1.

Record phdr_at (m : gmap Z Z) (a : Z) (ph : phdr) : Prop := {
  pa_type : ld m 4 (a + p_type) = ph_type ph;
  pa_filesz : ld64 m (a + p_filesz) = ph_filesz ph;
  pa_memsz : ld64 m (a + p_memsz) = ph_memsz ph;
}.

Definition elf_magic (m : gmap Z Z) (hdr : Z) : Prop :=
  bytes_at m hdr 4 = [ELF_MAGIC0; ELF_MAGIC1; ELF_MAGIC2; ELF_MAGIC3].

(** An x86-64 executable at [hdr] with the program headers [phs] at [first]. *)
Record elf_at (m : gmap Z Z) (hdr first : Z) (phs : list phdr) : Prop := {
  el_page : PAGE <= hdr;
  el_magic : elf_magic m hdr;
  el_machine : ld m 2 (hdr + e_machine) = EM_X86_64;
  el_first : u64 (hdr + ld64 m (hdr + e_phoff)) = first;
  el_num : ld m 2 (hdr + e_phnum) = Z.of_nat (length phs);
  el_table : PAGE <= first /\ first + sizeof_ElfPheader64 * Z.of_nat (length phs) <= 2 ^ 64;
  el_phdr i ph : phs !! i = Some ph -> phdr_at m (first + sizeof_ElfPheader64 * Z.of_nat i) ph;
}.

(** The bytes the walk reads. *)
Definition elf_bytes (hdr first : Z) (n : nat) (x : Z) : Prop :=
  within x hdr 64 \/ within x first (sizeof_ElfPheader64 * Z.of_nat n).

(** What is printed about a header, and the place of a loadable segment. *)
Definition header_report (ph : phdr) : list event :=
  [EvPrintf "Found program header:\n" []; EvPrintf "    - Type: 0x%x\n" [AVal (ph_type ph)];
   EvPrintf "    - File size: %d\n" [AVal (ph_filesz ph)];
   EvPrintf "    - Memory size: %d\n" [AVal (ph_memsz ph)]] ++
  if ph_filesz ph =? ph_memsz ph then []
  else [EvPrintf "Warning: Unimplemented case (p_filesz != p_memsz).\n" []].
Definition segment_report (p : Z) : list event := [EvPrintf "0x%x" [AVal p]].
Definition elf_report (entry : Z) : list event :=
  [EvPrintf "    - Verified machine type as x86_64\n" [];
   EvPrintf "    - ELF requested virtual entry point 0x%x\n" [AVal entry];
   EvPrintf "    - Enumerating program headers...\n" []].

Ltac eoffs := unfold e_machine, e_entry, e_phoff, e_phnum, p_type, p_filesz, p_memsz, p_align,
  sizeof_ElfPheader64 in *.

Section Walk.
Context `{StaticsOk} `{PSO : PageSourceOk}.

(** Up to the test for a loadable segment. *)
Lemma load_segment_head fuel a ph s :
  PAGE <= a -> phdr_at (mem s) a ph ->
  load_segment fuel a s =
    when (ph_type ph =? 1)
      (_align ← load 8 (a + p_align); memsz ← load 8 (a + p_memsz);
       vmem_seg ← aligned_alloc fuel 0x1000 memsz; printf "0x%x" [AVal vmem_seg])
      (printed s (header_report ph)).
Proof using All.
  intros Ha [Q1 Q2 Q3]. unfold load_segment, header_report, printed.
  erewrite bind_Ok by reflexivity. cbv beta.
  erewrite bind_Ok by (apply load_ok; eoffs; lia). cbv beta. cbn [mem with_trace]. rewrite Q1.
  erewrite bind_Ok by reflexivity. cbv beta.
  erewrite bind_Ok by (apply load_ok; eoffs; lia). cbv beta. cbn [mem with_trace]. rewrite Q2.
  erewrite bind_Ok by reflexivity. cbv beta.
  erewrite bind_Ok by (apply load_ok; eoffs; lia). cbv beta. cbn [mem with_trace]. rewrite Q3.
  erewrite bind_Ok by reflexivity. cbv beta.
  erewrite bind_Ok by (apply load_ok; eoffs; lia). cbv beta. cbn [mem with_trace]. rewrite Q2.
  erewrite bind_Ok by (apply load_ok; eoffs; lia). cbv beta. cbn [mem with_trace]. rewrite Q3.
  destruct (ph_filesz ph =? ph_memsz ph); cbn [negb when];
    (erewrite bind_Ok by reflexivity); cbv beta;
    (erewrite bind_Ok by (apply load_ok; eoffs; lia)); cbv beta; cbn [mem with_trace]; rewrite Q1;
    f_equal; by destruct s.
Qed.

(** Headers that are not loadable are only printed. *)
Lemma load_segments_skip fuel hdr first n : forall phs i rounds s,
  PAGE <= hdr -> PAGE <= first -> 0 <= i -> first + sizeof_ElfPheader64 * n <= 2 ^ 64 ->
  ld (mem s) 2 (hdr + e_phnum) = n -> i + Z.of_nat (length phs) <= n ->
  (forall j ph, phs !! j = Some ph ->
    ph_type ph <> 1 /\ phdr_at (mem s) (first + sizeof_ElfPheader64 * (i + Z.of_nat j)) ph) ->
  load_segments (length phs + rounds) fuel hdr first i s =
    load_segments rounds fuel hdr first (i + Z.of_nat (length phs)) (printed s (phs ≫= header_report)).
Proof using All.
  induction phs as [|ph phs IH]; intros i rounds s Hh Hf Hi Hend Hn Hlen Hat.
  { cbn [length Nat.add]. rewrite Z.add_0_r. by destruct s. }
  cbn [length Nat.add load_segments] in *.
  erewrite bind_Ok by (apply load_ok; eoffs; lia). cbv beta. rewrite Hn.
  rewrite (proj2 (Z.ltb_lt _ _)) by lia.
  destruct (Hat 0%nat ph eq_refl) as [Ht Hp]. rewrite Z.add_0_r in Hp.
  change (2 ^ 64) with 18446744073709551616 in Hend.
  rewrite u64_small by (eoffs; lia).
  erewrite bind_Ok.
  2:{ rewrite (load_segment_head _ _ ph); [|eoffs; lia | exact Hp].
      by rewrite (proj2 (Z.eqb_neq _ 1)) by done. }
  cbv beta. rewrite IH; [| done | done | lia | done | done | lia |].
  - rewrite printed_app, bind_cons. f_equal. lia.
  - intros j ph' Hj. cbn [mem printed with_trace]. destruct (Hat (S j) ph' Hj) as [? Hp']. split; [done|].
    replace (i + 1 + Z.of_nat j) with (i + Z.of_nat (S j)) by lia. exact Hp'.
Qed.

Lemma magic_ok_run hdr s :
  PAGE <= hdr -> exists b, magic_ok hdr s = Ok b s /\ (b = true <-> elf_magic (mem s) hdr).
Proof using All.
  intros Hh. unfold magic_ok, elf_magic. cbn [bytes_at].
  replace (hdr + 1 + 1) with (hdr + 2) by lia. replace (hdr + 2 + 1) with (hdr + 3) by lia.
  erewrite bind_Ok by (apply load_ok; lia). cbv beta. rewrite ld1_rd.
  destruct (Z.eqb_spec (rd (mem s) hdr) ELF_MAGIC0) as [Q0|Q0]; cbn [negb];
    [|exists false; split; [done | split; [done | by intros [= ? _ _ _]]]].
  erewrite bind_Ok by (apply load_ok; lia). cbv beta. rewrite ld1_rd.
  destruct (Z.eqb_spec (rd (mem s) (hdr + 1)) ELF_MAGIC1) as [Q1|Q1]; cbn [negb];
    [|exists false; split; [done | split; [done | by intros [= _ ? _ _]]]].
  erewrite bind_Ok by (apply load_ok; lia). cbv beta. rewrite ld1_rd.
  destruct (Z.eqb_spec (rd (mem s) (hdr + 2)) ELF_MAGIC2) as [Q2|Q2]; cbn [negb];
    [|exists false; split; [done | split; [done | by intros [= _ _ ? _]]]].
  erewrite bind_Ok by (apply load_ok; lia). cbv beta. rewrite ld1_rd. eexists. split; [reflexivity|].
  rewrite Z.eqb_eq. split; [by intros -> ; rewrite Q0, Q1, Q2 | by intros [= _ _ _ ?]].
Qed.

Lemma load_elf_prefix fuel hdr first phs s :
  elf_at (mem s) hdr first phs ->
  load_elf fuel hdr s =
    load_segments elf_rounds fuel hdr first 0 (printed s (elf_report (ld64 (mem s) (hdr + e_entry)))).
Proof using All.
  intros [E1 E2 E3 E4 E5 E6 E7]. unfold load_elf.
  destruct (magic_ok_run hdr s E1) as (b & R & Hb). erewrite bind_Ok by exact R. cbv beta.
  rewrite (proj2 Hb E2). cbn [negb].
  erewrite bind_Ok by (apply load_ok; eoffs; lia). cbv beta. rewrite E3. cbn [Z.eqb negb].
  change (EM_X86_64 =? EM_X86_64) with true. cbn [negb].
  erewrite bind_Ok by reflexivity. cbv beta.
  erewrite bind_Ok by (apply load_ok; eoffs; lia). cbv beta.
  erewrite bind_Ok by reflexivity. cbv beta. erewrite bind_Ok by reflexivity. cbv beta.
  erewrite bind_Ok by (apply load_ok; eoffs; lia). cbv beta zeta. cbn [mem with_trace]. by rewrite E4.
Qed.

(** The end of the table. *)
Lemma load_segments_end rounds fuel hdr first n s :
  PAGE <= hdr -> ld (mem s) 2 (hdr + e_phnum) = n ->
  load_segments (S rounds) fuel hdr first n s = Ok tt s.
Proof using All.
  intros Hh Hn. cbn [load_segments]. erewrite bind_Ok by (apply load_ok; eoffs; lia). cbv beta.
  by rewrite Hn, Z.ltb_irrefl.
Qed.

Lemma elf_rounds_split n : 0 <= n < 65536 -> exists k, elf_rounds = (Z.to_nat n + S k)%nat.
Proof using. intros Hn. exists (Z.to_nat (65536 - n)). unfold elf_rounds. lia. Qed.

Lemma phnum_small m hdr first phs : elf_at m hdr first phs -> 0 <= Z.of_nat (length phs) < 65536.
Proof using. intros [_ _ _ _ E5 _ _]. rewrite <- E5. apply (ld_range m 2). Qed.
End Walk.

Section Theorems.
Context `{StaticsOk} `{PSO : PageSourceOk}.

(** The walk without loadable segments: [load_elf] rejects a file without the
    ELF signature, and one for another machine, having printed only the error;
    of an x86-64 executable whose headers are not loadable it prints the entry
    point and every header once, in order, and changes nothing else. *)
Theorem load_elf_checks fuel hdr s :
  PAGE <= hdr ->
  (~ elf_magic (mem s) hdr ->
   load_elf fuel hdr s = Ok tt (printed s [EvPrintf "Error: Elf signature verification failed!\n" []])) /\
  (elf_magic (mem s) hdr -> ld (mem s) 2 (hdr + e_machine) <> EM_X86_64 ->
   load_elf fuel hdr s = Ok tt (printed s [EvPrintf "Error: Elf machine type is not x86_64!\n" []])) /\
  forall first phs, elf_at (mem s) hdr first phs -> Forall (fun ph => ~ loadable ph) phs ->
    load_elf fuel hdr s =
      Ok tt (printed s (elf_report (ld64 (mem s) (hdr + e_entry)) ++ (phs ≫= header_report))).
Proof using All.
  intros Hh. destruct (magic_ok_run hdr s Hh) as (b & R & Hb). split_and!.
  - intros Hm. unfold load_elf. erewrite bind_Ok by exact R. cbv beta.
    destruct b; [by destruct Hm; apply Hb | done].
  - intros Hm Hx. unfold load_elf. erewrite bind_Ok by exact R. cbv beta. rewrite (proj2 Hb Hm). cbn [negb].
    erewrite bind_Ok by (apply load_ok; eoffs; lia). cbv beta. by rewrite (proj2 (Z.eqb_neq _ _) Hx).
  - intros first phs He Hno. rewrite (load_elf_prefix fuel hdr first phs s He).
    destruct (elf_rounds_split _ (phnum_small _ _ _ _ He)) as (k & ->). rewrite Nat2Z.id.
    pose proof (el_table _ _ _ _ He) as [T1 T2].
    rewrite (load_segments_skip _ _ _ (Z.of_nat (length phs))); [| done | done | lia | done | by apply He | lia |].
    + rewrite printed_app. apply load_segments_end; [done | apply He].
    + intros j ph Hj. split; [|by apply (el_phdr _ _ _ _ He)].
      rewrite Forall_forall in Hno. by apply (Hno ph), (list_elem_of_lookup_2 _ j).
Qed.

Lemma elf_at_ext m m' hdr first phs :
  same_on (elf_bytes hdr first (length phs)) m m' -> elf_at m hdr first phs -> elf_at m' hdr first phs.
Proof using.
  intros Hm [E1 E2 E3 E4 E5 E6 E7].
  assert (Hh : forall n o, 0 <= o -> o + Z.of_nat n <= 64 -> ld m' n (hdr + o) = ld m n (hdr + o)).
  { intros n o Ho Hn. apply (same_on_ld _ _ _ _ _ Hm). intros x Hx. left. unfold within in *. lia. }
  eoffs. split; try done; eoffs.
  - unfold elf_magic in *. rewrite <- E2. apply bytes_at_ext. intros i Hi. apply Hm. left. unfold within. lia.
  - by rewrite Hh by lia.
  - by rewrite Hh by lia.
  - by rewrite Hh by lia.
  - intros i ph Hi. destruct (E7 i ph Hi) as [P1 P2 P3]. pose proof (lookup_lt_Some _ _ _ Hi).
    eoffs. split; eoffs;
      (rewrite (same_on_ld _ _ _ _ _ Hm); [done|]; intros x Hx; right; unfold within in *; eoffs; lia).
Qed.

(** With one loadable header the walk is the allocation between the reports of the
    other headers. *)
Lemma load_elf_one_segment fuel hdr first pre ph post s p s3 :
  let phs := pre ++ ph :: post in
  let before := elf_report (ld64 (mem s) (hdr + e_entry)) ++ (pre ≫= header_report) ++ header_report ph in
  elf_at (mem s) hdr first phs -> loadable ph ->
  Forall (fun ph => ~ loadable ph) pre -> Forall (fun ph => ~ loadable ph) post ->
  aligned_alloc fuel 0x1000 (ph_memsz ph) (printed s before) = Ok p s3 ->
  elf_at (mem s3) hdr first phs ->
  load_elf fuel hdr s = Ok tt (printed s3 (segment_report p ++ (post ≫= header_report))).
Proof using All.
  intros phs before He Hl Hpre Hpost R3 He3. pose proof (el_table _ _ _ _ He) as [T1 T2].
  assert (Hlen : length phs = (length pre + S (length post))%nat) by (unfold phs; by rewrite length_app).
  change (2 ^ 64) with 18446744073709551616 in T2.
  rewrite (load_elf_prefix fuel hdr first phs s He).
  destruct (elf_rounds_split _ (phnum_small _ _ _ _ He)) as (k & ->). rewrite Nat2Z.id, Hlen.
  replace (length pre + S (length post) + S k)%nat with (length pre + S (length post + S k))%nat by lia.
  set (s1 := printed s (elf_report _)). assert (He1 : elf_at (mem s1) hdr first phs) by exact He.
  rewrite (load_segments_skip _ _ _ (Z.of_nat (length phs))); [| apply He | done | lia | done | by apply He1 | lia |].
  2:{ intros j q Hj. split.
      - rewrite Forall_forall in Hpre. by apply (Hpre q), (list_elem_of_lookup_2 _ j).
      - rewrite Z.add_0_l. apply (el_phdr _ _ _ _ He1). unfold phs. by apply lookup_app_l_Some. }
  rewrite Z.add_0_l. set (s2 := printed s1 _). cbn [load_segments].
  erewrite bind_Ok by (apply load_ok; pose proof (el_page _ _ _ _ He); eoffs; lia). cbv beta.
  change (mem s2) with (mem s). rewrite (el_num _ _ _ _ He), (proj2 (Z.ltb_lt _ _)) by lia.
  rewrite u64_small by (eoffs; lia). set (a := first + _).
  assert (Ha : phdr_at (mem s2) a ph).
  { apply (el_phdr _ _ _ _ He). unfold phs. by apply list_lookup_middle. }
  assert (Hap : PAGE <= a) by (unfold a; eoffs; lia).
  assert (Hseg : load_segment fuel a s2 = Ok tt (printed s3 (segment_report p))).
  { rewrite (load_segment_head _ _ ph) by done. unfold loadable in Hl. rewrite Hl, when_true by done.
    erewrite bind_Ok by (apply load_ok; eoffs; lia). cbv beta.
    erewrite bind_Ok by (apply load_ok; eoffs; lia). cbv beta. cbn [mem printed with_trace].
    rewrite (pa_memsz _ _ _ Ha). unfold s2, s1. rewrite !printed_app. fold before.
    erewrite bind_Ok by exact R3. reflexivity. }
  erewrite bind_Ok by exact Hseg. cbv beta. set (s4 := printed s3 (segment_report p)).
  assert (He4 : elf_at (mem s4) hdr first phs) by exact He3.
  rewrite (load_segments_skip _ _ _ (Z.of_nat (length phs)));
    [| apply He | done | lia | change (2 ^ 64) with 18446744073709551616; lia | by apply He4 | lia |].
  2:{ intros j q Hj. split.
      - rewrite Forall_forall in Hpost. by apply (Hpost q), (list_elem_of_lookup_2 _ j).
      - replace (Z.of_nat (length pre) + 1 + Z.of_nat j) with (Z.of_nat (length pre + S j)) by lia.
        apply (el_phdr _ _ _ _ He4). unfold phs. rewrite lookup_app_r by lia.
        by replace (length pre + S j - length pre)%nat with (S j) by lia. }
  replace (_ + 1 + Z.of_nat (length post)) with (Z.of_nat (length phs)) by lia.
  rewrite load_segments_end; [| apply He | by apply He4]. unfold s4. by rewrite printed_app.
Qed.

(** C27. Loading one segment: when exactly one program header is loadable and the
    heap has room, [load_elf] allocates page-aligned memory of the segment's size
    inside a free block, prints its address between the reports of that header and
    the next, and leaves the executable as it was; the segment is not filled. *)
Theorem load_elf_places_segment fuel hdr first pre ph post s l b l' :
  elf_at (mem s) hdr first (pre ++ ph :: post) -> loadable ph ->
  Forall (fun ph => ~ loadable ph) pre -> Forall (fun ph => ~ loadable ph) post ->
  heap_inv s l -> 0 <= ph_memsz ph -> sizeof_HeapNode + ph_memsz ph + 0x1000 <= KERNEL_BASE ->
  take_fit (sizeof_HeapNode + (ph_memsz ph + (0x1000 - 1))) l = Some (b, l') ->
  ALIGN_UP (b.1 + sizeof_HeapNode) 0x1000 + ph_memsz ph + sizeof_HeapNode <= b.1 + b.2 ->
  (length l <= fuel)%nat ->
  (forall x, elf_bytes hdr first (length (pre ++ ph :: post)) x ->
     ~ within x addr_head 16 /\ forall c, c ∈ l -> ~ within x c.1 c.2) ->
  let p := ALIGN_UP (b.1 + sizeof_HeapNode) 0x1000 in
  exists s', load_elf fuel hdr s = Ok tt s' /\
    trace s' = rev (elf_report (ld64 (mem s) (hdr + e_entry)) ++ (pre ≫= header_report) ++
                    header_report ph ++ segment_report p ++ (post ≫= header_report)) ++ trace s /\
    p mod 0x1000 = 0 /\ b.1 + sizeof_HeapNode <= p /\ p + ph_memsz ph <= b.1 + b.2 /\
    elf_at (mem s') hdr first (pre ++ ph :: post).
Proof using All.
  intros He Hl Hpre Hpost Hinv Hsz Hkb Hfit Hroom Hfuel Hout p.
  set (phs := pre ++ ph :: post) in *.
  set (before := elf_report (ld64 (mem s) (hdr + e_entry)) ++ (pre ≫= header_report) ++ header_report ph).
  destruct (aligned_alloc_run fuel 0x1000 (ph_memsz ph) (printed s before) l b l')
    as (s3 & R3 & A3 & B3 & C3 & G3 & M3); try done; [by apply (heap_inv_printed s)|].
  assert (He3 : elf_at (mem s3) hdr first phs).
  { eapply elf_at_ext; [|exact He]. eapply same_on_weaken; [exact M3|]. exact Hout. }
  eexists. split; [by apply (load_elf_one_segment fuel hdr first pre ph post s p s3)|].
  split_and!; [| exact A3 | exact B3 | exact C3 | exact He3].
  unfold printed. cbn [trace with_trace]. rewrite G3. unfold printed, before. cbn [trace with_trace with_mem].
  rewrite !rev_app_distr, <- !app_assoc. reflexivity.
Qed.
End Theorems.

(** ** A concrete executable *)

Definition le_bytes (n : nat) (v : Z) : list Z := Gdt.le n v.
Definition phdr_bytes (ph : phdr) : list Z :=
  le_bytes 4 (ph_type ph) ++ repeat 0 28 ++ le_bytes 8 (ph_filesz ph) ++ le_bytes 8 (ph_memsz ph) ++ repeat 0 8.
Definition elf_image (phs : list phdr) : list Z :=
  [ELF_MAGIC0; ELF_MAGIC1; ELF_MAGIC2; ELF_MAGIC3] ++ repeat 0 14 ++ le_bytes 2 EM_X86_64 ++ repeat 0 4 ++
  le_bytes 8 0x400000 ++ le_bytes 8 64 ++ repeat 0 16 ++ le_bytes 2 (Z.of_nat (length phs)) ++ repeat 0 6 ++
  (phs ≫= phdr_bytes).
Definition elf_addr : Z := 0x200000.
Definition demo_phs : list phdr := [Phdr 4 8 8; Phdr 1 40 64; Phdr 6 0 0].

(** A note, a segment of 64 bytes and another header. *)
Lemma elf_image_at m : elf_at (write_bytes m elf_addr (elf_image demo_phs)) elf_addr (elf_addr + 64) demo_phs.
Proof.
  eapply (elf_at_ext (write_bytes ∅ elf_addr (elf_image demo_phs))).
  - intros x Hx. assert (Hl : length (elf_image demo_phs) = 232%nat) by by vm_compute.
    assert (Hw : within x elf_addr 232)
      by (unfold elf_bytes, within, elf_addr, sizeof_ElfPheader64 in *; cbn [length demo_phs] in Hx; lia).
    destruct (lookup_lt_is_Some_2 (elf_image demo_phs) (Z.to_nat (x - elf_addr))) as [c Hc];
      [rewrite Hl; unfold within in Hw; lia|].
    replace x with (elf_addr + Z.of_nat (Z.to_nat (x - elf_addr))) by (unfold within in Hw; lia).
    by rewrite !(rd_write_bytes _ _ _ _ c Hc).
  - split.
    + vm_compute; congruence.
    + vm_compute; reflexivity.
    + vm_compute; reflexivity.
    + vm_compute; reflexivity.
    + vm_compute; reflexivity.
    + split; vm_compute; congruence.
    + intros [|[|[|i]]] ph Hi; try discriminate; injection Hi as <-; split; vm_compute; reflexivity.
Qed.

#[local] Opaque elf_image write_bytes.

(** The demonstration machine with two free pages in one block. *)
Lemma elf_demo :
  exists s, heap_inv s [(0x101000, 8192)] /\ elf_at (mem s) elf_addr (elf_addr + 64) demo_phs.
Proof.
  destruct (CombineBlocks_inv 8192 demo [] 0x101000 1 [] demo_heap) as (s & _ & Hh & Hp & Hg%same_regs_alloc & _);
    [lia | by vm_compute | cbn [ps_pool frame_source_ok]; by rewrite demo_pool |].
  change (4096 * npages 8192) with 8192 in Hh.
  set (m := write_bytes (mem s) elf_addr (elf_image demo_phs)).
  assert (Hm : same_on (fun x => ~ within x elf_addr 232) (mem s) m).
  { intros x Hx. apply rd_write_bytes_ne. by assert (length (elf_image demo_phs) = 232%nat) as -> by by vm_compute. }
  assert (Hown : forall x, ps_owned (alloc_g s) x -> within x 0x100000 48) by (intros x; rewrite Hg; apply demo_table).
  set (s' := with_mem s m).
  assert (Hi' : ps_inv s' /\ ps_pool s' = ps_pool s).
  { apply ps_stable; [apply Hh | done |]. eapply same_on_weaken; [exact Hm|].
    intros x Hx%Hown. unfold within, elf_addr in *. lia. }
  exists s'. split; [|apply elf_image_at].
  apply (heap_inv_keep s); [exact Hh | apply Hi' | done | by rewrite (proj2 Hi') |].
  eapply same_on_weaken; [exact Hm|].
  intros x [Hx | (b & ->%list_elem_of_singleton & Hx)]; unfold within, elf_addr in *; cbn in *; lia.
Qed.

Lemma load_elf_places_segment_witness :
  exists s s', load_elf 1 elf_addr s = Ok tt s' /\ elf_at (mem s') elf_addr (elf_addr + 64) demo_phs.
Proof.
  destruct elf_demo as (s & Hh & He). exists s.
  destruct (load_elf_places_segment 1 elf_addr (elf_addr + 64) [Phdr 4 8 8] (Phdr 1 40 64) [Phdr 6 0 0] s
    [(0x101000, 8192)] (0x101000, 8192) []) as (s' & R & _ & _ & _ & _ & E).
  - exact He.
  - reflexivity.
  - repeat constructor; intros [=].
  - repeat constructor; intros [=].
  - exact Hh.
  - cbn; lia.
  - vm_compute; congruence.
  - reflexivity.
  - vm_compute; congruence.
  - cbn; lia.
  - intros x Hx. unfold elf_bytes, elf_addr, within, sizeof_ElfPheader64 in *. cbn in Hx.
    split; [cbn; lia|]. intros c ->%list_elem_of_singleton. cbn. lia.
  - exists s'. split; [exact R | exact E].
Defined.

Lemma load_elf_checks_witness :
  load_elf 1 0x2000 blank = Ok tt (printed blank [EvPrintf "Error: Elf signature verification failed!\n" []]).
Proof.
  apply (load_elf_checks 1 0x2000 blank).
  - lia.
  - vm_compute. intros [=].
Defined.
