(* ===== verification/Program.v ===== *)
(** The end of [_kmain]: the RAM disk is started on the empty heap and the first
    program, "a.out", is read from it and walked.

    The heap's behaviour is what makes this part delicate: the first entry takes a
    page for the list nodes, the file and its segment each take a run of pages. *)
From S2P Require Import Prelude Memory Machine PageSource FrameAlloc Heap Demo HeapSpec CString Ramdisk.
From S2P Require Import Boot ElfSpec.

(** ** The RAM disk on an empty heap *)

Section FromEmpty.
Context `{StaticsOk} `{PSO : PageSourceOk}.

Lemma malloc_search fuel size s s1 :
  0 <= size < 2 ^ 64 -> FindAndRemoveNode fuel size s = FindAndRemoveNode fuel size s1 ->
  malloc fuel size s = malloc fuel size s1.
Proof using.
  intros Hs E. unfold malloc, _alloc. replace (u64 (size + (1 - 1))) with size by word. by apply bind_eq.
Qed.

Lemma InsertEntry_search fuel path size begin_ s s1 :
  FindAndRemoveNode fuel sizeof_FileNode s = FindAndRemoveNode fuel sizeof_FileNode s1 ->
  InsertEntry fuel path size begin_ s = InsertEntry fuel path size begin_ s1.
Proof using.
  intros E. apply bind_eq, malloc_search; [by vm_compute | done].
Qed.

(** Memory that starting the RAM disk on the page [p] leaves alone. *)
Definition start_outside (g : alloc_globals) (p x : Z) : Prop :=
  ~ within x addr_head 16 /\ ~ within x addr_filehead sizeof_FileNode /\
  ~ page_bytes p x /\ ~ ps_owned g x.

Lemma start_outside_rd g p a sz x :
  p <= a -> a + sz <= p + PAGE -> start_outside g p x -> rd_outside a sz x.
Proof using.
  intros Hlo Hhi (Hx1 & Hx2 & Hx3 & _). split; [split|]; [done | | done].
  intros b ->%list_elem_of_singleton Hx. apply Hx3. unfold page_bytes, within in *. cbn in *. lia.
Qed.

(** A state ready for a first entry, with the page it will use. *)
Record rd_empty (s : machine) (p : Z) (ps : list Z) : Prop := {
  re_heap : heap_inv s [];
  re_pool : ps_pool s = p :: ps;
  re_list : ld64 (mem s) (addr_filehead + off_fnext) = 0;
  re_head x : within x addr_filehead sizeof_FileNode -> ~ ps_owned (alloc_g s) x;
}.

Lemma rd_empty_printed s p ps t : rd_empty s p ps -> rd_empty (printed s t) p ps.
Proof using All.
  intros [Hh Hp Hl Ho]. destruct (heap_inv_printed s [] t Hh) as [Hh' Hp']. split; try done. congruence.
Qed.

(** The page is taken; the entry goes to its start. *)
Lemma rd_empty_refill s p ps :
  rd_empty s p ps ->
  exists s1, rd_ready s1 [] p PAGE /\ ps_pool s1 = ps /\ same_regs s s1 /\
    same_on (start_outside (alloc_g s) p) (mem s) (mem s1) /\
    forall fuel path size begin_, InsertEntry (S fuel) path size begin_ s = InsertEntry (S fuel) path size begin_ s1.
Proof using All.
  intros [Hh Hp Hl Ho]. destruct (refill_page s p ps Hh Hp) as (s1 & Hh1 & Hp1 & Hr & Hm & _ & Hrun).
  pose proof head_filehead_apart as Hap. pose proof filehead_range as [Hfk _].
  assert (Hlow : p + PAGE <= KERNEL_BASE) by (apply (hi_low s [] Hh); rewrite Hp; left).
  exists s1. split_and!; [split | done | done | |].
  - done.
  - cbn [listing]. rewrite <- Hl. apply (same_on_ld _ _ _ _ _ Hm). intros x Hx. split_and!.
    + unfold apart, within in *. foffs. lia.
    + unfold page_bytes, within, KERNEL_BASE in *. foffs. lia.
    + apply Ho. unfold within in *. foffs. lia.
  - by intros f Hf%not_elem_of_nil.
  - rewrite (same_regs_alloc _ _ Hr). exact Ho.
  - eapply same_on_weaken; [exact Hm|]. unfold start_outside. tauto.
  - intros fuel path size begin_. apply InsertEntry_search, Hrun; by vm_compute.
Qed.

(** The nodes lie in the page, one after the other. *)
Lemma registered_nodes mbs : forall a node fs f,
  f ∈ registered a node mbs fs ->
  f ∈ fs \/ node <= fi_node f /\ fi_node f + sizeof_FileNode <= node + entry_size * Z.of_nat (length mbs).
Proof using.
  induction mbs as [|mb mbs IH]; intros a node fs f Hf; cbn [registered] in Hf; [by left|].
  assert (He : entry_size = 136) by reflexivity.
  apply IH in Hf as [[->|Hf]%elem_of_cons | Hf]; cbn [length].
  - right. cbn [fi_node]. unfold sizeof_HeapNode. foffs. lia.
  - by left.
  - right. foffs. lia.
Qed.

Lemma register_from_empty fuel a0 mb mbs s p ps :
  let n := Z.of_nat (length (mb :: mbs)) in
  rd_empty s p ps -> archive (mem s) a0 (mb :: mbs) -> PAGE <= a0 -> a0 + total (mb :: mbs) < 2 ^ 64 ->
  (forall x, within x a0 (total (mb :: mbs) + 1) -> start_outside (alloc_g s) p x) ->
  entry_size * n + sizeof_HeapNode <= PAGE -> (length (mb :: mbs) + 100 <= fuel)%nat ->
  exists s', register_files fuel a0 s = Ok tt s' /\
    rd_ready s' (registered a0 p (mb :: mbs) []) (p + entry_size * n) (PAGE - entry_size * n) /\
    ps_pool s' = ps /\ registered_regs a0 (mb :: mbs) s s' /\
    same_on (start_outside (alloc_g s) p) (mem s) (mem s').
Proof using All.
  intros n He Ha Ha0 Hend Hout Hroom Hfuel. assert (Hes : entry_size = 136) by reflexivity.
  unfold n in *. clear n. cbn [length] in *. unfold sizeof_HeapNode in *.
  destruct fuel as [|fuel]; [lia|].
  pose proof Ha as ((Hne & Hl & Hs) & Hc & Hb & Har). pose proof (total_nonneg _ _ _ Har) as Ht.
  pose proof (member_len_bounds mb ltac:(lia)) as [Hm1 Hm2]. cbn [total] in *.
  set (s0 := printed s (member_report a0 mb)).
  destruct (rd_empty_refill s0 p ps (rd_empty_printed _ _ _ _ He)) as (s1 & Hr1 & Hp1 & G1 & M1 & Hsearch).
  change (alloc_g s0) with (alloc_g s) in M1. change (mem s0) with (mem s) in M1.
  assert (Ha1 : archive (mem s1) a0 (mb :: mbs)).
  { eapply archive_ext; [|exact Ha]. eapply same_on_weaken; [exact M1|]. exact Hout. }
  destruct (InsertEntry_spec (S fuel) (a0 + off_path) (mb_path mb) (mb_size mb) (a0 + 512) s1 [] p PAGE)
    as (s2 & R2 & G2 & Hr2 & M2 & P2); try done; try lia; [apply Ha1 | foffs; lia | |].
  { intros x Hx. apply (start_outside_rd (alloc_g s) p); [lia | lia |]. apply Hout. unfold within in *. foffs. lia. }
  assert (M12 : same_on (start_outside (alloc_g s) p) (mem s) (mem s2)).
  { etransitivity; [exact M1|]. eapply same_on_weaken; [exact M2|].
    intros x Hx. apply (start_outside_rd (alloc_g s) p); [lia | lia | done]. }
  assert (Ha2 : archive (mem s2) a0 (mb :: mbs)).
  { eapply archive_ext; [|exact Ha]. eapply same_on_weaken; [exact M12|]. exact Hout. }
  rewrite Hes in Hr2.
  destruct (register_files_run fuel mbs (a0 + member_len mb) s2 _ _ _ Hr2 (proj2 (proj2 (proj2 Ha2))))
    as (s' & R & Hr' & M' & G' & P'); [lia | lia | | unfold sizeof_HeapNode; lia | lia |].
  { intros x Hx. apply (start_outside_rd (alloc_g s) p); [lia | lia |]. apply Hout. unfold within in *. lia. }
  exists s'. split_and!.
  - rewrite (register_head fuel a0 mb mbs s s2); [done | done | done | by rewrite Hsearch | done].
  - cbn [registered]. rewrite Hes in *.
    replace (p + 136 * Z.of_nat (S (length mbs))) with (p + 136 + 136 * Z.of_nat (length mbs)) by lia.
    by replace (PAGE - 136 * Z.of_nat (S (length mbs))) with (PAGE - 136 - 136 * Z.of_nat (length mbs)) by lia.
  - congruence.
  - eapply registered_regs_cons; [|exact G']. by eapply same_regs_trans.
  - etransitivity; [exact M12|]. eapply same_on_weaken; [exact M'|].
    intros x Hx. apply (start_outside_rd (alloc_g s) p); [lia | lia | done].
Qed.
End FromEmpty.

(** ** An executable as the data of a file *)

(** The [n] bytes at [d] are an x86-64 executable with the program headers [phs] at
    offset [off]. *)
Record elf_file (m : gmap Z Z) (d n off : Z) (phs : list phdr) : Prop := {
  ef_magic : elf_magic m d;
  ef_machine : ld m 2 (d + e_machine) = EM_X86_64;
  ef_phoff : ld64 m (d + e_phoff) = off;
  ef_phnum : ld m 2 (d + e_phnum) = Z.of_nat (length phs);
  ef_size : 64 <= n /\ 0 <= off /\ off + sizeof_ElfPheader64 * Z.of_nat (length phs) <= n;
  ef_phdr i ph : phs !! i = Some ph -> phdr_at m (d + off + sizeof_ElfPheader64 * Z.of_nat i) ph;
}.

(** A copy of such a file is an executable in memory. *)
Lemma elf_file_at m d n off phs m' h :
  elf_file m d n off phs -> bytes_at m' h (Z.to_nat n) = bytes_at m d (Z.to_nat n) ->
  PAGE <= h -> h + n <= KERNEL_BASE -> elf_at m' h (h + off) phs.
Proof.
  intros [F1 F2 F3 F4 (S1 & S2 & S3) F5] Hb Hh Hend. unfold KERNEL_BASE in Hend.
  assert (L : forall k o, 0 <= o -> o + Z.of_nat k <= n -> ld m' k (h + o) = ld m k (d + o)).
  { intros k o Ho Hk. eapply ld_copied; [exact Hb | done | lia]. }
  eoffs. split; eoffs; [done | | by rewrite L by lia | | by rewrite L by lia | | ].
  - unfold elf_magic in *. rewrite <- F1. apply bytes_at_ext. intros i Hi.
    rewrite <- !ld1_rd. apply L; lia.
  - rewrite L, F3 by lia. apply u64_small. word.
  - lia.
  - intros i ph Hi. pose proof (lookup_lt_Some _ _ _ Hi). destruct (F5 i ph Hi) as [P1 P2 P3]. eoffs.
    split; eoffs; rewrite <- !Z.add_assoc in *; by rewrite L by lia.
Qed.

(** ** Reading the program *)

Section Fetch.
Context `{StaticsOk} `{PSO : PageSourceOk}.

(** The part of [load_first_program] after the size is known. *)
Definition fetch (fuel : nat) (path sz : Z) : M unit :=
  buffer ← malloc fuel sz;
  if negb (buffer =? 0) then
    RdFileGetStream fuel path buffer sz;;
    printf "    - ELF executable loaded at 0x%x\n" [AVal buffer];;
    load_elf fuel buffer
  else printf "Unable to allocate space to copy ELF to, refusing to load!\n" [].

(** The disk is up: its nodes fill the page [p] up to the free block at [a]. *)
Record disk_up (s : machine) (p : Z) (fs : list file) (a sz : Z) : Prop := {
  du_ready : rd_ready s fs a sz;
  du_init : ramdiskInitialized (driver_g s) = true;
  du_block : p < a /\ 0 <= sz /\ a + sz <= p + PAGE;
  du_low : p + PAGE <= KERNEL_BASE;
  du_nodes f : f ∈ fs -> p <= fi_node f /\ fi_node f + sizeof_FileNode <= p + PAGE;
  du_page x : page_bytes p x -> ~ ps_owned (alloc_g s) x;
  du_pool q : q ∈ ps_pool s -> apart p PAGE q PAGE;
}.

Lemma disk_up_printed s p fs a sz l : disk_up s p fs a sz -> disk_up (printed s l) p fs a sz.
Proof using All.
  intros [Hr Hi Hbk Hlow Hnd Hpg Hpl]. split; try done; [by eapply rd_ready_ext|].
  by rewrite (proj2 (heap_inv_printed s _ l (rr_heap _ _ _ _ Hr))).
Qed.

(** Memory outside the heap, the free pages and the list of files. *)
Definition off_heap (g : alloc_globals) (pool : list Z) (x : Z) : Prop :=
  ~ within x addr_head 16 /\ ~ within x addr_filehead sizeof_FileNode /\ ~ ps_owned g x /\
  forall q, q ∈ pool -> ~ page_bytes q x.

Lemma off_heap_beyond g p pool a sz q n x :
  p <= a -> a + sz <= p + PAGE -> (forall r, r ∈ page_run q n -> r ∈ pool) ->
  off_heap g (p :: pool) x -> beyond_run g [(a, sz)] q n x.
Proof using.
  intros Hlo Hhi Hsub (Hx1 & _ & Hx3 & Hx4). split_and!; [split; [done|] | done |].
  - intros b ->%list_elem_of_singleton Hx. apply (Hx4 p); [left|]. unfold page_bytes, within in *. cbn in *. lia.
  - intros r Hr. apply Hx4. right. by apply Hsub.
Qed.

(** The list of files survives a request served from fresh pages. *)
Lemma listing_beyond s p fs a sz q n m' :
  disk_up s p fs a sz -> (forall r, r ∈ page_run q n -> r ∈ ps_pool s) ->
  same_on (beyond_run (alloc_g s) [(a, sz)] q n) (mem s) m' -> listing m' addr_filehead fs.
Proof using All.
  intros [[Hh Hl Hlive Hhd] _ Hbk Hlow Hnd Hpg Hpl] Hsub Hm.
  pose proof filehead_range as [Hfk _]. pose proof head_filehead_apart as Hap. pose proof head_range as [Hhk _].
  unfold KERNEL_BASE in *. eapply listing_ext; [| |exact Hl].
  - intros f Hf. eapply same_on_weaken; [exact Hm|]. intros x Hx.
    destruct (Hnd f Hf) as [N1 N2]. destruct (Hlive f Hf) as [A1 _]. split_and!; [split| |].
    + unfold node_bytes, within in *. foffs. lia.
    + intros b ->%list_elem_of_singleton. unfold node_bytes, apart, within in *. cbn. foffs. lia.
    + apply Hpg. unfold page_bytes, node_bytes, within in *. foffs. lia.
    + intros r Hr. specialize (Hpl r (Hsub r Hr)). unfold page_bytes, node_bytes, apart, within in *. foffs. lia.
  - apply (same_on_ld _ _ _ _ _ Hm). intros x Hx. split_and!; [split| |].
    + unfold apart, within in *. foffs. lia.
    + intros b ->%list_elem_of_singleton. unfold within in *. cbn. foffs. lia.
    + apply Hhd. unfold within in *. foffs. lia.
    + intros r Hr. pose proof (hi_low _ _ Hh r (Hsub r Hr)). unfold page_bytes, within, KERNEL_BASE in *. foffs. lia.
Qed.

(** Requests that fresh pages serve: [CombineBlocks] counts enough pages, and what
    is left over can hold a header. *)
Record pages_serve (size : Z) (k : nat) : Prop := {
  pv_size : 0 <= size < 2 ^ 31 - 8192;
  pv_big : PAGE <= size + sizeof_HeapNode;
  pv_count : npages size = Z.of_nat (S k);
  pv_fits : sizeof_HeapNode + size <= 4096 * npages size;
}.

(** The buffer: the file is copied into fresh pages. *)
Lemma fetch_buffer fuel path name f s p fs a sz p1 k ps :
  let n := fi_size f in
  disk_up s p fs a sz -> PAGE <= path -> cstr (mem s) path name -> (length name <= 99)%nat ->
  (length name + length fs < fuel)%nat -> (4 <= fuel)%nat ->
  lookup_file name fs = Some f -> PAGE <= fi_begin f ->
  (forall x, within x path (Z.of_nat (length name) + 1) \/ within x (fi_begin f) n ->
     off_heap (alloc_g s) (p :: ps_pool s) x) ->
  pages_serve n k -> clean_split n (p1, 4096 * npages n) -> ps_pool s = page_run p1 (S (S k)) ++ ps ->
  exists s1, (forall X (go_on : Z -> M X), bind (malloc fuel n) go_on s = go_on (p1 + sizeof_HeapNode) s1) /\
    exists s2, RdFileGetStream fuel path (p1 + sizeof_HeapNode) n s1 = Ok tt s2 /\
    same_regs s s2 /\ ps_pool s2 = ps /\
    heap_inv s2 (carve n (p1, 4096 * npages n) [(a, sz)]) /\
    block_free_of s2 (carve n (p1, 4096 * npages n) [(a, sz)]) (p1, sizeof_HeapNode + n) /\
    bytes_at (mem s2) (p1 + sizeof_HeapNode) (Z.to_nat n) = bytes_at (mem s) (fi_begin f) (Z.to_nat n) /\
    same_on (off_heap (alloc_g s) (p :: ps_pool s)) (mem s) (mem s2).
Proof using All.
  intros n Hd Hpath Hc Hlen Hfuel Hfuel4 Hlk Hbeg Hoff [V1 V2 V3 V4] Hclean Hp.
  pose proof Hd as [Hr Hi Hbk Hlow Hnd Hpg Hpl].
  assert (Hsub : forall r, r ∈ page_run p1 (S (S k)) -> r ∈ ps_pool s) by (rewrite Hp; set_solver).
  assert (Hob : forall x, off_heap (alloc_g s) (p :: ps_pool s) x -> beyond_run (alloc_g s) [(a, sz)] p1 (S (S k)) x).
  { intros x. apply (off_heap_beyond _ p (ps_pool s)); [lia | lia | done]. }
  destruct (malloc_pages_run fuel n s [(a, sz)] p1 k ps (rr_heap _ _ _ _ Hr))
    as (s1 & R1 & [A1 A2 A3] & P1 & G1 & M1); try done.
  { constructor; [cbn; unfold sizeof_HeapNode in *; lia | constructor]. }
  cbn [fst snd] in *. pose proof (bf_ok _ _ _ A3) as (B1 & B2 & B3). cbn [fst snd] in *.
  assert (Hl1 : listing (mem s1) addr_filehead fs) by (by eapply listing_beyond).
  assert (Hc1 : cstr (mem s1) path name).
  { eapply cstr_ext; [|exact Hc]. eapply same_on_weaken; [exact M1|]. intros x Hx. apply Hob, Hoff. by left. }
  assert (Hin : forall x, within x (p1 + sizeof_HeapNode) n -> ~ off_heap (alloc_g s) (p :: ps_pool s) x).
  { intros x Hx (_ & _ & _ & Hq). destruct (page_run_byte p1 (S k) x) as (q & Hqr & Hqx).
    - unfold within, sizeof_HeapNode in *. lia.
    - apply (Hq q); [|done]. right. apply Hsub. rewrite elem_of_page_run in *.
      destruct Hqr as (i & ? & ?). exists i. split; [lia | done]. }
  destruct (RdFileGetStream_run fuel path name (p1 + sizeof_HeapNode) n fs s1) as (s2 & R2 & M2 & G2 & B2');
    [by rewrite G1 | done | done | done | done | done | unfold sizeof_HeapNode; lia | lia | |].
  { rewrite Hlk. intros ? [= <-]. split; [done|]. unfold apart.
    destruct (decide (p1 + sizeof_HeapNode + n <= fi_begin f)); [by left|].
    destruct (decide (fi_begin f + n <= p1 + sizeof_HeapNode)); [by right|]. exfalso.
    set (x := Z.max (fi_begin f) (p1 + sizeof_HeapNode)). apply (Hin x); [unfold within, x; lia|].
    apply Hoff. right. unfold within, x. lia. }
  rewrite Hlk in B2'.
  destruct (heap_inv_write s1 _ _ (mem s2) A1 A3) as [I2 P2].
  { eapply same_on_weaken; [exact M2|]. intros x Hx Hw. apply Hx. cbn. unfold within, sizeof_HeapNode in *. lia. }
  rewrite <- G2 in I2, P2.
  exists s1. split; [intros X go_on; by erewrite bind_Ok by exact R1|]. exists s2. split_and!.
  - done.
  - by eapply same_regs_trans.
  - congruence.
  - done.
  - apply (block_free_pool s1); [by rewrite G2 | done | done].
  - rewrite B2'. apply bytes_at_ext. intros i Hi'. apply M1, Hob, Hoff. right. unfold within. lia.
  - etransitivity.
    + eapply same_on_weaken; [exact M1|]. exact Hob.
    + eapply same_on_weaken; [exact M2|]. intros x Hx Hw. by apply (Hin x).
Qed.

(** What is printed from the buffer on: [e] is the entry point, [seg] the place of
    the segment. *)
Definition program_report (buffer e seg : Z) (pre : list phdr) (ph : phdr) (post : list phdr) : list event :=
  EvPrintf "    - ELF executable loaded at 0x%x\n" [AVal buffer] ::
  elf_report e ++ (pre ≫= header_report) ++ header_report ph ++ segment_report seg ++ (post ≫= header_report).

(** The space for a segment of [memsz] bytes fits into the pages counted for it. *)
Definition segment_serve (memsz : Z) (k : nat) : Prop :=
  0 <= memsz /\ pages_serve (memsz + (0x1000 - 1)) k /\
  0x1000 + memsz + sizeof_HeapNode <= 4096 * npages (memsz + (0x1000 - 1)).

Lemma page_up p : 0 <= p -> p mod PAGE = 0 -> p + PAGE <= KERNEL_BASE -> ALIGN_UP (p + sizeof_HeapNode) 0x1000 = p + 0x1000.
Proof using. intros Hp Hm Hk. unfold KERNEL_BASE, sizeof_HeapNode in *. word. Qed.

(** The blocks left by a request from fresh pages are smaller than a page, or were
    there before. *)
Lemma carve_small n p1 a sz need :
  sz < need -> PAGE <= need -> Forall (fun b => b.2 < need) (carve n (p1, 4096 * npages n) [(a, sz)]).
Proof using.
  intros Hsz Hn. assert (4096 * npages n - sizeof_HeapNode - n < PAGE).
  { unfold npages, sizeof_HeapNode. lia. }
  unfold carve. cbn [fst snd]. destruct (0 <? _); repeat (apply Forall_cons; split; [cbn [snd]; lia|]); by apply Forall_nil.
Qed.

Lemma carve_within n p1 l b :
  b ∈ carve n (p1, 4096 * npages n) l -> 0 <= n ->
  b ∈ l \/ p1 <= b.1 /\ b.1 + b.2 <= p1 + 4096 * npages n.
Proof using.
  unfold carve. cbn [fst snd]. intros Hb Hn. destruct (0 <? _); [|by left].
  apply elem_of_cons in Hb as [->|Hb]; [right|by left]. cbn [fst snd]. unfold sizeof_HeapNode. lia.
Qed.

Lemma fetch_run fuel path name f s p fs a sz off pre ph post p1 k p2 k2 ps :
  let n := fi_size f in let d := fi_begin f in let phs := pre ++ ph :: post in
  disk_up s p fs a sz -> PAGE <= path -> cstr (mem s) path name -> (length name <= 99)%nat ->
  (length name + length fs < fuel)%nat -> (6 <= fuel)%nat ->
  lookup_file name fs = Some f -> PAGE <= d ->
  (forall x, within x path (Z.of_nat (length name) + 1) \/ within x d n ->
     off_heap (alloc_g s) (p :: ps_pool s) x) ->
  elf_file (mem s) d n off phs -> loadable ph ->
  Forall (fun ph => ~ loadable ph) pre -> Forall (fun ph => ~ loadable ph) post ->
  pages_serve n k -> clean_split n (p1, 4096 * npages n) -> segment_serve (ph_memsz ph) k2 ->
  ps_pool s = page_run p1 (S (S k)) ++ page_run p2 (S (S k2)) ++ ps ->
  let buffer := p1 + sizeof_HeapNode in let seg := p2 + 0x1000 in
  exists m', let s' := with_mem (printed s (program_report buffer (ld64 (mem s) (d + e_entry)) seg pre ph post)) m' in
    fetch fuel path n s = Ok tt s' /\ ps_inv s' /\ ps_pool s' = ps /\
    bytes_at m' buffer (Z.to_nat n) = bytes_at (mem s) d (Z.to_nat n) /\
    elf_at m' buffer (buffer + off) phs /\
    same_on (off_heap (alloc_g s) (p :: ps_pool s)) (mem s) m'.
Proof using All.
  intros n d phs Hd Hpath Hc Hlen Hfuel Hfuel6 Hlk Hbeg Hoff Hef Hl Hpre Hpost Hv Hclean (Hms & Hv2 & Hroom) Hp buffer seg.
  destruct (fetch_buffer fuel path name f s p fs a sz p1 k (page_run p2 (S (S k2)) ++ ps))
    as (s1 & R1 & s2 & R2 & G2 & P2 & I2 & B2 & E2 & M2); try done; [lia|].
  fold n d buffer in R1, R2, I2, B2, E2. set (l2 := carve n (p1, 4096 * npages n) [(a, sz)]) in *.
  pose proof (bf_ok _ _ _ B2) as (K1 & K2 & K3). cbn [fst snd] in *. unfold sizeof_HeapNode in *.
  pose proof Hv2 as [W1 W2 W3 W4]. unfold sizeof_HeapNode in *.
  (* the pages of the segment *)
  assert (Hp2 : p2 ∈ ps_pool s2) by (rewrite P2, page_run_S; set_solver).
  destruct (ps_page_ok s2 p2) as (Q1 & _ & Q3 & _); [apply I2 | apply ps_pool_managed; [apply I2 | done] |].
  pose proof (hi_low _ _ I2 p2 Hp2) as Q4.
  set (before := elf_report (ld64 (mem s) (d + e_entry)) ++ (pre ≫= header_report) ++ header_report ph).
  set (s3 := printed s2 [EvPrintf "    - ELF executable loaded at 0x%x\n" [AVal buffer]]).
  assert (He2 : elf_at (mem s3) buffer (buffer + off) phs).
  { apply (elf_file_at (mem s) d n off phs); [done | exact E2 | unfold buffer; lia | unfold buffer; lia]. }
  assert (Hent : ld64 (mem s3) (buffer + e_entry) = ld64 (mem s) (d + e_entry)).
  { pose proof (ef_size _ _ _ _ _ Hef). eapply ld_copied; [exact E2 | by vm_compute | eoffs; lia]. }
  destruct (heap_inv_printed s2 l2 ([EvPrintf "    - ELF executable loaded at 0x%x\n" [AVal buffer]] ++ before) I2)
    as [I4 P4]. rewrite <- printed_app in I4, P4. fold s3 in I4, P4.
  destruct (aligned_alloc_pages_run fuel 0x1000 (ph_memsz ph) (printed s3 before) l2 p2 k2 ps I4)
    as (s5 & R5 & _ & _ & G5 & J5 & P5 & M5); try done; [unfold KERNEL_BASE, sizeof_HeapNode in *; lia | by apply W1 | | | by rewrite P4 | |].
  { pose proof (du_block _ _ _ _ _ Hd). unfold sizeof_HeapNode. apply carve_small; lia. }
  { rewrite page_up by lia. unfold sizeof_HeapNode. lia. }
  { assert (length l2 <= 2)%nat by (unfold l2, carve; destruct (0 <? _); cbn; lia). lia. }
  rewrite page_up in R5 by lia.
  (* the buffer survives *)
  assert (Hbuf : same_on (fun x => within x buffer n) (mem s2) (mem s5)).
  { eapply same_on_weaken; [exact M5|]. intros x Hx. destruct B2 as [_ C1 C2 C3]. cbn [fst snd] in *.
    assert (Hxb : within x p1 (16 + n)) by (unfold buffer, within in *; lia).
    pose proof head_range as [Hhk _]. split_and!; [split | |].
    - unfold within, KERNEL_BASE in *. lia.
    - intros c Hcl Hw. specialize (C1 c Hcl). unfold apart, within in *. lia.
    - by apply C2.
    - intros q Hq. assert (Hqp : q ∈ ps_pool s2) by (rewrite P2; set_solver).
      specialize (C3 q Hqp). unfold page_bytes, apart, within in *. lia. }
  assert (He5 : elf_at (mem s5) buffer (buffer + off) phs).
  { apply (elf_file_at (mem s) d n off phs); [done | | unfold buffer; lia | unfold buffer; lia].
    rewrite <- E2. apply bytes_at_ext. intros i Hi. apply Hbuf. unfold within. lia. }
  assert (Hs' : printed s5 (segment_report seg ++ (post ≫= header_report)) =
    with_mem (printed s (program_report buffer (ld64 (mem s) (d + e_entry)) seg pre ph post)) (mem s5)).
  { rewrite (printed_same_regs (printed s3 before)) by done.
    rewrite printed_app. unfold s3. rewrite printed_app, (printed_same_regs s) by done.
    unfold before, program_report. cbn [app]. by rewrite <- !app_assoc. }
  exists (mem s5). cbn zeta. rewrite <- Hs'.
  destruct (ps_stable s5 (printed s5 (segment_report seg ++ (post ≫= header_report))) J5) as [J6 P6];
    [done | done |].
  split_and!; [| done | congruence | | |].
  - unfold fetch. rewrite R1. fold buffer. rewrite (proj2 (Z.eqb_neq buffer 0)) by (unfold buffer; lia). cbn [negb].
    erewrite bind_Ok by exact R2. cbv beta. erewrite bind_Ok by reflexivity. cbv beta.
    change (with_trace s2 _) with s3.
    apply (load_elf_one_segment fuel buffer (buffer + off) pre ph post s3 seg s5); try done. by rewrite Hent.
  - rewrite <- E2. apply bytes_at_ext. intros i Hi. apply Hbuf. unfold within. lia.
  - done.
  - etransitivity; [exact M2|]. eapply same_on_weaken; [exact M5|].
    intros x (Hx1 & _ & Hx3 & Hx4). change (alloc_g (printed s3 before)) with (alloc_g s2).
    rewrite (same_regs_alloc _ _ G2). split_and!; [split; [done|] | done |].
    + intros c Hcl Hw. destruct Hd as [_ _ Hbk _ _ _ _]. pose proof Hv as [V1 _ V3 _].
      apply carve_within in Hcl as [->%list_elem_of_singleton|[C1 C2]]; [| |lia].
      * apply (Hx4 p); [left|]. unfold page_bytes, within in *. cbn in Hw. lia.
      * destruct (page_run_byte p1 (S k) x) as (q & Hqr & Hqx); [unfold within in *; lia|].
        apply (Hx4 q); [|done]. right. rewrite Hp. apply elem_of_app. left. rewrite elem_of_page_run in *.
        destruct Hqr as (i & ? & ?). exists i. split; [lia | done].
    + intros q Hq. apply Hx4. right. rewrite Hp. set_solver.
Qed.
End Fetch.

(** ** Starting the disk *)

Section Disk.
Context `{StaticsOk} `{PSO : PageSourceOk}.

Lemma InitializeRamdisk_from_empty fuel a0 mb mbs s p ps :
  let n := Z.of_nat (length (mb :: mbs)) in
  rd_empty s p ps -> archive (mem s) a0 (mb :: mbs) -> PAGE <= a0 -> a0 + total (mb :: mbs) < 2 ^ 64 ->
  (forall x, within x a0 (total (mb :: mbs) + 1) -> off_heap (alloc_g s) (p :: ps) x) ->
  entry_size * n + sizeof_HeapNode <= PAGE -> (length (mb :: mbs) + 100 <= fuel)%nat ->
  exists m', let s' := set_ramdiskInitialized true (with_mem (printed s (archive_report a0 (mb :: mbs))) m') in
    InitializeRamdisk fuel a0 s = Ok tt s' /\
    disk_up s' p (registered a0 p (mb :: mbs) []) (p + entry_size * n) (PAGE - entry_size * n) /\
    ps_pool s' = ps /\ same_on (off_heap (alloc_g s) (p :: ps)) (mem s) m'.
Proof using All.
  intros n He Ha Ha0 Hend Hout Hroom Hfuel.
  assert (Hso : forall x, off_heap (alloc_g s) (p :: ps) x -> start_outside (alloc_g s) p x).
  { intros x (? & ? & ? & Hq). split_and!; try done. apply Hq. left. }
  destruct (register_from_empty fuel a0 mb mbs s p ps) as (s1 & R1 & Hr1 & P1 & G1 & M1); try done; [by auto|].
  pose proof G1 as G1'. red in G1'. pose proof He as [Hh Hp _ _].
  assert (Hin : p ∈ ps_pool s) by (rewrite Hp; left).
  assert (Hpi := hi_pages _ _ Hh). pose proof (hi_low _ _ Hh p Hin) as Hlow.
  destruct (ps_page_ok s p) as (Hpg1 & _ & Hpa & Hpo); [done | by apply ps_pool_managed |].
  exists (mem s1). rewrite <- G1'. cbn zeta. split_and!.
  - unfold InitializeRamdisk. by erewrite bind_Ok by exact R1.
  - assert (entry_size = 136) as Hes by reflexivity. rewrite Hes in *. unfold n, sizeof_HeapNode in *. clear n. cbn [length] in *.
    split; [by eapply rd_ready_ext | done | lia | done | | |].
    + intros f Hf. apply registered_nodes in Hf as [Hf%not_elem_of_nil|Hf]; [done|].
      rewrite Hes in *. cbn [length] in *. lia.
    + intros x Hx. cbn [alloc_g set_ramdiskInitialized]. rewrite G1'. by apply Hpo.
    + intros q Hq. rewrite (proj2 (ps_stable s1 (set_ramdiskInitialized true s1) (hi_pages _ _ (rr_heap _ _ _ _ Hr1))
        eq_refl ltac:(done))), P1 in Hq.
      assert (Hqp : q ∈ ps_pool s) by (rewrite Hp; by right).
      apply pages_apart; [done | by apply (ps_page_ok s q Hpi (ps_pool_managed s q Hpi Hqp)) |].
      intros ->. pose proof (ps_pool_nodup s Hpi) as Hnd. rewrite Hp in Hnd. by apply NoDup_cons in Hnd as [? _].
  - rewrite <- P1. apply ps_stable; [apply Hr1 | done | done].
  - eapply same_on_weaken; [exact M1|]. exact Hso.
Qed.

(** The data of a member lie in the archive. *)
Lemma locate_within path mbs m : forall a n d,
  archive m a mbs -> locate path a mbs = Some (n, d) -> 0 <= n < 2 ^ 32 - 1024 /\ a + 512 <= d /\ d + n <= a + total mbs.
Proof using.
  induction mbs as [|mb mbs IH]; intros a n d Ha Hl; [done|]. cbn [archive locate total] in *.
  destruct Ha as ((_ & _ & Hs) & _ & _ & Ha). pose proof (member_len_bounds mb ltac:(lia)).
  pose proof (total_nonneg _ _ _ Ha). destruct (locate path (a + member_len mb) mbs) as [[n' d']|] eqn:Hr.
  - simplify_eq. apply IH in Hr; [lia | done].
  - case_decide; [simplify_eq; lia | done].
Qed.
End Disk.
