(* ===== verification/BootRun.v ===== *)
(** The whole run of [_kmain] (bootstrap/kmain.c) on a machine without a RAM disk:
    every part starts, in order, on what the parts before it left behind. *)
From S2P Require Import Prelude Memory Machine PageSource FrameAlloc Heap Bitfield PageWalk Paging PagingSpec.
From S2P Require Import AddressSpace MapRequests KernelSpace CString Ramdisk Acpi Apic Devices Interrupts.
From S2P Require Import InterruptSpec Pcie Gdt Boot BootSpec.

(** ** What the firmware and the boot loader left *)

Record screen := Screen { sc_address : Z; sc_width : Z; sc_height : Z; sc_pitch : Z; sc_bpp : Z }.

(** The frame buffer behind the pointer at [array]. *)
Definition screen_at (m : gmap Z Z) (array : Z) (sc : screen) : Prop :=
  PAGE <= array /\ let f := ld64 m array in PAGE <= f /\
    ld m 8 (f + off_fb_address) = sc_address sc /\ ld m 8 (f + off_fb_width) = sc_width sc /\
    ld m 8 (f + off_fb_height) = sc_height sc /\ ld m 8 (f + off_fb_pitch) = sc_pitch sc /\
    ld m 2 (f + off_fb_bpp) = sc_bpp sc.

(** The memory map behind an array of pointers. *)
Fixpoint mmap_at (m : gmap Z Z) (entries : Z) (l : list limine_memmap_entry) : Prop :=
  match l with
  | [] => True
  | e :: l =>
      PAGE <= entries /\ let p := ld64 m entries in PAGE <= p /\
      ld64 m (p + off_mm_base) = entry_base e /\ ld64 m (p + off_mm_length) = entry_length e /\
      ld64 m (p + off_mm_type) = entry_type e /\ mmap_at m (entries + 8) l
  end.

Lemma read_mmap_reads m l : forall entries,
  mmap_at m entries l -> reads m (read_mmap (length l) entries) l.
Proof.
  induction l as [|e l IH]; intros entries Hl; cbn [length read_mmap mmap_at] in *; [apply reads_ret|].
  destruct Hl as (H1 & H2 & H3 & H4 & H5 & Hl). unfold off_mm_base, off_mm_length, off_mm_type in *.
  eapply reads_bind; [by apply reads_load|].
  do 3 (eapply reads_bind; [apply reads_load; lia|]).
  eapply reads_bind; [by apply IH|]. rewrite H3, H4, H5. destruct e. apply reads_ret.
Qed.

(** All of it, as data. *)
Record platform := Platform {
  pf_screen : screen;
  pf_map : list limine_memmap_entry;
  pf_tables : list Z;            (* the ACPI tables the root table lists *)
  pf_controllers : list ic;      (* the structures of the MADT *)
  pf_pci : list config_entry;    (* the entries of the MCFG table *)
}.

Section Boot.
Context `{BootStaticsOk} `{StaticsOk} `{IdtStaticsOk} `{GdtStatics}.
Context (stray : Z -> Z -> Z) (date : string).

(** The terminal library writes its own memory and may leave events. *)
Context (terminal : Z -> Z -> Z -> Z -> M unit) (term : Z -> Prop).
Hypothesis terminal_runs : forall a w h p s, exists m t,
  terminal a w h p s = Ok tt (with_trace (with_mem s m) t) /\ same_on (fun x => ~ term x) (mem s) m.

Section Machine.
Context (m : gmap Z Z) (pf : platform).

Definition screen_bytes : Z :=
  let sc := pf_screen pf in u64 (u64 (u64 (sc_width sc * sc_height sc) * sc_bpp sc) + 0x1000).

(** The arguments of [InitializePaging]. *)
Definition boot_info : paging_info :=
  PagingInfo (pf_map pf) (hhdm_base (answers m)) (kernelEnd - kernelStart)
    (ka_phys_base (answers m)) (ka_virt_base (answers m)) (sc_address (pf_screen pf)) screen_bytes.

Definition region : alloc_globals := region_globals (largest_entry (pf_map pf)).
Definition region_byte (a : Z) : Prop :=
  table_bytes region a \/ exists j, 0 <= j < nframes region /\ page_bytes (frame_addr region j) a.
Definition idt_byte (a : Z) : Prop := within a addr_idt 4096 \/ within a addr_idtr 10.

(** All that is written until the kernel waits. *)
Definition boot_writes (a : Z) : Prop :=
  term a \/ region_byte a \/ scribbled boot_info a \/ idt_byte a.

(** [P] holds of the memory, and depends only on what is not written. *)
Definition stable (P : gmap Z Z -> Prop) : Prop :=
  forall m', same_on (fun a => ~ boot_writes a) m m' -> P m'.

Definition root_table : Z := ld m 4 (field_of m rsdp_request off_field1 + off_RsdtAddress).
Definition madt : Z := last_with m sig_APIC (pf_tables pf) 0.
Definition mcfg : Z := last_with m sig_MCFG (pf_tables pf) 0.

Record bootable (fuel : nat) : Prop := {
  (* the boot loader *)
  bo_fb : answered m framebuffer_request;
  bo_mm : answered m mm_request;
  bo_rsdp : answered m rsdp_request;
  bo_ka : answered m ka_request;
  bo_efi : answered m efi_request;
  bo_hhdm : PAGE <= resp m hhdm_request;
  bo_kf : PAGE <= resp m kf_request /\ PAGE <= field_of m kf_request off_field1;
  bo_screen : stable (fun m' => screen_at m' (rs_array (fb (answers m))) (pf_screen pf));
  bo_map : stable (fun m' => mmap_at m' (rs_array (mmap (answers m))) (pf_map pf));
  bo_count : Z.to_nat (rs_count (mmap (answers m))) = length (pf_map pf);
  (* the firmware's tables *)
  bo_root : PAGE <= rsdp (answers m);
  bo_rsdt : stable (fun m' =>
    ld m' 4 (rsdp (answers m) + off_RsdtAddress) = root_table /\
    signature m' root_table = sig_RSDT /\ rsdt_at m' root_table (pf_tables pf) /\
    last_with m' sig_APIC (pf_tables pf) 0 = madt /\ last_with m' sig_MCFG (pf_tables pf) 0 = mcfg);
  bo_madt : stable (fun m' => madt_at m' madt (pf_controllers pf) 0);
  bo_madt_apart x : madt_bytes_of madt (pf_controllers pf) x -> ~ idt_byte x;
  bo_ioapic : Forall (fun c => ic_type c = 1 -> PAGE <= ic_addr c) (pf_controllers pf) /\
    ~ no_ioapic (pf_controllers pf);
  bo_mcfg : stable (fun m' => mcfg_at stray m' mcfg (pf_pci pf));
  (* the kernel image *)
  bo_gdt : stable (fun m' => gdt_image m');
  bo_heap : stable (fun m' => heap_at m' []);
  bo_idt a : idt_byte a -> ~ region_byte a;
  bo_head a : within a addr_head 16 -> ~ region_byte a;
  (* memory *)
  bo_region : entry_length (largest_entry (pf_map pf)) <> 0 /\ geometry_ok region;
  bo_low j : 0 <= j < nframes region -> frame_addr region j < 2 ^ 40;
  bo_layout : default_layout boot_info;
  (* no table lies where the mappings of the memory map write through 2 MiB pages *)
  bo_scribbled a : scribbled boot_info a -> ~ region_byte a;
  bo_pages : 1 + table_budget boot_info <= nframes region;
  (* enough rounds *)
  bo_fuel : fuel_ok boot_info fuel;
  bo_walk : (length (pf_controllers pf) < fuel)%nat;
}.

(** ** The steps *)

Context (fuel : nat) (Hb : bootable fuel).

#[local] Notation unwritten m' := (same_on (fun a => ~ boot_writes a) m m').

Lemma unwritten_step m1 m2 (P : Z -> Prop) :
  unwritten m1 -> same_on (fun a => ~ P a) m1 m2 -> (forall a, P a -> boot_writes a) -> unwritten m2.
Proof using. intros U1 U2 HP. etransitivity; [exact U1|]. eapply same_on_weaken; [exact U2|]. cbn. auto. Qed.

Lemma first_framebuffer_reads m' n off :
  unwritten m' -> 0 <= off ->
  reads m' (first_framebuffer (answers m) n off)
    (ld m' n (ld64 m' (rs_array (fb (answers m))) + off)).
Proof using Hb.
  intros Hm Ho. destruct (bo_screen fuel Hb m' Hm) as (S1 & S2 & _). unfold first_framebuffer.
  eapply reads_bind; [by apply reads_load|]. apply reads_load. lia.
Qed.

(** Segments, the boot loader's answers and the terminal. *)
Lemma boot_screen {A} (k : Bootloader -> M A) s :
  mem s = m ->
  exists s', (InitializeGDT;;
    bootloader ← InitializeBootloader;
    address ← first_framebuffer bootloader 8 off_fb_address;
    width ← first_framebuffer bootloader 8 off_fb_width;
    height ← first_framebuffer bootloader 8 off_fb_height;
    pitch ← first_framebuffer bootloader 8 off_fb_pitch;
    InitializeTerminal terminal address (s32 width) (s32 height) (s32 pitch);;
    k bootloader) s = k (answers m) s' /\
    unwritten (mem s') /\ driver_g s' = driver_g (set_fbSetup true s) /\
    sched_g s' = sched_g s /\ ports s' = ports s.
Proof using All.
  intros Hs. erewrite bind_Ok by reflexivity. cbv beta. set (s1 := with_trace (with_IF s false) _).
  destruct (bo_kf fuel Hb) as [K1 K2].
  erewrite bind_Ok by (apply (InitializeBootloader_run m); try done; apply Hb). cbv beta.
  do 4 (erewrite bind_Ok by (apply (first_framebuffer_reads m); [done | by vm_compute | done]); cbv beta).
  unfold InitializeTerminal. edestruct (terminal_runs) as (m1 & t1 & R & M).
  erewrite bind_Ok by (erewrite bind_Ok by exact R; reflexivity).
  eexists. split; [reflexivity|]. split; [|by split_and!]. cbn [mem set_fbSetup with_driver with_trace with_mem].
  eapply (unwritten_step m); [done | rewrite <- Hs; exact M | by left].
Qed.

Lemma boot_acpi s :
  unwritten (mem s) -> mcfgPtr (driver_g s) = 0 -> madtPtr (driver_g s) = 0 ->
  exists t, InitializeACPI (rsdp (answers m)) s =
    Ok tt (set_mcfgPtr mcfg (set_madtPtr madt (with_trace s t))).
Proof using Hb.
  intros Hm Z1 Z2. destruct (bo_rsdt fuel Hb _ Hm) as (Hroot & Hsig & Hrt & Ha & Hc).
  destruct (InitializeACPI_run (rsdp (answers m)) (pf_tables pf) s) as (s' & R & D);
    [apply Hb | by rewrite Hroot | by rewrite Hroot |].
  exists (trace s'). rewrite R. f_equal. red in D. rewrite Z1, Z2, Ha, Hc in D. exact D.
Qed.

Lemma boot_allocator s :
  unwritten (mem s) ->
  exists m', let s' := with_alloc (with_mem s m') region in
    InitializeAllocator (pf_map pf) s = Ok tt s' /\ table_ok s' /\
    pool s' = frame_addr region <$> seqZ 0 (nframes region) /\ unwritten m'.
Proof using Hb.
  intros Hm. destruct (bo_region fuel Hb) as [Hlen Hgeo].
  destruct (InitializeAllocator_shape (pf_map pf) s _ eq_refl Hlen Hgeo) as (s' & R & T & S & P & M).
  exists (mem s'). cbn zeta. fold region in S. rewrite <- S. split_and!; try done.
  eapply unwritten_step; [exact Hm | exact M | intros a Ha; right; left; by left].
Qed.

(** The allocator's memory lies in the region. *)
Lemma pool_region s a :
  alloc_g s = region -> pool s = frame_addr region <$> seqZ 0 (nframes region) ->
  pool_byte s a -> region_byte a.
Proof using.
  intros Hg Hp [Ho|(q & Hq & Ha)]; cbn [ps_owned ps_pool frame_source_ok] in *.
  - left. by rewrite <- Hg.
  - right. rewrite Hp in Hq. apply list_elem_of_fmap in Hq as (j & -> & Hj). apply elem_of_seqZ in Hj.
    exists j. split; [lia | done].
Qed.

(** What is left of a row of frames when some at its front are gone. *)
Lemma frames_left {A} (f : Z -> A) i n gone rest :
  f <$> seqZ i n = gone ++ rest -> rest = f <$> seqZ (i + Z.of_nat (length gone)) (n - Z.of_nat (length gone)).
Proof using.
  revert i n. induction gone as [|g gone IH]; intros i n E; cbn [length app] in *.
  - by rewrite Z.add_0_r, Z.sub_0_r.
  - destruct (decide (0 < n)) as [Hn|Hn]; [|by rewrite (seqZ_nil i n) in E by lia].
    rewrite seqZ_cons in E by lia. cbn [fmap list_fmap] in E. injection E as _ E.
    rewrite (IH _ _ E). f_equal. f_equal; lia.
Qed.

(** The state of memory management from [InitializePaging] on. *)
Record spaces (root : Z) (s : machine) : Prop := {
  sp_table : table_ok s;
  sp_alloc : alloc_g s = region;
  sp_run : exists j, 0 <= j <= 1 + table_budget boot_info /\
    pool s = frame_addr region <$> seqZ j (nframes region - j);
  sp_tree : tables_inv root s;
  sp_bytes a : paging_byte root s a -> region_byte a;
  sp_globals : paging_g s = PagingGlobals root boot_info;
  sp_cr3 : CR3 s = root;
  sp_map v : translate (mem s) root v = mapped_by (effective [] (default_requests boot_info)) v;
}.

Lemma sp_pool root s q : spaces root s -> q ∈ pool s -> exists j, 0 <= j < nframes region /\ q = frame_addr region j.
Proof using.
  intros S. destruct (sp_run _ _ S) as (j0 & Hj0 & ->). intros (j & -> & Hj)%list_elem_of_fmap.
  apply elem_of_seqZ in Hj. exists j. split; [lia | done].
Qed.

Lemma spaces_stable root s s' :
  spaces root s -> alloc_g s' = alloc_g s -> paging_g s' = paging_g s -> CR3 s' = CR3 s ->
  same_on region_byte (mem s) (mem s') -> spaces root s'.
Proof using.
  intros [T G P I B Q C V] G' Q' C' M.
  assert (Mt : same_on (table_bytes (alloc_g s)) (mem s) (mem s'))
    by (eapply same_on_weaken; [exact M|]; rewrite G; by left).
  destruct (table_stable s s' T G' Mt) as [T' P'].
  destruct (tables_stable root s s' I G' T') as (I' & Ta & Tr & _).
  { exists []. by cbn; rewrite P'. }
  { eapply same_on_weaken; [exact M|]. intros a Ha. apply B. by do 2 right. }
  split; try done; try congruence.
  - by rewrite P'.
  - intros a [Ho|[Hq|(p & t & Hp & Ht & Ha)]]; cbn [ps_owned ps_pool frame_source_ok] in *; apply B.
    + left. cbn. by rewrite <- G'.
    + right. left. cbn [ps_pool frame_source_ok]. by rewrite <- P'.
    + right. right. exists p, t. by rewrite <- Ta.
Qed.

Lemma boot_paging s :
  table_ok s -> alloc_g s = region -> pool s = frame_addr region <$> seqZ 0 (nframes region) ->
  unwritten (mem s) ->
  exists root m', let s' := paging_on root boot_info s m' in
    InitializePaging fuel boot_info s = Ok tt s' /\ spaces root s' /\ unwritten m'.
Proof using Hb.
  intros T G P Hm.
  assert (Hpool : forall q, q ∈ pool s -> exists j, 0 <= j < nframes region /\ q = frame_addr region j).
  { rewrite P. intros q (j & -> & Hj)%list_elem_of_fmap. apply elem_of_seqZ in Hj. exists j. split; [lia | done]. }
  destruct (@kernel_space _ frame_source_ok fuel boot_info s)
    as (root & m' & R & Hr & I & V & M & (gone & Hg & Hn) & B).
  - apply Hb.
  - apply Hb.
  - exact T.
  - intros q (j & Hj & ->)%Hpool. by apply (bo_low fuel Hb).
  - intros a Ha Hp. apply (bo_scribbled fuel Hb a Ha). by apply (pool_region s).
  - cbn [ps_pool frame_source_ok]. rewrite P, length_fmap, length_seqZ.
    pose proof (bo_pages fuel Hb). lia.
  - exists root, m'. cbn zeta. split; [exact R|].
    assert (Hu : unwritten m').
    { eapply (unwritten_step _ _ (fun a => pool_byte s a \/ scribbled boot_info a)); [exact Hm | |].
      - eapply same_on_weaken; [exact M|]. cbn. tauto.
      - intros a [Ha|Ha]; right; [left; by apply (pool_region s) | right; by left]. }
    split; [|done]. split; try done; [apply I | |].
    + cbn [ps_pool frame_source_ok] in Hg. rewrite P in Hg.
      exists (Z.of_nat (length gone)). split; [lia|]. by apply (frames_left _ 0).
    + intros a Ha. apply (pool_region s); [done | done | by apply B].
Qed.

Lemma boot_interrupts root s :
  spaces root s -> unwritten (mem s) -> madtPtr (driver_g s) = madt ->
  exists s', InitializeIDT fuel s = Ok tt s' /\ started s (pf_controllers pf) s' /\
    spaces root s' /\ unwritten (mem s') /\
    (forall h v, (h, v) ∈ idt_table ->
      gate_at (mem s') addr_idt v = Gate (handler_addr h) 0x08 0 IDT_GATE_INTERRUPT) /\
    let io := last_ioapic (pf_controllers pf) (ioAPIC (driver_g s)) in
    ioapic_entry io (trace s') 0x20 = Some (RedirectionEntry 0x28 0 0 0 0 0 0 0 0 0) /\
    ioapic_entry io (trace s') 0x12 = Some (RedirectionEntry 0x21 0 0 0 0 0 0 0 0 0).
Proof using All.
  intros S Hm Hp. destruct (bo_ioapic fuel Hb) as [Hio Hno].
  destruct (InitializeIDT_run fuel (pf_controllers pf) s) as (s' & R & St & G & _ & _ & M & E1 & E2 & _);
    [rewrite Hp; by apply (bo_madt fuel Hb) | apply Hb | done | done | |].
  { rewrite Hp. intros x Hx%(bo_madt_apart fuel Hb). unfold idt_byte in Hx. tauto. }
  assert (Ms : same_on (fun a => ~ idt_byte a) (mem s) (mem s')).
  { eapply same_on_weaken; [exact M|]. unfold idt_byte. cbn. tauto. }
  exists s'. split_and!; try done.
  - pose proof St as St'. red in St'. eapply spaces_stable; [exact S | by rewrite St'.. |].
    eapply same_on_weaken; [exact Ms|]. intros a Ha Hi. by apply (bo_idt fuel Hb a).
  - eapply unwritten_step; [exact Hm | exact Ms | by do 3 right].
Qed.

(** Prints and port accesses leave the I/O APIC as it is. *)
Lemma ioapic_entry_ports io r p t :
  Forall port_event p ->
  ioapic_entry io (p ++ t) r = ioapic_entry io t r.
Proof using. intros Hp. unfold ioapic_entry. by rewrite !ioapic_ports. Qed.

(** What [InitializePCIE] prints, and the message of [load_first_program]. *)
Definition pci_report (m' : gmap Z Z) : list event :=
  EvPrintf "PCI driver initializing...\n" [] :: rule ::
  (pf_pci pf ≫= entry_report stray m') ++ [rule].
Definition no_program : event :=
  EvPrintf "Found a.out!\nFile size = %d bytes\nLoading file into buffer...\n" [AVal 0].

(** The parts are up: the interrupt table, the I/O APIC, memory management. *)
Record parts_up (root : Z) (s : machine) : Prop := {
  pu_IF : IF s = true;
  pu_spaces : spaces root s;
  pu_unwritten : unwritten (mem s);
  pu_gates h v : (h, v) ∈ idt_table ->
    gate_at (mem s) addr_idt v = Gate (handler_addr h) 0x08 0 IDT_GATE_INTERRUPT;
  pu_clock : ioapic_entry (ioAPIC (driver_g s)) (trace s) 0x20 = Some (RedirectionEntry 0x28 0 0 0 0 0 0 0 0 0);
  pu_keyboard : ioapic_entry (ioAPIC (driver_g s)) (trace s) 0x12 = Some (RedirectionEntry 0x21 0 0 0 0 0 0 0 0 0);
  pu_ramdisk : ramdiskInitialized (driver_g s) = false;
}.

Lemma parts_up_trace root s p :
  Forall port_event p ->
  parts_up root s -> parts_up root (with_trace s (p ++ trace s)).
Proof using.
  intros Hp [U1 U2 U3 U4 U5 U6 U7]. split; try done; [by eapply spaces_stable | |];
    cbn [trace driver_g with_trace]; by rewrite ioapic_entry_ports.
Qed.

Lemma pit_run s : IF s = true -> exists p,
  Forall port_event p /\
  InitializePIT s = Ok tt (with_trace s (p ++ trace s)).
Proof using.
  intros Hi. eexists [_; _; _; _; _; _]. split; [|destruct s; cbn in Hi; subst; reflexivity].
  by repeat constructor.
Qed.

Lemma boot_parts s :
  mem s = m -> mcfgPtr (driver_g s) = 0 -> madtPtr (driver_g s) = 0 ->
  ramdiskInitialized (driver_g s) = false ->
  exists root s' t, start_parts terminal stray date fuel s = Ok (answers m) s' /\
    parts_up root s' /\ trace s' = rev (pci_report (mem s')) ++ t /\
    sched_g s' = sched_g s /\ ports s' = ports s /\ (exists m', unwritten m' /\ localAPIC (driver_g s') = ld m' 4 (madt + off_LAPICBase)).
Proof using All.
  intros Hs Hc Ha Hr. unfold start_parts.
  edestruct (boot_screen (A := Bootloader)) as (s1 & R1 & U1 & D1 & Q1 & O1); [exact Hs|].
  rewrite R1. clear R1. cbv beta.
  destruct (boot_acpi s1) as (t2 & R2); [done | by rewrite D1 | by rewrite D1 |].
  erewrite bind_Ok by exact R2. cbv beta. set (s2 := set_mcfgPtr _ _).
  assert (U2 : unwritten (mem s2)) by exact U1.
  pose proof (bo_screen fuel Hb _ U2) as (_ & _ & E1 & E2 & E3 & _ & E5).
  do 4 (erewrite bind_Ok by (apply (first_framebuffer_reads (mem s2)); [exact U2 | by vm_compute | done]); cbv beta).
  rewrite E1, E2, E3, E5, (bo_count fuel Hb).
  erewrite bind_Ok by exact (read_mmap_reads _ _ _ (bo_map fuel Hb _ U2) s2 eq_refl). cbv beta zeta.
  destruct (boot_allocator s2 U2) as (m3 & R3 & T3 & P3 & U3). erewrite bind_Ok by exact R3. cbv beta.
  set (s3 := with_alloc _ _) in *.
  destruct (boot_paging s3) as (root & m4 & R4 & S4 & U4); [done | done | done | done |].
  erewrite bind_Ok by exact R4. cbv beta. set (s4 := paging_on _ _ _ _) in *.
  destruct (boot_interrupts root s4) as (s5 & R5 & St & S5 & U5 & G5 & K1 & K2); [done | done | done |].
  erewrite bind_Ok by exact R5. cbv beta.
  assert (P5 : parts_up root s5).
  { red in St. split; try done; try (by rewrite St).
    rewrite St. cbn. rewrite D1. exact Hr. }
  assert (C5 : mcfgPtr (driver_g s5) = mcfg) by (red in St; by rewrite St).
  assert (L5 : sched_g s5 = sched_g s /\ ports s5 = ports s /\
    localAPIC (driver_g s5) = ld (mem s4) 4 (madt + off_LAPICBase))
    by (red in St; rewrite St; split; [exact Q1 | split; [exact O1 | done]]).
  erewrite bind_Ok by reflexivity. cbv beta.
  set (s6 := with_trace s5 (EvPrintf _ _ :: trace s5)).
  assert (P6 : parts_up root s6) by (apply (parts_up_trace root s5 [EvPrintf _ _]); [by repeat constructor | done]).
  destruct (pit_run s6 (pu_IF _ _ P6)) as (p & Hp & R7). erewrite bind_Ok by exact R7. cbv beta.
  pose proof (parts_up_trace root s6 p Hp P6) as P7. set (s7 := with_trace s6 _) in *.
  pose proof (InitializePCIE_outputs stray (mem s7) mcfg (pf_pci pf) s7 eq_refl C5 (bo_mcfg fuel Hb _ (pu_unwritten _ _ P7))) as R8.
  erewrite bind_Ok by exact R8. cbv beta.
  eexists root, _, (trace s7). split; [reflexivity|].
  split; [|split; [done|]; split; [apply L5|]; split; [apply L5 | exists (mem s4); split; [exact U4 | apply L5]]].
  apply parts_up_trace; [|done].
  apply Forall_rev. constructor; [done|]. constructor; [done|]. apply Forall_app. split; [|by repeat constructor].
  clear R8. induction (pf_pci pf) as [|e l IH]; [constructor|]. rewrite bind_cons. apply Forall_app. split; [|exact IH].
  eapply Forall_impl; [apply entry_report_prints|]. by intros [].
Qed.

(** ** The whole run *)

(** The heap starts empty. *)
Lemma boot_heap root s : spaces root s -> unwritten (mem s) -> heap_inv s [].
Proof using Hb.
  intros S U. split; cbn [ps_inv ps_pool ps_owned frame_source_ok].
  - apply S.
  - by apply (bo_heap fuel Hb).
  - constructor.
  - constructor.
  - by intros b x Hx%not_elem_of_nil.
  - by intros b q Hx%not_elem_of_nil.
  - intros q (j & Hj & ->)%(sp_pool _ _ _ S). pose proof (bo_low fuel Hb j Hj). unfold KERNEL_BASE.
    change (2 ^ 40) with 1099511627776 in *. lia.
  - intros x Hx Ht. apply (bo_head fuel Hb x Hx). left. by rewrite <- (sp_alloc _ _ S).
Qed.

Lemma kmain_run s :
  mem s = m -> mcfgPtr (driver_g s) = 0 -> madtPtr (driver_g s) = 0 ->
  ramdiskInitialized (driver_g s) = false -> resp m module_request = 0 ->
  exists root s' t, _kmain terminal stray date fuel s = Halt s' /\ parts_up root s' /\
    trace s' = no_program :: rev (pci_report (mem s')) ++ t /\
    sched_g s' = sched_g s /\ ports s' = ports s /\ (exists m', unwritten m' /\ localAPIC (driver_g s') = ld m' 4 (madt + off_LAPICBase)).
Proof using All.
  intros Hs Hc Ha Hr Hmod. destruct (boot_parts s Hs Hc Ha Hr) as (root & s1 & t & R & U & T & L).
  exists root, (with_trace s1 (no_program :: trace s1)), t. split.
  { unfold _kmain. erewrite bind_Ok by exact R. cbv beta. unfold start_ramdisk. cbn [mod_ answers].
    rewrite Hmod. cbn [Z.eqb negb when]. erewrite bind_Ok by reflexivity. cbv beta.
    erewrite bind_Ok; [reflexivity|]. unfold load_first_program, RdFileGetSz.
    erewrite bind_Ok by (unfold is_initialized, gets; erewrite bind_Ok by reflexivity; rewrite (pu_ramdisk _ _ U); reflexivity).
    reflexivity. }
  split; [apply (parts_up_trace root s1 [no_program]); [by repeat constructor | done]|].
  split; [cbn [trace mem with_trace]; by rewrite T | exact L].
Qed.

(** C1. The whole run of [_kmain] without a RAM disk: on a machine whose boot
    loader and firmware left well-formed answers and tables outside the memory the
    kernel writes, and with enough memory - the allocator's region clear of the RAM
    between 2 MiB and 1 GiB that CreateDefaultMappings maps page by page ([bo_scribbled]:
    true where the largest region lies above 1 GiB, not of the Makefile's 500M) -, [_kmain] reaches its final loop with
    interrupts on, every gate leading to its handler, the I/O APIC delivering the
    clock and the keyboard, flat segments, the kernel's address space loaded -
    the direct map, the kernel image and the screen translated, address 0 not -
    the allocator and its tables well formed, the heap empty and ready, the PCI
    functions reported and nothing else written. *)
Theorem kmain_boots s :
  mem s = m -> mcfgPtr (driver_g s) = 0 -> madtPtr (driver_g s) = 0 ->
  ramdiskInitialized (driver_g s) = false -> resp m module_request = 0 ->
  exists root s' t, _kmain terminal stray date fuel s = Halt s' /\ IF s' = true /\
    (* interrupts and segments *)
    (forall h v, (h, v) ∈ idt_table ->
      gate_at (mem s') addr_idt v = Gate (handler_addr h) 0x08 0 IDT_GATE_INTERRUPT) /\
    ioapic_entry (ioAPIC (driver_g s')) (trace s') 0x20 = Some (RedirectionEntry 0x28 0 0 0 0 0 0 0 0 0) /\
    ioapic_entry (ioAPIC (driver_g s')) (trace s') 0x12 = Some (RedirectionEntry 0x21 0 0 0 0 0 0 0 0 0) /\
    segment_of (mem s') addr_gdtPtr 0x08 = Some (Segment 0 0xFF true 0 true true true false true) /\
    segment_of (mem s') addr_gdtPtr 0x10 = Some (Segment 0 0xFF true 0 false true false true true) /\
    (* memory *)
    CR3 s' = root /\ paging_g s' = PagingGlobals root boot_info /\ tables_inv root s' /\
    (forall p, 0 <= p < 2 ^ 32 -> translate (mem s') root (hhdm_base (answers m) + p) = Some (Xlat p true false)) /\
    (forall o, 0 <= o < kernelEnd - kernelStart ->
       translate (mem s') root (ka_virt_base (answers m) + o) = Some (Xlat (ka_phys_base (answers m) + o) true false)) /\
    (forall o, 0 <= o < screen_bytes ->
       translate (mem s') root (sc_address (pf_screen pf) + o) =
         Some (Xlat (sc_address (pf_screen pf) - hhdm_base (answers m) + o) true false)) /\
    (forall v, 0 <= v < PAGE -> translate (mem s') root v = None) /\
    table_ok s' /\ heap_inv s' [] /\
    (* what was said and written *)
    trace s' = no_program :: rev (pci_report (mem s')) ++ t /\
    same_on (fun a => ~ boot_writes a) m (mem s').
Proof using All.
  intros Hs Hc Ha Hr Hmod. destruct (kmain_run s Hs Hc Ha Hr Hmod) as (root & s2 & t & R & U2 & T & _).
  exists root, s2, t. split; [exact R|].
  destruct U2 as [I2 S2 W2 G2 C2 K2 _].
  destruct (gdt_segments (mem s2) (bo_gdt fuel Hb _ W2)) as (D1 & D2 & _).
  pose proof (bo_layout fuel Hb) as Hl. pose proof (sp_map _ _ S2) as V.
  split_and!; try done; try apply S2; try (by eapply boot_heap); try (intros; rewrite V).
  - by apply (direct_mapped boot_info Hl).
  - by apply (kernel_mapped boot_info Hl).
  - by apply (screen_mapped boot_info Hl).
  - by apply (null_unmapped boot_info Hl).
Qed.
End Machine.
End Boot.
