(* ===== verification/ProgramRun.v ===== *)
(** The whole run of [_kmain] with a RAM disk: what [BootRun] starts, [Program] goes
    on with - the archive is registered, "a.out" is read into fresh pages and its
    program headers are walked. *)
From S2P Require Import Prelude Memory Machine PageSource FrameAlloc Heap HeapSpec Bitfield PageWalk Paging PagingSpec.
From S2P Require Import AddressSpace MapRequests KernelSpace CString Ramdisk Acpi Apic Devices Interrupts.
From S2P Require Import InterruptSpec Pcie Gdt Boot BootSpec ElfSpec BootRun Program.

(** The archive, and the executable in it. *)
Record program := {
  pg_archive : Z;                 (* where the module lies *)
  pg_members : list member;
  pg_size : Z;                    (* the size of "a.out", its data, its headers *)
  pg_data : Z;
  pg_phoff : Z;
  pg_pre : list phdr;
  pg_ph : phdr;                   (* the loadable segment *)
  pg_post : list phdr;
  pg_pages : nat;                 (* pages, less one, of the buffer and of the segment *)
  pg_segment_pages : nat;
}.
Definition pg_phdrs (pg : program) : list phdr := pg_pre pg ++ pg_ph pg :: pg_post pg.

(** "a.out" *)
Definition a_out : list Z := [97; 46; 111; 117; 116].

Section Run.
Context `{BootStaticsOk} `{StaticsOk} `{IdtStaticsOk} `{GdtStatics}.
Context (stray : Z -> Z -> Z) (date : string).
Context (terminal : Z -> Z -> Z -> Z -> M unit) (term : Z -> Prop).
Hypothesis terminal_runs : forall a w h p s, exists m t,
  terminal a w h p s = Ok tt (with_trace (with_mem s m) t) /\ same_on (fun x => ~ term x) (mem s) m.
Context (m : gmap Z Z) (pf : platform) (pg : program) (fuel : nat).

#[local] Notation n_files := (Z.of_nat (length (pg_members pg))).

(** What is read of the disk lies outside everything that is written. *)
Definition disk_byte (x : Z) : Prop :=
  within x (pg_archive pg) (total (pg_members pg) + 1) \/ within x elfTargetFileName 6.

Record has_program : Prop := {
  hp_module : PAGE <= resp m module_request;
  hp_file : stable term m pf (fun m' =>
    let array := ld64 m' (resp m module_request + off_array) in
    PAGE <= array /\ PAGE <= ld64 m' array /\ ld64 m' (ld64 m' array + off_file_address) = pg_archive pg);
  hp_archive : archive m (pg_archive pg) (pg_members pg) /\ pg_members pg <> [] /\
    PAGE <= pg_archive pg /\ pg_archive pg + total (pg_members pg) < 2 ^ 64;
  hp_name : cstr m elfTargetFileName a_out;
  hp_list : stable term m pf (fun m' => ld64 m' (addr_filehead + off_fnext) = 0);
  hp_apart x : disk_byte x ->
    ~ boot_writes term m pf x /\ ~ within x addr_head 16 /\ ~ within x addr_filehead sizeof_FileNode;
  hp_filehead x : within x addr_filehead sizeof_FileNode -> ~ region_byte pf x;
  hp_idt x : idt_byte x -> ~ within x addr_head 16 /\ ~ within x addr_filehead sizeof_FileNode;
  hp_locate : locate a_out (pg_archive pg) (pg_members pg) = Some (pg_size pg, pg_data pg);
  hp_elf : elf_file m (pg_data pg) (pg_size pg) (pg_phoff pg) (pg_phdrs pg);
  hp_headers : loadable (pg_ph pg) /\ Forall (fun ph => ~ loadable ph) (pg_pre pg) /\
    Forall (fun ph => ~ loadable ph) (pg_post pg);
  hp_nodes : entry_size * n_files + sizeof_HeapNode <= PAGE;
  hp_buffer : pages_serve (pg_size pg) (pg_pages pg) /\
    clean_split (pg_size pg) (0, 4096 * npages (pg_size pg));
  hp_segment : segment_serve (ph_memsz (pg_ph pg)) (pg_segment_pages pg);
  hp_pages : 1 + table_budget (BootRun.boot_info m pf) +
    (1 + Z.of_nat (pg_pages pg + 2) + Z.of_nat (pg_segment_pages pg + 2)) <= nframes (region pf);
  hp_fuel : (length (pg_members pg) + 106 <= fuel)%nat;
}.

Context (Hb : bootable stray term m pf fuel) (Hp : has_program).

(** Rows of frames are runs of pages. *)
Lemma frames_run g j k : 0 <= k -> page_run (frame_addr g j) (Z.to_nat k) = frame_addr g <$> seqZ j k.
Proof using.
  intros Hk. unfold page_run. rewrite Z2Nat.id by done. replace (seqZ j k) with (seqZ (j + 0) k) by (f_equal; lia).
  rewrite <- (fmap_add_seqZ j 0), <- list_fmap_compose. apply list_fmap_ext. intros i x _.
  unfold frame_addr. cbn. lia.
Qed.

(** The free pages: one for the nodes, a run for the buffer, one for the segment. *)
Lemma program_pages root s :
  spaces m pf root s -> exists j ps, 0 <= j <= 1 + table_budget (BootRun.boot_info m pf) /\
    pool s = frame_addr (region pf) j ::
      page_run (frame_addr (region pf) (j + 1)) (S (S (pg_pages pg))) ++
      page_run (frame_addr (region pf) (j + 3 + Z.of_nat (pg_pages pg))) (S (S (pg_segment_pages pg))) ++ ps.
Proof using Hp.
  intros S. destruct (sp_run _ _ _ _ S) as (j & Hj & ->). pose proof (hp_pages Hp) as Hn.
  exists j, (frame_addr (region pf) <$> seqZ (j + 5 + Z.of_nat (pg_pages pg) + Z.of_nat (pg_segment_pages pg))
    (nframes (region pf) - (j + 5 + Z.of_nat (pg_pages pg) + Z.of_nat (pg_segment_pages pg)))).
  split; [done|].
  replace (Datatypes.S (Datatypes.S (pg_pages pg))) with (Z.to_nat (2 + Z.of_nat (pg_pages pg))) by lia.
  replace (Datatypes.S (Datatypes.S (pg_segment_pages pg))) with (Z.to_nat (2 + Z.of_nat (pg_segment_pages pg))) by lia.
  rewrite !frames_run, <- !fmap_app by lia. change (frame_addr (region pf) j :: ?l) with ((frame_addr (region pf) <$> [j]) ++ l).
  rewrite <- fmap_app. f_equal.
  replace (nframes (region pf) - j) with (1 + ((2 + Z.of_nat (pg_pages pg)) + ((2 + Z.of_nat (pg_segment_pages pg)) +
    (nframes (region pf) - (j + 5 + Z.of_nat (pg_pages pg) + Z.of_nat (pg_segment_pages pg)))))) by lia.
  rewrite (seqZ_app j 1), (seqZ_app (j + 1)), (seqZ_app (j + 1 + _)) by lia.
  rewrite (seqZ_cons j 1), seqZ_nil by lia. repeat (f_equal; try lia).
Qed.

(** The disk is where the boot loader put it after the parts have started. *)
Lemma disk_kept m' :
  same_on (fun a => ~ boot_writes term m pf a) m m' -> same_on disk_byte m m'.
Proof using Hp. intros U. eapply same_on_weaken; [exact U|]. intros x Hx. by apply (hp_apart Hp). Qed.

Lemma disk_off_heap root s x :
  spaces m pf root s -> disk_byte x -> off_heap (alloc_g s) (pool s) x.
Proof using Hp.
  intros S Hx. destruct (hp_apart Hp x Hx) as (Hw & Hh & Hf). split_and!; [done | done | |].
  - cbn [ps_owned frame_source_ok]. intros Ho. apply Hw. right. left. left. by rewrite <- (sp_alloc _ _ _ _ S).
  - intros q (j & Hj & ->)%(sp_pool _ _ _ _ _ S) Hq. apply Hw. right. left. right. by exists j.
Qed.

(** Writes outside the page tables leave the address space alone. *)
Lemma spaces_translate root s s' gone :
  spaces m pf root s -> alloc_g s' = alloc_g s -> ps_inv s' -> ps_pool s = gone ++ ps_pool s' ->
  same_on (off_heap (alloc_g s) (ps_pool s)) (mem s) (mem s') ->
  tables_inv root s' /\ forall v, translate (mem s') root v = translate (mem s) root v.
Proof using All.
  intros S Hg Hi Hpool Hm. pose proof (sp_tree _ _ _ _ S) as I.
  destruct (tables_stable root s s' I Hg Hi) as (I' & _ & V & _); [by exists gone | | done].
  eapply same_on_weaken; [exact Hm|]. intros x (q & t & Hq & Ht & Hx).
  destruct (ti_tab root s I q t Hq Ht) as (Hman & Hnin & Hlow).
  destruct (ps_page_ok s t (ti_src root s I) Hman) as (_ & _ & Ha & Ho).
  pose proof head_range as [Hh _]. pose proof filehead_range as [Hf _].
  unfold off_heap, page_bytes, within, KERNEL_BASE in *. change (2 ^ 40) with 1099511627776 in *. split_and!; [lia | lia | by apply Ho |].
  intros r Hr Hxr. apply Hnin. replace t with r; [done|].
  apply (page_bytes_inj r t x); [| done | exact Hxr | exact Hx].
  apply (ps_page_ok s r (ti_src root s I) (ps_pool_managed s r (ti_src root s I) Hr)).
Qed.

(** The archive is registered from the first free page on. *)
Lemma run_ramdisk root s p ps :
  parts_up term m pf root s -> pool s = p :: ps ->
  exists m', let s' := set_ramdiskInitialized true
      (with_mem (printed s (archive_report (pg_archive pg) (pg_members pg))) m') in
    start_ramdisk fuel (answers m) s = Ok tt s' /\
    disk_up s' p (registered (pg_archive pg) p (pg_members pg) [])
      (p + entry_size * n_files) (PAGE - entry_size * n_files) /\
    ps_pool s' = ps /\ same_on (off_heap (alloc_g s) (pool s)) (mem s) m'.
Proof using All.
  intros U Hpool. destruct Hp as [P1 P2 (P3 & P4 & P5 & P6) _ P8 P9 P10 _ _ _ _ P14 _ _ _ P18].
  pose proof (pu_spaces _ _ _ _ _ U) as S. pose proof (pu_unwritten _ _ _ _ _ U) as W.
  destruct (pg_members pg) as [|mb mbs] eqn:Hmb; [done|].
  destruct (InitializeRamdisk_from_empty fuel (pg_archive pg) mb mbs s p ps) as (m' & R & D & Hq & M); try done.
  - split.
    + by eapply boot_heap.
    + done.
    + by apply P8.
    + intros x Hx Ho. apply (P10 x Hx). left. by rewrite <- (sp_alloc _ _ _ _ S).
  - eapply archive_ext; [|exact P3]. rewrite <- Hmb. eapply same_on_weaken; [by apply disk_kept|].
    intros x Hx. by left.
  - intros x Hx. rewrite <- Hpool. apply (disk_off_heap root s x S). left. by rewrite Hmb.
  - lia.
  - exists m'. cbn zeta in *. split_and!; [| done | done | by rewrite Hpool].
    destruct (P2 (mem s) W) as (Q1 & Q2 & Q3). unfold start_ramdisk. cbn [mod_ answers].
    rewrite (proj2 (Z.eqb_neq _ 0)) by lia. cbn [negb when].
    erewrite bind_Ok by (apply load_ok; unfold off_array; lia). cbv beta.
    erewrite bind_Ok by (by apply load_ok). cbv beta.
    erewrite bind_Ok by (apply load_ok; unfold off_file_address; lia). cbv beta. by rewrite Q3.
Qed.

Definition found_program : event :=
  EvPrintf "Found a.out!\nFile size = %d bytes\nLoading file into buffer...\n" [AVal (pg_size pg)].

(** The file in the list. *)
Lemma program_file p : exists f,
  lookup_file a_out (registered (pg_archive pg) p (pg_members pg) []) = Some f /\
  fi_size f = pg_size pg /\ fi_begin f = pg_data pg.
Proof using Hp.
  pose proof (lookup_registered a_out (pg_archive pg) p (pg_members pg) []) as Hl.
  rewrite (hp_locate Hp) in Hl. destruct (lookup_file a_out _) as [f|]; [|done]. exists f.
  cbn in Hl. unfold file_info in Hl. by simplify_eq.
Qed.

(** Reading and walking the program in a state whose disk is up. *)
Lemma run_program s p a sz p1 p2 ps :
  disk_up s p (registered (pg_archive pg) p (pg_members pg) []) a sz ->
  same_on disk_byte m (mem s) -> (forall x, disk_byte x -> off_heap (alloc_g s) (p :: pool s) x) ->
  pool s = page_run p1 (S (S (pg_pages pg))) ++ page_run p2 (S (S (pg_segment_pages pg))) ++ ps ->
  let buffer := p1 + sizeof_HeapNode in
  exists m', let s' := with_mem (printed s (found_program ::
      program_report buffer (ld64 m (pg_data pg + e_entry)) (p2 + 0x1000) (pg_pre pg) (pg_ph pg) (pg_post pg))) m' in
    load_first_program fuel s = Ok tt s' /\ ps_inv s' /\ ps_pool s' = ps /\
    bytes_at m' buffer (Z.to_nat (pg_size pg)) = bytes_at m (pg_data pg) (Z.to_nat (pg_size pg)) /\
    elf_at m' buffer (buffer + pg_phoff pg) (pg_phdrs pg) /\
    same_on (off_heap (alloc_g s) (p :: pool s)) (mem s) m'.
Proof using All.
  intros D Hm Hoff Hpool buffer. destruct (program_file p) as (f & Hlk & Hsz & Hbg).
  pose proof (hp_archive Hp) as (Ha & _ & Ha0 & _).
  destruct (locate_within a_out _ m _ _ _ Ha (hp_locate Hp)) as (Hn & Hd1 & Hd2).
  assert (Hdata : forall x, within x (pg_data pg) (pg_size pg) -> disk_byte x).
  { intros x Hx. left. unfold within in *. lia. }
  assert (Hld : forall k o, 0 <= o -> o + Z.of_nat k <= pg_size pg ->
    ld (mem s) k (pg_data pg + o) = ld m k (pg_data pg + o)).
  { intros k o Ho Hk. apply (same_on_ld _ _ _ _ _ Hm). intros x Hx. apply Hdata. unfold within in *. lia. }
  assert (Hpath : PAGE <= elfTargetFileName) by (apply requests_page; set_solver).
  assert (Hc : forall t, same_on disk_byte m (mem t) -> cstr (mem t) elfTargetFileName a_out).
  { intros t Ht. eapply cstr_ext; [|apply (hp_name Hp)]. eapply same_on_weaken; [exact Ht|]. by right. }
  pose proof (registered_length (pg_archive pg) p (pg_members pg) []) as Hlen. cbn [length] in Hlen.
  pose proof (hp_fuel Hp) as Hfuel. pose proof (hp_elf Hp) as He.
  pose proof (ef_size _ _ _ _ _ He) as (E1 & E2 & E3).
  set (s1 := printed s [found_program]).
  destruct (fetch_run fuel elfTargetFileName a_out f s1 p (registered (pg_archive pg) p (pg_members pg) []) a sz
    (pg_phoff pg) (pg_pre pg) (pg_ph pg) (pg_post pg) p1 (pg_pages pg) p2 (pg_segment_pages pg) ps)
    as (m' & R & I & P & B & L & F); rewrite ?Hsz, ?Hbg.
  - by apply disk_up_printed.
  - done.
  - by apply Hc.
  - cbn. lia.
  - rewrite Hlen. cbn [a_out length]. lia.
  - lia.
  - done.
  - lia.
  - intros x [Hx|Hx]; apply Hoff; [by right | by apply Hdata].
  - change (mem s1) with (mem s). destruct He as [F1 F2 F3 F4 _ F5]. eoffs. split; eoffs; try done.
    + unfold elf_magic in *. rewrite <- F1. apply bytes_at_ext. intros i Hi. apply Hm, Hdata. unfold within. lia.
    + by rewrite Hld by lia.
    + by rewrite Hld by lia.
    + by rewrite Hld by lia.
    + intros i ph Hi. pose proof (lookup_lt_Some _ _ _ Hi). destruct (F5 i ph Hi) as [Q1 Q2 Q3]. unfold pg_phdrs in *. eoffs.
      split; eoffs; rewrite <- !Z.add_assoc in *; by rewrite Hld by lia.
  - apply (hp_headers Hp).
  - apply (hp_headers Hp).
  - apply (hp_headers Hp).
  - apply (hp_buffer Hp).
  - apply (hp_buffer Hp).
  - apply (hp_segment Hp).
  - done.
  - exists m'. rewrite Hsz, Hbg in *. change (mem s1) with (mem s) in *. cbn zeta in *.
    rewrite (Hld 8%nat e_entry) in * by (eoffs; lia).
    assert (Hs' : forall l, with_mem (printed s1 l) m' = with_mem (printed s (found_program :: l)) m').
    { intros l. unfold s1. by rewrite printed_app. }
    rewrite Hs' in *. split_and!; try done.
    + unfold load_first_program. erewrite bind_Ok.
      2:{ eapply RdFileGetSz_run; [apply D | apply D | done | by apply Hc | cbn; lia | rewrite Hlen; cbn; lia]. }
      cbv beta. rewrite Hlk. cbn [fmap option_fmap option_map from_option id]. rewrite Hsz.
      erewrite bind_Ok by reflexivity. cbv beta.
      change (with_trace s _) with s1. rewrite (proj2 (Z.eqb_neq (pg_size pg) 0)) by lia. exact R.
    + etransitivity; [exact B|]. apply bytes_at_ext. intros i Hi. apply Hm, Hdata. unfold within. lia.
Qed.

(** Printing leaves the I/O APIC as it is. *)
Definition printfs (l : list event) : Prop :=
  Forall (fun e => match e with EvPrintf _ _ => True | _ => False end) l.

Lemma ioapic_entry_printed io s l r :
  printfs l -> ioapic_entry io (trace (printed s l)) r = ioapic_entry io (trace s) r.
Proof using.
  intros Hl. apply ioapic_entry_ports, Forall_rev. eapply Forall_impl; [exact Hl|]. by intros [].
Qed.

Lemma header_report_printfs phs : printfs (phs ≫= header_report).
Proof using.
  unfold printfs. induction phs as [|ph phs IH]; [constructor|]. rewrite bind_cons. apply Forall_app. split; [|exact IH].
  unfold header_report. destruct (_ =? _); by repeat constructor.
Qed.

Lemma archive_report_printfs mbs : forall a, printfs (archive_report a mbs).
Proof using.
  unfold printfs. induction mbs as [|mb mbs IH]; intros a; cbn [archive_report]; [constructor|].
  apply Forall_app. split; [|apply IH]. unfold member_report. destruct (_ =? _); by repeat constructor.
Qed.

Lemma program_report_printfs b e seg pre ph post : printfs (program_report b e seg pre ph post).
Proof using.
  pose proof (header_report_printfs pre) as H1'. pose proof (header_report_printfs [ph]) as H2'.
  pose proof (header_report_printfs post) as H3'. unfold printfs in *. cbn [mbind list_bind] in H2'. rewrite app_nil_r in H2'.
  unfold program_report. constructor; [done|]. rewrite !Forall_app. split_and!; try done; by repeat constructor.
Qed.

(** What the program leaves, from the state [s] on with [j] frames in use. *)
Definition buffer_at (j : Z) : Z := frame_addr (region pf) (j + 1) + sizeof_HeapNode.
Definition segment_at (j : Z) : Z := frame_addr (region pf) (j + 3 + Z.of_nat (pg_pages pg)) + 0x1000.
Definition disk_report (j : Z) : list event :=
  archive_report (pg_archive pg) (pg_members pg) ++ found_program ::
  program_report (buffer_at j) (ld64 m (pg_data pg + e_entry)) (segment_at j) (pg_pre pg) (pg_ph pg) (pg_post pg).

Lemma disk_report_printfs j : printfs (disk_report j).
Proof using.
  apply Forall_app. split; [apply archive_report_printfs|]. constructor; [done | apply program_report_printfs].
Qed.

(** Both stages, one after the other. *)
Lemma run_files root s :
  parts_up term m pf root s ->
  exists j gone m', let s' := with_mem (set_ramdiskInitialized true (printed s (disk_report j))) m' in
    bind (start_ramdisk fuel (answers m)) (fun _ => load_first_program fuel) s = Ok tt s' /\
    0 <= j <= 1 + table_budget (BootRun.boot_info m pf) /\
    ps_inv s' /\ pool s = gone ++ ps_pool s' /\
    bytes_at m' (buffer_at j) (Z.to_nat (pg_size pg)) = bytes_at m (pg_data pg) (Z.to_nat (pg_size pg)) /\
    elf_at m' (buffer_at j) (buffer_at j + pg_phoff pg) (pg_phdrs pg) /\
    same_on (off_heap (alloc_g s) (pool s)) (mem s) m' /\ same_on disk_byte m m'.
Proof using All.
  intros U. pose proof (pu_spaces _ _ _ _ _ U) as S.
  destruct (program_pages root s S) as (j & ps & Hj & Hpool).
  set (p := frame_addr (region pf) j) in *.
  set (run1 := page_run (frame_addr (region pf) (j + 1)) (Datatypes.S (Datatypes.S (pg_pages pg)))) in *.
  set (run2 := page_run (frame_addr (region pf) (j + 3 + Z.of_nat (pg_pages pg))) (Datatypes.S (Datatypes.S (pg_segment_pages pg)))) in *.
  destruct (run_ramdisk root s p (run1 ++ run2 ++ ps) U Hpool) as (m2 & R2 & D2 & P2 & M2).
  set (s2 := set_ramdiskInitialized true _) in *.
  assert (Hoff : forall x, disk_byte x -> off_heap (alloc_g s) (pool s) x)
    by (intros x; by apply (disk_off_heap root)).
  assert (Hm : same_on disk_byte m (mem s)) by (apply disk_kept, U).
  assert (Hm2 : same_on disk_byte m m2).
  { etransitivity; [exact Hm|]. eapply same_on_weaken; [exact M2|]. exact Hoff. }
  destruct (run_program s2 p (p + entry_size * n_files) (PAGE - entry_size * n_files)
    (frame_addr (region pf) (j + 1)) (frame_addr (region pf) (j + 3 + Z.of_nat (pg_pages pg))) ps D2 Hm2)
    as (m3 & R3 & I3 & P3 & B3 & E3 & M3).
  - intros x Hx. cbn [ps_pool frame_source_ok] in P2. rewrite P2, <- Hpool. by apply Hoff.
  - exact P2.
  - cbn [ps_pool frame_source_ok] in P2. rewrite P2 in M3. change (alloc_g s2) with (alloc_g s) in M3.
    change (mem s2) with m2 in M3. rewrite <- Hpool in M3.
    exists j, (p :: run1 ++ run2), m3. cbn zeta. fold (buffer_at j) (segment_at j) in *.
    assert (Hs' : forall l, with_mem (printed s2 l) m3 = with_mem (set_ramdiskInitialized true
        (printed s (archive_report (pg_archive pg) (pg_members pg) ++ l))) m3).
    { intros l. rewrite <- printed_app. reflexivity. }
    rewrite Hs' in *. unfold disk_report. split_and!; try done.
    + by erewrite bind_Ok by exact R2.
    + lia.
    + lia.
    + rewrite P3. cbn [app]. rewrite <- app_assoc. exact Hpool.
    + etransitivity; [exact M2 | exact M3].
    + etransitivity; [exact Hm2|]. eapply same_on_weaken; [exact M3|]. exact Hoff.
Qed.

(** The gates lie outside the heap. *)
Lemma idt_off_heap root s x : spaces m pf root s -> idt_byte x -> off_heap (alloc_g s) (pool s) x.
Proof using Hb Hp.
  intros S Hx. destruct (hp_idt Hp x Hx) as [X1 X2]. pose proof (bo_idt _ _ _ _ _ Hb x Hx) as X3.
  split_and!; [done | done | |].
  - cbn [ps_owned frame_source_ok]. intros Ho. apply X3. left. by rewrite <- (sp_alloc _ _ _ _ S).
  - intros q (j & Hj & ->)%(sp_pool _ _ _ _ _ S) Hq. apply X3. right. by exists j.
Qed.

(** C2. The whole run of [_kmain] with a RAM disk: on a bootable machine (in the sense of
    C1, the proviso on the allocator's region included) whose boot loader passed a tar archive with an x86-64 executable "a.out" - one loadable
    segment, sizes the heap serves from fresh pages - [_kmain] starts every part,
    registers the archive, copies the file unchanged into a buffer in the free
    frames behind the one of the file list, reports its headers, allocates a
    page-aligned segment in the frames after that and reaches its final loop with
    interrupts on, the gates and the clock in place, and the address space and the
    disk as they were. *)
Theorem kmain_loads_program s :
  mem s = m -> mcfgPtr (driver_g s) = 0 -> madtPtr (driver_g s) = 0 ->
  ramdiskInitialized (driver_g s) = false ->
  exists root j s' t, _kmain terminal stray date fuel s = Halt s' /\ IF s' = true /\
    0 <= j <= 1 + table_budget (BootRun.boot_info m pf) /\
    (* the program *)
    bytes_at (mem s') (buffer_at j) (Z.to_nat (pg_size pg)) = bytes_at m (pg_data pg) (Z.to_nat (pg_size pg)) /\
    elf_at (mem s') (buffer_at j) (buffer_at j + pg_phoff pg) (pg_phdrs pg) /\
    trace s' = rev (pci_report stray pf (mem t) ++ disk_report j) ++ trace t /\
    same_on (fun a => ~ boot_writes term m pf a) m (mem t) /\
    (* the kernel *)
    (forall h v, (h, v) ∈ idt_table ->
      gate_at (mem s') addr_idt v = Gate (handler_addr h) 0x08 0 IDT_GATE_INTERRUPT) /\
    ioapic_entry (ioAPIC (driver_g s')) (trace s') 0x20 = Some (RedirectionEntry 0x28 0 0 0 0 0 0 0 0 0) /\
    CR3 s' = root /\ tables_inv root s' /\
    (forall v, translate (mem s') root v = mapped_by (effective [] (default_requests (BootRun.boot_info m pf))) v) /\
    same_on disk_byte m (mem s').
Proof using All.
  intros Hs Hc Ha Hr. destruct (boot_parts stray date terminal term terminal_runs m pf fuel Hb s Hs Hc Ha Hr)
    as (root & s1 & t1 & R1 & U & T1 & _).
  pose proof (pu_spaces _ _ _ _ _ U) as S.
  destruct (run_files root s1 U) as (j & gone & m' & R2 & Hj & I & P & B & E & M & Hd).
  set (s2 := with_mem _ m') in *.
  destruct (spaces_translate root s1 s2 gone S eq_refl I P M) as [I' V].
  exists root, j, s2, (with_trace s1 t1). split.
  { unfold _kmain. erewrite bind_Ok by exact R1. cbv beta.
    rewrite <- (bind_assoc (start_ramdisk _ _) (fun _ => load_first_program fuel)). by erewrite bind_Ok by exact R2. }
  split_and!; try done.
  - exact (pu_IF _ _ _ _ _ U).
  - apply Hj.
  - apply Hj.
  - rewrite rev_app_distr, <- app_assoc. cbn [mem trace with_trace]. rewrite <- T1. reflexivity.
  - exact (pu_unwritten _ _ _ _ _ U).
  - intros h v Hh. rewrite <- (pu_gates _ _ _ _ _ U h v Hh). apply gate_same.
    eapply same_on_weaken; [exact M|]. intros x Hx. apply (idt_off_heap root); [done|]. left.
    pose proof (idt_vectors v (list_elem_of_fmap_2' snd _ (h, v) _ Hh eq_refl)). unfold in_gate, within in *. lia.
  - rewrite <- (pu_clock _ _ _ _ _ U). apply (ioapic_entry_printed _ s1), disk_report_printfs.
  - apply S.
  - intros v. rewrite V. apply (sp_map _ _ _ _ S).
Qed.
End Run.
