(* ===== verification/BootWitness.v ===== *)
(** A machine that [_kmain] starts: the boot loader's answers and the firmware's
    tables in the first megabyte, 64 MB of memory above 4 GiB, a frame buffer
    below 4 GiB. *)
From S2P Require Import Prelude Memory Machine PageSource FrameAlloc Heap Demo Bitfield PageWalk Paging.
From S2P Require Import AddressSpace MapRequests KernelSpace CString Ramdisk Acpi Apic Devices Interrupts.
From S2P Require Import InterruptSpec Pcie Gdt Boot BootSpec BootRun Program ProgramRun.

Definition sts (l : list (Z * Z)) (m : gmap Z Z) : gmap Z Z := foldr (fun p m => st m 8 p.1 p.2) m l.

Definition pc_mem : gmap Z Z :=
  sts [(framebuffer_request + off_response, 0x21000); (0x21000 + off_count, 1);
       (0x21000 + off_array, 0x21100); (0x21100, 0x21200);
       (0x21200 + off_fb_address, 0xffff8000fd000000); (0x21200 + off_fb_width, 320);
       (0x21200 + off_fb_height, 200); (0x21200 + off_fb_pitch, 1280); (0x21200 + off_fb_bpp, 32);
       (mm_request + off_response, 0x22000); (0x22000 + off_count, 2); (0x22000 + off_array, 0x22100);
       (0x22100, 0x22200); (0x22108, 0x22300);
       (0x22200, 0x1000); (0x22208, 0x9e000); (0x22210, 0);
       (0x22300, 0x100000000); (0x22308, 0x4000000); (0x22310, 0);
       (rsdp_request + off_response, 0x23000); (0x23000 + off_field1, 0x24000);
       (0x24000 + off_RsdtAddress, 0x25000);
       (hhdm_request + off_response, 0x28000); (0x28000 + off_field1, 0xffff800000000000);
       (ka_request + off_response, 0x29000); (0x29000 + off_physical_base, 0x7e000000);
       (0x29000 + off_virtual_base, 0xffffffff80000000);
       (kf_request + off_response, 0x2a000); (0x2a000 + off_field1, 0x2b000); (0x2b000 + off_file_size, 0x30000)]
  (write_bytes (write_bytes (write_bytes (write_bytes (mem gdt_machine)
    elfTargetFileName (a_out ++ [0]))
    0x25000 (sig_RSDT ++ le32 44 ++ repeat 0 28 ++ le32 0x26000 ++ le32 0x27000))
    0x26000 (madt_bytes 64 ([1; 12; 0; 0] ++ le32 io_base ++ le32 0)))
    0x27000 (sig_MCFG ++ le32 44 ++ repeat 0 36)).


Definition pc : platform :=
  Platform (Screen 0xffff8000fd000000 320 200 1280 32)
    [MemmapEntry 0x1000 0x9e000 0; MemmapEntry 0x100000000 0x4000000 0]
    [0x26000; 0x27000] [cpu_ic; Ic 1 12 io_base 0] [].
Definition pc_machine (m : gmap Z Z) : machine := with_mem (apic_machine ∅ 0) m.

(** What is not written: neither the interrupt table nor the region. *)
Definition quiet (x : Z) : bool :=
  negb ((0x10000 <=? x) && (x <? 0x11010)) && negb ((0x100000000 <=? x) && (x <? 0x105000000)).

(** Room for a module and the boot loader's answer about it. *)
Definition module_room (x : Z) : bool :=
  ((0x60000 <=? x) && (x <? 0x70000)) ||
  ((module_request + off_response <=? x) && (x <? module_request + off_response + 8)).
Definition plain (x : Z) : bool := quiet x && negb (module_room x).

Definition all_bytes (q : Z -> bool) (n : nat) (a : Z) : bool :=
  forallb (fun i => q (a + Z.of_nat i)) (seq 0 n).

Lemma all_bytes_spec q n a x : all_bytes q n a = true -> within x a (Z.of_nat n) -> q x = true.
Proof.
  unfold all_bytes. rewrite forallb_forall. intros Hq Hx. unfold within in Hx.
  replace x with (a + Z.of_nat (Z.to_nat (x - a))) by lia. apply Hq, in_seq. lia.
Qed.

Lemma kept_ld q m m' (Hm : same_on (fun x => q x = true) m m') n a :
  all_bytes q n a = true -> ld m' n a = ld m n a.
Proof. intros Hq. apply (same_on_ld _ _ _ _ _ Hm). intros x. by apply all_bytes_spec. Qed.
Lemma kept_bytes q m m' (Hm : same_on (fun x => q x = true) m m') n a :
  all_bytes q n a = true -> bytes_at m' a n = bytes_at m a n.
Proof.
  intros Hq. apply bytes_at_ext. intros i Hi. apply Hm, (all_bytes_spec q n a); [done|].
  unfold within. lia.
Qed.

(** Evaluates reads of the memory [m'] at literal addresses. *)
Ltac kept Hm := repeat match goal with
  | |- context [ld ?m ?n ?a] =>
      is_var m; lazymatch a with context [m] => fail | _ => idtac end;
      rewrite (kept_ld _ _ m Hm n a) by (vm_compute; reflexivity)
  | |- context [bytes_at ?m ?a ?n] =>
      is_var m; lazymatch a with context [m] => fail | _ => idtac end;
      rewrite (kept_bytes _ _ m Hm n a) by (vm_compute; reflexivity)
  end.
Ltac literal t := let v := eval vm_compute in t in replace t with v by (vm_compute; reflexivity).

Definition no_terminal (x : Z) : Prop := False.

Lemma pc_region : region pc = AllocGlobals 0x100000000 0x4000000.
Proof. by vm_compute. Qed.
Lemma pc_frames : nframes (region pc) = 16384.
Proof. by vm_compute. Qed.
Lemma pc_base : frames_base (region pc) = 0x100040000.
Proof. by vm_compute. Qed.
Lemma pc_region_byte a : region_byte pc a -> 0x100000000 <= a < 0x105000000.
Proof.
  unfold region_byte, frame_addr, page_bytes, table_bytes, within. rewrite pc_frames, pc_base, pc_region.
  cbn [FrameList]. unfold sizeof_Page. intros [Ha|(j & Hj & Ha)]; lia.
Qed.
Lemma pc_idt_byte a : idt_byte a -> 0x10000 <= a < 0x11010.
Proof. unfold idt_byte, within. cbn. lia. Qed.

(** A memory that is [pc_mem] outside the room for a module. *)
Section Pc.
Context (m0 : gmap Z Z) (Hm0 : same_on (fun x => plain x = true) pc_mem m0).

(** Evaluates [t], which reads [m0]. *)
Ltac settled t :=
  match eval pattern m0 in t with ?f _ =>
    let v := eval vm_compute in (f pc_mem) in
    replace t with v by (
      unfold boot_info, screen_bytes, root_table, madt, mcfg, answers, answered, field_of, array_of, resp, last_with, signature;
      cbn [fb mmap rsdp ka_phys_base ka_virt_base hhdm_base kernelSize efiSystemTable foldl pf_tables pc];
      kept Hm0; vm_compute; reflexivity)
  end.

Lemma pc_info : boot_info m0 pc =
  PagingInfo (pf_map pc) 0xffff800000000000 0x30000 0x7e000000 0xffffffff80000000 0xffff8000fd000000 2052096.
Proof using Hm0. settled (boot_info m0 pc). reflexivity. Qed.

Lemma pc_scribbled a : ~ scribbled (boot_info m0 pc) a.
Proof using Hm0.
  rewrite pc_info. intros [Ha (e & j & He & _ & Hj & Hja)]. cbn [info_mmap pf_map pc] in He.
  apply elem_of_cons in He as [->| ->%list_elem_of_singleton]; cbn [entry_base entry_length] in Hj; lia.
Qed.

Lemma pc_writes a : boot_writes no_terminal m0 pc a -> quiet a = false.
Proof using Hm0.
  unfold quiet. intros [[]|[Ha%pc_region_byte|[Ha%pc_scribbled|Ha%pc_idt_byte]]]; [|done|];
    destruct (Z.leb_spec 0x10000 a), (Z.ltb_spec a 0x11010), (Z.leb_spec 0x100000000 a),
      (Z.ltb_spec a 0x105000000); (done || lia).
Qed.
Lemma pc_plain m' : same_on (fun a => ~ boot_writes no_terminal m0 pc a) m0 m' ->
  same_on (fun x => plain x = true) pc_mem m'.
Proof using Hm0.
  intros Hm. etransitivity; [exact Hm0|]. eapply same_on_weaken; [exact Hm|]. cbn.
  intros a [Ha _]%andb_prop Hw%pc_writes. congruence.
Qed.

#[local] Notation steady := (stable no_terminal m0 pc).

Lemma pc_screen : steady (fun m' => screen_at m' (rs_array (fb (answers m0))) (pf_screen pc)).
Proof using Hm0.
  intros m' Hm%pc_plain. settled (rs_array (fb (answers m0))). unfold screen_at. cbv zeta.
  rewrite (kept_ld _ _ m' Hm 8 0x21100) by (vm_compute; reflexivity). literal (ld64 pc_mem 0x21100).
  kept Hm. vm_compute. split_and!; (done || congruence).
Qed.

Lemma pc_mmap : steady (fun m' => mmap_at m' (rs_array (mmap (answers m0))) (pf_map pc)).
Proof using Hm0.
  intros m' Hm%pc_plain. settled (rs_array (mmap (answers m0))). cbn [mmap_at pf_map pc].
  rewrite (kept_ld _ _ m' Hm 8 0x22100) by (vm_compute; reflexivity). literal (ld64 pc_mem 0x22100).
  rewrite (kept_ld _ _ m' Hm 8 (0x22100 + 8)) by (vm_compute; reflexivity). literal (ld64 pc_mem (0x22100 + 8)).
  kept Hm. vm_compute. split_and!; (done || congruence).
Qed.

Lemma pc_rsdt : steady (fun m' =>
    ld m' 4 (rsdp (answers m0) + off_RsdtAddress) = root_table m0 /\
    signature m' (root_table m0) = sig_RSDT /\ rsdt_at m' (root_table m0) (pf_tables pc) /\
    last_with m' sig_APIC (pf_tables pc) 0 = madt m0 pc /\
    last_with m' sig_MCFG (pf_tables pc) 0 = mcfg m0 pc).
Proof using Hm0.
  intros m' Hm%pc_plain. settled (rsdp (answers m0)). settled (root_table m0). settled (madt m0 pc). settled (mcfg m0 pc).
  unfold last_with, signature. cbn [foldl pf_tables pc]. kept Hm.
  split; [by vm_compute|]. split; [by vm_compute|]. split; [|split; by vm_compute].
  split.
  - lia.
  - cbn. lia.
  - kept Hm. by vm_compute.
  - intros i h Hi. destruct i as [|[|i]]; [| |done]; injection Hi as <-; cbn [Z.of_nat Pos.of_succ_nat];
      kept Hm; (split; [by vm_compute | lia]).
Qed.

Lemma pc_madt : steady (fun m' => madt_at m' (madt m0 pc) (pf_controllers pc) 0).
Proof using Hm0.
  intros m' Hm%pc_plain. settled (madt m0 pc). split.
  - lia.
  - kept Hm. by vm_compute.
  - cbn [ics_at pf_controllers pc cpu_ic ic_len]. kept Hm.
    split_and!; try (by vm_compute); try (vm_compute; congruence).
  - lia.
  - by vm_compute.
Qed.

Lemma pc_mcfg : steady (fun m' => mcfg_at (fun _ _ => 0) m' (mcfg m0 pc) (pf_pci pc)).
Proof using Hm0.
  intros m' Hm%pc_plain. settled (mcfg m0 pc). split.
  - lia.
  - by vm_compute.
  - exists 0. split; [lia|]. kept Hm. by vm_compute.
  - intros [|i] e Hi; done.
Qed.

Lemma pc_gdt : steady (fun m' => gdt_image m').
Proof using Hm0. intros m' Hm%pc_plain. split; kept Hm; by vm_compute. Qed.
Lemma pc_heap : steady (fun m' => heap_at m' []).
Proof using Hm0. intros m' Hm%pc_plain. unfold heap_at. cbn [chain]. kept Hm. by vm_compute. Qed.

Lemma pc_layout : default_layout (boot_info m0 pc).
Proof using Hm0.
  rewrite pc_info.
  split; cbn [info_mmap info_hhdm_base info_kernelSize info_kernelPhysBase info_kernelVirtBase info_fbBase info_fbSize];
    [pows; lia..| |pows; lia|pows; lia].
  intros e He. apply elem_of_cons in He as [->| ->%list_elem_of_singleton];
    cbn [entry_base entry_length]; pows; lia.
Qed.
Lemma pc_fuel : fuel_ok (boot_info m0 pc) (Z.to_nat 1000000).
Proof using Hm0.
  rewrite pc_info. split; rewrite Z2Nat.id by done; cbn [info_mmap info_kernelSize info_fbSize]; try lia.
  intros e He. apply elem_of_cons in He as [->| ->%list_elem_of_singleton]; cbn; lia.
Qed.

Lemma pc_bootable : bootable (fun _ _ => 0) no_terminal m0 pc (Z.to_nat 1000000).
Proof using Hm0.
  split.
  1-5: unfold answered; match goal with |- resp _ ?r = 0 \/ _ => settled (resp m0 r) end;
    first [right; vm_compute; congruence | left; vm_compute; reflexivity].
  { settled (resp m0 hhdm_request). vm_compute; congruence. }
  { settled (resp m0 kf_request). settled (field_of m0 kf_request off_field1). split; vm_compute; congruence. }
  { exact pc_screen. }
  { exact pc_mmap. }
  { settled (rs_count (mmap (answers m0))). by vm_compute. }
  { settled (rsdp (answers m0)). vm_compute; congruence. }
  { exact pc_rsdt. }
  { exact pc_madt. }
  { settled (madt m0 pc). intros x Hx Hi%pc_idt_byte. unfold madt_bytes_of, within in Hx. cbn in Hx. lia. }
  { split; [repeat constructor; vm_compute; congruence|].
    intros Hn. inversion_clear Hn as [|? ? _ Hn']. inversion_clear Hn' as [|? ? Hc _]. by apply Hc. }
  { exact pc_mcfg. }
  { exact pc_gdt. }
  { exact pc_heap. }
  { intros a Ha%pc_idt_byte Hr%pc_region_byte. lia. }
  { intros a Ha Hr%pc_region_byte. unfold within in Ha. cbn in Ha. lia. }
  { split; [by vm_compute|]. split; vm_compute; congruence. }
  { rewrite pc_frames. intros j Hj. unfold frame_addr. rewrite pc_base. change (2 ^ 40) with 1099511627776. lia. }
  { exact pc_layout. }
  { intros a Ha%pc_scribbled. done. }
  { rewrite pc_frames, pc_info. vm_compute. congruence. }
  { exact pc_fuel. }
  { rewrite <- Nat2Z.inj_lt || apply Nat2Z.inj_lt. rewrite Z2Nat.id by done. by vm_compute. }
Qed.

End Pc.

Lemma kmain_boots_witness :
  exists root s', _kmain (fun _ _ _ _ => ret tt) (fun _ _ => 0) "now" (Z.to_nat 1000000) (pc_machine pc_mem) = Halt s' /\
    IF s' = true /\ CR3 s' = root /\ heap_inv s' [] /\
    translate (mem s') root 0xffff800000abcdef = Some (Xlat 0xabcdef true false).
Proof.
  destruct (kmain_boots (fun _ _ => 0) "now" (fun _ _ _ _ => ret tt) no_terminal) with
    (m := pc_mem) (pf := pc) (fuel := Z.to_nat 1000000) (s := pc_machine pc_mem)
    as (root & s' & t & R & I & _ & _ & _ & _ & _ & C & _ & _ & D & _ & _ & _ & _ & Hh & _).
  - intros _ _ _ _ s. exists (mem s), (trace s). split; [by destruct s | done].
  - by apply pc_bootable.
  - reflexivity.
  - reflexivity.
  - reflexivity.
  - reflexivity.
  - vm_compute. reflexivity.
  - exists root, s'. split; [exact R|]. split; [exact I|]. split; [exact C|]. split; [exact Hh|].
    assert (Hhh : hhdm_base (answers pc_mem) = 0xffff800000000000) by (vm_compute; reflexivity).
    rewrite Hhh in D. exact (D 0xabcdef ltac:(vm_compute; split; congruence)).
Defined.
