(* ===== verification/ProgramWitness.v ===== *)
(** A RAM disk for the machine of [BootWitness]: an archive of one member, the
    executable "a.out" of 4080 bytes with a note, a segment of 64 bytes and an empty
    header, at 0x61000. *)
From S2P Require Import Prelude Memory Machine PageSource FrameAlloc Heap Demo HeapSpec Bitfield PageWalk Paging.
From S2P Require Import AddressSpace MapRequests KernelSpace CString Ramdisk RamdiskWitness Acpi Apic Devices Interrupts.
From S2P Require Import InterruptSpec Pcie Gdt Boot BootSpec ElfSpec BootRun Program ProgramRun BootWitness.

Definition module_at : Z := 0x61000.
Definition pc_program : program := {|
  pg_archive := module_at; pg_members := [Member a_out 4080];
  pg_size := 4080; pg_data := module_at + 512; pg_phoff := 64;
  pg_pre := [Phdr 4 8 8]; pg_ph := Phdr 1 40 64; pg_post := [Phdr 6 0 0];
  pg_pages := 0; pg_segment_pages := 1;
|}.

(** The boot loader's answer, the header of the member and its data. *)
Definition disk_mem : gmap Z Z :=
  sts [(module_request + off_response, 0x60000); (0x60000 + off_array, 0x60100); (0x60100, 0x60200);
       (0x60200 + off_file_address, module_at)]
  (write_bytes (write_bytes (write_bytes pc_mem
    module_at a_out)
    (module_at + off_size) (oct_digits 4080))
    (module_at + 512) (elf_image demo_phs)).

Lemma plain_not_room x : plain x = true -> module_room x = false.
Proof. unfold plain. intros [_ Hx]%andb_prop. by destruct (module_room x). Qed.

Lemma room_st m n a v :
  all_bytes module_room n a = true -> same_on (fun x => plain x = true) m (st m n a v).
Proof.
  intros Ha. apply same_on_st. intros x Hx Hw%(all_bytes_spec _ _ _ _ Ha). apply plain_not_room in Hx. congruence.
Qed.
Lemma room_write m a l :
  all_bytes module_room (length l) a = true -> same_on (fun x => plain x = true) m (write_bytes m a l).
Proof.
  intros Ha x Hx. apply rd_write_bytes_ne. intros Hw%(all_bytes_spec _ _ _ _ Ha). apply plain_not_room in Hx. congruence.
Qed.

Lemma disk_mem_plain : same_on (fun x => plain x = true) pc_mem disk_mem.
Proof.
  unfold disk_mem, sts. cbn [foldr fst snd].
  do 4 (etransitivity; [|apply room_st; by vm_compute]).
  do 3 (etransitivity; [|apply room_write; by vm_compute]). reflexivity.
Qed.

#[local] Opaque disk_mem.

Lemma disk_quiet m' :
  same_on (fun a => ~ boot_writes no_terminal disk_mem pc a) disk_mem m' -> same_on (fun x => quiet x = true) disk_mem m'.
Proof.
  intros Hm. eapply same_on_weaken; [exact Hm|]. cbn.
  intros a Ha Hw%(pc_writes _ disk_mem_plain). congruence.
Qed.

Lemma disk_file : stable no_terminal disk_mem pc (fun m' =>
  let array := ld64 m' (resp disk_mem module_request + off_array) in
  PAGE <= array /\ PAGE <= ld64 m' array /\ ld64 m' (ld64 m' array + off_file_address) = pg_archive pc_program).
Proof.
  intros m' Hm%disk_quiet. literal (resp disk_mem module_request). cbv zeta.
  rewrite (kept_ld _ _ m' Hm 8 (393216 + off_array)) by (vm_compute; reflexivity). literal (ld64 disk_mem (393216 + off_array)).
  rewrite (kept_ld _ _ m' Hm 8 393472) by (vm_compute; reflexivity). literal (ld64 disk_mem 393472).
  kept Hm. vm_compute. split_and!; (done || congruence).
Qed.

Lemma disk_list : stable no_terminal disk_mem pc (fun m' => ld64 m' (addr_filehead + off_fnext) = 0).
Proof. intros m' Hm%disk_quiet. kept Hm. by vm_compute. Qed.

Lemma disk_byte_range x : disk_byte pc_program x -> 0x20800 <= x < 0x62300.
Proof.
  assert (Ht : total (pg_members pc_program) + 1 = 4609) by by vm_compute.
  unfold disk_byte. rewrite Ht. unfold within. cbn [pg_archive pc_program elfTargetFileName demo_boot]. unfold module_at. lia.
Qed.
Lemma disk_byte_quiet x : disk_byte pc_program x -> quiet x = true.
Proof.
  intros Hx%disk_byte_range. unfold quiet.
  destruct (Z.leb_spec 0x10000 x), (Z.ltb_spec x 0x11010), (Z.leb_spec 0x100000000 x),
    (Z.ltb_spec x 0x105000000); (done || lia).
Qed.

Lemma disk_archive : archive disk_mem module_at [Member a_out 4080].
Proof.
  cbn [archive mb_path mb_size]. split_and!; try (by vm_compute).
  all: unfold member_ok; cbn; split_and!; done || lia.
Qed.

Lemma disk_elf : elf_file disk_mem (module_at + 512) 4080 64 demo_phs.
Proof.
  split.
  1-4: by vm_compute.
  - vm_compute. split_and!; congruence.
  - intros [|[|[|i]]] ph Hi; [.. | done]; injection Hi as <-; split; by vm_compute.
Qed.

Lemma pc_has_program : has_program no_terminal disk_mem pc pc_program (Z.to_nat 1000000).
Proof.
  split.
  - vm_compute; congruence.
  - exact disk_file.
  - split; [exact disk_archive|]. split; [done|]. split; vm_compute; congruence.
  - by vm_compute.
  - exact disk_list.
  - intros x Hx. pose proof (disk_byte_range x Hx). split; [|unfold within; cbn; foffs; lia].
    intros Hw%(pc_writes _ disk_mem_plain). apply disk_byte_quiet in Hx. congruence.
  - intros x Hx Hr%pc_region_byte. unfold within in Hx. cbn in Hx. lia.
  - intros x Hx%pc_idt_byte. unfold within. cbn. foffs. lia.
  - by vm_compute.
  - exact disk_elf.
  - split; [done|]. split; repeat constructor; intros [=].
  - vm_compute; congruence.
  - split; [split; vm_compute; split_and?; congruence|]. by left.
  - split; [done|]. split; [split; vm_compute; split_and?; congruence | vm_compute; congruence].
  - rewrite pc_frames, (pc_info _ disk_mem_plain). vm_compute. congruence.
  - apply Nat2Z.inj_le. rewrite Z2Nat.id by done. by vm_compute.
Qed.

Lemma kmain_loads_program_witness :
  exists root j s', _kmain (fun _ _ _ _ => ret tt) (fun _ _ => 0) "now" (Z.to_nat 1000000) (pc_machine disk_mem) = Halt s' /\
    elf_at (mem s') (buffer_at pc j) (buffer_at pc j + 64) demo_phs /\
    CR3 s' = root /\ tables_inv root s'.
Proof.
  destruct (kmain_loads_program (fun _ _ => 0) "now" (fun _ _ _ _ => ret tt) no_terminal) with
    (m := disk_mem) (pf := pc) (pg := pc_program) (fuel := Z.to_nat 1000000) (s := pc_machine disk_mem)
    as (root & j & s' & t & R & _ & _ & _ & E & _ & _ & _ & _ & C & I & _).
  - intros _ _ _ _ s. exists (mem s), (trace s). split; [by destruct s | done].
  - exact (pc_bootable _ disk_mem_plain).
  - exact pc_has_program.
  - reflexivity.
  - reflexivity.
  - reflexivity.
  - reflexivity.
  - exists root, j, s'. split; [exact R|]. split; [exact E|]. split; [exact C | exact I].
Defined.
