(* ===== verification/Idle.v ===== *)
(** After [_kmain]: the kernel that booted without a program waits for interrupts and
    serves whatever sequence of them arrives, from the state the boot left. *)
From S2P Require Import Prelude Memory Machine Bitfield PageSource FrameAlloc Heap Demo PageWalk Paging PagingSpec.
From S2P Require Import AddressSpace MapRequests KernelSpace CString Scheduler SchedulerSpec RoundRobin SchedWitness.
From S2P Require Import Ramdisk Acpi Apic Devices Interrupts Stubs InterruptSpec Handlers Service Pcie Gdt Boot BootSpec BootRun.
From S2P Require Import Program ProgramRun BootWitness.

(** With no process a tick changes nothing. *)
Lemma run_ticks_idle c cs : run_ticks ([], None, c) cs = ([], None, default c (last cs)).
Proof.
  induction cs as [|d cs IH] using rev_ind; [done|]. unfold run_ticks in *.
  rewrite foldl_snoc, IH, last_snoc. done.
Qed.

(** What an interrupt of the idle kernel returns to: the processor it interrupted, but
    for the caller-saved registers that the calls of the stub leave changed. *)
Definition resumed (i : interrupt) : option cpu :=
  match i with
  | Timer _ x c => Some (entered x c)
  | Key => None
  | Syscall _ x1 _ x3 c => Some (syscalled x1 x3 c)
  end.

Definition interrupted (i : interrupt) : option cpu :=
  match i with
  | Timer _ _ c => Some c
  | Key => None
  | Syscall _ _ _ _ c => Some c
  end.

(** The instruction, the flags, the stack and the registers that calls preserve are
    those of the interrupted program. *)
Lemma resumed_flow l : Forall2 (option_Forall2 same_flow) (interrupted <$> l) (resumed <$> l).
Proof.
  apply Forall2_fmap, Forall_Forall2_diag, Forall_true. intros [stack x c| |stack x1 x2 x3 c].
  - apply Some_Forall2, entered_flow.
  - constructor.
  - apply Some_Forall2, syscalled_flow.
Qed.

Lemma returns_idle l : returns ([], None) l = contexts (resumed <$> l).
Proof.
  induction l as [|i l IH]; [done|]. cbn [returns]. unfold contexts in *. rewrite !fmap_cons, <- IH.
  destruct i; reflexivity.
Qed.

Lemma resumed_ok addrs l `{Statics} : Forall (interrupt_ok addrs) l -> Forall (from_option cpu_ok True) (resumed <$> l).
Proof.
  intros Hl. apply Forall_fmap. eapply Forall_impl; [exact Hl|]. intros [stack x c| |stack x1 x2 x3 c] Hi; [| done |].
  - destruct Hi as (_ & Hx & Hc). by apply entered_ok.
  - destruct Hi as (_ & Hx & Hx3 & Hc). by apply syscalled_ok.
Qed.

Lemma contexts_inj outs outs' :
  Forall (from_option cpu_ok True) outs -> Forall (from_option cpu_ok True) outs' ->
  contexts outs = contexts outs' -> outs = outs'.
Proof.
  intros Ho. revert outs'. induction Ho as [|o outs Ho Hos IH]; intros [|o' outs'] Ho' E; try done.
  apply Forall_cons in Ho' as [Ho' Hos']. unfold contexts in E. rewrite !fmap_cons in E.
  injection E as E1 E2. f_equal; [|by apply IH].
  destruct o as [c|], o' as [c'|]; try done. f_equal. apply context_inj; [done..|]. exact (Some_inj _ _ E1).
Qed.

(** The bytes an interrupt's stub pushes. *)
Definition stack_byte (i : interrupt) (x : Z) : Prop :=
  match i with
  | Timer stack _ _ => within x stack sizeof_Registers
  | Key => False
  | Syscall stack _ _ _ _ => within x stack 96
  end.

Section Idle.
Context `{BootStaticsOk} `{SO : StaticsOk} `{IdtStaticsOk} `{GdtStatics}.
Context (stray : Z -> Z -> Z) (date : string).
Context (terminal : Z -> Z -> Z -> Z -> M unit) (term : Z -> Prop).
Hypothesis terminal_runs : forall a w h p s, exists m t,
  terminal a w h p s = Ok tt (with_trace (with_mem s m) t) /\ same_on (fun x => ~ term x) (mem s) m.
Context (m : gmap Z Z) (pf : platform) (fuel : nat) (Hb : bootable stray term m pf fuel).
Context (lapic : Z) (l : list interrupt).

(** The kernel image has an empty process list, the local APIC is somewhere, and
    the interrupted code's stacks are its own. *)
Record idle_ready : Prop := {
  id_list : stable term m pf (fun m' => ld64 m' (addr_prochead + off_next) = 0);
  id_lapic : stable term m pf (fun m' => ld m' 4 (madt m pf + off_LAPICBase) = lapic) /\ PAGE <= lapic;
  id_prochead x : within x addr_prochead sizeof_ProcessFrame -> ~ region_byte pf x;
  id_ok : Forall (interrupt_ok []) l;
  id_stacks i x : i ∈ l -> stack_byte i x -> ~ region_byte pf x /\ ~ within x addr_head 16;
}.
Hypothesis Hidle : idle_ready.

(** Any place behind the list's head will do for [sched_inv]. *)
#[local] Notation aside := (addr_prochead + sizeof_ProcessFrame).

Lemma idle_sched s1 :
  same_on (fun a => ~ boot_writes term m pf a) m (mem s1) -> current (sched_g s1) = 0 ->
  sched_inv aside s1 [] None.
Proof using SO Hidle.
  intros U Hc. split; cbn [queue].
  - by apply (id_list Hidle).
  - constructor.
  - constructor.
  - by intros ? ? ?%not_elem_of_nil.
  - by intros ? ?%not_elem_of_nil.
  - pose proof prochead_page. unfold apart. offs. lia.
  - by left.
Qed.

(** Serving leaves memory management alone. *)
Lemma idle_spares i x : i ∈ l -> service_byte [] i x -> ~ region_byte pf x /\ ~ within x addr_head 16.
Proof using SO Hidle.
  intros Hi. destruct i as [stack y c| |]; [|done | by apply (id_stacks Hidle _ _ Hi)].
  intros [Hw|(a & ->%list_elem_of_singleton & Hw)].
  - by apply (id_stacks Hidle _ _ Hi).
  - split; [by apply (id_prochead Hidle)|]. pose proof head_prochead_apart. unfold apart, within in *. offs. lia.
Qed.

(** C3. Boot and service: [_kmain] on a bootable machine (in the sense of C1) without a
    RAM disk reaches its final loop with interrupts on, and from there any sequence of timer interrupts,
    keyboard interrupts and system calls is served to its end: every one is
    acknowledged once at the local APIC of the MADT, the text is that of the scan
    codes, and every timer interrupt and system call returns to the processor it
    interrupted - instruction, flags, stack pointer, and every register but the
    caller-saved ones that the stub's calls leave changed.  The kernel's
    address space stays loaded and translates as before, and the allocator, the
    tables and the heap stay well formed. *)
Theorem kmain_then_serves beyond s :
  mem s = m -> mcfgPtr (driver_g s) = 0 -> madtPtr (driver_g s) = 0 ->
  ramdiskInitialized (driver_g s) = false -> resp m module_request = 0 -> current (sched_g s) = 0 ->
  exists root s1, _kmain terminal stray date fuel s = Halt s1 /\ IF s1 = true /\ ports s1 = ports s /\
    forall codes, keyboard_sends codes s1 -> Forall (fun c => 0 <= c < 256) codes -> length codes = keys l ->
    exists s2 p, serve_all beyond fuel l s1 = Ok (resumed <$> l) s2 /\ trace s2 = p ++ trace s1 /\
      acks lapic p = length l /\ scans p = length codes /\
      (let '(shift, text) := press beyond (shiftpressed (driver_g s1)) codes in
       shiftpressed (driver_g s2) = shift /\ typed (trace s2) = typed (trace s1) ++ text) /\
      Forall2 (option_Forall2 same_flow) (interrupted <$> l) (resumed <$> l) /\
      CR3 s2 = root /\ tables_inv root s2 /\ (forall v, translate (mem s2) root v = translate (mem s1) root v) /\
      table_ok s2 /\ heap_inv s2 [].
Proof using All.
  intros Hs Hc Ha Hr Hmod Hcur.
  destruct (kmain_run stray date terminal term terminal_runs m pf fuel Hb s Hs Hc Ha Hr Hmod)
    as (root & s1 & t & R & U & _ & Q & O & m1 & U1 & L1).
  pose proof (pu_unwritten _ _ _ _ _ U) as W1. pose proof (pu_spaces _ _ _ _ _ U) as S1.
  destruct (id_lapic Hidle) as [Hlap Hpage]. rewrite (Hlap m1 U1) in L1.
  exists root, s1. split; [exact R|]. split; [apply U|]. split; [exact O|]. intros codes Hk Hcodes Hlen.
  destruct (serve_all_run beyond fuel aside l s1 [] None codes)
    as (s2 & p & outs & R2 & T2 & A2 & K2 & E2 & (I2 & _ & X2 & V2 & Q2) & G2 & L2 & P2 & _ & M2);
    [apply idle_sched; [done | by rewrite Q] | cbn; lia | apply Hidle | by rewrite L1 | done | done | lia |].
  rewrite run_ticks_idle in *. cbn [fst snd] in *. rewrite returns_idle in V2.
  apply contexts_inj in V2 as ->; [|exact Q2 | eapply resumed_ok, Hidle].
  assert (Mr : same_on (region_byte pf) (mem s1) (mem s2)).
  { eapply same_on_weaken; [exact M2|]. intros x Hx i Hi Hw. by destruct (idle_spares i x Hi Hw). }
  assert (Hroot : CR3 s2 = root).
  { rewrite X2, (sp_globals _ _ _ _ S1). destruct (last l) as [[]|]; [done..|]. apply S1. }
  assert (S2 : spaces m pf root s2)
    by (apply (spaces_stable m pf root s1); [done | done | done | by rewrite Hroot, (sp_cr3 _ _ _ _ S1) | done]).
  exists s2, p. rewrite L1 in A2. split_and!; try done.
  - by rewrite Hlen.
  - rewrite <- Hlen, firstn_all in E2. destruct (press _ _ _). by injection E2.
  - apply resumed_flow.
  - apply S2.
  - intros v. by rewrite (sp_map _ _ _ _ S2), (sp_map _ _ _ _ S1).
  - apply S2.
  - apply (heap_inv_keep s1); [by eapply boot_heap | apply S2 | done | |].
    + cbn [ps_pool frame_source_ok]. intros q Hq.
      destruct (table_stable s1 s2 (sp_table _ _ _ _ S1) G2) as [_ <-]; [|done].
      eapply same_on_weaken; [exact Mr|]. intros x Hx. left. by rewrite <- (sp_alloc _ _ _ _ S1).
    + eapply same_on_weaken; [exact M2|]. intros x [Hx|(b & Hb' & _)]; [|by apply not_elem_of_nil in Hb'].
      intros i Hi Hw. by destruct (idle_spares i x Hi Hw).
Qed.
End Idle.

(** The machine of [BootWitness], interrupted with its stack at 0x70000000. *)
Definition idle_cpu : cpu :=
  Cpu (Regs 1 2 3 4 5 6 7 8 9 10 11 12 13 14 15) (Frame 0xffffffff80001000 0x08 0x202 0x700000a0 0x10).
Definition idle_timer : interrupt := Timer 0x70000000 demo_scratch idle_cpu.
Definition idle_syscall : interrupt := Syscall 0x70000040 demo_scratch demo_scratch demo_scratch idle_cpu.
Definition idle_interrupts : list interrupt := [idle_timer; Key; idle_syscall; idle_timer].

Lemma idle_timer_ok : interrupt_ok [] idle_timer.
Proof.
  split; [|split; apply (bool_decide_unpack _); by vm_compute]. split; [lia|].
  intros a ->%list_elem_of_singleton. right. unfold sizeof_Registers. cbn. lia.
Qed.
Lemma idle_syscall_ok : interrupt_ok [] idle_syscall.
Proof.
  split; [|split_and!; apply (bool_decide_unpack _); by vm_compute]. split; [lia|].
  intros a ->%list_elem_of_singleton. right. cbn. lia.
Qed.

Lemma pc_idle : idle_ready no_terminal pc_mem pc 0xfee00000 idle_interrupts.
Proof.
  assert (Hpc : same_on (fun x => plain x = true) pc_mem pc_mem) by done.
  assert (Hmadt : madt pc_mem pc = 0x26000) by (vm_compute; reflexivity).
  split.
  - intros m' Hm%(pc_plain pc_mem Hpc). kept Hm. by vm_compute.
  - rewrite Hmadt. split; [|lia]. intros m' Hm%(pc_plain pc_mem Hpc). kept Hm. by vm_compute.
  - intros x Hx Hr%pc_region_byte. unfold within in Hx. cbn in Hx. lia.
  - repeat apply Forall_cons_2; [exact idle_timer_ok | done | exact idle_syscall_ok | exact idle_timer_ok | apply Forall_nil_2].
  - intros i x Hin Hx. assert (Hw : within x 0x70000000 160).
    { assert (Hall : Forall (fun i => forall x, stack_byte i x -> within x 0x70000000 160) idle_interrupts).
      { repeat apply Forall_cons_2; [intros y Hy; exact Hy | intros y [] | | intros y Hy; exact Hy | apply Forall_nil_2].
        intros y Hy. unfold stack_byte, idle_syscall in Hy. unfold within in *. lia. }
      rewrite Forall_forall in Hall. exact (Hall _ Hin x Hx). }
    unfold within in *. split; [intros Hr%pc_region_byte; lia | cbn; lia].
Qed.

Lemma kmain_then_serves_witness :
  exists s1 s2, _kmain (fun _ _ _ _ => ret tt) (fun _ _ => 0) "now" (Z.to_nat 1000000) (pc_machine pc_mem) = Halt s1 /\
    serve_all (fun _ _ => 0) (Z.to_nat 1000000) idle_interrupts s1 =
      Ok [Some (entered demo_scratch idle_cpu); None; Some (syscalled demo_scratch demo_scratch idle_cpu);
          Some (entered demo_scratch idle_cpu)] s2 /\
    heap_inv s2 [].
Proof.
  destruct (kmain_then_serves (fun _ _ => 0) "now" (fun _ _ _ _ => ret tt) no_terminal) with
    (m := pc_mem) (pf := pc) (fuel := Z.to_nat 1000000) (lapic := 0xfee00000) (l := idle_interrupts)
    (beyond := fun (_ : bool) (_ : Z) => 0) (s := pc_machine pc_mem)
    as (root & s1 & R & _ & O & Hserve).
  - intros _ _ _ _ s. exists (mem s), (trace s). split; [by destruct s | done].
  - by apply pc_bootable.
  - exact pc_idle.
  - reflexivity.
  - reflexivity.
  - reflexivity.
  - reflexivity.
  - vm_compute. reflexivity.
  - reflexivity.
  - destruct (Hserve [0]) as (s2 & p & R2 & _ & _ & _ & _ & _ & _ & _ & _ & _ & Hh).
    + intros q. rewrite O. cbn. by destruct (scans q) as [|[]].
    + repeat constructor; lia.
    + reflexivity.
    + exists s1, s2. split; [exact R|]. split; [exact R2 | exact Hh].
Defined.
