(* ===== verification/FirstTask.v ===== *)
(** The first task of a booted kernel: [_kmain], then [IntAddTask] on the empty heap
    it leaves, then the timer interrupt that starts the task. *)
From S2P Require Import Prelude Memory Machine Bitfield PageSource FrameAlloc Heap Demo PageWalk Paging PagingSpec.
From S2P Require Import AddressSpace MapRequests KernelSpace CString Scheduler SchedulerSpec RoundRobin SchedWitness Spawn.
From S2P Require Import Ramdisk Acpi Apic Devices Interrupts Stubs InterruptSpec Handlers Service Tasks Pcie Gdt Boot BootSpec.
From S2P Require Import BootRun Program ProgramRun BootWitness Idle.

(** ** A task on an empty heap *)

Section Empty.
Context `{StaticsOk} `{PSO : PageSourceOk}.

(** [malloc] takes its page first. *)
Lemma malloc_refilled fuel size s s1 :
  0 <= size -> size + sizeof_HeapNode < PAGE ->
  (forall fuel size, 0 <= size -> size + sizeof_HeapNode < PAGE ->
    FindAndRemoveNode (S fuel) size s = FindAndRemoveNode (S fuel) size s1) ->
  malloc (S fuel) size s = malloc (S fuel) size s1.
Proof using.
  intros Hs Hsm Hrun. unfold malloc, _alloc. replace (u64 (size + (1 - 1))) with size
    by (unfold sizeof_HeapNode in *; word). apply bind_eq. by apply Hrun.
Qed.

(** So does [IntAddTask], which begins by turning interrupts off. *)
Lemma IntAddTask_refilled fuel taskName start end_ kernel s s1 :
  IF s1 = false ->
  (forall fuel size, 0 <= size -> size + sizeof_HeapNode < PAGE ->
    FindAndRemoveNode (S fuel) size (with_IF s false) = FindAndRemoveNode (S fuel) size s1) ->
  IntAddTask (S fuel) taskName start end_ kernel s = IntAddTask (S fuel) taskName start end_ kernel s1.
Proof using.
  intros HIF Hrun. unfold IntAddTask. apply bind_eq. unfold spawn_frame.
  do 2 (erewrite bind_Ok by reflexivity; cbv beta; symmetry).
  replace (with_IF s1 false) with s1 by (destruct s1; cbn in HIF; by subst).
  apply bind_eq. apply malloc_refilled; [offs; lia | unfold sizeof_HeapNode; offs; lia | done].
Qed.
End Empty.

(** ** A task on the booted kernel *)

Section First.
Context `{BootStaticsOk} `{SO : StaticsOk} `{IdtStaticsOk} `{GdtStatics}.
Context (stray : Z -> Z -> Z) (date : string).
Context (terminal : Z -> Z -> Z -> Z -> M unit) (term : Z -> Prop).
Hypothesis terminal_runs : forall a w h p s, exists m t,
  terminal a w h p s = Ok tt (with_trace (with_mem s m) t) /\ same_on (fun x => ~ term x) (mem s) m.
Context (m : gmap Z Z) (pf : platform) (fuel : nat) (Hb : bootable stray term m pf fuel).
Context (lapic taskName start end_ stack : Z) (kernel : bool) (name : list Z) (xs : scratch) (cp : cpu).
Hypothesis Hidle : idle_ready term m pf lapic [Timer stack xs cp].

(** The name lies outside what the kernel writes; there is memory for the task. *)
Record task_ready : Prop := {
  tr_name : stable term m pf (fun m' => cstr m' taskName name);
  tr_short : (length name <= 31)%nat /\ PAGE <= taskName;
  tr_name_out x : within x taskName (Z.of_nat (length name) + 1) ->
    ~ region_byte pf x /\ ~ within x addr_head 16;
  tr_layout : layout_ok (boot_info m pf);
  tr_range : kernel = false -> program_range (boot_info m pf) fuel start end_;
  tr_pages : 3 + table_budget (boot_info m pf) + space_budget (boot_info m pf) kernel start end_ <=
    nframes (region pf);
}.
Hypothesis Htask : task_ready.

#[local] Notation aside := (addr_prochead + sizeof_ProcessFrame).

Lemma spaces_pool_byte root s x : spaces m pf root s -> pool_byte s x -> region_byte pf x.
Proof using.
  intros S [Ho|(q & Hq & Hx)]; cbn [ps_owned ps_pool frame_source_ok] in *.
  - left. by rewrite <- (sp_alloc _ _ _ _ S).
  - right. destruct (sp_pool _ _ _ _ _ S Hq) as (j & Hj & ->). by exists j.
Qed.

(** The kernel with its first heap page. *)
Lemma first_ready root s1 :
  parts_up term m pf root s1 -> current (sched_g s1) = 0 -> 0 <= highest_pid (sched_g s1) < 256 ->
  exists s0 p, IntAddTask fuel taskName start end_ kernel s1 = IntAddTask fuel taskName start end_ kernel s0 /\
    spawn_ready fuel aside taskName start end_ kernel s0 [] None [(p, PAGE)] (p, PAGE) [] name /\
    rd (mem s0) (p + sizeof_HeapNode + off_invalid) = 0 /\
    driver_g s0 = driver_g s1 /\ paging_g s0 = paging_g s1 /\
    (forall x, page_bytes p x -> region_byte pf x) /\ (forall x, pool_byte s0 x -> region_byte pf x).
Proof using All.
  intros U Hcur Hpid. pose proof (pu_spaces _ _ _ _ _ U) as S. pose proof (pu_unwritten _ _ _ _ _ U) as W.
  pose proof (boot_heap stray term m pf fuel Hb root s1 S W) as Hh.
  set (si := with_IF s1 false).
  assert (Si : spaces m pf root si) by (by apply (spaces_stable m pf root s1)).
  assert (Hhi : heap_inv si []) by exact (boot_heap stray term m pf fuel Hb root si Si W).
  destruct (sp_run _ _ _ _ S) as (j & Hj & Hpool).
  pose proof (tr_pages Htask) as Hpages.
  pose proof (space_budget_low _ kernel start end_ (tr_layout Htask)) as Hsb.
  assert (Hlen : Z.of_nat (length (pool s1)) = nframes (region pf) - j).
  { rewrite Hpool, length_fmap, length_seqZ. lia. }
  destruct (pool s1) as [|p ps] eqn:Hps.
  { cbn in Hlen. lia. }
  assert (Hpsi : ps_pool si = p :: ps).
  { cbn [ps_pool frame_source_ok]. destruct (table_stable s1 si) as [_ ->]; [apply S | done | done | done]. }
  destruct (refill_page si p ps Hhi Hpsi) as (s0 & Hh0 & Hp0 & G0 & M0 & Z0 & Hrun).
  assert (Hin : forall q, q ∈ p :: ps -> exists i, 0 <= i < nframes (region pf) /\ q = frame_addr (region pf) i).
  { intros q Hq. apply (sp_pool m pf root s1); [done|]. by rewrite Hps. }
  assert (Hpg : forall x, page_bytes p x -> region_byte pf x).
  { intros x Hx. right. destruct (Hin p ltac:(left)) as (i & Hi & ->). by exists i. }
  assert (Ha0 : alloc_g s0 = region pf) by (rewrite (same_regs_alloc _ _ G0); apply S).
  assert (Hpb : forall x, pool_byte s0 x -> region_byte pf x).
  { intros x [Ho|(q & Hq & Hx)]; [left; by rewrite <- Ha0|].
    rewrite Hp0 in Hq. right. destruct (Hin q ltac:(by right)) as (i & Hi & ->). by exists i. }
  assert (Hkeep : forall x, ~ region_byte pf x -> ~ within x addr_head 16 -> rd (mem s0) x = rd (mem s1) x).
  { intros x Hr Hw. apply (M0 x). split_and!; [done | by intros Hx%Hpg |]. intros Ho. apply Hr. left.
    rewrite <- (sp_alloc _ _ _ _ S). exact Ho. }
  assert (Hpk : p + PAGE <= KERNEL_BASE) by (apply (hi_low _ _ Hhi); rewrite Hpsi; left).
  assert (Hpp : PAGE <= p) by (pose proof (Forall_inv (hi_blocks _ _ Hh0)) as Hb1; apply Hb1).
  pose proof prochead_page as Hpr. pose proof prochead_range as [Hpk' _].
  assert (Hg : paging_g s0 = paging_g s1) by (by rewrite G0). assert (Hs0 : sched_g s0 = sched_g s1) by (by rewrite G0).
  assert (HG : GlobalPagingInfo (paging_g s1) = boot_info m pf) by (by rewrite (sp_globals _ _ _ _ S)).
  assert (Hhp : forall x, within x addr_prochead sizeof_ProcessFrame -> ~ within x addr_head 16).
  { intros x Hx Hw. pose proof head_prochead_apart. unfold apart, within in *. offs. lia. }
  exists s0, p. split_and!; [| |apply Z0; unfold within, sizeof_HeapNode; offs; lia | by rewrite G0 | done | done | done].
  { destruct fuel as [|f] eqn:Hf; [pose proof (fu_high _ _ (bo_fuel stray term m pf 0 Hb)); lia|].
    apply IntAddTask_refilled; [by rewrite G0 | exact Hrun]. }
  pose proof (bo_fuel stray term m pf fuel Hb) as [F1 F2 _ _].
  split; rewrite ?Hg, ?HG, ?Hs0; cbn [fst snd length].
  - split; cbn [queue]; try (by intros ? ? ?%not_elem_of_nil); try (by intros ? ?%not_elem_of_nil); try constructor.
    + rewrite (ld_ext (mem s1)); [by apply (id_list _ _ _ _ _ Hidle)|]. intros x Hx.
      assert (Hw : within x addr_prochead sizeof_ProcessFrame) by (unfold within in *; offs; lia).
      apply Hkeep; [by apply (id_prochead _ _ _ _ _ Hidle) | by apply Hhp].
    + offs. lia.
    + unfold apart. offs. lia.
    + by rewrite Hs0.
  - exact Hh0.
  - cbn [take_fit snd]. by rewrite (proj2 (Z.leb_le _ _)) by (unfold sizeof_HeapNode; offs; lia).
  - done.
  - by intros ? ?%not_elem_of_nil.
  - intros x Hx Ho. apply (id_prochead _ _ _ _ _ Hidle x Hx). left. by rewrite <- Ha0.
  - unfold apart, KERNEL_BASE in *. offs. lia.
  - split; [|apply Htask]. eapply cstr_ext; [|exact (tr_name Htask _ W)].
    intros x Hx. destruct (tr_name_out Htask x Hx). by apply Hkeep.
  - intros x Hx. destruct (tr_name_out Htask x Hx) as [Hr Hw]. split; [done|].
    intros b ->%list_elem_of_singleton Hb'. by apply Hr, Hpg.
  - apply Htask.
  - rewrite Hp0. intros q Hq. destruct (Hin q ltac:(by right)) as (i & Hi & ->). by apply (bo_low stray term m pf fuel Hb).
  - apply Htask.
  - rewrite Hp0. cbn in Hlen. lia.
  - split_and!; [lia | lia | exact F2].
  - split; [done | by intros ?%not_elem_of_nil].
Qed.

(** C4. From the boot loader to a task's first instruction: on a bootable machine (in the
    sense of C1) without a RAM disk [_kmain] reaches its final loop; a task that is then added - on the empty
    heap, with its name in the kernel image - is started by the next timer interrupt:
    the interrupt returns to the task's entry point, in kernel mode with interrupts
    enabled and a page of the region as stack, and leaves loaded an address space
    that translates what the task may see and nothing else.  The frame of the first
    task comes from a zeroed page, so it never counts as terminated. *)
Theorem first_task_runs beyond s :
  mem s = m -> mcfgPtr (driver_g s) = 0 -> madtPtr (driver_g s) = 0 ->
  ramdiskInitialized (driver_g s) = false -> resp m module_request = 0 ->
  current (sched_g s) = 0 -> 0 <= highest_pid (sched_g s) < 256 ->
  exists s1 s2 s3 new sp c3, _kmain terminal stray date fuel s = Halt s1 /\
    IntAddTask fuel taskName start end_ kernel s1 = Ok tt s2 /\
    serve beyond fuel (Timer stack xs cp) s2 = Ok (Some c3) s3 /\
    sched_inv stack s3 [new] (Some (pr_addr new)) /\ pr_quanta new = 9 /\
    returns_to c3 (u64 start) sp /\ bytes_at (mem s3) stack 160 = context_bytes c3 /\ IF s3 = true /\ region_byte pf sp /\ tables_inv (CR3 s3) s3 /\
    forall v, translate (mem s3) (CR3 s3) v = space_map (boot_info m pf) kernel start end_ v.
Proof using All.
  intros Hs Hc Ha Hr Hmod Hcur Hpid.
  destruct (kmain_run stray date terminal term terminal_runs m pf fuel Hb s Hs Hc Ha Hr Hmod)
    as (root & s1 & t & R & U & _ & Q & _ & m1 & U1 & L1).
  destruct (id_lapic _ _ _ _ _ Hidle) as [Hlap Hpage]. rewrite (Hlap m1 U1) in L1.
  destruct (first_ready root s1 U) as (s0 & p & R1 & Hready & Hz & D0 & G0 & Hpg & Hpb); [by rewrite Q..|].
  pose proof (Forall_inv (id_ok _ _ _ _ _ Hidle)) as ([Hst Hap] & Hctx).
  assert (Hoff : forall x, within x stack sizeof_Registers -> ~ region_byte pf x).
  { intros y Hy. by apply (id_stacks _ _ _ _ _ Hidle (Timer stack xs cp) y ltac:(left)). }
  destruct (new_task_start beyond fuel aside taskName s0 [] [(p, PAGE)] (p, PAGE) [] name start end_ kernel stack xs cp Hready)
    as (s2 & s3 & new & c3 & R2 & R3 & Hnew & B3 & Hend).
  - pose proof (fu_high _ _ (bo_fuel stray term m pf fuel Hb)). cbn. lia.
  - by rewrite D0, L1.
  - split; [|done]. split; [done|]. intros a [->|Hx%list_elem_of_singleton]%elem_of_cons; [apply Hap; left|].
    rewrite Hx. cbn [fst]. unfold apart.
    destruct (decide (p + sizeof_HeapNode + sizeof_ProcessFrame <= stack)); [by left|].
    destruct (decide (stack + sizeof_Registers <= p + sizeof_HeapNode)); [by right|].
    exfalso. apply (Hoff (Z.max stack (p + sizeof_HeapNode))); [|apply Hpg];
      unfold page_bytes, within, sizeof_Registers, sizeof_HeapNode in *; offs; lia.
  - intros y Hy Hp. by apply (Hoff y Hy), Hpb.
  - cbn [fst] in *. rewrite <- Hnew in Hz. rewrite Hz in Hend. destruct Hend as (I3 & F3 & (sp & Hsp & Hret) & T3 & X3).
    exists s1, s2, s3, (with_quanta 9 new), sp, c3. split; [exact R|]. split; [by rewrite R1|].
    split; [exact R3|]. split; [exact I3|]. split; [done|]. split; [exact Hret|]. split; [exact B3|]. split; [exact F3|]. split; [|split; [exact T3|]].
    + apply Hpb. right. exists sp. split; [done|]. unfold page_bytes, within. lia.
    + intros v. by rewrite X3, G0, (sp_globals _ _ _ _ (pu_spaces _ _ _ _ _ U)).
Qed.
End First.

Lemma pc_layout_ok : layout_ok (boot_info pc_mem pc).
Proof.
  rewrite (pc_info pc_mem) by done. set (g := PagingInfo _ _ _ _ _ _ _). split.
  1-3: vm_compute; split_and!; congruence.
  { vm_compute; split; congruence. }
  intros v. change (kernel_pages g) with 48. unfold in_window, page_off. cbn [info_kernelVirtBase info_hhdm_base g].
  change (page_len 0) with 4096. change (page_len 1) with (4096 * 512).
  change (2 ^ (36 - 9 * Z.of_nat 0)) with 68719476736.
  change (2 ^ (36 - 9 * Z.of_nat 1)) with 134217728.
  rewrite <- Z.div_div by lia. change (0 / (4096 * 512)) with 0.
  change (0xffffffff80000000 / 4096) with 0xffffffff80000.
  change (0xffff800000000000 / (4096 * 512)) with 0x7fffc000000.
  generalize (v / 4096). intros x. lia.
Qed.

(** The machine of [BootWitness] runs a kernel task at the start of the kernel image. *)
Lemma first_task_runs_witness :
  exists s1 s2 s3 sp c3, _kmain (fun _ _ _ _ => ret tt) (fun _ _ => 0) "now" (Z.to_nat 1000000) (pc_machine pc_mem) = Halt s1 /\
    IntAddTask (Z.to_nat 1000000) elfTargetFileName 0xffffffff80000000 0 true s1 = Ok tt s2 /\
    serve (fun _ _ => 0) (Z.to_nat 1000000) idle_timer s2 = Ok (Some c3) s3 /\
    returns_to c3 0xffffffff80000000 sp /\
    translate (mem s3) (CR3 s3) 0xffffffff80000000 = Some (Xlat 0x7e000000 true false).
Proof.
  assert (Hpc : same_on (fun x => plain x = true) pc_mem pc_mem) by done.
  pose proof (pc_info pc_mem Hpc) as Hinfo.
  destruct (first_task_runs (fun _ _ => 0) "now" (fun _ _ _ _ => ret tt) no_terminal) with
    (m := pc_mem) (pf := pc) (fuel := Z.to_nat 1000000) (lapic := 0xfee00000) (taskName := elfTargetFileName)
    (start := 0xffffffff80000000) (end_ := 0) (stack := 0x70000000) (kernel := true) (name := a_out) (xs := demo_scratch) (cp := idle_cpu)
    (beyond := fun (_ : bool) (_ : Z) => 0) (s := pc_machine pc_mem)
    as (s1 & s2 & s3 & new & sp & c3 & R1 & R2 & R3 & _ & _ & Hret & _ & _ & _ & _ & X3).
  - intros _ _ _ _ s. exists (mem s), (trace s). split; [by destruct s | done].
  - by apply pc_bootable.
  - destruct pc_idle as [I1 I2 I3 I4 I5].
    split; [exact I1 | exact I2 | exact I3 | apply Forall_singleton, (Forall_inv I4) |].
    intros i x Hin%list_elem_of_singleton. apply (I5 i). rewrite Hin. left.
  - split.
    + intros m' Hm%(pc_plain pc_mem Hpc). apply (cstr_ext pc_mem).
      * eapply same_on_weaken; [exact Hm|]. intros x. by apply (all_bytes_spec plain 6 elfTargetFileName).
      * vm_compute. split_and!; (done || congruence).
    + split; [cbn; lia | vm_compute; congruence].
    + intros x Hx. unfold within in *. cbn in Hx. split; [intros Hr%pc_region_byte; lia | cbn; lia].
    + exact pc_layout_ok.
    + done.
    + rewrite Hinfo, pc_frames. vm_compute. congruence.
  - reflexivity.
  - reflexivity.
  - reflexivity.
  - reflexivity.
  - vm_compute. reflexivity.
  - reflexivity.
  - cbn. lia.
  - exists s1, s2, s3, sp, c3. split; [exact R1|]. split; [exact R2|]. split; [exact R3|]. split; [exact Hret|].
    rewrite X3, Hinfo. vm_compute. reflexivity.
Defined.
